(* ===== verification/_CoqProject ===== *)
-Q . S2P
Prelude.v
CMem.v
CText.v
Inet.v
Inet6.v
Interfaces.v
CFloat.v
CRound.v
CScan.v
Rtt.v
UdpMsg.v
Hw2Addr.v
Hw2Client.v
Hw2Ring.v
Hw2Receiver.v
Hw2Server.v
Hw2Handshake.v
Hw2Config.v
Hw2Sender.v
Hw2System.v
Hw2Congestion.v
Hw2Complete.v
Hw2Timer.v
Hw2Live.v
Hw2Recover.v
OdrMsg.v
OdrTable.v
Odr.v
OdrProps.v
OdrTypes.v
OdrNet.v
OdrApp.v
OdrHop.v
OdrLine.v
Kdhw3.v
Arp.v
ArpProps.v
ArpLan.v
Checksum.v
SockText.v
Tour.v
TourProps.v
TourNet.v
TourPings.v
TourArp.v
SockLib.v
SockTable.v
Setups.v
Streams.v
EchoTime.v
EchoTimeProps.v
Display.v
