(* ===== verification/Prelude.v ===== *)
(** * NetworkProgramming: four sets of network programs and their library

    The repository holds four assignments in C on top of the library of
    Stevens' "UNIX Network Programming" (unpv13e):

    - Assignment1/code: an echo and time service over TCP with a threaded
      server, a front end that starts the clients, and the two clients;
    - hw2: a file transfer over UDP, with the sender's sliding window,
      retransmission and congestion control and the receiver's ring of buffers;
    - hw3: an on-demand router over raw frames, with flooding of requests, a
      routing table and payloads, and a time client and server above it;
    - hw4: an address resolution daemon with a cache, and a tour program that
      sends a packet along a list of hosts which ping their predecessors.

    The assignments share patterns rather than state: each is a set of
    processes that exchange datagrams, frames or streams.  A process is modelled
    by the record of its globals and one function per C function; processes are
    composed by handing the bytes one of them put out to another one.

    ** How the code is modelled

    An operation with effects is a computation of the monad [M S O] of this
    file: from a state it gives the outputs performed, in order, and how it
    ended: [Ret], [Exit] or [Fault], the last for undefined behaviour (an index
    outside its array, a copy past its destination, a null pointer, an
    arithmetic fault, a string without its end, the use of a variable that was
    never set).  Reads of the outside world (packets, times, names
    resolved, random numbers) are arguments, and so is what uninitialised memory
    held where the code reads it.  Integers are [Z]s with the
    conversions [u8], [u16], [u32] and [i32] written where the code makes them.
    Structures that travel are encoded to and decoded from bytes with their C
    layout on a 64-bit little-endian host.  The weakest-precondition lemmas
    [wp_*] (what an operation gives) and [wpo_*] (what holds of its outputs) and
    the [preserves_*] lemmas (what it leaves intact) carry the proofs.

    Foundations, not tied to one program:
    - CMem: byte arrays, C strings, <string.h>, packed integers;
    - CText: decimal text; CFloat: binary32 and binary64; CRound: what their
      roundings do to a value; CScan: the fscanf conversions %s, %d and %f;
    - Inet, Inet6: inet_pton and inet_ntop; SockText: sock_ntop, for every
      address family (unpv13e/libfree, lib);
    - Interfaces: get_ifi_info_plus (hw2) and get_hw_addrs (hw3, hw4);
    - Streams: readline, readn, writen (unpv13e/lib, threads);
    - Checksum: in_cksum (unpv13e/libfree);
    - SockLib: error.c, the wrappers the assignments call, host_serv, udp_client
      and the multicast options (unpv13e/lib), over a system given by the class
      [System]; SockTable: the class [Sockets] of a system's socket table, the
      logic [ends] for what holds of the table when a set-up is over, and an
      executable instance; Setups: how every main of the assignments opens its
      sockets, on top of both.

    hw2, file transfer:
    - Rtt: rtt.c; UdpMsg: the datagrams of common.c; Hw2Addr: the local
      addresses of common.c;
    - Hw2Client: client.c, state [client] = the ring, the number expected next
      and the end-of-file flag; [receive_turn] and [reader_turn] are one
      iteration of the two threads;
    - Hw2Server: server.c, state [server] = thread_config, the file position and
      the datagram; [burst] is send_file_data up to its wait and [ra_event] one
      event of receive_ack;
    - Hw2Ring, Hw2Receiver, Hw2Sender: what each end does; Hw2Ring relates the
      ring to the bounded queue [RecvQueue];
    - Hw2Config: client.in and server.in, the choice of the server's address and
      the server's loop over its sockets;
    - Hw2Handshake: the exchange of main; Hw2System: both ends and a network
      that loses, repeats and reorders, as the step relation [step];
    - Hw2Congestion: windows and time-outs, against the rule [Aimd];
    - Hw2Complete: a transfer to its end, as a function of the schedule;
    - Hw2Timer: the sender's timer in real time, with the jump of its handler;
    - Hw2Live: the invariant of the sender that keeps a transfer alive, and its
      operations from there on; Hw2Recover: the way to the end from any state.

    hw3, router:
    - OdrMsg, OdrTable: common.c (local messages, host names, routing table);
    - Odr: odr.c, state [odr], one function per handler; OdrProps, OdrNet: what
      handlers and networks of routers do; OdrTypes: the layout of everything a
      router puts out; OdrApp: client.c and server.c; OdrHop: one hop of each
      kind of frame; OdrLine: a line of any number of routers, by induction;
    - Kdhw3: the draft of the time client and server in hw3/kdhw3.

    hw4, address resolution and tour:
    - Arp, ArpProps: arp.c, state [arp] with the cache; ArpLan: the daemons of
      all the hosts of a network, and the interface [Resolver] with its contract
      [ResolverOk], which that network implements;
    - Tour: tour.c and the lookups of common.c, state [tour]; TourProps, TourNet:
      the route from node to node; TourPings: the pings; TourArp: the pinging
      thread on top of any [ResolverOk].

    Assignment1:
    - EchoTime, EchoTimeProps: the four programs.

    Display: the texts the programs print about their state.

    ** What is shown

    - Transfer (C1, C2, C3, C39, C40): at every moment of every run the client
      has printed a prefix of the file, in order and without repetition, and the
      server ends only when all has been accepted; from every state a run can be
      in before the sender has used up its retransmissions, the transfer can be
      brought to its end (C3; [Hw2Complete.transfer_completes] gives one schedule
      in full, in which all acknowledgements but the last are lost).  The
      three are about runs in which the server reads no acknowledgement beyond the
      number it waits for (the hypothesis [no_stale_ack]), which is needed: C40 is
      a run without it that prints a word twice.  C39 says when the client's last pass prints all
      that is left.
    - Windows and time-outs (C13, C14, C15, C22): bursts are limited by both windows,
      the congestion window over a whole call of [receive_ack] is that of slow
      start and additive increase, with every acknowledgement counted (the README
      has duplicates ignored, and one acknowledgement fewer for going back), and no
      wait lasts longer than the three seconds the timer may be set to; the timer's floating
      point never overflows an integer (C22).
    - Set-up of the transfer (C28 to C31): the configuration file is read back as
      it was written, requests are served one after the other, the two ends agree
      on file and port if the client's unset pointer does no harm, and a peer is matched with the longest mask.
    - Routing (C8, C9, C10, C17, C18, C20, C35): the table refines a
      map from addresses to routes and stays well formed in every run; each kind
      of frame is handled as stated (C9 and the theorems after it in OdrNet);
      floods die out: a router passes the copies of a request on only so often,
      counted in the frames it sends (C20); on a line of any length every request is answered and
      all distances are learnt (C10); everything put out has the layout its
      receiver reads, whatever the arrays of what came in hold (C17).
    - Address resolution (C6, C7, C19): on a network of hosts requests made one
      after the other are answered with the right address; the cache stays well
      formed as long as frames and requests name an address.
    - Tour (C4, C5, C21, C25 to C27): the tour visits its hosts in order and ends;
      every listed node is pinged, at its own hardware address; no node is listed
      twice; replies are timed; checksums.  tour.c declares the array [ips_to_ping]
      without a size, so the pointers that fit at its place are the parameter
      [room]: with fewer than twenty the start is a fault (C4 says both).
    - Services (C16, C36; a write that fails ends the thread by SIGPIPE) and
      library (C11, C12, C32 to C34, C37): lines are echoed
      exactly and the library's functions are what their names say, however the
      kernel cuts streams into reads and whichever of its calls fail.
    - Opening sockets (C23, C24, C38): past its set-up a node of the tour is a
      member of the group it sends to, the programs of one host find each other
      by path, and Assignment1's server listens where its clients connect to,
      each side with the constants of its own source file.

    ** Bounds and fuel

    Loops over arrays are structural.  The other loops take a number of
    iterations: [dec_loop] runs at most the number of binary digits;
    [update_expected_loop] at most once per buffer of the ring;
    [conf_loop] ends within two calls more than there are interfaces
    ([Interfaces.conf_len_complete]);
    [ifi_loop] advances in its buffer in each iteration; [echo_loop] runs once
    per line (C16 gives the number that is enough); [readline], [readn] and
    [writen] recur on the results of the system calls, [None] being a call that
    blocks.  [OdrNet.settle] delivers frames until none is
    left; C10 shows that eight per router and four more are enough for a line of
    routers.  [ArpLan.settle]
    delivers the two frames of one resolution.

    ** Not modelled

    - Closing of sockets and removal of their paths on exit, process and thread
      creation, the mains' argument checks: calls in sequence without state.
    - What a comparison or a [printf] reads of an array without a terminator
      beyond its end (copies of such arrays are faults).
    - A client of Assignment1 that SIGPIPE kills at a failing write of its own;
      overlapping requests for one address on a network of daemons, beyond what
      [ArpProps.second_client_cuts_off_first] shows of one daemon.
    - In hw2, a requested file that cannot be opened; the alarm that fires
      outside [receive_ack] (the timer is never disarmed) is in Hw2Timer only.
    - hw4/submit_files holds copies of hw4's files.
    - Of unpv13e/lib, err_dump and the wrappers no assignment calls; the other
      directories of unpv13e: the textbook's own example programs. *)

From Stdlib Require Import ZArith Lia.
From stdpp Require Export base list numbers sets.

Open Scope Z_scope.

(** ** Machine integers

    A C integer is a [Z] in the range of its type.  [u8], [u16], [u32] and
    [i32] are the conversions to [unsigned char], [uint16_t], [uint32_t] and
    [int]; signed overflow wraps, as the compilers the Makefiles name do. *)
Definition u8 (z : Z) : Z := z mod 2 ^ 8.
Definition u16 (z : Z) : Z := z mod 2 ^ 16.
Definition u32 (z : Z) : Z := z mod 2 ^ 32.
Definition i32 (z : Z) : Z := (z + 2 ^ 31) mod 2 ^ 32 - 2 ^ 31.
Definition INT_MAX : Z := 2 ^ 31 - 1.

Definition is_i32 (z : Z) : Prop := - 2 ^ 31 <= z < 2 ^ 31.
Definition is_u32 (z : Z) : Prop := 0 <= z < 2 ^ 32.

(** C's [MAXLINE] (unpv13e/lib/unp.h). *)
Definition MAXLINE : Z := 4096.

Lemma u32_small z : is_u32 z → u32 z = z.
Proof. intros H. apply Z.mod_small, H. Qed.

Lemma i32_small z : is_i32 z → i32 z = z.
Proof. unfold i32, is_i32. intros H. rewrite Z.mod_small; lia. Qed.

Lemma u32_range z : is_u32 (u32 z).
Proof. apply Z.mod_pos_bound. lia. Qed.

Lemma i32_range z : is_i32 (i32 z).
Proof. unfold is_i32, i32. pose proof (Z.mod_pos_bound (z + 2 ^ 31) (2 ^ 32)). lia. Qed.

Lemma u32_i32 z : u32 (i32 z) = u32 z.
Proof.
  unfold u32, i32. rewrite Zminus_mod_idemp_l. f_equal. lia.
Qed.

Lemma i32_u32 z : i32 (u32 z) = i32 z.
Proof. unfold u32, i32. by rewrite Zplus_mod_idemp_l. Qed.

Lemma u32_i32_add a b : u32 (i32 a + b) = u32 (a + b).
Proof.
  unfold u32. rewrite <- Zplus_mod_idemp_l. fold (u32 (i32 a)). rewrite u32_i32.
  apply Zplus_mod_idemp_l.
Qed.

(** ** Effects

    A C function that reads and writes the globals of its program, performs
    output (datagrams, frames, printed lines) and may call [exit] or run into
    undefined behaviour is a computation [M S O A]: from a state it gives the
    outputs it performed, in order, and how it ended. *)
Inductive fault :=
| BadIndex      (** an array is read or written outside its bounds *)
| BadCopy       (** a string or block copy runs past its destination *)
| NullPointer   (** a null pointer is dereferenced *)
| Unset         (** a variable is used that was never set *)
| BadArith.     (** division by zero, or a float outside its integer type *)

Inductive outcome (S A : Type) :=
| Ret (a : A) (s : S)
| Exit (code : Z) (s : S)
| Fault (f : fault).
Arguments Ret {S A}.
Arguments Exit {S A}.
Arguments Fault {S A}.

Definition M (S O A : Type) : Type := S → list O * outcome S A.

#[export] Instance M_ret {S O} : MRet (M S O) := λ A a s, ([], Ret a s).
#[export] Instance M_bind {S O} : MBind (M S O) := λ A B k m s,
  match m s with
  | (o, Ret a s') => let '(o', r) := k a s' in (o ++ o', r)
  | (o, Exit c s') => (o, Exit c s')
  | (o, Fault f) => (o, Fault f)
  end.

Section operations.
Context {S O : Type}.

Definition emit (o : O) : M S O unit := λ s, ([o], Ret tt s).
Definition gets {A} (f : S → A) : M S O A := λ s, ([], Ret (f s) s).
Definition modify (f : S → S) : M S O unit := λ s, ([], Ret tt (f s)).
Definition exit {A} (code : Z) : M S O A := λ s, ([], Exit code s).
Definition fail {A} (f : fault) : M S O A := λ _, ([], Fault f).
Definition when (b : bool) (m : M S O unit) : M S O unit :=
  if b then m else mret tt.
(** [required f o] is the value an access yields, or the fault of a bad one. *)
Definition required {A} (f : fault) (o : option A) : M S O A :=
  match o with Some a => mret a | None => fail f end.

(** The [for] loops whose body runs once for every element of a list. *)
Fixpoint foreach {A} (l : list A) (body : A → M S O unit) : M S O unit :=
  match l with
  | [] => mret tt
  | x :: l => body x ≫= λ _, foreach l body
  end.
End operations.

(** [returns m s a s' o]: run from [s], [m] returns [a] in state [s'] having
    output [o]. *)
Definition returns {S O A} (m : M S O A) (s : S) (a : A) (s' : S) (o : list O) : Prop :=
  m s = (o, Ret a s').

Definition outputs {S O A} (m : M S O A) (s : S) : list O := (m s).1.

(** ** Weakest preconditions

    [wp F E m Q s]: run from [s], every output of [m] satisfies [E]; if [m]
    returns, [Q] holds of its result and final state; it exits or faults only
    if [F].  With [F := False] the computation is sure to return. *)
Definition wp {S O A} (F : Prop) (E : O → Prop) (m : M S O A) (Q : A → S → Prop)
    (s : S) : Prop :=
  Forall E (m s).1 ∧
  match (m s).2 with
  | Ret a s' => Q a s'
  | Exit _ _ | Fault _ => F
  end.

Section wp.
Context {S O : Type} (F : Prop) (E : O → Prop).
Implicit Types (s : S).

Lemma wp_ret {A} (a : A) (Q : A → S → Prop) s : Q a s → wp F E (mret a : M S O A) Q s.
Proof. by split. Qed.

Lemma wp_bind {A B} (m : M S O A) (k : A → M S O B) Q s :
  wp F E m (λ a s', wp F E (k a) Q s') s → wp F E (m ≫= k) Q s.
Proof.
  unfold wp, mbind, M_bind. destruct (m s) as [o [a s'|c s'|f]]; [|done..].
  simpl. destruct (k a s') as [o' r]. simpl. rewrite Forall_app. tauto.
Qed.

Lemma wp_gets {A} (f : S → A) (Q : A → S → Prop) s :
  Q (f s) s → wp F E (gets f : M S O A) Q s.
Proof. by split. Qed.

Lemma wp_modify (f : S → S) (Q : unit → S → Prop) s :
  Q tt (f s) → wp F E (modify f : M S O unit) Q s.
Proof. by split. Qed.

Lemma wp_emit (o : O) (Q : unit → S → Prop) s :
  E o → Q tt s → wp F E (emit o : M S O unit) Q s.
Proof. split; [by repeat constructor|done]. Qed.

Lemma wp_fail {A} f (Q : A → S → Prop) s : F → wp F E (fail f : M S O A) Q s.
Proof. by split. Qed.

Lemma wp_exit {A} c (Q : A → S → Prop) s : F → wp F E (exit c : M S O A) Q s.
Proof. by split. Qed.

Lemma wp_required {A} f (o : option A) (Q : A → S → Prop) s :
  (∀ a, o = Some a → Q a s) → (o = None → F) → wp F E (required f o : M S O A) Q s.
Proof. intros H HF. destruct o; split; simpl; auto. Qed.

Lemma wp_when b (m : M S O unit) (Q : unit → S → Prop) s :
  (b = true → wp F E m Q s) → (b = false → Q tt s) → wp F E (when b m) Q s.
Proof. intros H1 H2. destruct b; simpl; [auto | by apply wp_ret; auto]. Qed.

Lemma wp_if {A} (b : bool) (m1 m2 : M S O A) (Q : A → S → Prop) s :
  (b = true → wp F E m1 Q s) → (b = false → wp F E m2 Q s) →
  wp F E (if b then m1 else m2) Q s.
Proof. destruct b; auto. Qed.

Lemma wp_mono {A} (m : M S O A) (Q Q' : A → S → Prop) s :
  wp F E m Q' s → (∀ a s', Q' a s' → Q a s') → wp F E m Q s.
Proof. intros [Ho Hr] H. split; [done|]. destruct (m s).2; eauto. Qed.

Lemma wp_foreach {A} (I : S → Prop) (l : list A) body s :
  I s → (∀ x s', x ∈ l → I s' → wp F E (body x) (λ _, I) s') →
  wp F E (foreach l body) (λ _, I) s.
Proof.
  revert s. induction l as [|x l IH]; intros s Hs H; simpl; [by apply wp_ret|].
  apply wp_bind. eapply wp_mono; [apply H; [left|done]|].
  intros u s' Hs'. apply IH; [done|]. intros y s'' Hy. apply H. by right.
Qed.

Lemma wp_total {A} (m : M S O A) (Q : A → S → Prop) s :
  ¬ F → wp F E m Q s → ∃ o a s', m s = (o, Ret a s') ∧ Q a s' ∧ Forall E o.
Proof.
  unfold wp. intros HF [H1 H2]. destruct (m s) as [o [a s'|c s'|f]]; [|done..]. by exists o, a, s'.
Qed.

(** What a returning run tells. *)
Lemma wp_returns {A} (m : M S O A) (Q : A → S → Prop) s a s' o :
  wp F E m Q s → m s = (o, Ret a s') → Q a s' ∧ Forall E o.
Proof. unfold wp. intros [H1 H2] Hm. rewrite Hm in *. by split. Qed.
End wp.

(** ** Runs with their outputs

    [wpo F m Q s]: run from [s], [m] returns and [Q] holds of all it output,
    its result and its final state, unless it exits or faults, which happens
    only if [F]. *)
Definition wpo {S O A} (F : Prop) (m : M S O A) (Q : list O → A → S → Prop)
    (s : S) : Prop :=
  match m s with
  | (o, Ret a s') => Q o a s'
  | (_, Exit _ _) | (_, Fault _) => F
  end.

Section wpo.
Context {S O : Type} (F : Prop).
Implicit Types (s : S).

Lemma wpo_ret {A} (a : A) Q s : Q [] a s → wpo F (mret a : M S O A) Q s.
Proof. done. Qed.

Lemma wpo_bind {A B} (m : M S O A) (k : A → M S O B) Q s :
  wpo F m (λ o a s', wpo F (k a) (λ o', Q (o ++ o')) s') s → wpo F (m ≫= k) Q s.
Proof.
  unfold wpo, mbind, M_bind. destruct (m s) as [o [a s'|c s'|f]]; [|done..].
  by destruct (k a s') as [o' [? ?|? ?|?]].
Qed.

Lemma wpo_gets {A} (f : S → A) Q s : Q [] (f s) s → wpo F (gets f : M S O A) Q s.
Proof. done. Qed.

Lemma wpo_modify (f : S → S) Q s : Q [] tt (f s) → wpo F (modify f : M S O unit) Q s.
Proof. done. Qed.

Lemma wpo_emit (o : O) Q s : Q [o] tt s → wpo F (emit o : M S O unit) Q s.
Proof. done. Qed.

Lemma wpo_fail {A} f Q s : F → wpo F (fail f : M S O A) Q s.
Proof. done. Qed.

Lemma wpo_exit {A} c Q s : F → wpo F (exit c : M S O A) Q s.
Proof. done. Qed.

Lemma wpo_required {A} f (o : option A) Q s :
  (∀ a, o = Some a → Q [] a s) → (o = None → F) → wpo F (required f o : M S O A) Q s.
Proof. intros H HF. unfold wpo. destruct o; simpl; auto. Qed.

Lemma wpo_when b (m : M S O unit) Q s :
  (b = true → wpo F m Q s) → (b = false → Q [] tt s) → wpo F (when b m) Q s.
Proof. intros H1 H2. destruct b; simpl; [auto | by apply wpo_ret; auto]. Qed.

Lemma wpo_if {A} (b : bool) (m1 m2 : M S O A) Q s :
  (b = true → wpo F m1 Q s) → (b = false → wpo F m2 Q s) →
  wpo F (if b then m1 else m2) Q s.
Proof. destruct b; auto. Qed.

Lemma wpo_mono {A} (m : M S O A) (Q Q' : list O → A → S → Prop) s :
  wpo F m Q' s → (∀ o a s', Q' o a s' → Q o a s') → wpo F m Q s.
Proof. unfold wpo. intros H HQ. destruct (m s) as [o [a s'|c s'|f]]; eauto. Qed.

Lemma foreach_map {A} (l : list A) (body : A → M S O unit) (f : A → O) s :
  (∀ x, x ∈ l → body x s = ([f x], Ret tt s)) → foreach l body s = (map f l, Ret tt s).
Proof.
  induction l as [|x l IH]; intros H; [done|]. cbn [foreach map]. unfold mbind, M_bind.
  rewrite (H x) by left. rewrite IH; [done|]. intros y Hy. apply H. by right.
Qed.

Lemma wpo_eq {A} (m : M S O A) Q s o a s' :
  m s = (o, Ret a s') → Q o a s' → wpo F m Q s.
Proof. unfold wpo. by intros ->. Qed.

Lemma wpo_total {A} (m : M S O A) Q s :
  ¬ F → wpo F m Q s → ∃ o a s', m s = (o, Ret a s') ∧ Q o a s'.
Proof.
  unfold wpo. intros HF H. destruct (m s) as [o [a s'|c s'|f]]; [|done..]. by exists o, a, s'.
Qed.

Lemma wpo_returns {A} (m : M S O A) Q s o a s' :
  wpo F m Q s → m s = (o, Ret a s') → Q o a s'.
Proof. unfold wpo. intros H Hm. by rewrite Hm in H. Qed.
End wpo.

(** ** Invariants

    [preserves I m]: from a state with [I], a run of [m] that returns ends in a
    state with [I]. *)
Abbreviation preserves I m := (∀ s, I%function s → wpo True m (λ _ _ s', I%function s') s).

Section preserves.
Context {S O : Type} (I : S → Prop).

Lemma preserves_bind {A B} (m : M S O A) (k : A → M S O B) :
  preserves I m → (∀ a, preserves I (k a)) → preserves I (m ≫= k).
Proof.
  intros Hm Hk s Hs. apply wpo_bind. eapply wpo_mono; [by apply Hm|]. cbv beta.
  intros o a s' Hs'. by apply Hk.
Qed.

Lemma preserves_ret {A} (a : A) : preserves I (mret a : M S O A).
Proof. by intros s Hs. Qed.
Lemma preserves_gets {A} (f : S → A) : preserves I (gets f : M S O A).
Proof. by intros s Hs. Qed.
Lemma preserves_required {A} f (o : option A) : preserves I (required f o : M S O A).
Proof. intros s Hs. by destruct o. Qed.
Lemma preserves_emit (o : O) : preserves I (emit o : M S O unit).
Proof. by intros s Hs. Qed.

Lemma preserves_foreach {A} (l : list A) (body : A → M S O unit) :
  (∀ x, preserves I (body x)) → preserves I (foreach l body).
Proof.
  intros H. induction l as [|x l IH]; cbn [foreach]; [apply preserves_ret|].
  apply preserves_bind; [apply H|intros _; exact IH].
Qed.
End preserves.

(** ** Lists *)

Lemma lookup_take_Some {A} (l : list A) n i x :
  take n l !! i = Some x ↔ l !! i = Some x ∧ (i < n)%nat.
Proof.
  destruct (decide (i < n)%nat) as [Hlt|Hge].
  - rewrite lookup_take_lt by lia. tauto.
  - rewrite lookup_take_ge by lia. split; [done | lia].
Qed.

(** A list in which the same property holds of all filled positions and fails
    after them is split by its first counterexample. *)
Fixpoint find_index {A} (p : A → bool) (l : list A) : nat :=
  match l with
  | [] => 0
  | x :: l => if p x then 0 else S (find_index p l)
  end%nat.

Lemma find_index_le {A} (p : A → bool) l : (find_index p l <= length l)%nat.
Proof. induction l as [|x l IH]; simpl; [lia|]. destruct (p x); lia. Qed.

Lemma find_index_lt {A} (p : A → bool) l :
  (find_index p l < length l)%nat →
  ∃ x, l !! find_index p l = Some x ∧ p x = true.
Proof.
  induction l as [|x l IH]; simpl; [lia|].
  destruct (p x) eqn:Hp; simpl; [by exists x|]. intros H. apply IH. lia.
Qed.

Lemma find_index_before {A} (p : A → bool) l i x :
  (i < find_index p l)%nat → l !! i = Some x → p x = false.
Proof.
  revert i. induction l as [|y l IH]; intros i; simpl; [lia|].
  destruct (p y) eqn:Hp; [lia|]. destruct i as [|i]; simpl.
  - congruence.
  - intros Hi. apply IH. lia.
Qed.

Lemma find_index_first {A} (p : A → bool) l i x :
  l !! i = Some x → p x = true → (find_index p l <= i)%nat.
Proof.
  intros Hl Hp. destruct (decide (find_index p l <= i)%nat) as [|Hn]; [done|].
  rewrite (find_index_before p l i x) in Hp; [done|lia|done].
Qed.

Lemma find_index_unique {A} (p : A → bool) l i x :
  l !! i = Some x → p x = true →
  (∀ j y, (j < i)%nat → l !! j = Some y → p y = false) →
  find_index p l = i.
Proof.
  intros Hl Hp Hb. pose proof (find_index_first p l i x Hl Hp).
  pose proof (lookup_lt_Some _ _ _ Hl).
  destruct (find_index_lt p l) as (y & Hy & Hpy); [lia|].
  destruct (decide (find_index p l = i)) as [|Hne]; [done|].
  rewrite (Hb (find_index p l) y) in Hpy; [done|lia|done].
Qed.

Lemma find_index_none {A} (p : A → bool) l :
  (∀ i x, l !! i = Some x → p x = false) → find_index p l = length l.
Proof.
  intros H. induction l as [|x l IH]; simpl; [done|].
  rewrite (H 0%nat x) by done. f_equal. apply IH. intros i y. apply (H (S i)).
Qed.

(** ** Automation *)

Create HintDb net discriminated.
Create HintDb preserves discriminated.
#[export] Hint Resolve preserves_bind preserves_ret preserves_gets preserves_required preserves_emit
  preserves_foreach : preserves.
Create Rewrite HintDb mach.
#[export] Hint Resolve u32_range i32_range find_index_le : net.
#[export] Hint Rewrite @u32_small @i32_small using (unfold is_u32, is_i32 in *; lia) : mach.

(** Reduce every boolean comparison among the hypotheses and the goal to
    arithmetic. *)
Ltac zbool :=
  repeat match goal with
  | H : context [?a =? ?b] |- _ => destruct (Z.eqb_spec a b)
  | H : context [?a <? ?b] |- _ => destruct (Z.ltb_spec a b)
  | H : context [?a <=? ?b] |- _ => destruct (Z.leb_spec a b)
  | |- context [?a =? ?b] => destruct (Z.eqb_spec a b)
  | |- context [?a <? ?b] => destruct (Z.ltb_spec a b)
  | |- context [?a <=? ?b] => destruct (Z.leb_spec a b)
  end; try done; try lia.

(** One step through a computation. *)
Ltac wp_step :=
  match goal with
  | |- wp _ _ (mbind _ _) _ _ => apply wp_bind
  | |- wp _ _ (mret _) _ _ => apply wp_ret
  | |- wp _ _ (gets _) _ _ => apply wp_gets
  | |- wp _ _ (modify _) _ _ => apply wp_modify
  | |- wp _ _ (emit _) _ _ => apply wp_emit
  | |- wp _ _ (fail _) _ _ => apply wp_fail; try exact I
  | |- wp _ _ (exit _) _ _ => apply wp_exit; try exact I
  | |- wp _ _ (required _ _) _ _ => apply wp_required;
      [let a := fresh "a" in let H := fresh "Ha" in intros a H | try done]
  | |- wp _ _ (when _ _) _ _ => apply wp_when; let H := fresh "Hb" in intros H
  | |- wp _ _ (if _ then _ else _) _ _ => apply wp_if; let H := fresh "Hb" in intros H
  end.
Ltac wp_steps := repeat (wp_step; cbv beta).

Ltac wpo_step :=
  match goal with
  | |- wpo _ (mbind _ _) _ _ => apply wpo_bind
  | |- wpo _ (mret _) _ _ => apply wpo_ret
  | |- wpo _ (gets _) _ _ => apply wpo_gets
  | |- wpo _ (modify _) _ _ => apply wpo_modify
  | |- wpo _ (emit _) _ _ => apply wpo_emit
  | |- wpo _ (fail _) _ _ => apply wpo_fail; try exact I
  | |- wpo _ (exit _) _ _ => apply wpo_exit; try exact I
  | |- wpo _ (required _ _) _ _ => apply wpo_required;
      [let a := fresh "a" in let H := fresh "Ha" in intros a H | try done]
  | |- wpo _ (when _ _) _ _ => apply wpo_when; let H := fresh "Hb" in intros H
  | |- wpo _ (if _ then _ else _) _ _ => apply wpo_if; let H := fresh "Hb" in intros H
  end.
Ltac wpo_steps := repeat (wpo_step; cbv beta).
