(* ===== verification/CMem.v ===== *)
(** * C memory: byte arrays, NUL-terminated strings, packed integers

    The arrays of the programs are [list byte]s of their declared size.  The
    functions here are those of <string.h> and <strings.h> the sources call,
    with the bytes they really write: a copy that does not fit its destination
    is [None].  A C string is read from an array up to its first NUL (an array
    without one is read up to its end).  Multi-byte integers are stored in
    little-endian order, as on the x86 hosts the programs were deployed on. *)

From Stdlib Require Import Strings.Byte.
From Stdlib Require Strings.String.
Export Strings.String.StringSyntax.
From coqutil Require Export Byte Word.LittleEndianList.
From S2P Require Import Prelude.

Create Rewrite HintDb clen.

Abbreviation bytes := (list byte).

#[export] Instance byte_eq_decision : EqDecision byte := byte_eq_dec.

(** String literals of the sources. *)
Definition str (s : String.string) : bytes := String.list_byte_of_string s.
Arguments str s%_string_scope.

Definition NUL : byte := x00.
Definition zeros (n : nat) : bytes := replicate n NUL.

(** ** Strings in arrays *)

(** The C string an array holds. *)
Fixpoint cstr (a : bytes) : bytes :=
  match a with
  | [] => []
  | b :: a => if decide (b = NUL) then [] else b :: cstr a
  end.

Definition no_nul (s : bytes) : Prop := NUL ∉ s.

(** [strlen(a)] *)
Definition strlen (a : bytes) : Z := Z.of_nat (length (cstr a)).

(** [strcmp(a, b) == 0] *)
Definition streq (a b : bytes) : bool := bool_decide (cstr a = cstr b).

(** [memcpy(dst + off, src, length src)] *)
Definition memcpy_at (off : nat) (dst src : bytes) : option bytes :=
  if decide (off + length src ≤ length dst)%nat
  then Some (take off dst ++ src ++ drop (off + length src) dst) else None.

(** [strcpy(dst, src)]: the string and its NUL, the rest of [dst] unchanged. *)
Definition strcpy (dst src : bytes) : option bytes :=
  memcpy_at 0 dst (cstr src ++ [NUL]).

(** [strcat(dst, src)] *)
Definition strcat (dst src : bytes) : option bytes :=
  memcpy_at (length (cstr dst)) dst (cstr src ++ [NUL]).

(** [strncpy(dst, src, n)]: exactly [n] bytes, padded with NULs and without a
    terminator when the string is [n] bytes or longer. *)
Definition strncpy (dst src : bytes) (n : nat) : option bytes :=
  memcpy_at 0 dst (take n (cstr src ++ zeros n)).

(** [strncmp(a, b, n) == 0] *)
Definition strneq (a b : bytes) (n : nat) : bool :=
  bool_decide (take n (cstr a) = take n (cstr b)).

(** ** Facts *)

Lemma cstr_no_nul a : no_nul (cstr a).
Proof.
  unfold no_nul. induction a as [|b a IH]; simpl; [set_solver|].
  case_decide; set_solver.
Qed.

Lemma cstr_app_nul s r : no_nul s → cstr (s ++ NUL :: r) = s.
Proof.
  unfold no_nul. induction s as [|b s IH]; intros H; simpl.
  - done.
  - rewrite decide_False by set_solver. f_equal. apply IH. set_solver.
Qed.

Lemma cstr_id s : no_nul s → cstr s = s.
Proof.
  unfold no_nul. induction s as [|b s IH]; intros H; simpl; [done|].
  rewrite decide_False by set_solver. f_equal. apply IH. set_solver.
Qed.

Lemma cstr_idemp a : cstr (cstr a) = cstr a.
Proof. apply cstr_id, cstr_no_nul. Qed.

Lemma cstr_zeros n : cstr (zeros n) = [].
Proof. by destruct n. Qed.

Lemma length_cstr a : (length (cstr a) ≤ length a)%nat.
Proof. induction a as [|b a IH]; simpl; [lia|]. case_decide; simpl; lia. Qed.

Lemma length_zeros n : length (zeros n) = n.
Proof. apply length_replicate. Qed.

Lemma drop_zeros k n : drop k (zeros n) = zeros (n - k).
Proof. apply drop_replicate. Qed.

Lemma streq_true a b : streq a b = true ↔ cstr a = cstr b.
Proof. apply bool_decide_eq_true. Qed.

Lemma streq_false a b : streq a b = false ↔ cstr a ≠ cstr b.
Proof. apply bool_decide_eq_false. Qed.

Lemma streq_refl a : streq a a = true.
Proof. by apply streq_true. Qed.

Lemma memcpy_at_length off dst src d :
  memcpy_at off dst src = Some d → length d = length dst.
Proof.
  unfold memcpy_at. case_decide; [|done]. intros [= <-].
  rewrite !length_app, length_take, length_drop. lia.
Qed.

Lemma memcpy_all dst src : length dst = length src → memcpy_at 0 dst src = Some src.
Proof.
  intros H. unfold memcpy_at. rewrite decide_True by lia. simpl.
  rewrite drop_ge by lia. by rewrite app_nil_r.
Qed.

Lemma strcpy_Some dst src :
  (length (cstr src) < length dst)%nat →
  strcpy dst src = Some (cstr src ++ NUL :: drop (S (length (cstr src))) dst).
Proof.
  intros H. unfold strcpy, memcpy_at. rewrite length_app. simpl.
  rewrite decide_True by lia. simpl. rewrite <- app_assoc. simpl.
  do 3 f_equal. by rewrite Nat.add_1_r.
Qed.

Lemma strcpy_fits dst src d :
  strcpy dst src = Some d ↔
  (length (cstr src) < length dst)%nat ∧
  d = cstr src ++ NUL :: drop (S (length (cstr src))) dst.
Proof.
  split.
  - intros H. assert (length (cstr src) < length dst)%nat as Hl.
    { revert H. unfold strcpy, memcpy_at. rewrite length_app. simpl.
      case_decide; [lia|done]. }
    split; [done|]. rewrite strcpy_Some in H by done. by injection H as <-.
  - intros [Hl ->]. by apply strcpy_Some.
Qed.

Lemma strcpy_length dst src d : strcpy dst src = Some d → length d = length dst.
Proof. apply memcpy_at_length. Qed.

Lemma strcpy_cstr dst src d : strcpy dst src = Some d → cstr d = cstr src.
Proof.
  intros [_ ->]%strcpy_fits. apply cstr_app_nul, cstr_no_nul.
Qed.

(** A copy into an array with room for the string and its terminator. *)
Lemma strcpy_room dst src :
  (length (cstr src) < length dst)%nat →
  ∃ d, strcpy dst src = Some d ∧ length d = length dst ∧ cstr d = cstr src.
Proof.
  intros H. destruct (strcpy dst src) as [d|] eqn:E.
  - exists d. split; [done|]. split; [by eapply strcpy_length|by eapply strcpy_cstr].
  - by rewrite strcpy_Some in E.
Qed.

(** An array that holds a terminated string. *)
Lemma cstr_split a :
  (length (cstr a) < length a)%nat → a = cstr a ++ NUL :: drop (S (length (cstr a))) a.
Proof.
  induction a as [|b a IH]; cbn [cstr length]; [lia|]. case_decide as Hb.
  - intros _. by subst b.
  - cbn [length app drop]. intros H. f_equal. apply IH. lia.
Qed.

Lemma strcat_room dst src :
  (length (cstr dst) + length (cstr src) < length dst)%nat →
  ∃ d, strcat dst src = Some d ∧ length d = length dst ∧ cstr d = cstr dst ++ cstr src.
Proof.
  intros H. unfold strcat. destruct (memcpy_at _ _ _) as [d|] eqn:E.
  - exists d. split; [done|]. split; [by eapply memcpy_at_length|].
    unfold memcpy_at in E. case_decide; [|done]. injection E as <-.
    rewrite (cstr_split dst) at 2 by lia. rewrite take_app_length.
    rewrite app_assoc, <- app_assoc, <- app_assoc. cbn [app]. rewrite app_assoc. apply cstr_app_nul.
    unfold no_nul. rewrite not_elem_of_app. split; apply cstr_no_nul.
  - unfold memcpy_at in E. rewrite length_app in E. cbn [length] in E.
    rewrite decide_True in E by lia. done.
Qed.

(** A string fits an array when its length leaves room for the terminator. *)
Definition fits (n : nat) (s : bytes) : Prop := (length (cstr s) < n)%nat.

Lemma strcpy_zeros n s :
  fits n s → ∃ d, strcpy (zeros n) s = Some d ∧ length d = n ∧ cstr d = cstr s.
Proof.
  intros H. destruct (strcpy_room (zeros n) s) as (d & E & Hl & Hc).
  - by rewrite length_zeros.
  - exists d. by rewrite Hl, length_zeros.
Qed.

(** ** Packed integers *)

(** [int] and [unsigned short] members of a packed struct. *)
Definition put_i32 (z : Z) : bytes := le_split 4 z.
Definition get_i32 (a : bytes) : Z := i32 (le_combine a).
Definition put_u16 (z : Z) : bytes := le_split 2 z.
Definition get_u16 (a : bytes) : Z := le_combine a.

Arguments put_i32 : simpl never.
Arguments put_u16 : simpl never.
Arguments get_i32 : simpl never.
Arguments get_u16 : simpl never.

Lemma put_i32_length z : length (put_i32 z) = 4%nat.
Proof. apply length_le_split. Qed.
Lemma put_u16_length z : length (put_u16 z) = 2%nat.
Proof. apply length_le_split. Qed.

Lemma get_put_i32 z : is_i32 z → get_i32 (put_i32 z) = z.
Proof.
  intros H. unfold get_i32, put_i32. rewrite le_combine_split.
  change (2 ^ (Z.of_nat 4 * 8)) with (2 ^ 32).
  unfold i32, is_i32 in *. rewrite Zplus_mod_idemp_l, Z.mod_small; lia.
Qed.

Lemma get_put_u16 z : 0 <= z < 2 ^ 16 → get_u16 (put_u16 z) = z.
Proof.
  intros H. unfold get_u16, put_u16. rewrite le_combine_split.
  change (2 ^ (Z.of_nat 2 * 8)) with (2 ^ 16). apply Z.mod_small, H.
Qed.

(** The bytes [off, off + n) of an array: [memcpy(field, p + off, n)]. *)
Definition slice (off n : nat) (a : bytes) : bytes := take n (drop off a).

Lemma slice_length off n a :
  (off + n ≤ length a)%nat → length (slice off n a) = n.
Proof. intros H. unfold slice. rewrite length_take, length_drop. lia. Qed.

Lemma slice_here n a r : length a = n → slice 0 n (a ++ r) = a.
Proof. intros <-. unfold slice. simpl. apply take_app_length. Qed.

Lemma slice_all n a : length a = n → slice 0 n a = a.
Proof. intros <-. unfold slice. simpl. apply firstn_all. Qed.

Lemma slice_skip off n a r :
  (length a ≤ off)%nat → slice off n (a ++ r) = slice (off - length a) n r.
Proof. intros H. unfold slice. by rewrite drop_app_ge. Qed.

(** Past a first part of known length. *)
Lemma slice_later k off n a r :
  length a = k → (k ≤ off)%nat → slice off n (a ++ r) = slice (off - k) n r.
Proof. intros <-. apply slice_skip. Qed.

#[export] Hint Rewrite length_zeros put_i32_length put_u16_length : clen.
#[export] Hint Rewrite @length_app @length_cons @length_nil : clen.
#[export] Hint Resolve cstr_no_nul streq_refl : net.

(** Compute the slices of a concatenation of fields of known sizes. *)
Ltac slices :=
  repeat first
    [ rewrite slice_here by (autorewrite with clen; simpl; lia)
    | rewrite slice_all by (autorewrite with clen; simpl; lia)
    | rewrite slice_skip by (autorewrite with clen; simpl; lia);
      autorewrite with clen; cbn [Nat.sub Nat.add] ].
