(* ===== verification/CText.v ===== *)
(** * Decimal text

    The conversions the programs use of <stdio.h> and <stdlib.h>: [%u] and [%d]
    of [sprintf], and the decimal digits read by [strtol] and [scanf]. *)

From Stdlib Require Import Strings.Byte.
From S2P Require Import Prelude.
From S2P Require Import CMem.

Definition digit (d : Z) : byte := byte.of_Z (48 + d).

Definition digit_val (b : byte) : option Z :=
  let z := byte.unsigned b in
  if (48 <=? z) && (z <=? 57) then Some (z - 48) else None.

(** The digits of [n], most significant first; [fuel] bounds their number. *)
Fixpoint dec_loop (fuel : nat) (n : Z) : bytes :=
  match fuel with
  | O => []
  | S fuel => if n <? 10 then [digit n] else dec_loop fuel (n / 10) ++ [digit (n mod 10)]
  end.

(** [%u]; a number has at most as many decimal as binary digits. *)
Definition dec_u (n : Z) : bytes := dec_loop (S (Z.to_nat (Z.log2 n))) n.

(** [%d] *)
Definition dec_d (n : Z) : bytes :=
  if n <? 0 then byte.of_Z 45 :: dec_u (- n) else dec_u n.

(** The value of the digits at the start of [s], continuing from [acc], and
    what follows them. *)
Fixpoint parse_digits (s : bytes) (acc : Z) : Z * bytes :=
  match s with
  | [] => (acc, [])
  | b :: s' =>
      match digit_val b with
      | Some d => parse_digits s' (acc * 10 + d)
      | None => (acc, s)
      end
  end.

Definition LONG_MAX : Z := 2 ^ 63 - 1.
Definition LONG_MIN : Z := - 2 ^ 63.

(** [strtol(s, &end, 10)] on a string without leading white space: a sign,
    digits, the value clamped to the range of [long]. *)
Definition strtol10 (s : bytes) : Z :=
  match cstr s with
  | b :: s' =>
      if decide (b = byte.of_Z 45) then Z.max LONG_MIN (- (parse_digits s' 0).1)
      else if decide (b = byte.of_Z 43) then Z.min LONG_MAX (parse_digits s' 0).1
      else Z.min LONG_MAX (parse_digits (cstr s) 0).1
  | [] => 0
  end.

(** ** Facts *)

Lemma digit_val_digit d : 0 <= d < 10 → digit_val (digit d) = Some d.
Proof.
  intros H. assert (d ∈ seqZ 0 10) as Hd by (apply elem_of_seqZ; lia).
  clear H. revert d Hd. apply Forall_forall. by repeat constructor.
Qed.

Lemma digit_not_nul d : 0 <= d < 10 → digit d ≠ NUL.
Proof. intros H E. pose proof (digit_val_digit d H) as Hv. by rewrite E in Hv. Qed.

Lemma parse_digits_app s r acc :
  Forall (λ b, is_Some (digit_val b)) s →
  parse_digits (s ++ r) acc = parse_digits r (parse_digits s acc).1.
Proof.
  revert acc. induction s as [|b s IH]; intros acc H; simpl; [done|].
  inversion_clear H as [|? ? [d Hd] Hs]. rewrite Hd. by apply IH.
Qed.

Lemma dec_loop_digits fuel n :
  0 <= n → Forall (λ b, ∃ d, 0 <= d < 10 ∧ b = digit d) (dec_loop fuel n).
Proof.
  revert n. induction fuel as [|fuel IH]; intros n Hn; simpl; [constructor|].
  destruct (Z.ltb_spec n 10).
  - repeat constructor. by exists n.
  - apply Forall_app. split; [apply IH; apply Z.div_pos; lia|]. repeat constructor.
    exists (n mod 10). split; [apply Z.mod_pos_bound; lia|done].
Qed.

Lemma dec_loop_length fuel n : (length (dec_loop fuel n) ≤ fuel)%nat.
Proof.
  revert n. induction fuel as [|fuel IH]; intros n; cbn; [lia|]. destruct (n <? 10); cbn; [lia|].
  rewrite length_app. cbn. specialize (IH (n / 10)). lia.
Qed.

(** A number below [2 ^ k] has at most [k] digits. *)
Lemma dec_u_length n k : 0 <= n < 2 ^ k → 0 < k → (length (dec_u n) ≤ Z.to_nat k)%nat.
Proof.
  intros Hn Hk. unfold dec_u. eapply Nat.le_trans; [apply dec_loop_length|].
  destruct (decide (n = 0)) as [->|]; [cbn; lia|].
  pose proof (proj1 (Z.log2_lt_pow2 n k ltac:(lia)) ltac:(lia)). pose proof (Z.log2_nonneg n). lia.
Qed.

Lemma dec_u_no_nul n : 0 <= n → no_nul (dec_u n).
Proof.
  intros Hn Hin. pose proof (dec_loop_digits (S (Z.to_nat (Z.log2 n))) n Hn) as H.
  rewrite Forall_forall in H. destruct (H NUL Hin) as (d & Hd & E). by apply (digit_not_nul d).
Qed.

Lemma dec_loop_value fuel n acc :
  0 <= n < 2 ^ Z.of_nat fuel → 0 <= acc →
  ∃ k, parse_digits (dec_loop fuel n) acc = (acc * 10 ^ k + n, []) ∧ 0 <= k.
Proof.
  revert n acc. induction fuel as [|fuel IH]; intros n acc Hn Hacc.
  { exists 0. simpl in *. split; [f_equal|]; lia. }
  rewrite Nat2Z.inj_succ, Z.pow_succ_r in Hn by lia. cbn [dec_loop].
  destruct (Z.ltb_spec n 10) as [Hlt|Hge].
  { exists 1. cbn [parse_digits]. rewrite digit_val_digit by lia. split; [f_equal|]; lia. }
  destruct (IH (n / 10) acc) as (k & Hk & Hk0).
  { split; [apply Z.div_pos; lia|]. apply Z.div_lt_upper_bound; lia. } { done. }
  exists (k + 1). rewrite parse_digits_app.
  - rewrite Hk. cbn [fst parse_digits]. rewrite digit_val_digit by (apply Z.mod_pos_bound; lia).
    split; [f_equal|lia]. rewrite Z.pow_add_r by lia.
    pose proof (Z.div_mod n 10 ltac:(lia)). lia.
  - eapply Forall_impl; [apply dec_loop_digits, Z.div_pos; lia|].
    intros b (d & Hd & ->). rewrite digit_val_digit by done. by eexists.
Qed.

(** Reading back a printed number gives the number. *)
Lemma parse_dec_u n r :
  0 <= n → (∀ b r', r = b :: r' → digit_val b = None) →
  parse_digits (dec_u n ++ r) 0 = (n, r).
Proof.
  intros Hn Hr. rewrite parse_digits_app.
  - unfold dec_u. destruct (dec_loop_value (S (Z.to_nat (Z.log2 n))) n 0) as (k & Hk & _).
    { split; [done|]. rewrite Nat2Z.inj_succ, Z2Nat.id by apply Z.log2_nonneg.
      destruct (decide (n = 0)) as [->|]; [done|]. apply Z.log2_spec. lia. } { done. }
    rewrite Hk. cbn [fst]. destruct r as [|b r']; cbn; [done|]. by rewrite (Hr b r').
  - eapply Forall_impl; [by apply dec_loop_digits|].
    intros b (d & Hd & ->). rewrite digit_val_digit by done. by eexists.
Qed.

(** A printed port number, or any number a [long] holds, survives [strtol]. *)
Lemma strtol_dec_u n r : 0 <= n <= LONG_MAX → strtol10 (dec_u n ++ NUL :: r) = n.
Proof.
  intros Hn. unfold strtol10. rewrite cstr_app_nul by (apply dec_u_no_nul; lia).
  pose proof (parse_dec_u n [] ltac:(lia) ltac:(done)) as Hp. rewrite app_nil_r in Hp.
  pose proof (dec_loop_digits (S (Z.to_nat (Z.log2 n))) n ltac:(lia)) as Hd.
  fold (dec_u n) in Hd. destruct (dec_u n) as [|b s] eqn:E.
  { cbn in Hp. injection Hp as <-. done. }
  inversion_clear Hd as [|? ? (d & Hd' & Hb) _].
  pose proof (digit_val_digit d Hd') as Hv. rewrite <- Hb in Hv.
  rewrite !decide_False by (intros ->; by vm_compute in Hv). rewrite Hp. cbn. lia.
Qed.

#[export] Hint Resolve dec_u_no_nul : net.
