(* ===== verification/Inet.v ===== *)
(** * Dotted-quad addresses (unpv13e/libfree/inet_pton.c, inet_ntop.c)

    An [in_addr] is four bytes in network order.  [s_addr] is the integer the
    programs read from them on a little-endian host. *)

From Stdlib Require Import Strings.Byte.
From S2P Require Import Prelude.
From S2P Require Import CMem.
From S2P Require Import CText.

Definition dot : byte := byte.of_Z 46.

(** The loop of [inet_pton4]: [tmp] and the index [tp] into it, the digit flag
    and the number of octets begun. *)
Fixpoint inet_pton4_loop (src : bytes) (tmp : list Z) (tp : nat) (saw_digit : bool)
    (octets : Z) : option (list Z) :=
  match src with
  | [] => if octets <? 4 then None else Some tmp
  | ch :: src =>
      match digit_val ch with
      | Some d =>
          let new := nth tp tmp 0 * 10 + d in
          if 255 <? new then None else
          let tmp := <[tp := new]> tmp in
          if saw_digit then inet_pton4_loop src tmp tp true octets
          else if 4 <? octets + 1 then None
          else inet_pton4_loop src tmp tp true (octets + 1)
      | None =>
          if bool_decide (ch = dot) && saw_digit then
            if octets =? 4 then None
            else inet_pton4_loop src (<[S tp := 0]> tmp) (S tp) false octets
          else None
      end
  end.

(** [inet_pton4(src, dst)]: the address stored, or [None] for the result 0.
    The elements of [tmp] are cleared before they are read, so their first
    values do not matter. *)
Definition inet_pton4 (src : bytes) : option bytes :=
  map byte.of_Z <$> inet_pton4_loop (cstr src) [0; 0; 0; 0] 0 false 0.

(** The text [sprintf] makes of an address. *)
Definition quad_text (a : bytes) : bytes :=
  match byte.unsigned <$> a with
  | [a; b; c; d] => dec_u a ++ dot :: dec_u b ++ dot :: dec_u c ++ dot :: dec_u d
  | _ => []
  end.

(** [inet_ntop4(src, dst, size)]; [NULL] is [inl], and the test compares the
    length without the terminator with [size]. *)
Definition inet_ntop4 (src dst : bytes) (size : Z) : option (unit + bytes) :=
  let tmp := quad_text src in
  if size <? Z.of_nat (length tmp) then Some (inl tt)
  else inr <$> strcpy dst tmp.

(** The address as the [in_addr_t] in host order of a little-endian machine. *)
Definition s_addr (a : bytes) : Z := le_combine a.

(** ** Facts *)

Definition is_addr (a : bytes) : Prop := length a = 4%nat.

Lemma pton4_digit d src tmp tp saw octets :
  0 <= d < 10 → 0 <= nth tp tmp 0 * 10 + d <= 255 → (saw = false → octets < 4) →
  inet_pton4_loop (digit d :: src) tmp tp saw octets =
  inet_pton4_loop src (<[tp := nth tp tmp 0 * 10 + d]> tmp) tp true
    (if saw then octets else octets + 1).
Proof.
  intros Hd Hn Ho. cbn [inet_pton4_loop]. rewrite digit_val_digit by done.
  rewrite (proj2 (Z.ltb_ge 255 _)) by lia. destruct saw; [done|].
  by rewrite (proj2 (Z.ltb_ge 4 _)) by (specialize (Ho eq_refl); lia).
Qed.

Lemma dec_u_octet n :
  0 <= n < 256 →
  dec_u n = [digit n] ∧ n < 10 ∨
  dec_u n = [digit (n / 10); digit (n mod 10)] ∧ 10 <= n < 100 ∨
  dec_u n = [digit (n / 100); digit (n / 10 mod 10); digit (n mod 10)] ∧ 100 <= n.
Proof.
  intros H. assert (n ∈ seqZ 0 256) as Hn by (apply elem_of_seqZ; lia). clear H.
  assert (forallb (λ n,
    bool_decide (dec_u n = [digit n]) && (n <? 10) ||
    bool_decide (dec_u n = [digit (n / 10); digit (n mod 10)]) && (10 <=? n) && (n <? 100) ||
    bool_decide (dec_u n = [digit (n / 100); digit (n / 10 mod 10); digit (n mod 10)]) && (100 <=? n))
    (seqZ 0 256) = true) as Hall by (vm_compute; reflexivity).
  rewrite forallb_forall in Hall. specialize (Hall n (proj1 (list_elem_of_In _ _) Hn)).
  rewrite !orb_true_iff, !andb_true_iff, !bool_decide_eq_true, !Z.ltb_lt, !Z.leb_le in Hall.
  tauto.
Qed.

(** An octet's text, read into a cleared element. *)
Lemma pton4_octet n src tmp tp octets :
  0 <= n < 256 → (tp < length tmp)%nat → nth tp tmp 0 = 0 → octets < 4 →
  inet_pton4_loop (dec_u n ++ src) tmp tp false octets =
  inet_pton4_loop src (<[tp := n]> tmp) tp true (octets + 1).
Proof.
  intros Hn Htp H0 Ho.
  assert (∀ v (t : list Z), (tp < length t)%nat → nth tp (<[tp := v]> t) 0 = v) as Hnth.
  { intros v t Ht. apply nth_lookup_Some with (d := 0). by apply list_lookup_insert_eq. }
  pose proof (Z.div_mod n 10 ltac:(lia)). pose proof (Z.mod_pos_bound n 10 ltac:(lia)).
  pose proof (Z.div_mod (n / 10) 10 ltac:(lia)). pose proof (Z.mod_pos_bound (n / 10) 10 ltac:(lia)).
  assert (n / 10 / 10 = n / 100) as E100 by (by rewrite Z.div_div by lia).
  destruct (dec_u_octet n Hn) as [[-> ?]|[[-> ?]|[-> ?]]]; cbn [app].
  - rewrite pton4_digit by lia. by rewrite H0.
  - rewrite pton4_digit by lia. rewrite H0. cbn [Z.mul Z.add].
    rewrite pton4_digit by (rewrite ?Hnth by done; lia).
    rewrite Hnth by done. rewrite list_insert_insert_eq. do 2 f_equal. lia.
  - rewrite pton4_digit by lia. rewrite H0. cbn [Z.mul Z.add].
    rewrite pton4_digit by (rewrite ?Hnth by done; lia). rewrite Hnth by done.
    rewrite pton4_digit by (rewrite ?Hnth by (by rewrite ?length_insert); lia).
    rewrite Hnth by by rewrite length_insert. rewrite !list_insert_insert_eq. do 2 f_equal. lia.
Qed.

Lemma pton4_dot src tmp tp octets :
  octets ≠ 4 →
  inet_pton4_loop (dot :: src) tmp tp true octets =
  inet_pton4_loop src (<[S tp := 0]> tmp) (S tp) false octets.
Proof. intros H. cbn. by rewrite (proj2 (Z.eqb_neq _ _) H). Qed.

Lemma quad_text_no_nul a : no_nul (quad_text a).
Proof.
  unfold quad_text. destruct (byte.unsigned <$> a) as [|x [|y [|z [|w [|]]]]] eqn:E;
    try apply not_elem_of_nil.
  assert (Forall (λ v, 0 <= v) (byte.unsigned <$> a)) as Hp
    by (apply Forall_fmap, Forall_true; intros b; apply byte.unsigned_range).
  rewrite E in Hp. repeat match goal with H : Forall _ (_ :: _) |- _ => inversion_clear H end.
  unfold no_nul. rewrite !not_elem_of_app, !not_elem_of_cons, !not_elem_of_app, !not_elem_of_cons,
    !not_elem_of_app, !not_elem_of_cons.
  split_and!; try (by apply dec_u_no_nul); done.
Qed.

(** Parsing the text of an address gives the address back. *)
Lemma pton4_quad_text a r : is_addr a → inet_pton4 (quad_text a ++ NUL :: r) = Some a.
Proof.
  intros Ha. unfold inet_pton4. rewrite cstr_app_nul by apply quad_text_no_nul.
  destruct a as [|a [|b [|c [|d [|]]]]]; try done. cbn [quad_text fmap list_fmap].
  pose proof (byte.unsigned_range a). pose proof (byte.unsigned_range b).
  pose proof (byte.unsigned_range c). pose proof (byte.unsigned_range d).
  rewrite pton4_octet by done || (cbn; lia). rewrite pton4_dot by done.
  rewrite pton4_octet by done || (cbn; lia). rewrite pton4_dot by done.
  rewrite pton4_octet by done || (cbn; lia). rewrite pton4_dot by done.
  rewrite <- (app_nil_r (dec_u (byte.unsigned d))).
  rewrite pton4_octet by done || (cbn; lia). cbn -[byte.of_Z byte.unsigned Z.add].
  change (0 + 1 + 1 + 1 + 1 <? 4) with false. cbn -[byte.of_Z byte.unsigned].
  by rewrite !byte.of_Z_unsigned.
Qed.

Lemma pton4_loop_length src tmp tp saw octets q :
  inet_pton4_loop src tmp tp saw octets = Some q → length q = length tmp.
Proof.
  revert tmp tp saw octets. induction src as [|ch src IH]; intros tmp tp saw octets; cbn [inet_pton4_loop].
  - destruct (_ <? 4); [done|]. by intros [= ->].
  - destruct (digit_val ch) as [d|].
    + destruct (255 <? _); [done|]. destruct saw; [|destruct (4 <? _); [done|]];
        intros H%IH; by rewrite length_insert in H.
    + destruct (_ && _); [|done]. destruct (_ =? 4); [done|]. intros H%IH. by rewrite length_insert in H.
Qed.

Lemma pton4_length src q : inet_pton4 src = Some q → is_addr q.
Proof.
  unfold inet_pton4. destruct (inet_pton4_loop _ _ _ _ _) as [l|] eqn:E; [|done]. intros [= <-].
  unfold is_addr. by rewrite length_map, (pton4_loop_length _ _ _ _ _ _ E).
Qed.

Lemma quad_text_inj a b : is_addr a → is_addr b → quad_text a = quad_text b → a = b.
Proof.
  intros Ha Hb E. pose proof (pton4_quad_text a [] Ha) as H1. rewrite E, (pton4_quad_text b [] Hb) in H1.
  congruence.
Qed.

Lemma dec_u_octet_length b : (length (dec_u (byte.unsigned b)) ≤ 3)%nat.
Proof.
  pose proof (byte.unsigned_range b) as H. change (2 ^ 8) with 256 in H.
  destruct (dec_u_octet _ H) as [[-> _]|[[-> _]|[-> _]]]; cbn; lia.
Qed.

Lemma quad_text_length a : (length (quad_text a) ≤ 15)%nat.
Proof.
  unfold quad_text. destruct a as [|a [|b [|c [|d [|]]]]]; cbn [fmap list_fmap length]; try lia.
  pose proof (dec_u_octet_length a). pose proof (dec_u_octet_length b).
  pose proof (dec_u_octet_length c). pose proof (dec_u_octet_length d).
  rewrite !length_app. cbn [length]. rewrite !length_app. cbn [length].
  rewrite !length_app. cbn [length]. lia.
Qed.

Lemma inet_ntop4_fits a dst size :
  (length (quad_text a) < length dst)%nat → Z.of_nat (length (quad_text a)) <= size →
  inet_ntop4 a dst size =
    Some (inr (quad_text a ++ NUL :: drop (S (length (quad_text a))) dst)).
Proof.
  intros Hd Hs. unfold inet_ntop4. rewrite (proj2 (Z.ltb_ge _ _)) by lia.
  rewrite strcpy_Some; rewrite cstr_id by apply quad_text_no_nul; done.
Qed.

(** ** The theorems *)

(** An address printed by [inet_ntop4] into a buffer of the usual sixteen
    bytes or more is read back unchanged by [inet_pton4]. *)
Theorem ntop_pton_roundtrip a dst size :
  is_addr a → (16 ≤ length dst)%nat → 16 <= size →
  ∃ d, inet_ntop4 a dst size = Some (inr d) ∧ inet_pton4 d = Some a.
Proof.
  intros Ha Hd Hs. pose proof (quad_text_length a). eexists.
  split; [apply inet_ntop4_fits; lia|by apply pton4_quad_text].
Qed.

Lemma ntop_pton_roundtrip_witness :
  ∃ d, inet_ntop4 (map byte.of_Z [130; 245; 156; 22]) (zeros 16) 16 = Some (inr d) ∧
       cstr d = str "130.245.156.22" ∧ inet_pton4 d = Some (map byte.of_Z [130; 245; 156; 22]).
Proof.
  destruct (ntop_pton_roundtrip (map byte.of_Z [130; 245; 156; 22]) (zeros 16) 16) as (d & E & H);
    [done|by vm_compute; lia|done|].
  exists d. split; [exact E|]. split; [|exact H]. vm_compute in E. by injection E as <-.
Defined.

(** The size test forgets the terminator: given a buffer exactly as long
    as the text, [inet_ntop4] writes past its end instead of failing. *)
Theorem ntop4_off_by_one a dst :
  is_addr a → length dst = length (quad_text a) →
  inet_ntop4 a dst (Z.of_nat (length dst)) = None.
Proof.
  intros Ha Hd. unfold inet_ntop4. rewrite (proj2 (Z.ltb_ge _ _)) by lia.
  unfold strcpy, memcpy_at. rewrite cstr_id by apply quad_text_no_nul.
  rewrite decide_False; [done|]. rewrite length_app. cbn. lia.
Qed.
