(* ===== verification/Inet6.v ===== *)
(** * IPv6 addresses as text (unpv13e/libfree/inet_pton.c, inet_ntop.c)

    The halves of the two files for [AF_INET6], and the dispatch on the address
    family.  An [in6_addr] is sixteen bytes in network order. *)

From Stdlib Require Import Strings.Byte.
From S2P Require Import Prelude.
From S2P Require Import CMem.
From S2P Require Import CText.
From S2P Require Import Inet.

Definition IN6ADDRSZ : nat := 16.
Definition INADDRSZ : nat := 4.
Definition INT16SZ : nat := 2.
Definition AF_INET : Z := 2.
Definition AF_INET6 : Z := 10.

Definition colon : byte := byte.of_Z 58.

(** ** Hexadecimal text *)

(** A digit of [sprintf("%x")], and its value in either case. *)
Definition xdigit (d : Z) : byte := byte.of_Z (if d <? 10 then 48 + d else 87 + d).
Definition xdigit_val (b : byte) : option Z :=
  let z := byte.unsigned b in
  if (48 <=? z) && (z <=? 57) then Some (z - 48)
  else if (97 <=? z) && (z <=? 102) then Some (z - 87)
  else if (65 <=? z) && (z <=? 70) then Some (z - 55)
  else None.

Fixpoint hex_loop (fuel : nat) (n : Z) : bytes :=
  match fuel with
  | O => []
  | S fuel => if n <? 16 then [xdigit n] else hex_loop fuel (n / 16) ++ [xdigit (n mod 16)]
  end.
(** [%x] of a [u_int]: eight digits at most. *)
Definition hex_u (n : Z) : bytes := hex_loop 8 n.

(** ** inet_ntop6 *)

(** [words[i / 2] |= (src[i] << ((1 - (i % 2)) << 3))] for every byte. *)
Definition word_step (src : list Z) (words : list Z) (i : nat) : list Z :=
  <[(i / 2)%nat := Z.lor (nth (i / 2) words 0)
      (Z.shiftl (nth i src 0) (Z.shiftl (1 - Z.of_nat (i mod 2)) 3))]> words.
Definition words_of (src : list Z) : list Z :=
  fold_left (word_step src) (List.seq 0 IN6ADDRSZ) (replicate (IN6ADDRSZ / INT16SZ) 0).

(** [struct { int base, len; }] *)
Record zrun := mk_run { base : Z; len : Z }.
Definition no_run : zrun := mk_run (-1) 0.

(** [if (best.base == -1 || cur.len > best.len) best = cur;] *)
Definition better (best cur : zrun) : zrun :=
  if (base best =? -1) || (len best <? len cur) then cur else best.

(** The search for the longest run of zero words; [len] is read only where
    [base] was set. *)
Fixpoint run_loop (i : Z) (words : list Z) (best cur : zrun) : zrun * zrun :=
  match words with
  | [] => (best, cur)
  | w :: words =>
      if w =? 0 then
        run_loop (i + 1) words best
          (if base cur =? -1 then mk_run i 1 else mk_run (base cur) (len cur + 1))
      else if negb (base cur =? -1) then run_loop (i + 1) words (better best cur) (mk_run (-1) (len cur))
      else run_loop (i + 1) words best cur
  end.

Definition best_run (words : list Z) : zrun :=
  let '(best, cur) := run_loop 0 words no_run no_run in
  let best := if negb (base cur =? -1) then better best cur else best in
  if negb (base best =? -1) && (len best <? 2) then mk_run (-1) (len best) else best.

Definition sizeof_tmp6 : Z := 46.

(** The formatting loop: [tmp] is the text written so far; [None] is the
    [return (NULL)] after [inet_ntop4]. *)
Fixpoint format_loop (src words : list Z) (best : zrun) (i : Z) (ws : list Z) (tmp : bytes) : option bytes :=
  match ws with
  | [] => Some tmp
  | w :: ws =>
      if negb (base best =? -1) && (base best <=? i) && (i <? base best + len best) then
        format_loop src words best (i + 1) ws (if i =? base best then tmp ++ [colon] else tmp)
      else
        let tmp := if negb (i =? 0) then tmp ++ [colon] else tmp in
        if (i =? 6) && (base best =? 0) &&
           ((len best =? 6) || ((len best =? 5) && (nth 5 words 0 =? 65535))) then
          let room := sizeof_tmp6 - Z.of_nat (length tmp) in
          match inet_ntop4 (map byte.of_Z (drop 12 src)) (zeros (Z.to_nat room)) room with
          | Some (inr d) => Some (tmp ++ cstr d)
          | _ => None
          end
        else format_loop src words best (i + 1) ws (tmp ++ hex_u w)
  end.

(** "Was it a trailing run of 0x00's?" *)
Definition trailing (best : zrun) (tmp : bytes) : bytes :=
  if negb (base best =? -1) && (base best + len best =? 8) then tmp ++ [colon] else tmp.

(** The text in [tmp]. *)
Definition ntop6_text (src : list Z) : option bytes :=
  let words := words_of src in
  let best := best_run words in
  trailing best <$> format_loop src words best 0 words [].

(** [inet_ntop6(src, dst, size)]: [inl] is [NULL], [None] a copy past [dst]. *)
Definition inet_ntop6 (src dst : bytes) (size : Z) : option (unit + bytes) :=
  match ntop6_text (byte.unsigned <$> src) with
  | None => Some (inl tt)
  | Some tmp => if size <? Z.of_nat (length tmp) + 1 then Some (inl tt) else inr <$> strcpy dst tmp
  end.

(** ** inet_pton6 *)

(** [*tp++ = (u_char) (val >> 8) & 0xff; *tp++ = (u_char) val & 0xff;] *)
Definition put_word (tmp : list Z) (tp : nat) (val : Z) : list Z :=
  <[S tp := Z.land (u8 val) 255]> (<[tp := Z.land (u8 (Z.shiftr val 8)) 255]> tmp).

(** The loop, up to the code after it: [tmp], [tp], [colonp] and whether a
    number is pending, with its value. *)
Fixpoint pton6_loop (src : bytes) (tmp : list Z) (tp : nat) (colonp : option nat) (curtok : bytes)
    (saw_xdigit : bool) (val : Z) : option (list Z * nat * option nat * bool * Z) :=
  match src with
  | [] => Some (tmp, tp, colonp, saw_xdigit, val)
  | ch :: src =>
      match xdigit_val ch with
      | Some d =>
          let val := Z.lor (u32 (Z.shiftl val 4)) d in
          if 65535 <? val then None else pton6_loop src tmp tp colonp curtok true val
      | None =>
          if bool_decide (ch = colon) then
            if negb saw_xdigit then
              match colonp with
              | Some _ => None
              | None => pton6_loop src tmp tp (Some tp) src saw_xdigit val
              end
            else if (IN6ADDRSZ <? tp + INT16SZ)%nat then None
            else pton6_loop src (put_word tmp tp val) (tp + 2) colonp src false 0
          else if bool_decide (ch = dot) && (tp + INADDRSZ <=? IN6ADDRSZ)%nat then
            match inet_pton4 curtok with
            | Some a => Some (take tp tmp ++ (byte.unsigned <$> a) ++ drop (tp + 4) tmp, (tp + 4)%nat, colonp, false, val)
            | None => None
            end
          else None
      end
  end.

(** [for (i = 1; i <= n; i++) { endp[-i] = colonp[n-i]; colonp[n-i] = 0; }] *)
Fixpoint shift_loop (count : nat) (i : nat) (colonp n : nat) (tmp : list Z) : list Z :=
  match count with
  | O => tmp
  | S count =>
      let tmp := <[(IN6ADDRSZ - i)%nat := nth (colonp + (n - i)) tmp 0]> tmp in
      shift_loop count (S i) colonp n (<[(colonp + (n - i))%nat := 0]> tmp)
  end.

(** The code after the loop. *)
Definition pton6_finish (tmp : list Z) (tp : nat) (colonp : option nat) (saw_xdigit : bool) (val : Z)
    : option (list Z) :=
  '(tmp, tp) ← (if saw_xdigit then
                  if (IN6ADDRSZ <? tp + INT16SZ)%nat then None else Some (put_word tmp tp val, (tp + 2)%nat)
                else Some (tmp, tp));
  match colonp with
  | Some c => Some (shift_loop (tp - c) 1 c (tp - c) tmp)
  | None => if (tp =? IN6ADDRSZ)%nat then Some tmp else None
  end.

(** "Leading :: requires some special handling": [src] at the second colon. *)
Definition skip_colon (src : bytes) : option bytes :=
  match src with
  | a :: src' =>
      if bool_decide (a = colon) then
        match src' with
        | b :: _ => if bool_decide (b = colon) then Some src' else None
        | [] => None
        end
      else Some src
  | [] => Some []
  end.

(** [inet_pton6(src, dst)]: the address stored, or [None] for the result 0. *)
Definition inet_pton6 (src : bytes) : option bytes :=
  src ← skip_colon (cstr src);
  '(tmp, tp, colonp, saw, val) ← pton6_loop src (replicate IN6ADDRSZ 0) 0 None src false 0;
  map byte.of_Z <$> pton6_finish tmp tp colonp saw val.

(** ** The dispatch *)

(** [inet_pton]: 1 with the address stored, 0, or -1 for another family. *)
Definition inet_pton (af : Z) (src : bytes) : Z * option bytes :=
  let result (o : option bytes) := match o with Some a => (1, Some a) | None => (0, None) end in
  if af =? AF_INET then result (inet_pton4 src)
  else if af =? AF_INET6 then result (inet_pton6 src)
  else (-1, None).

Definition inet_ntop (af : Z) (src dst : bytes) (size : Z) : option (unit + bytes) :=
  if af =? AF_INET then inet_ntop4 src dst size
  else if af =? AF_INET6 then inet_ntop6 src dst size
  else Some (inl tt).

(** ** Words and bytes *)

Definition is_word (w : Z) : Prop := 0 <= w < 65536.

(** The bytes of words, most significant first. *)
Definition be (ws : list Z) : list Z := flat_map (λ w, [w / 256; w mod 256]) ws.

Lemma lor_shiftl a b k : 0 <= k → 0 <= b < 2 ^ k → Z.lor (Z.shiftl a k) b = a * 2 ^ k + b.
Proof.
  intros Hk Hb. rewrite <- Z.add_nocarry_lor; [by rewrite Z.shiftl_mul_pow2|].
  apply Z.bits_inj'. intros i Hi. rewrite Z.land_spec, Z.bits_0. destruct (Z.ltb_spec i k).
  - by rewrite Z.shiftl_spec_low.
  - rewrite <- (Z.mod_small b (2 ^ k)) by done. rewrite Z.mod_pow2_bits_high by lia. apply andb_false_r.
Qed.

Lemma land_255 a : Z.land a 255 = a mod 256.
Proof. by apply (Z.land_ones a 8). Qed.

Lemma length_be ws : length (be ws) = (2 * length ws)%nat.
Proof. induction ws as [|w ws IH]; cbn [be flat_map]; [done|]. rewrite length_app. fold (be ws). rewrite IH. cbn. lia. Qed.

Lemma be_app ws ws' : be (ws ++ ws') = be ws ++ be ws'.
Proof. apply flat_map_app. Qed.

Lemma be_cons w ws : be (w :: ws) = be [w] ++ be ws.
Proof. done. Qed.

Lemma be_zeros n : be (replicate n 0) = replicate (2 * n) 0.
Proof.
  induction n as [|n IH]; [done|]. cbn [replicate be flat_map]. fold (be (replicate n 0)). rewrite IH.
  by replace (2 * S n)%nat with (S (S (2 * n))) by lia.
Qed.

(** The word of two bytes. *)
Lemma word_of_bytes h l :
  0 <= h < 256 → 0 <= l < 256 → is_word (Z.lor (Z.lor 0 (Z.shiftl h 8)) (Z.shiftl l 0)) ∧
    be [Z.lor (Z.lor 0 (Z.shiftl h 8)) (Z.shiftl l 0)] = [h; l].
Proof.
  intros Hh Hl. rewrite Z.lor_0_l, Z.shiftl_0_r, lor_shiftl by lia. change (2 ^ 8) with 256.
  split; [unfold is_word; lia|]. cbn. f_equal; [|f_equal]; Z.to_euclidean_division_equations; lia.
Qed.

Lemma words_of_bytes (src : list Z) :
  length src = IN6ADDRSZ → Forall (λ b, 0 <= b < 256) src →
  length (words_of src) = 8%nat ∧ Forall is_word (words_of src) ∧ be (words_of src) = src.
Proof.
  intros Hl Hb. do 16 (destruct src as [|? src]; [done|]). destruct src; [|done].
  repeat match goal with H : Forall _ (_ :: _) |- _ => inversion_clear H end.
  unfold words_of. cbn -[Z.lor Z.shiftl be]. split; [done|].
  change (Z.shiftl (1 - Z.of_nat 0) 3) with 8. change (Z.shiftl (1 - Z.of_nat 1) 3) with 0.
  split.
  - repeat (constructor; [by apply word_of_bytes|]). constructor.
  - rewrite !(be_cons _ (_ :: _)). by rewrite !(λ h l Hh Hl, proj2 (word_of_bytes h l Hh Hl)) by done.
Qed.

(** ** Hexadecimal digits *)

Lemma xdigit_val_xdigit d : 0 <= d < 16 → xdigit_val (xdigit d) = Some d.
Proof.
  intros H. assert (d ∈ seqZ 0 16) as Hd by (apply elem_of_seqZ; lia).
  clear H. revert d Hd. apply Forall_forall. by repeat constructor.
Qed.

Lemma hex_loop_digits fuel n :
  0 <= n → Forall (λ b, ∃ d, 0 <= d < 16 ∧ b = xdigit d) (hex_loop fuel n).
Proof.
  revert n. induction fuel as [|fuel IH]; intros n Hn; cbn [hex_loop]; [constructor|].
  destruct (Z.ltb_spec n 16).
  - repeat constructor. by exists n.
  - apply Forall_app. split; [apply IH; apply Z.div_pos; lia|]. repeat constructor.
    exists (n mod 16). split; [apply Z.mod_pos_bound; lia|done].
Qed.

Lemma hex_u_no_nul n : 0 <= n → no_nul (hex_u n).
Proof.
  intros Hn Hin. pose proof (hex_loop_digits 8 n Hn) as H. rewrite Forall_forall in H.
  destruct (H NUL Hin) as (d & Hd & E). pose proof (xdigit_val_xdigit d Hd) as Hv. by rewrite <- E in Hv.
Qed.

(** A word has at most four digits. *)
Lemma hex_loop_length fuel n k :
  0 <= n < 16 ^ Z.of_nat k → (0 < k)%nat → (length (hex_loop fuel n) ≤ k)%nat.
Proof.
  revert n k. induction fuel as [|fuel IH]; intros n k Hn Hk; cbn [hex_loop]; [cbn; lia|].
  destruct (Z.ltb_spec n 16); [cbn; lia|]. destruct k as [|[|k]]; [lia|change (16 ^ Z.of_nat 1) with 16 in Hn; lia|].
  rewrite length_app. cbn [length]. rewrite (Nat2Z.inj_succ (S k)), Z.pow_succ_r in Hn by lia.
  assert (length (hex_loop fuel (n / 16)) ≤ S k)%nat; [|lia].
  apply IH; [split; [apply Z.div_pos; lia|apply Z.div_lt_upper_bound; lia]|lia].
Qed.

(** ** The parser *)

Abbreviation bytes_of done := (done ++ replicate (IN6ADDRSZ - length done) 0).

Section parser.
Context (colonp : option nat).

Lemma pton6_digit d rest tmp tp cur saw val :
  0 <= d < 16 → 0 <= val → val * 16 + d < 65536 →
  pton6_loop (xdigit d :: rest) tmp tp colonp cur saw val = pton6_loop rest tmp tp colonp cur true (val * 16 + d).
Proof.
  intros Hd Hv Hlt. cbn [pton6_loop]. rewrite xdigit_val_xdigit by done.
  rewrite u32_small by (unfold is_u32; rewrite Z.shiftl_mul_pow2 by lia; lia).
  rewrite lor_shiftl by lia. change (2 ^ 4) with 16.
  by rewrite (proj2 (Z.ltb_ge _ _)) by lia.
Qed.

Lemma pton6_hex fuel n rest tmp tp cur saw :
  (0 < fuel)%nat → 0 <= n < 16 ^ Z.of_nat fuel → n < 65536 →
  pton6_loop (hex_loop fuel n ++ rest) tmp tp colonp cur saw 0 = pton6_loop rest tmp tp colonp cur true n.
Proof.
  revert n rest saw. induction fuel as [|fuel IH]; intros n rest saw Hf Hn Hw; [lia|]. cbn [hex_loop].
  destruct (Z.ltb_spec n 16) as [Hlt|Hge]; cbn [app].
  { rewrite pton6_digit by lia. by replace (0 * 16 + n) with n by lia. }
  rewrite Nat2Z.inj_succ, Z.pow_succ_r in Hn by lia. destruct fuel as [|fuel]; [cbn in Hn; lia|].
  pose proof (Z.mod_pos_bound n 16). pose proof (Z.div_mod n 16).
  assert (0 <= n / 16) by (apply Z.div_pos; lia).
  rewrite <- app_assoc, IH; [|lia|split; [done|apply Z.div_lt_upper_bound; lia]|lia]. cbn [app].
  rewrite pton6_digit by lia. f_equal. lia.
Qed.

Lemma pton6_word w rest tmp tp cur :
  is_word w → pton6_loop (hex_u w ++ rest) tmp tp colonp cur false 0 = pton6_loop rest tmp tp colonp cur true w.
Proof. intros Hw. unfold is_word in Hw. apply pton6_hex; [lia|cbn; lia|lia]. Qed.

Lemma put_word_bytes done w :
  is_word w → (length done + 2 ≤ IN6ADDRSZ)%nat →
  put_word (bytes_of done) (length done) w = bytes_of (done ++ be [w]).
Proof.
  intros Hw Hl. unfold put_word, is_word, IN6ADDRSZ in *.
  replace (16 - length done)%nat with (2 + (16 - (length done + 2)))%nat by lia.
  cbn [Nat.add replicate]. rewrite !length_app. cbn [be flat_map length app].
  rewrite <- (Nat.add_0_r (length done)) at 2. rewrite insert_app_r. cbn [insert list_insert].
  replace (S (length done)) with (length done + 1)%nat by lia. rewrite insert_app_r. cbn [insert list_insert].
  rewrite <- app_assoc. cbn [app]. rewrite !land_255. unfold u8. change (2 ^ 8) with 256.
  rewrite !Zmod_mod, Z.shiftr_div_pow2 by lia. change (2 ^ 8) with 256.
  by rewrite (Z.mod_small (w / 256)) by (Z.to_euclidean_division_equations; lia).
Qed.

Lemma pton6_colon done rest cur w :
  is_word w → (length done + 2 ≤ IN6ADDRSZ)%nat →
  pton6_loop (colon :: rest) (bytes_of done) (length done) colonp cur true w =
  pton6_loop rest (bytes_of (done ++ be [w])) (length (done ++ be [w])) colonp rest false 0.
Proof.
  intros Hw Hl. cbn [pton6_loop]. change (xdigit_val colon) with (@None Z).
  rewrite bool_decide_eq_true_2 by done. cbn [negb].
  rewrite (proj2 (Nat.ltb_ge _ _)) by (unfold INT16SZ in *; lia).
  rewrite put_word_bytes by done. rewrite length_app, length_be. cbn [length]. done.
Qed.

(** Groups of digits, each after a colon. *)
Definition groups (ws : list Z) : bytes := flat_map (λ w, colon :: hex_u w) ws.

(** Reading numbers separated by colons: all but the last are stored. *)
Lemma pton6_groups w ws rest done cur :
  Forall is_word (w :: ws) → (length done + 2 * length (w :: ws) ≤ IN6ADDRSZ)%nat →
  ∃ pre l cur', w :: ws = pre ++ [l] ∧ is_word l ∧
    pton6_loop (hex_u w ++ groups ws ++ rest) (bytes_of done) (length done) colonp cur false 0 =
    pton6_loop rest (bytes_of (done ++ be pre)) (length (done ++ be pre)) colonp cur' true l.
Proof.
  revert w done cur. induction ws as [|w' ws IH]; intros w done cur Hws Hl.
  - inversion_clear Hws as [|? ? Hw _]. exists [], w, cur. split; [done|]. split; [done|].
    cbn [groups flat_map app be]. rewrite app_nil_r. by rewrite pton6_word.
  - inversion_clear Hws as [|? ? Hw Hws']. cbn [length] in Hl.
    destruct (IH w' (done ++ be [w]) (hex_u w' ++ groups ws ++ rest)) as (pre & l & cur' & E & Hlw & Er);
      [done|rewrite length_app, length_be; cbn [length]; lia|].
    exists (w :: pre), l, cur'. split; [by rewrite E|]. split; [done|].
    change (groups (w' :: ws)) with (colon :: hex_u w' ++ groups ws). rewrite pton6_word by done.
    cbn [app]. rewrite pton6_colon by (done || lia). rewrite <- app_assoc. rewrite Er.
    by rewrite (be_cons w pre), !app_assoc.
Qed.

(** A dotted quad at the end. *)
Lemma pton6_decimals ds rest tmp tp cur saw val :
  Forall (λ b, ∃ d, 0 <= d < 10 ∧ b = digit d) ds → 0 <= val →
  (val + 1) * 16 ^ Z.of_nat (length ds) <= 65536 →
  ∃ v saw', pton6_loop (ds ++ rest) tmp tp colonp cur saw val = pton6_loop rest tmp tp colonp cur saw' v.
Proof.
  intros Hds. revert saw val. induction Hds as [|b ds (d & Hd & ->) _ IH]; intros saw val Hv Hlt; [by eexists _, _|].
  cbn [length] in Hlt. rewrite Nat2Z.inj_succ, Z.pow_succ_r in Hlt by lia.
  assert (digit d = xdigit d) as ->. { unfold xdigit, digit. by rewrite (proj2 (Z.ltb_lt d 10)) by lia. }
  cbn [app]. pose proof (Z.pow_pos_nonneg 16 (Z.of_nat (length ds)) ltac:(lia) ltac:(lia)).
  rewrite pton6_digit by nia. apply IH; nia.
Qed.

Lemma pton6_quad a done :
  is_addr a → (length done + 4 ≤ IN6ADDRSZ)%nat →
  ∃ v, pton6_loop (quad_text a) (bytes_of done) (length done) colonp (quad_text a) false 0 =
    Some (bytes_of (done ++ (byte.unsigned <$> a)), length (done ++ (byte.unsigned <$> a)), colonp, false, v).
Proof.
  intros Ha Hl. assert (inet_pton4 (quad_text a) = Some a) as Ep.
  { pose proof (pton4_quad_text a [] Ha) as H. unfold inet_pton4 in *.
    rewrite cstr_app_nul in H by apply quad_text_no_nul. by rewrite cstr_id by apply quad_text_no_nul. }
  unfold is_addr in Ha. destruct a as [|a0 [|a1 [|a2 [|a3 [|]]]]]; try done.
  set (q := quad_text [a0; a1; a2; a3]) in *.
  assert (∃ r, q = dec_u (byte.unsigned a0) ++ dot :: r) as [r Hq] by (eexists; reflexivity).
  pose proof (byte.unsigned_range a0) as Hr0. pose proof (dec_u_octet_length a0) as Ho.
  destruct (pton6_decimals (dec_u (byte.unsigned a0)) (dot :: r) (bytes_of done) (length done) q false 0)
    as (v & saw & E); [apply dec_loop_digits; lia|lia| |].
  { assert (16 ^ Z.of_nat (length (dec_u (byte.unsigned a0))) <= 16 ^ 3) by (apply Z.pow_le_mono_r; lia). lia. }
  exists v. rewrite Hq at 1. rewrite E. cbn [pton6_loop]. change (xdigit_val dot) with (@None Z).
  rewrite bool_decide_eq_false_2 by done. rewrite bool_decide_eq_true_2 by done. cbn [andb].
  rewrite (proj2 (Nat.leb_le _ _)) by (unfold INADDRSZ in *; lia). rewrite Ep.
  rewrite take_app_length, drop_app_add, drop_replicate, !length_app. cbn [fmap list_fmap length].
  by rewrite <- Nat.sub_add_distr, <- app_assoc.
Qed.
End parser.

Lemma shift_step (P C : list Z) x k :
  <[length P := 0]> (<[(length P + S k)%nat := x]> (P ++ x :: replicate k 0 ++ 0 :: C)) =
  P ++ 0 :: replicate k 0 ++ x :: C.
Proof.
  rewrite insert_app_r. rewrite <- (Nat.add_0_r (length P)) at 1. rewrite insert_app_r. cbn. do 2 f_equal.
  replace k with (length (replicate k (0 : Z)) + 0)%nat at 1 by (rewrite length_replicate; lia).
  etransitivity; [apply (insert_app_r (replicate k (0 : Z)) (0 :: C) 0 x)|]. done.
Qed.

(** The bytes after [colonp] are moved to the end of the address. *)
Lemma shift_loop_moves k i A B C z :
  (1 ≤ z)%nat → (length A + length B + z + length C = IN6ADDRSZ)%nat → k = length B →
  i = S (length C) →
  shift_loop k i (length A) (length B + length C) (A ++ B ++ replicate z 0 ++ C) =
  A ++ replicate z 0 ++ B ++ C.
Proof.
  revert i B C. induction k as [|k IH]; intros i B C Hz Hl Hk Hi.
  { by destruct B. }
  destruct (exists_last (l := B)) as (B' & x & ->); [by destruct B|].
  rewrite length_app in *. cbn [length] in *. cbn [shift_loop].
  set (P := A ++ B'). assert (length P = length A + length B')%nat as HP by apply length_app.
  replace (length A + (length B' + 1 + length C - i))%nat with (length P) by lia.
  replace (IN6ADDRSZ - i)%nat with (length P + S (z - 1))%nat by lia.
  assert (A ++ (B' ++ [x]) ++ replicate z 0 ++ C = P ++ x :: replicate (z - 1) 0 ++ 0 :: C) as ->.
  { replace z with (z - 1 + 1)%nat at 1 by lia. rewrite replicate_add. cbn [replicate].
    unfold P. by rewrite <- !app_assoc. }
  rewrite nth_middle, shift_step.
  replace (P ++ 0 :: replicate (z - 1) 0 ++ x :: C) with (A ++ B' ++ replicate z 0 ++ x :: C).
  - replace (length B' + 1 + length C)%nat with (length B' + length (x :: C))%nat by (cbn [length]; lia).
    rewrite IH by (cbn [length]; lia). by rewrite <- app_assoc.
  - unfold P. rewrite <- app_assoc. replace z with (S (z - 1)) at 1 by lia. done.
Qed.

(** The end of parsing, with a double colon after [pre]. *)
Lemma pton6_finish_colon pre post val :
  (length pre + length post < IN6ADDRSZ)%nat →
  pton6_finish (bytes_of (pre ++ post)) (length (pre ++ post)) (Some (length pre)) false val =
  Some (pre ++ replicate (IN6ADDRSZ - length pre - length post) 0 ++ post).
Proof.
  intros Hl. unfold pton6_finish. cbn [mbind option_bind]. f_equal. rewrite length_app, <- app_assoc.
  pose proof (shift_loop_moves (length post) 1 pre post [] (IN6ADDRSZ - length pre - length post)) as H.
  cbn [length] in H. rewrite !app_nil_r, !Nat.add_0_r in H.
  replace (length pre + length post - length pre)%nat with (length post) by lia.
  replace (IN6ADDRSZ - (length pre + length post))%nat with (IN6ADDRSZ - length pre - length post)%nat by lia.
  apply H; lia.
Qed.

(** A pending number is stored first. *)
Lemma pton6_finish_word done c w :
  is_word w → (length done + 2 ≤ IN6ADDRSZ)%nat →
  pton6_finish (bytes_of done) (length done) c true w =
  pton6_finish (bytes_of (done ++ be [w])) (length (done ++ be [w])) c false 0.
Proof.
  intros Hw Hl. unfold pton6_finish. rewrite (proj2 (Nat.ltb_ge _ _)) by (unfold INT16SZ in *; lia).
  rewrite put_word_bytes by done. by rewrite length_app, length_be.
Qed.

(** Parsing from a state to the address. *)
Definition pton6_from (src : bytes) (done : list Z) (c : option nat) (cur : bytes) : option (list Z) :=
  '(tmp, tp, colonp, saw, val) ← pton6_loop src (bytes_of done) (length done) c cur false 0;
  pton6_finish tmp tp colonp saw val.

(** Numbers up to the end of the text. *)
Lemma pton6_from_groups w ws done c cur :
  Forall is_word (w :: ws) → (length done + 2 * length (w :: ws) ≤ IN6ADDRSZ)%nat →
  pton6_from (hex_u w ++ groups ws) done c cur =
  pton6_finish (bytes_of (done ++ be (w :: ws))) (length (done ++ be (w :: ws))) c false 0.
Proof.
  intros Hws Hl. unfold pton6_from.
  destruct (pton6_groups c w ws [] done cur Hws Hl) as (pre & l & cur' & E & Hlw & Er).
  rewrite app_nil_r in Er. rewrite Er. cbn [pton6_loop mbind option_bind].
  apply (f_equal length) in E as El. rewrite length_app in El. cbn [length] in El, Hl.
  rewrite pton6_finish_word by (done || (rewrite length_app, length_be; lia)).
  by rewrite E, be_app, app_assoc.
Qed.

(** The text after a double colon. *)
Definition tail_text (post : list Z) : bytes := match post with [] => [] | w :: ws => hex_u w ++ groups ws end.

(** What follows a double colon: nothing, or numbers. *)
Lemma pton6_from_tail pre post :
  Forall is_word post → (length pre + 2 * length post < IN6ADDRSZ)%nat →
  pton6_from (tail_text post) pre (Some (length pre)) (tail_text post) =
  Some (pre ++ replicate (IN6ADDRSZ - length pre - 2 * length post) 0 ++ be post).
Proof.
  intros Hp Hl. destruct post as [|w ws].
  - unfold pton6_from. cbn [tail_text pton6_loop mbind option_bind].
    pose proof (pton6_finish_colon pre [] 0) as H. rewrite app_nil_r in H. rewrite H by (cbn in *; lia).
    cbn [length be flat_map]. by rewrite Nat.mul_0_r.
  - cbn [tail_text]. rewrite pton6_from_groups by (done || lia).
    rewrite pton6_finish_colon by (rewrite length_be; lia). by rewrite length_be.
Qed.

Lemma pton6_from_quad pre a c :
  is_addr a → (length pre + 4 ≤ IN6ADDRSZ)%nat →
  pton6_from (quad_text a) pre c (quad_text a) =
  pton6_finish (bytes_of (pre ++ (byte.unsigned <$> a))) (length (pre ++ (byte.unsigned <$> a))) c false 0.
Proof.
  intros Ha Hl. unfold pton6_from. destruct (pton6_quad c a pre Ha Hl) as (v & ->). cbn [mbind option_bind].
  by destruct c.
Qed.

(** The double colon itself. *)
Lemma pton6_from_colons rest done cur :
  pton6_from (colon :: rest) done None cur = pton6_from rest done (Some (length done)) rest.
Proof. done. Qed.

Lemma pton6_from_group w rest done c cur :
  is_word w → (length done + 2 ≤ IN6ADDRSZ)%nat →
  pton6_from (hex_u w ++ colon :: rest) done c cur = pton6_from rest (done ++ be [w]) c rest.
Proof.
  intros Hw Hl. unfold pton6_from. rewrite pton6_word by done. by rewrite pton6_colon.
Qed.

Lemma pton6_from_pre w ws rest done c cur :
  Forall is_word (w :: ws) → (length done + 2 * length (w :: ws) ≤ IN6ADDRSZ)%nat →
  pton6_from (hex_u w ++ groups ws ++ colon :: rest) done c cur = pton6_from rest (done ++ be (w :: ws)) c rest.
Proof.
  intros Hws Hl. unfold pton6_from.
  destruct (pton6_groups c w ws (colon :: rest) done cur Hws Hl) as (pre & l & cur' & E & Hlw & ->).
  apply (f_equal length) in E as El. rewrite length_app in El. cbn [length] in El, Hl.
  rewrite pton6_colon by (done || (rewrite length_app, length_be; lia)).
  by rewrite E, be_app, app_assoc.
Qed.

(** ** The run of zeros *)

(** A run is absent, or zeros of [words] before [i]. *)
Definition run_ok (words : list Z) (i : Z) (r : zrun) : Prop :=
  base r = -1 ∨ 0 <= base r ∧ 1 <= len r ∧ base r + len r <= i ∧
    ∀ j, base r <= j < base r + len r → words !! Z.to_nat j = Some 0.

Lemma run_ok_mono words i i' r : run_ok words i r → i <= i' → run_ok words i' r.
Proof. intros [H|(? & ? & ? & ?)] Hi; [by left|right; split_and!; [lia..|done]]. Qed.

Lemma better_ok words i best cur :
  run_ok words i best → run_ok words i cur → run_ok words i (better best cur).
Proof. unfold better. by destruct (_ || _). Qed.

Lemma run_loop_ok words done ws best cur :
  words = done ++ ws → run_ok words (Z.of_nat (length done)) best →
  run_ok words (Z.of_nat (length done)) cur →
  (base cur ≠ -1 → base cur + len cur = Z.of_nat (length done)) →
  let '(best', cur') := run_loop (Z.of_nat (length done)) ws best cur in
  run_ok words (Z.of_nat (length words)) best' ∧ run_ok words (Z.of_nat (length words)) cur'.
Proof.
  revert done best cur. induction ws as [|w ws IH]; intros done best cur E Hb Hc He; cbn [run_loop].
  { rewrite app_nil_r in E. by subst. }
  assert (Z.of_nat (length (done ++ [w])) = Z.of_nat (length done) + 1) as Hl
    by (rewrite length_app; cbn; lia).
  assert (words = (done ++ [w]) ++ ws) as E' by by rewrite <- app_assoc.
  specialize (IH (done ++ [w])). rewrite Hl in IH. destruct (Z.eqb_spec w 0) as [->|Hw].
  - apply IH; [done|by eapply run_ok_mono; [done|lia]| |].
    + assert (words !! length done = Some 0) as H0 by (rewrite E; by apply list_lookup_middle).
      destruct (Z.eqb_spec (base cur) (-1)) as [Eb|Eb]; right; cbn [base len].
      * split_and!; [lia..|]. intros j Hj. by replace (Z.to_nat j) with (length done) by lia.
      * destruct Hc as [?|(? & ? & ? & Hz)]; [done|]. specialize (He Eb). split_and!; [lia..|].
        intros j Hj. destruct (decide (j = Z.of_nat (length done))) as [->|]; [by rewrite Nat2Z.id|].
        apply Hz. lia.
    + destruct (Z.eqb_spec (base cur) (-1)) as [Eb|Eb]; cbn [base len]; [lia|]. specialize (He Eb). lia.
  - destruct (Z.eqb_spec (base cur) (-1)) as [Eb|Eb]; cbn [negb].
    + apply IH; [done|by eapply run_ok_mono; [done|lia]..|done].
    + apply IH; [done| |by left|done]. eapply run_ok_mono; [by apply better_ok|lia].
Qed.

Definition zero_run (words : list Z) (r : zrun) : Prop :=
  base r = -1 ∨ 0 <= base r ∧ 2 <= len r ∧ base r + len r <= Z.of_nat (length words) ∧
    ∀ j, base r <= j < base r + len r → words !! Z.to_nat j = Some 0.

Lemma best_run_ok words : zero_run words (best_run words).
Proof.
  unfold best_run.
  pose proof (run_loop_ok words [] words no_run no_run eq_refl (or_introl eq_refl) (or_introl eq_refl)
    ltac:(done)) as H. change (Z.of_nat (length [])) with 0 in H.
  revert H. destruct (run_loop 0 words no_run no_run) as [best cur]. intros [Hb Hc].
  set (b := if negb (base cur =? -1) then better best cur else best).
  assert (run_ok words (Z.of_nat (length words)) b) as Hok
    by (unfold b; destruct (negb _); [by apply better_ok|done]).
  unfold zero_run. destruct Hok as [Hm|(? & ? & ? & ?)]; [rewrite Hm; by left|].
  rewrite (proj2 (Z.eqb_neq (base b) (-1))) by lia. cbn [negb andb].
  destruct (Z.ltb_spec (len b) 2); [by left|right; by split_and!].
Qed.

Lemma zeros_at {A} (l : list A) x b n :
  (∀ j, b ≤ j < b + n → l !! j = Some x)%nat → (b + n ≤ length l)%nat →
  l = take b l ++ replicate n x ++ drop (b + n) l.
Proof.
  intros H Hl. rewrite <- (take_drop b l) at 1. f_equal. rewrite <- (take_drop n (drop b l)).
  rewrite drop_drop. f_equal. apply list_eq. intros i. destruct (decide (i < n)%nat) as [Hi|Hi].
  - rewrite lookup_take_lt, lookup_drop, lookup_replicate_2 by lia. apply H. lia.
  - rewrite !lookup_ge_None_2; [done|rewrite length_replicate; lia|rewrite length_take; lia].
Qed.

(** ** The formatter *)

Definition in_run (best : zrun) (i : Z) : bool :=
  negb (base best =? -1) && (base best <=? i) && (i <? base best + len best).
Definition embeds_v4 (words : list Z) (best : zrun) : bool :=
  (base best =? 0) && ((len best =? 6) || ((len best =? 5) && (nth 5 words 0 =? 65535))).

Section formatter.
Context (src words : list Z) (best : zrun).

Lemma format_step i w ws tmp :
  format_loop src words best i (w :: ws) tmp =
  if in_run best i then format_loop src words best (i + 1) ws (if i =? base best then tmp ++ [colon] else tmp)
  else
    let tmp := if negb (i =? 0) then tmp ++ [colon] else tmp in
    if (i =? 6) && embeds_v4 words best then
      let room := sizeof_tmp6 - Z.of_nat (length tmp) in
      match inet_ntop4 (map byte.of_Z (drop 12 src)) (zeros (Z.to_nat room)) room with
      | Some (inr d) => Some (tmp ++ cstr d)
      | _ => None
      end
    else format_loop src words best (i + 1) ws (tmp ++ hex_u w).
Proof. cbn [format_loop]. unfold in_run, embeds_v4. by rewrite andb_assoc. Qed.

Lemma format_groups ws rest i tmp :
  1 <= i →
  (∀ j, i <= j < i + Z.of_nat (length ws) → in_run best j = false ∧ (j =? 6) && embeds_v4 words best = false) →
  format_loop src words best i (ws ++ rest) tmp =
  format_loop src words best (i + Z.of_nat (length ws)) rest (tmp ++ groups ws).
Proof.
  revert i tmp. induction ws as [|w ws IH]; intros i tmp Hi Hj; cbn [app].
  { cbn [length groups flat_map]. by rewrite app_nil_r, Z.add_0_r. }
  cbn [length] in Hj |- *. rewrite format_step.
  destruct (Hj i) as [-> ->]; [lia|]. rewrite (proj2 (Z.eqb_neq i 0)) by lia. cbn [negb]. cbv zeta.
  rewrite IH by (lia || (intros; apply Hj; lia)).
  f_equal; [lia|]. unfold groups. cbn [flat_map]. by rewrite <- !app_assoc.
Qed.

Lemma format_groups_end ws i tmp :
  1 <= i →
  (∀ j, i <= j < i + Z.of_nat (length ws) → in_run best j = false ∧ (j =? 6) && embeds_v4 words best = false) →
  format_loop src words best i ws tmp = Some (tmp ++ groups ws).
Proof. intros Hi Hj. rewrite <- (app_nil_r ws) at 1. by rewrite format_groups. Qed.

Lemma format_zeros n rest i tmp :
  base best ≠ -1 → base best < i → i + Z.of_nat n = base best + len best →
  format_loop src words best i (replicate n 0 ++ rest) tmp =
  format_loop src words best (base best + len best) rest tmp.
Proof.
  intros Hb. revert i. induction n as [|n IH]; intros i Hi Hn; cbn [replicate app].
  { f_equal. lia. }
  rewrite format_step. unfold in_run.
  rewrite (proj2 (Z.eqb_neq (base best) (-1))), (proj2 (Z.leb_le _ _)), (proj2 (Z.ltb_lt _ _)),
    (proj2 (Z.eqb_neq i _)) by lia. cbn [negb andb]. apply IH; lia.
Qed.

Lemma format_run n rest tmp :
  base best ≠ -1 → len best = Z.of_nat (S n) →
  format_loop src words best (base best) (replicate (S n) 0 ++ rest) tmp =
  format_loop src words best (base best + len best) rest (tmp ++ [colon]).
Proof.
  intros Hb Hn. cbn [replicate app]. rewrite format_step. unfold in_run.
  rewrite (proj2 (Z.eqb_neq (base best) (-1))), (proj2 (Z.leb_le _ _)), (proj2 (Z.ltb_lt _ _)), Z.eqb_refl by lia.
  cbn [negb andb]. apply format_zeros; lia.
Qed.

(** The dotted quad of the last four bytes. *)
Lemma format_quad ws tmp a :
  map byte.of_Z (drop 12 src) = a → embeds_v4 words best = true → in_run best 6 = false →
  (length tmp + 17 ≤ 46)%nat → ws ≠ [] →
  format_loop src words best 6 ws tmp = Some (tmp ++ colon :: quad_text a).
Proof.
  intros Ha Hv Hr Hl Hw. destruct ws as [|w ws]; [done|]. rewrite format_step, Hr, Hv. cbn [Z.eqb negb andb].
  change ((6 =? 6) && true) with true. change (negb (6 =? 0)) with true. cbv zeta iota.
  rewrite length_app. cbn [length]. pose proof (quad_text_length a).
  rewrite Ha, inet_ntop4_fits by (rewrite ?length_zeros; unfold sizeof_tmp6; lia).
  rewrite cstr_app_nul by apply quad_text_no_nul. by rewrite <- app_assoc.
Qed.
End formatter.

(** ** Printing and reading back *)

Lemma pton6_text t r :
  no_nul t → inet_pton6 (t ++ NUL :: r) = map byte.of_Z <$> (s ← skip_colon t; pton6_from s [] None s).
Proof.
  intros Ht. unfold inet_pton6, pton6_from. rewrite cstr_app_nul by done.
  destruct (skip_colon t) as [s|]; [|done]. cbn [mbind option_bind app length].
  by destruct (pton6_loop s _ _ _ _ _ _) as [[[[[? ?] ?] ?] ?]|].
Qed.

Lemma skip_colon_hex w r : 0 <= w → skip_colon (hex_u w ++ r) = Some (hex_u w ++ r).
Proof.
  intros Hw. assert (∃ d t, 0 <= d < 16 ∧ hex_u w = xdigit d :: t) as (d & t & Hd & ->).
  { pose proof (hex_loop_digits 8 w Hw) as H. unfold hex_u in *.
    destruct (hex_loop 8 w) as [|b t] eqn:E; [|inversion_clear H as [|? ? (d & ? & ->)]; by exists d, t].
    exfalso. cbn [hex_loop] in E. destruct (w <? 16); [done|]. by apply app_eq_nil in E as [_ ?]. }
  cbn [app skip_colon]. rewrite bool_decide_eq_false_2; [done|].
  intros E. pose proof (xdigit_val_xdigit d Hd) as Hv. by rewrite E in Hv.
Qed.

Lemma groups_tail ws : groups ws ++ (match ws with [] => [colon] | _ => [] end) = colon :: tail_text ws.
Proof. destruct ws; cbn; [done|]. by rewrite app_nil_r. Qed.

Lemma groups_length ws : Forall is_word ws → (length (groups ws) ≤ 5 * length ws)%nat.
Proof.
  induction 1 as [|w ws Hw _ IH]; [done|]. cbn [groups flat_map length app].
  rewrite length_app. fold (groups ws). unfold is_word in Hw.
  pose proof (hex_loop_length 8 w 4 ltac:(cbn; lia) ltac:(lia)). unfold hex_u. lia.
Qed.

Lemma groups_no_nul ws : Forall is_word ws → no_nul (groups ws).
Proof.
  induction 1 as [|w ws Hw _ IH]; [apply not_elem_of_nil|]. unfold no_nul in *.
  cbn [groups flat_map app]. fold (groups ws). rewrite not_elem_of_cons, not_elem_of_app.
  split_and!; [done|apply hex_u_no_nul; apply Hw|done].
Qed.

(** The text made of the words, and what it is read back as. *)
Definition text_ok (t : bytes) (bs : list Z) : Prop :=
  no_nul t ∧ (length t ≤ 45)%nat ∧ (s ← skip_colon t; pton6_from s [] None s) = Some bs.


(** Without a run of zeros. *)
Lemma text_plain src words best :
  length words = 8%nat → Forall is_word words → base best = -1 →
  ∃ t, format_loop src words best 0 words [] = Some t ∧ text_ok (trailing best t) (be words).
Proof.
  intros Hl Hw Hb. destruct words as [|w ws]; [done|]. cbn [length] in Hl.
  exists (hex_u w ++ groups ws). unfold trailing. rewrite Hb. change (-1 =? -1) with true. cbn [negb andb].
  assert (∀ j, in_run best j = false ∧ embeds_v4 (w :: ws) best = false) as Hr
    by (intros j; unfold in_run, embeds_v4; by rewrite Hb).
  split.
  - rewrite format_step. destruct (Hr 0) as [-> ->]. cbn [Z.eqb negb andb app].
    rewrite format_groups_end; [done|lia|].
    intros j _. destruct (Hr j) as [-> ->]. by rewrite andb_false_r.
  - inversion_clear Hw as [|? ? Hw0 Hws]. pose proof (groups_length ws Hws).
    pose proof (hex_loop_length 8 w 4 ltac:(unfold is_word in Hw0; cbn; lia) ltac:(lia)) as H4.
    split; [|split].
    + unfold no_nul. rewrite not_elem_of_app. split; [apply hex_u_no_nul, Hw0|by apply groups_no_nul].
    + rewrite length_app. unfold hex_u. lia.
    + rewrite skip_colon_hex by apply Hw0. cbn [mbind option_bind].
      rewrite pton6_from_groups; [|by constructor|cbn [length]; unfold IN6ADDRSZ; lia].
      unfold pton6_finish. cbn [mbind option_bind app]. rewrite length_be. cbn [length].
      replace (2 * S (length ws))%nat with IN6ADDRSZ by (unfold IN6ADDRSZ; lia).
      rewrite Nat.eqb_refl, Nat.sub_diag. cbn [replicate]. by rewrite app_nil_r.
Qed.

(** A double colon after [pre]: what the two halves of the text are read as. *)
Lemma text_run pre post :
  Forall is_word (pre ++ post) → (length pre + length post < 8)%nat →
  text_ok (tail_text pre ++ colon :: colon :: tail_text post)
    (be pre ++ replicate (16 - 2 * length pre - 2 * length post) 0 ++ be post).
Proof.
  intros [Hpre Hpost]%Forall_app Hl.
  assert (∀ ws, Forall is_word ws → no_nul (tail_text ws) ∧ (length (tail_text ws) ≤ 5 * length ws)%nat) as Ht.
  { intros ws Hws. pose proof (groups_no_nul ws Hws) as Hn. pose proof (groups_length ws Hws) as Hg.
    destruct ws as [|w ws]; [split; [apply not_elem_of_nil|done]|].
    cbn [groups flat_map app tail_text] in *. fold (groups ws) in *. unfold no_nul in *.
    rewrite not_elem_of_cons in Hn. cbn [length] in *. split; [apply Hn|lia]. }
  destruct (Ht pre Hpre) as [N1 L1]. destruct (Ht post Hpost) as [N2 L2]. split; [|split].
  - unfold no_nul in *. rewrite not_elem_of_app, !not_elem_of_cons. by split_and!.
  - rewrite length_app. cbn [length]. lia.
  - destruct pre as [|w ws].
    + cbn [tail_text app skip_colon]. rewrite !bool_decide_eq_true_2 by done. cbn [mbind option_bind].
      rewrite pton6_from_colons. rewrite (pton6_from_tail [] post) by (done || (cbn; unfold IN6ADDRSZ; lia)).
      cbn [length be flat_map app]. done.
    + cbn [tail_text]. rewrite <- app_assoc.
      inversion_clear Hpre as [|? ? Hw0 Hws]. rewrite skip_colon_hex by apply Hw0. cbn [mbind option_bind].
      rewrite pton6_from_pre; [|by constructor|cbn [length] in *; unfold IN6ADDRSZ; lia].
      cbn [app]. rewrite pton6_from_colons. rewrite (pton6_from_tail (be (w :: ws)) post);
        [|done|rewrite length_be; unfold IN6ADDRSZ; lia].
      by rewrite length_be.
Qed.

(** With a run of zeros and no dotted quad. *)
Lemma text_zeros src words best pre post :
  length words = 8%nat → Forall is_word words → words = pre ++ replicate (Z.to_nat (len best)) 0 ++ post →
  base best = Z.of_nat (length pre) → 2 <= len best → embeds_v4 words best = false →
  ∃ t, format_loop src words best 0 words [] = Some t ∧ text_ok (trailing best t) (be words).
Proof.
  intros Hl Hw E Hb Hn Hv. set (n := pred (Z.to_nat (len best))).
  assert (Z.to_nat (len best) = S n) as En by (unfold n; lia). rewrite En in E.
  apply (f_equal length) in E as El. rewrite !length_app, length_replicate, Hl in El.
  assert (base best ≠ -1) as Hb1 by lia.
  assert (∀ j, j < base best ∨ base best + len best <= j → in_run best j = false) as Hout.
  { intros j Hj. unfold in_run. destruct (Z.leb_spec (base best) j), (Z.ltb_spec j (base best + len best)); lia || by rewrite ?andb_false_r. }
  exists (tail_text pre ++ colon :: groups post). split.
  - assert (format_loop src words best 0 words [] =
      format_loop src words best (base best) (replicate (S n) 0 ++ post) (tail_text pre)) as ->.
    { destruct pre as [|w ws]; [cbn [app length] in *; by rewrite E at 2; rewrite Hb|].
      rewrite E at 2. cbn [app]. rewrite format_step, Hout by (left; rewrite Hb; cbn [length]; lia).
      rewrite Hv, andb_false_r. cbn [Z.eqb negb app tail_text]. rewrite format_groups.
      - f_equal. rewrite Hb. cbn [length]. lia.
      - lia.
      - intros j Hj. rewrite Hv, andb_false_r. split; [|done]. apply Hout. rewrite Hb. cbn [length]. lia. }
    rewrite format_run by lia. rewrite format_groups_end.
    + by rewrite <- app_assoc.
    + lia.
    + intros j Hj. rewrite Hv, andb_false_r. split; [|done]. apply Hout. lia.
  - assert (trailing best (tail_text pre ++ colon :: groups post) =
      tail_text pre ++ colon :: colon :: tail_text post) as ->.
    { rewrite <- (groups_tail post). unfold trailing. rewrite (proj2 (Z.eqb_neq _ _) Hb1). cbn [negb andb].
      destruct (Z.eqb_spec (base best + len best) 8) as [E8|E8]; destruct post; cbn [length] in *; try lia.
      - by rewrite <- app_assoc.
      - by rewrite app_nil_r. }
    rewrite E in Hw. apply Forall_app in Hw as [Hp Hq]. apply Forall_app in Hq as [_ Hq].
    pose proof (text_run pre post ltac:(by apply Forall_app) ltac:(lia)) as H.
    rewrite E, !be_app, be_zeros. replace (2 * S n)%nat with (16 - 2 * length pre - 2 * length post)%nat by lia. done.
Qed.

Lemma of_Z_unsigned_list (l : bytes) : map byte.of_Z (byte.unsigned <$> l) = l.
Proof. induction l as [|b l IH]; cbn; [done|]. f_equal; [apply byte.of_Z_unsigned|exact IH]. Qed.

(** Zeros, then perhaps a number, then a dotted quad. *)
Lemma text_quad_ok ws a :
  is_addr a → Forall is_word ws → (length ws ≤ 1)%nat →
  text_ok (colon :: groups ws ++ colon :: quad_text a)
    (replicate (12 - 2 * length ws) 0 ++ be ws ++ (byte.unsigned <$> a)).
Proof.
  intros Ha Hws Hl. pose proof (groups_length ws Hws). pose proof (quad_text_length a).
  assert (length (byte.unsigned <$> a) = 4%nat) as La by (rewrite length_fmap; apply Ha).
  split; [|split].
  - unfold no_nul. rewrite not_elem_of_cons, not_elem_of_app, not_elem_of_cons.
    split_and!; [done|by apply groups_no_nul|done|apply quad_text_no_nul].
  - cbn [length]. rewrite length_app. cbn [length]. lia.
  - assert ((s ← skip_colon (colon :: groups ws ++ colon :: quad_text a); pton6_from s [] None s) =
      pton6_from (quad_text a) (be ws) (Some (length (@nil Z))) (quad_text a)) as ->.
    { destruct ws as [|w [|]]; [| |cbn in Hl; lia]; cbn [groups flat_map app skip_colon];
        rewrite !bool_decide_eq_true_2 by done; cbn [mbind option_bind]; rewrite pton6_from_colons; [done|].
      rewrite app_nil_r. inversion_clear Hws. by rewrite pton6_from_group by (done || (cbn; unfold IN6ADDRSZ; lia)). }
    rewrite pton6_from_quad by (done || (rewrite length_be; unfold IN6ADDRSZ; lia)).
    change (be ws ++ (byte.unsigned <$> a)) with ([] ++ (be ws ++ (byte.unsigned <$> a))) at 1 2.
    rewrite (pton6_finish_colon []) by (rewrite length_app, length_be, La; cbn; unfold IN6ADDRSZ; lia).
    cbn [app length]. rewrite length_app, length_be, La. do 3 f_equal. unfold IN6ADDRSZ. lia.
Qed.

Lemma text_quad A words best post :
  length A = 16%nat → be words = byte.unsigned <$> A → Forall is_word words → length words = 8%nat →
  words = replicate (Z.to_nat (len best)) 0 ++ post → embeds_v4 words best = true →
  ∃ t, format_loop (byte.unsigned <$> A) words best 0 words [] = Some t ∧
    text_ok (trailing best t) (byte.unsigned <$> A).
Proof.
  intros HA Hbe Hw Hl E Hv.
  assert (map byte.of_Z (drop 12 (byte.unsigned <$> A)) = drop 12 A) as Ha.
  { rewrite <- fmap_drop. apply of_Z_unsigned_list. }
  assert (is_addr (drop 12 A)) as Hq by (unfold is_addr; rewrite length_drop; lia).
  pose proof Hv as Hv'. unfold embeds_v4 in Hv'.
  apply andb_prop in Hv' as [Hb%Z.eqb_eq Hn].
  assert (∃ n ws, len best = Z.of_nat (S n) ∧ (S n + length ws = 6)%nat ∧ (length ws ≤ 1)%nat ∧
    ∃ rest, post = ws ++ rest ∧ rest ≠ []) as (n & ws & En & Ln & Lw & rest & Ep & Hr).
  { apply (f_equal length) in E as El. rewrite length_app, length_replicate, Hl in El.
    destruct (Z.eqb_spec (len best) 6) as [E6|_].
    - exists 5%nat, []. split_and!; [done..|cbn; lia|]. exists post. split; [done|]. destruct post; [cbn in El; lia|done].
    - cbn [orb] in Hn. apply andb_prop in Hn as [E5%Z.eqb_eq _].
      destruct post as [|w [|w' post]]; cbn [length] in El; [lia..|].
      exists 4%nat, [w]. split_and!; [done..|cbn; lia|]. by exists (w' :: post). }
  rewrite En, Nat2Z.id in E. subst post.
  assert (∀ j, Z.of_nat (S n) <= j → in_run best j = false) as Hout.
  { intros j Hj. unfold in_run. rewrite Hb, En. rewrite (proj2 (Z.ltb_ge j _)) by lia. by rewrite andb_false_r. }
  assert (Forall is_word ws) as Hws.
  { rewrite E in Hw. apply Forall_app in Hw as [_ Hw]. by apply Forall_app in Hw as [? _]. }
  pose proof (groups_length ws Hws) as Hg. exists (colon :: groups ws ++ colon :: quad_text (drop 12 A)). split.
  - pose proof (format_run (byte.unsigned <$> A) words best n (ws ++ rest) [] ltac:(lia) En) as Hf.
    rewrite Hb, En in Hf. rewrite E at 2. rewrite Hf, format_groups; [|lia|].
    + replace (0 + Z.of_nat (S n) + Z.of_nat (length ws)) with 6 by lia.
      rewrite (format_quad _ _ _ rest _ (drop 12 A)); [|done|done|apply Hout; lia|cbn [app length]; lia|done].
      done.
    + intros j Hj. split; [apply Hout; lia|]. rewrite (proj2 (Z.eqb_neq j 6)) by lia. done.
  - assert (trailing best (colon :: groups ws ++ colon :: quad_text (drop 12 A)) =
      colon :: groups ws ++ colon :: quad_text (drop 12 A)) as ->.
    { unfold trailing. rewrite Hb, En, (proj2 (Z.eqb_neq (0 + Z.of_nat (S n)) 8)) by lia. by rewrite andb_false_r. }
    pose proof (text_quad_ok ws (drop 12 A) Hq Hws Lw) as H.
    replace (byte.unsigned <$> A) with (replicate (12 - 2 * length ws) 0 ++ be ws ++ (byte.unsigned <$> drop 12 A)); [done|].
    rewrite fmap_drop, <- Hbe, E, !be_app, be_zeros, !app_assoc.
    rewrite drop_app_length' by (rewrite length_app, length_replicate, length_be; lia).
    by replace (12 - 2 * length ws)%nat with (2 * S n)%nat by lia.
Qed.

Lemma text_of_words a words best :
  length a = 16%nat → be words = byte.unsigned <$> a → Forall is_word words → length words = 8%nat →
  zero_run words best →
  ∃ t, format_loop (byte.unsigned <$> a) words best 0 words [] = Some t ∧
    text_ok (trailing best t) (byte.unsigned <$> a).
Proof.
  intros Ha Hbe Hw Hl [Hm|(H0 & H2 & Hle & Hz)]; [rewrite <- Hbe; by apply text_plain|].
  assert (words = take (Z.to_nat (base best)) words ++ replicate (Z.to_nat (len best)) 0 ++
    drop (Z.to_nat (base best) + Z.to_nat (len best)) words) as E.
  { apply zeros_at; [|lia]. intros j Hj. rewrite <- (Nat2Z.id j). apply Hz. lia. }
  destruct (embeds_v4 words best) eqn:Hv.
  - assert (base best = 0) as E0 by (apply andb_prop in Hv as [?%Z.eqb_eq _]; done).
    rewrite E0 in E. eapply text_quad; [done|exact Hbe|done|done|exact E|done].
  - rewrite <- Hbe. eapply text_zeros; [done|done|exact E|rewrite length_take; lia|done|done].
Qed.

Lemma text_of_address a :
  length a = 16%nat →
  ∃ t, ntop6_text (byte.unsigned <$> a) = Some t ∧ text_ok t (byte.unsigned <$> a).
Proof.
  intros Ha. destruct (words_of_bytes (byte.unsigned <$> a)) as (Hl & Hw & Hbe);
    [by rewrite length_fmap|apply Forall_fmap, Forall_true; intros b; apply byte.unsigned_range|].
  unfold ntop6_text. pose proof (best_run_ok (words_of (byte.unsigned <$> a))) as Hbest.
  generalize dependent (best_run (words_of (byte.unsigned <$> a))).
  generalize dependent (words_of (byte.unsigned <$> a)). intros words Hl Hw Hbe best Hbest.
  destruct (text_of_words a words best Ha Hbe Hw Hl Hbest) as (t & Et & Ht).
  exists (trailing best t). split; [|exact Ht]. cbv zeta. by rewrite Et.
Qed.

Lemma inet_ntop6_run a :
  length a = 16%nat → ∃ t, no_nul t ∧ (length t ≤ 45)%nat ∧ (∀ r, inet_pton6 (t ++ NUL :: r) = Some a) ∧
    ∀ dst size, (length t < length dst)%nat → Z.of_nat (length t) < size →
      inet_ntop6 a dst size = Some (inr (t ++ NUL :: drop (S (length t)) dst)).
Proof.
  intros Ha. destruct (text_of_address a Ha) as (t & Et & N & L & P). exists t. split_and!; [done..| |].
  - intros r. rewrite pton6_text by done. rewrite P. cbn [fmap option_fmap option_map].
    f_equal. apply of_Z_unsigned_list.
  - intros dst size Hd Hsize. unfold inet_ntop6. rewrite Et, (proj2 (Z.ltb_ge size _)) by lia.
    by rewrite strcpy_Some; rewrite cstr_id by done.
Qed.

(** ** The theorem *)

(** The length of an address of each family, and of the longest text of one with
    its terminator ([INET_ADDRSTRLEN], [INET6_ADDRSTRLEN]). *)
Definition addr_size (af : Z) : option (nat * nat) :=
  if af =? AF_INET then Some (INADDRSZ, 16%nat)
  else if af =? AF_INET6 then Some (IN6ADDRSZ, 46%nat) else None.

(** C34: an address of either family printed by [inet_ntop] into a buffer of the
    documented length (16 bytes for IPv4, 46 for IPv6) is read back unchanged by
    [inet_pton], whatever run of zeros of an IPv6 address was replaced by a double
    colon and whether or not its last four bytes were printed as a dotted quad. *)
Theorem address_text_roundtrip af a dst size n m :
  addr_size af = Some (n, m) → length a = n → (m ≤ length dst)%nat → Z.of_nat m <= size →
  ∃ d, inet_ntop af a dst size = Some (inr d) ∧ inet_pton af d = (1, Some a).
Proof.
  unfold addr_size, inet_ntop, inet_pton.
  destruct (af =? AF_INET); [|destruct (af =? AF_INET6); [|done]];
    intros E Ha Hd Hsize; injection E as <- <-.
  - pose proof (quad_text_length a). eexists. split; [apply inet_ntop4_fits; lia|].
    by rewrite pton4_quad_text.
  - destruct (inet_ntop6_run a Ha) as (t & _ & Hl & Hp & Hn).
    eexists. split; [apply Hn; lia|]. by rewrite Hp.
Qed.

Lemma address_text_roundtrip_witness :
  let a := map byte.of_Z [0; 0; 0; 0; 0; 0; 0; 0; 0; 0; 255; 255; 130; 245; 1; 44] in
  ∃ d, inet_ntop AF_INET6 a (zeros 46) 46 = Some (inr d) ∧ cstr d = str "::ffff:130.245.1.44" ∧
       inet_pton AF_INET6 d = (1, Some a).
Proof.
  set (a := map byte.of_Z [0; 0; 0; 0; 0; 0; 0; 0; 0; 0; 255; 255; 130; 245; 1; 44]). cbv zeta.
  destruct (address_text_roundtrip AF_INET6 a (zeros 46) 46 16 46) as (d & E & H);
    [done|done|by vm_compute; lia|done|].
  exists d. split; [exact E|]. split; [|exact H]. vm_compute in E. by injection E as <-.
Defined.

(** The comment above [inet_pton6] says that a double colon in a full address is
    silently ignored; the loop that moves the bytes clears them instead. *)
Theorem full_address_colon_clears :
  inet_pton6 (str "1:2:3:4::5:6:7:8") = Some (map byte.of_Z [0; 1; 0; 2; 0; 3; 0; 4; 0; 0; 0; 0; 0; 0; 0; 0]).
Proof. by vm_compute. Qed.
