(* ===== verification/Interfaces.v ===== *)
(** * The host's interfaces (hw2/get_ifi_info_plus.c, hw3/get_hw_addrs.c)

    Both programs ask the kernel for the list of interfaces (SIOCGIFCONF) and
    walk the array of [struct ifreq] it fills, asking more about each one by
    name.  The array is a byte buffer; the answers to the other requests are a
    parameter, a function of the interface's name. *)

From Stdlib Require Import Strings.Byte.
From S2P Require Import Prelude.
From S2P Require Import CMem.

Definition IFNAMSIZ : nat := 16.
Definition sizeof_sockaddr : nat := 16.
Definition sizeof_sockaddr_in6 : nat := 28.
Definition AF_INET : Z := 2.
Definition AF_INET6 : Z := 10.
Definition IFF_UP : Z := 1.
Definition IFF_BROADCAST : Z := 2.
Definition IFF_POINTOPOINT : Z := 16.
Definition IFI_ALIAS : Z := 1.
Definition IP_ALIAS : Z := 1.

(** What the kernel tells about an interface, by its name; the flags are a
    [short] of the [ifreq], the MTU is an [int]. *)
Record kernel := mk_kernel {
  k_flags : bytes → Z;
  k_mtu : bytes → Z;
  k_brdaddr : bytes → bytes;
  k_dstaddr : bytes → bytes;
  k_netmask : bytes → bytes;
  k_hwaddr : bytes → bytes;
  k_index : bytes → Z
}.

(** An element of the array: the name and the address, then padding. *)
Record ifreq := mk_ifreq { ifr_name : bytes; ifr_addr : bytes }.

Definition sa_family (sa : bytes) : Z := get_u16 (slice 0 2 sa).

(** Without AF_LINK entries (Linux has none) [ifi_index], [ifi_haddr] and
    [ifi_hlen] are 0. *)
Record ifi_info := mk_ifi_info {
  ifi_name : bytes;
  ifi_mtu : Z;
  ifi_flags : Z;
  ifi_myflags : Z;
  ifi_addr : option bytes;
  ifi_brdaddr : option bytes;
  ifi_dstaddr : option bytes;
  ifi_ntmaddr : option bytes
}.

Record hwa_info := mk_hwa_info {
  if_name : bytes;
  if_haddr : bytes;
  if_index : Z;
  ip_alias : Z;
  hwa_ip_addr : bytes
}.

(** ** The size of the array

    [ioctl] fills as many whole elements as fit; the loop enlarges the buffer
    until two calls in a row return the same length. *)
Fixpoint conf_loop (fuel : nat) (siocgifconf : nat → nat) (sizeof_ifreq len lastlen : nat)
    : option nat :=
  match fuel with
  | O => None
  | S fuel =>
      let ifc_len := siocgifconf len in
      if decide (ifc_len = lastlen) then Some ifc_len
      else conf_loop fuel siocgifconf sizeof_ifreq (len + 10 * sizeof_ifreq) ifc_len
  end%nat.

Definition conf_len (fuel : nat) (siocgifconf : nat → nat) (sizeof_ifreq : nat) : option nat :=
  conf_loop fuel siocgifconf sizeof_ifreq (100 * sizeof_ifreq) 0.

(** ** get_ifi_info_plus

    The build for systems whose addresses have no [sa_len] member and that list no
    link-level ones (Solaris, which the Makefile is for, and Linux; the config.h
    in the repository was made on Darwin), with [IPV6] defined; called for
    [AF_INET]. *)

(** The [switch] on the family of an element's address. *)
Definition sa_size (family : Z) : nat :=
  if family =? AF_INET6 then sizeof_sockaddr_in6 else sizeof_sockaddr.

(** A value stored in a [short]. *)
Definition i16 (z : Z) : Z := (z + 2 ^ 15) mod 2 ^ 16 - 2 ^ 15.
Definition is_i16 (z : Z) : Prop := - 2 ^ 15 <= z < 2 ^ 15.

Section ifi.
Context (k : kernel) (doaliases : Z).

(** The element built for an interface. *)
Definition ifi_of (name addr : bytes) (myflags : Z) : ifi_info :=
  let flags := k_flags k name in
  mk_ifi_info (take (IFNAMSIZ - 1) name ++ [NUL]) (i16 (k_mtu k name)) (i16 flags) myflags (Some addr)
    (if negb (Z.land flags IFF_BROADCAST =? 0) then Some (k_brdaddr k name) else None)
    (if negb (Z.land flags IFF_POINTOPOINT =? 0) then Some (k_dstaddr k name) else None)
    (Some (k_netmask k name)).

(** The loop over the buffer: [ptr] advances by the size of a name and of an
    address of the element's family.  [None] is a read past the end of the buffer. *)
Fixpoint ifi_loop (fuel : nat) (buf lastname : bytes) : option (list ifi_info) :=
  match fuel with
  | O => None
  | S fuel =>
      if decide (buf = []) then Some [] else
      if decide (length buf < IFNAMSIZ + sizeof_sockaddr)%nat then None else
      let name := slice 0 IFNAMSIZ buf in
      let addr := slice IFNAMSIZ sizeof_sockaddr buf in
      let rest := drop (IFNAMSIZ + sa_size (sa_family addr)) buf in
      if negb (sa_family addr =? AF_INET) then ifi_loop fuel rest lastname else
      let same := strneq lastname name IFNAMSIZ in
      if same && (doaliases =? 0) then ifi_loop fuel rest lastname else
      if Z.land (k_flags k name) IFF_UP =? 0 then ifi_loop fuel rest name else
      l ← ifi_loop fuel rest name;
      Some (ifi_of name addr (if same then IFI_ALIAS else 0) :: l)
  end.

Definition get_ifi_info_plus (buf : bytes) : option (list ifi_info) :=
  ifi_loop (S (length buf)) buf (zeros IFNAMSIZ).
End ifi.

(** [Get_ifi_info_plus] quits when there is no interface. *)
Definition Get_ifi_info_plus (k : kernel) (doaliases : Z) (buf : bytes)
    : option (list ifi_info) :=
  l ← get_ifi_info_plus k doaliases buf;
  if decide (l = []) then None else Some l.

(** ** get_hw_addrs *)

Definition colon : byte := byte.of_Z 58.

(** [*cptr = 0] at the first colon of the name. *)
Fixpoint cut_colon (name : bytes) : bytes :=
  match name with
  | [] => []
  | b :: name =>
      if decide (b = NUL) then b :: name
      else if decide (b = colon) then NUL :: name else b :: cut_colon name
  end.

Section hwa.
Context (k : kernel).

Fixpoint hwa_loop (items : list ifreq) (lastname : bytes) : list hwa_info :=
  match items with
  | [] => []
  | item :: items =>
      let name := cut_colon (ifr_name item) in
      let alias := if strneq lastname name IFNAMSIZ then IP_ALIAS else 0 in
      mk_hwa_info (take (IFNAMSIZ - 1) (ifr_name item) ++ [NUL]) (k_hwaddr k name)
        (k_index k name) alias (ifr_addr item) :: hwa_loop items name
  end.

Definition get_hw_addrs (items : list ifreq) : list hwa_info :=
  hwa_loop items (zeros IFNAMSIZ).
End hwa.

(** [Get_hw_addrs] quits when there is no interface. *)
Definition Get_hw_addrs (k : kernel) (items : list ifreq) : option (list hwa_info) :=
  let l := get_hw_addrs k items in
  if decide (l = []) then None else Some l.

(** ** Properties *)

Definition ifreq_ok (r : ifreq) : Prop :=
  length (ifr_name r) = IFNAMSIZ ∧ length (ifr_addr r) = sa_size (sa_family (ifr_addr r)).

(** The array in memory, with [pad] bytes of padding per element. *)
Definition ifreq_bytes (pad : nat) (r : ifreq) : bytes :=
  ifr_name r ++ ifr_addr r ++ zeros pad.
Definition conf_bytes (pad : nat) (rs : list ifreq) : bytes :=
  mjoin (map (ifreq_bytes pad) rs).

(** The interfaces [get_ifi_info_plus] is meant to report. *)
Definition wanted (k : kernel) (r : ifreq) : bool :=
  (sa_family (ifr_addr r) =? AF_INET) && negb (Z.land (k_flags k (ifr_name r)) IFF_UP =? 0).

(** What it is to report of an interface that was listed as [r]. *)
Definition reports (k : kernel) (r : ifreq) (i : ifi_info) : Prop :=
  let name := ifr_name r in
  cstr (ifi_name i) = take 15 (cstr name) ∧ ifi_addr i = Some (ifr_addr r) ∧ ifi_myflags i = 0 ∧
  (is_i16 (k_flags k name) → ifi_flags i = k_flags k name) ∧
  (is_i16 (k_mtu k name) → ifi_mtu i = k_mtu k name) ∧
  ifi_ntmaddr i = Some (k_netmask k name) ∧
  (ifi_brdaddr i = Some (k_brdaddr k name) ∧ Z.testbit (k_flags k name) 1 = true ∨
   ifi_brdaddr i = None ∧ Z.testbit (k_flags k name) 1 = false) ∧
  (ifi_dstaddr i = Some (k_dstaddr k name) ∧ Z.testbit (k_flags k name) 4 = true ∨
   ifi_dstaddr i = None ∧ Z.testbit (k_flags k name) 4 = false).

Lemma strneq_names a b :
  length a = IFNAMSIZ → length b = IFNAMSIZ → strneq a b IFNAMSIZ = streq a b.
Proof.
  intros Ha Hb. unfold strneq, streq. pose proof (length_cstr a). pose proof (length_cstr b).
  by rewrite !take_ge by lia.
Qed.

Lemma conf_bytes_cons r rs :
  conf_bytes 0 (r :: rs) = ifr_name r ++ ifr_addr r ++ conf_bytes 0 rs.
Proof.
  unfold conf_bytes, ifreq_bytes. cbn [map mjoin list_join]. by rewrite app_nil_r, <- app_assoc.
Qed.

(** The first sixteen bytes of an address have its family, and are all of an
    IPv4 one. *)
Lemma addr_slice a r :
  (16 ≤ length a)%nat →
  ∃ addr, slice 0 16 (a ++ r) = addr ∧ sa_family addr = sa_family a ∧
    (length a = sa_size (sa_family a) → (sa_family a =? AF_INET) = true → addr = a).
Proof.
  intros Hl. exists (take 16 a). unfold slice. rewrite drop_0, take_app_le by lia. split; [done|]. split.
  - unfold sa_family, slice. rewrite !drop_0, take_take. done.
  - intros H16 E%Z.eqb_eq. rewrite E in H16. apply firstn_all2. rewrite H16. done.
Qed.

Lemma ifi_loop_complete k rs lastname fuel :
  Forall ifreq_ok rs → NoDup (map (λ r, cstr (ifr_name r)) rs) → length lastname = IFNAMSIZ →
  (∀ r, r ∈ rs → cstr lastname ≠ cstr (ifr_name r)) → (length rs < fuel)%nat →
  ifi_loop k 0 fuel (conf_bytes 0 rs) lastname =
    Some (map (λ r, ifi_of k (ifr_name r) (ifr_addr r) 0) (List.filter (wanted k) rs)).
Proof.
  intros Hok. revert lastname fuel. induction Hok as [|r rs [Hn Ha] Hok IH];
    intros lastname fuel Hnd Hll Hlast Hf; (destruct fuel as [|fuel]; [simpl in Hf; lia|]).
  { done. }
  cbn [map] in Hnd. apply NoDup_cons in Hnd as [Hnew Hnd]. cbn [length] in Hf.
  rewrite conf_bytes_cons. cbn [ifi_loop].
  unfold IFNAMSIZ, sizeof_sockaddr in *.
  rewrite decide_False by (intros E; apply (f_equal length) in E;
    rewrite !length_app in E; cbn in E; lia).
  assert (16 ≤ length (ifr_addr r))%nat as H16.
  { rewrite Ha. unfold sa_size, sizeof_sockaddr, sizeof_sockaddr_in6. destruct (_ =? _); lia. }
  rewrite decide_False by (rewrite !length_app; lia).
  rewrite slice_here by done. rewrite slice_skip by lia. rewrite Hn, Nat.sub_diag.
  destruct (addr_slice (ifr_addr r) (conf_bytes 0 rs) H16) as (addr & -> & Efam & Ein).
  rewrite Efam, <- Ha.
  rewrite drop_app_ge, Hn by lia. rewrite drop_app_length' by lia.
  assert (cstr lastname ≠ cstr (ifr_name r)) as Hne by (apply Hlast; left).
  assert (strneq lastname (ifr_name r) 16 = false) as ->.
  { rewrite strneq_names by done. by apply streq_false. }
  cbn [andb List.filter]. unfold wanted at 1.
  assert (∀ r', r' ∈ rs → cstr (ifr_name r) ≠ cstr (ifr_name r')) as Hr.
  { intros r' Hin E. apply Hnew. rewrite E. by apply (list_elem_of_fmap_2 (λ r, cstr (ifr_name r))). }
  destruct (sa_family (ifr_addr r) =? AF_INET) eqn:Hfam; cbn [negb andb].
  - rewrite (Ein Ha eq_refl).
    destruct (Z.land (k_flags k (ifr_name r)) IFF_UP =? 0); cbn [negb].
    + by rewrite IH by (done || lia).
    + by rewrite IH by (done || lia).
  - rewrite IH by (try done; try lia; intros r' H'; apply Hlast; by right). done.
Qed.

Lemma i16_id z : is_i16 z → i16 z = z.
Proof. unfold is_i16, i16. intros H. rewrite Z.mod_small by lia. lia. Qed.

(** A flag is tested with the mask of its bit. *)
Lemma flag_bit z n : 0 <= n → (Z.land z (2 ^ n) =? 0) = negb (Z.testbit z n).
Proof.
  intros Hn. destruct (Z.testbit z n) eqn:E; cbn [negb].
  - apply Z.eqb_neq. intros H. apply (f_equal (λ x, Z.testbit x n)) in H.
    by rewrite Z.land_spec, E, Z.pow2_bits_true, Z.bits_0 in H by lia.
  - apply Z.eqb_eq. apply Z.bits_inj'. intros m Hm. rewrite Z.land_spec, Z.bits_0.
    destruct (decide (m = n)) as [->|]; [by rewrite E|].
    by rewrite Z.pow2_bits_false, andb_false_r by lia.
Qed.

(** A name cut to fit its array. *)
Lemma cstr_terminated n a : cstr (take n a ++ [NUL]) = take n (cstr a).
Proof.
  revert n. induction a as [|b a IH]; intros [|n]; try done.
  cbn [take app]. unfold cstr; fold cstr. cbn. case_decide; [done|]. by rewrite IH.
Qed.

Lemma ifi_of_reports k r :
  length (ifr_name r) = IFNAMSIZ → reports k r (ifi_of k (ifr_name r) (ifr_addr r) 0).
Proof.
  intros Hn. unfold reports, ifi_of. cbn [ifi_name ifi_addr ifi_myflags ifi_flags ifi_mtu ifi_ntmaddr ifi_brdaddr ifi_dstaddr].
  split_and!; try done; try by apply i16_id.
  - by rewrite cstr_terminated.
  - change IFF_BROADCAST with (2 ^ 1). rewrite flag_bit by lia. destruct (Z.testbit _ 1); [left|right]; done.
  - change IFF_POINTOPOINT with (2 ^ 4). rewrite flag_bit by lia. destruct (Z.testbit _ 4); [left|right]; done.
Qed.

Lemma reports_all k rs :
  Forall ifreq_ok rs →
  Forall2 (reports k) (List.filter (wanted k) rs)
    (map (λ r, ifi_of k (ifr_name r) (ifr_addr r) 0) (List.filter (wanted k) rs)).
Proof.
  induction 1 as [|r rs [Hn _] _ IH]; [constructor|]. cbn [List.filter].
  destruct (wanted k r); [|done]. cbn [map]. constructor; [by apply ifi_of_reports|done].
Qed.

(** C32: where an [ifreq] has no padding, [get_ifi_info_plus] reports exactly
    the interfaces that are up and have an IPv4 address, each once, in the
    kernel's order, passing over IPv6 addresses, which are longer, and others.  Of
    each it reports what the kernel tells: its name (up to fifteen characters),
    its address and network mask, the broadcast address and the other end of the
    line exactly where the flags say there is one, and its flags and MTU, if that
    fits a [short].  The interfaces have different names, none of them empty. *)
Theorem get_ifi_info_complete k rs :
  Forall ifreq_ok rs → NoDup (map (λ r, cstr (ifr_name r)) rs) →
  Forall (λ r, cstr (ifr_name r) ≠ []) rs →
  ∃ l, get_ifi_info_plus k 0 (conf_bytes 0 rs) = Some l ∧
    Forall2 (reports k) (List.filter (wanted k) rs) l.
Proof.
  intros Hok Hnd Hne. eexists. split; [|by apply reports_all]. unfold get_ifi_info_plus.
  apply ifi_loop_complete; [done..| |].
  - rewrite Forall_forall in Hne. intros r Hr E. apply (Hne r Hr). rewrite <- E. apply cstr_zeros.
  - induction Hok as [|r rs [Hn Ha] Hok IH]; [cbn; lia|].
    rewrite conf_bytes_cons. cbn [map] in Hnd. apply NoDup_cons in Hnd as [_ Hnd]. inversion_clear Hne as [|? ? _ Hne'].
    specialize (IH Hnd Hne'). rewrite !length_app, Hn. cbn in *. lia.
Qed.

Definition eth (n : String.string) (fam ip : Z) : ifreq :=
  mk_ifreq (take IFNAMSIZ (str n ++ zeros IFNAMSIZ)) (put_u16 fam ++ zeros 2 ++ put_i32 ip ++ zeros 8).
Arguments eth n%_string_scope fam ip.
Definition all_up : kernel :=
  mk_kernel (λ _, 1) (λ _, 1500) (λ _, zeros 16) (λ _, zeros 16) (λ _, zeros 16) (λ _, zeros 6) (λ _, 1).
Definition two_eth : list ifreq := [eth "eth0" AF_INET 1; eth "eth1" AF_INET 2].
(** An interface with an IPv6 address between the two. *)
Definition three_eth : list ifreq :=
  [eth "eth0" AF_INET 1;
   mk_ifreq (take IFNAMSIZ (str "eth2" ++ zeros IFNAMSIZ)) (put_u16 AF_INET6 ++ replicate 26 x02);
   eth "eth1" AF_INET 2].

Lemma get_ifi_info_complete_witness :
  ∃ l, get_ifi_info_plus all_up 0 (conf_bytes 0 three_eth) = Some l ∧ Forall2 (reports all_up) two_eth l.
Proof.
  apply (get_ifi_info_complete all_up three_eth);
    [by repeat constructor|by vm_compute; repeat constructor; set_solver|by repeat constructor].
Defined.

(** On a 64-bit host an [ifreq] is eight bytes longer than a name and a
    [sockaddr]; the walk, which advances by the latter, then reads past the end
    of the buffer and does not return the second of two interfaces. *)
Theorem get_ifi_info_misreads_padding :
  get_ifi_info_plus all_up 0 (conf_bytes 8 two_eth) = None.
Proof. vm_compute. reflexivity. Qed.

(** What SIOCGIFCONF promises on a host with [n] interfaces: whole elements, as
    many as fit. *)
Definition fills_what_fits (sz n : nat) (ioctl : nat → nat) : Prop :=
  ∀ len, ioctl len = (sz * Nat.min (len / sz) n)%nat.

Lemma conf_loop_grows ioctl sz n m fuel :
  fills_what_fits sz n ioctl → (0 < sz)%nat → (n - m < fuel)%nat →
  conf_loop fuel ioctl sz ((m + 10) * sz) (sz * Nat.min m n) = Some (sz * n)%nat.
Proof.
  intros Hk Hsz. revert m. induction fuel as [|fuel IH]; intros m Hf; [lia|].
  cbn [conf_loop]. rewrite Hk, Nat.div_mul by lia. case_decide as Hd.
  - apply Nat.mul_cancel_l in Hd; [|lia]. f_equal. f_equal. lia.
  - replace ((m + 10) * sz + 10 * sz)%nat with ((m + 10 + 10) * sz)%nat by lia. apply IH.
    assert (Nat.min (m + 10) n ≠ Nat.min m n) by congruence. lia.
Qed.

(** The loop that sizes the buffer always ends, with room for all the
    interfaces of the host. *)
Theorem conf_len_complete ioctl sz n :
  (0 < sz)%nat → fills_what_fits sz n ioctl →
  conf_len (S (S n)) ioctl sz = Some (sz * n)%nat.
Proof.
  intros Hsz Hk. unfold conf_len. remember (S n) as fuel eqn:Ef. cbn [conf_loop]. rewrite Hk, Nat.div_mul by lia.
  case_decide as Hd; [f_equal; destruct n; lia|].
  replace (100 * sz + 10 * sz)%nat with ((100 + 10) * sz)%nat by lia.
  apply conf_loop_grows; [done|lia..].
Qed.

Lemma conf_len_complete_witness :
  conf_len 125 (λ len, 32 * Nat.min (len / 32) 123)%nat 32 = Some (32 * 123)%nat.
Proof. apply (conf_len_complete _ 32 123); [lia|done]. Defined.

(** *** get_hw_addrs *)

Lemma length_cut_colon a : length (cut_colon a) = length a.
Proof.
  induction a as [|b a IH]; cbn; [done|]. repeat case_decide; cbn; by rewrite ?IH.
Qed.

Lemma hwa_loop_lookup k items lastname i item :
  Forall ifreq_ok items → length lastname = IFNAMSIZ → items !! i = Some item →
  ∃ prev, (match i with
           | O => prev = lastname
           | S j => ∃ it, items !! j = Some it ∧ prev = cut_colon (ifr_name it)
           end) ∧
    hwa_loop k items lastname !! i = Some (mk_hwa_info
      (take (IFNAMSIZ - 1) (ifr_name item) ++ [NUL]) (k_hwaddr k (cut_colon (ifr_name item)))
      (k_index k (cut_colon (ifr_name item)))
      (if streq prev (cut_colon (ifr_name item)) then IP_ALIAS else 0) (ifr_addr item)).
Proof.
  intros Hok. revert lastname i. induction Hok as [|it items [Hn Ha] Hok IH]; intros lastname i Hl Hi;
    [done|]. cbn [hwa_loop]. destruct i as [|i]; cbn in Hi.
  - injection Hi as ->. exists lastname. split; [done|]. cbn [lookup list_lookup].
    by rewrite strneq_names by (rewrite ?length_cut_colon; done).
  - destruct (IH (cut_colon (ifr_name it)) i) as (prev & Hp & E);
      [by rewrite length_cut_colon|done|]. exists prev. split; [|exact E].
    destruct i as [|i]; [by exists it|exact Hp].
Qed.

(** [get_hw_addrs] lists every interface of the kernel in order, with its
    address and the hardware address of the interface it is an alias of, and
    marks an entry as an alias exactly when the one before it has the same
    name up to a colon. *)
Theorem get_hw_addrs_aliases k items i item :
  Forall ifreq_ok items → Forall (λ it, cstr (cut_colon (ifr_name it)) ≠ []) items →
  items !! i = Some item →
  ∃ h, get_hw_addrs k items !! i = Some h ∧ hwa_ip_addr h = ifr_addr item ∧
    if_haddr h = k_hwaddr k (cut_colon (ifr_name item)) ∧
    (ip_alias h = IP_ALIAS ↔ ∃ j it, i = S j ∧ items !! j = Some it ∧
      cstr (cut_colon (ifr_name it)) = cstr (cut_colon (ifr_name item))).
Proof.
  intros Hok Hne Hi.
  destruct (hwa_loop_lookup k items (zeros IFNAMSIZ) i item Hok eq_refl Hi) as (prev & Hp & E).
  eexists. split; [exact E|]. cbn [hwa_ip_addr if_haddr ip_alias]. split; [done|]. split; [done|].
  assert (streq prev (cut_colon (ifr_name item)) = true ↔ ∃ j it, i = S j ∧ items !! j = Some it ∧
      cstr (cut_colon (ifr_name it)) = cstr (cut_colon (ifr_name item))) as H.
  { rewrite streq_true. destruct i as [|i].
    - subst prev. split; [|by intros (j & it & ? & _)]. intros Ez.
      rewrite Forall_forall in Hne. destruct (Hne item); [by eapply list_elem_of_lookup_2|].
      rewrite <- Ez. apply cstr_zeros.
    - destruct Hp as (it & Hit & ->). split; [by exists i, it|].
      intros (j & it' & [= <-] & Hit' & Eq). congruence. }
  rewrite <- H. by destruct (streq prev _).
Qed.

Lemma get_hw_addrs_aliases_witness :
  ∃ h, get_hw_addrs all_up [eth "eth0" 2 1; eth "eth0:1" 2 2] !! 1%nat = Some h ∧
    ip_alias h = IP_ALIAS.
Proof.
  destruct (get_hw_addrs_aliases all_up [eth "eth0" 2 1; eth "eth0:1" 2 2] 1 (eth "eth0:1" 2 2))
    as (h & E & _ & _ & H); [by repeat constructor|by repeat constructor|done|].
  exists h. split; [exact E|]. apply H. by exists 0%nat, (eth "eth0" 2 1).
Defined.
