(* ===== verification/CFloat.v ===== *)
(** * C floating point

    [float] and [double] arithmetic as the sources use it: IEEE binary32 and
    binary64 with round-to-nearest-even, computed by the Standard Library's
    executable [SpecFloat] operations.  A [float] operand of a [double]
    operation is first converted, as C's usual arithmetic conversions say. *)

From Stdlib Require Import ZArith Lia.
From Stdlib Require Export Floats.SpecFloat.
From S2P Require Import Prelude.

(** ** binary32 *)
Definition f32_of_Z (z : Z) : spec_float := binary_normalize 24 128 z 0 false.
Definition f32_add : spec_float → spec_float → spec_float := SFadd 24 128.
Definition f32_sub : spec_float → spec_float → spec_float := SFsub 24 128.
Definition f32_div : spec_float → spec_float → spec_float := SFdiv 24 128.

(** ** binary64 *)
Definition f64_of_Z (z : Z) : spec_float := binary_normalize 53 1024 z 0 false.
Definition f64_add : spec_float → spec_float → spec_float := SFadd 53 1024.
Definition f64_mul : spec_float → spec_float → spec_float := SFmul 53 1024.
Definition f64_div : spec_float → spec_float → spec_float := SFdiv 53 1024.

(** [(double) x] of a [float] (exact). *)
Definition f64_of_f32 (x : spec_float) : spec_float :=
  match x with
  | S754_finite s m e => binary_round 53 1024 s m e
  | _ => x
  end.

(** [(int) x]: truncation towards zero; [None] where C leaves the conversion
    undefined (NaN, infinities, values outside [int]). *)
Definition int_of_float (x : spec_float) : option Z :=
  match x with
  | S754_zero _ => Some 0
  | S754_finite s m e =>
      let a := if 0 <=? e then Z.pos m * 2 ^ e else Z.pos m / 2 ^ (- e) in
      let z := if s then - a else a in
      if (- 2 ^ 31 <=? z) && (z <? 2 ^ 31) then Some z else None
  | _ => None
  end.

Lemma int_of_float_range x z : int_of_float x = Some z → is_i32 z.
Proof.
  unfold is_i32. destruct x as [s|s| |s m e]; simpl; try done.
  - intros [= <-]. lia.
  - set (a := if s then _ else _). destruct (Z.leb_spec (- 2 ^ 31) a);
      destruct (Z.ltb_spec a (2 ^ 31)); simpl; try done. intros [= <-]. lia.
Qed.
