(* ===== verification/CRound.v ===== *)
(** * How far C's floating point rounds

    The arithmetic of [CFloat] computes; this file says how close the result
    is to the exact one.  The value of a float is kept as an integer: the
    multiple of [2 ^ -fscale] it is, [fscale] being larger than the exponents
    of both formats ever get.  For every operation the sources use, the result
    has the sign of the exact value, is at most twice as large, and stays below
    any power of two the exact value stays below: in particular it does not
    overflow.  [round_aux_spec] is the lemma behind all of them; it follows the
    two shifts of [binary_round_aux]. *)

From Stdlib Require Import ZArith Lia.
From S2P Require Import Prelude.
From S2P Require Import CFloat.

(** The grid: every exponent that occurs is above [- fscale]. *)
Definition fscale : Z := 1200.

(** ** Powers of two and digits *)

Lemma pow2_pos n : 0 <= n → 0 < 2 ^ n.
Proof. intros. by apply Z.pow_pos_nonneg. Qed.

Lemma pow2_split a b : 0 <= a → 0 <= b → 2 ^ (a + b) = 2 ^ a * 2 ^ b.
Proof. intros. by apply Z.pow_add_r. Qed.

Lemma pow2_mono a b : 0 <= a <= b → 2 ^ a <= 2 ^ b.
Proof. intros. apply Z.pow_le_mono_r; lia. Qed.

Lemma digits2_bounds p :
  2 ^ (Z.pos (digits2_pos p) - 1) <= Z.pos p < 2 ^ Z.pos (digits2_pos p).
Proof.
  induction p as [p IH|p IH|]; simpl digits2_pos; [| |by vm_compute];
    rewrite Pos2Z.inj_succ, ?(Z.pow_succ_r 2 (Z.pos _)) by lia;
    replace (Z.succ (Z.pos (digits2_pos p)) - 1) with (Z.succ (Z.pos (digits2_pos p) - 1)) by lia;
    rewrite Z.pow_succ_r by lia; lia.
Qed.

Lemma digits2_le p n : 0 <= n → Z.pos p < 2 ^ n → Z.pos (digits2_pos p) <= n.
Proof.
  intros Hn Hp. destruct (Z.le_gt_cases (Z.pos (digits2_pos p)) n) as [|Hlt]; [done|].
  pose proof (digits2_bounds p). pose proof (pow2_mono n (Z.pos (digits2_pos p) - 1)). lia.
Qed.

Lemma Zdigits2_nonneg m : 0 <= m → 0 <= Zdigits2 m ∧ m < 2 ^ Zdigits2 m.
Proof.
  intros Hm. destruct m as [|p|p]; [done| |lia]. simpl. pose proof (digits2_bounds p). lia.
Qed.

Lemma Zdigits2_le m n : 0 <= n → 0 <= m < 2 ^ n → Zdigits2 m <= n.
Proof. intros Hn Hm. destruct m as [|p|p]; [done|apply digits2_le; lia|lia]. Qed.

(** ** Where the exact value lies

    [located N D m l]: the quotient [N / D] has integer part [m], and [l] says
    how the rest compares with one half. *)
Definition loc_ok (D r : Z) (l : location) : Prop :=
  match l with
  | loc_Exact => r = 0
  | loc_Inexact Lt => 0 < r ∧ 2 * r < D
  | loc_Inexact Eq => 2 * r = D
  | loc_Inexact Gt => D < 2 * r ∧ r < D
  end.

Definition located (N D m : Z) (l : location) : Prop :=
  0 < D ∧ 0 <= m ∧ ∃ r, N = D * m + r ∧ loc_ok D r l.

Lemma located_shr_1 N D mrs :
  located N D (shr_m mrs) (loc_of_shr_record mrs) →
  located N (D * 2) (shr_m (shr_1 mrs)) (loc_of_shr_record (shr_1 mrs)) ∧
  shr_m (shr_1 mrs) = shr_m mrs / 2.
Proof.
  destruct mrs as [m r s]. intros (HD & Hm & q & -> & Hq). simpl in Hm, Hq.
  assert (0 <= q < D) as Hqb by (destruct r, s; simpl in Hq; lia).
  destruct m as [|[p|p|]|p]; [..|lia];
    (split; [split; [lia|split; [simpl; lia|]]|]).
  - exists q. split; [simpl; lia|]. destruct r, s; simpl in *; lia.
  - reflexivity.
  - exists (D + q). split; [simpl; lia|]. destruct r, s; simpl in *; lia.
  - apply Z.div_unique with 1; simpl; lia.
  - exists q. split; [simpl; lia|]. destruct r, s; simpl in *; lia.
  - apply Z.div_unique with 0; simpl; lia.
  - exists (D + q). split; [simpl; lia|]. destruct r, s; simpl in *; lia.
  - reflexivity.
Qed.

Lemma iter_pos_comm {A} (f : A → A) n x :
  SpecFloat.iter_pos f n (f x) = f (SpecFloat.iter_pos f n x).
Proof. revert x. induction n as [n IH|n IH|]; intros x; simpl; by rewrite ?IH. Qed.

Lemma iter_pos_succ {A} (f : A → A) n x :
  SpecFloat.iter_pos f (Pos.succ n) x = SpecFloat.iter_pos f n (f x).
Proof.
  revert x. induction n as [n IH|n IH|]; intros x; simpl; [|done..].
  by rewrite !IH, !iter_pos_comm.
Qed.

Lemma located_iter N D n mrs :
  located N D (shr_m mrs) (loc_of_shr_record mrs) →
  let mrs' := SpecFloat.iter_pos shr_1 n mrs in
  located N (D * 2 ^ Z.pos n) (shr_m mrs') (loc_of_shr_record mrs') ∧
  shr_m mrs' = shr_m mrs / 2 ^ Z.pos n.
Proof.
  revert D mrs. induction n as [|n IH] using Pos.peano_ind; intros D mrs H.
  - by apply located_shr_1.
  - cbv zeta. rewrite iter_pos_succ. apply located_shr_1 in H as [H1 H2].
    destruct (IH _ _ H1) as [H3 H4]. rewrite H4, H2, Pos2Z.inj_succ, Z.pow_succ_r by lia.
    rewrite Z.div_div by lia. split; [|done].
    replace (D * (2 * 2 ^ Z.pos n)) with (D * 2 * 2 ^ Z.pos n) by ring.
    by rewrite <- Z.div_div, <- H2, <- H4 by lia.
Qed.

Lemma located_of_loc N D m l :
  located N D m l →
  located N D (shr_m (shr_record_of_loc m l)) (loc_of_shr_record (shr_record_of_loc m l)).
Proof. by destruct l as [|[]]. Qed.

(** Shifting to the right by [n] (not at all when [n] is negative). *)
Lemma located_shr N D m l e n mrs' e' :
  located N D m l → shr (shr_record_of_loc m l) e n = (mrs', e') →
  e' = e + Z.max 0 n ∧ shr_m mrs' = m / 2 ^ Z.max 0 n ∧
  located N (D * 2 ^ Z.max 0 n) (shr_m mrs') (loc_of_shr_record mrs').
Proof.
  intros H%located_of_loc. assert (shr_m (shr_record_of_loc m l) = m) as Em by by destruct l as [|[]].
  destruct n as [|n|n]; simpl; intros [= <- <-].
  - rewrite Z.mul_1_r, Z.div_1_r. auto with lia.
  - apply (located_iter _ _ n) in H as [H1 H2]. rewrite Em in H2. auto.
  - rewrite Z.mul_1_r, Z.div_1_r. auto with lia.
Qed.

(** Rounding to nearest: off by at most half a unit. *)
Lemma rne_near N D m l :
  located N D m l →
  m <= round_nearest_even m l <= m + 1 ∧ 2 * Z.abs (D * round_nearest_even m l - N) <= D ∧
  (l = loc_Exact → N = D * round_nearest_even m l).
Proof.
  intros (HD & Hm & r & -> & Hr).
  destruct l as [|[]]; simpl in *; [|destruct (Z.even m)|..]; (split; [lia|split; [lia|intros ?; simplify_eq; lia]]).
Qed.

(** ** [binary_round_aux] *)
Section format.
Context (prec emax : Z).
Hypothesis Hprec : 1 < prec.
Hypothesis Hscale : - fscale <= emin prec emax.

(** The value of a finite float whose exponent is at least [lo]. *)
Definition has_value (lo : Z) (x : spec_float) (v : Z) : Prop :=
  match x with
  | S754_zero _ => v = 0
  | S754_finite s m e => lo <= e ∧ v = cond_Zopp s (Z.pos m * 2 ^ (e + fscale))
  | _ => False
  end.

Lemma has_value_weaken lo lo' x v : lo' <= lo → has_value lo x v → has_value lo' x v.
Proof. destruct x; simpl; intuition lia. Qed.

Lemma fexp_ge e : emin prec emax <= fexp prec emax e.
Proof. unfold fexp. lia. Qed.

(** The second shift is exact: it only renormalises [2 ^ prec]. *)
Lemma shr_fexp_exact m e mrs' e' :
  0 <= m <= 2 ^ prec → emin prec emax <= e →
  shr_fexp prec emax m e loc_Exact = (mrs', e') →
  e <= e' ∧ 0 <= shr_m mrs' ∧ m = shr_m mrs' * 2 ^ (e' - e).
Proof.
  intros Hm He Hs. unfold shr_fexp in Hs.
  assert (located m 1 m loc_Exact) as Hl by (split; [lia|split; [lia|exists 0; simpl; lia]]).
  destruct (located_shr _ _ _ _ _ _ _ _ Hl Hs) as (-> & Em & _).
  set (n := fexp prec emax (Zdigits2 m + e) - e) in *.
  assert (2 ^ prec = 2 ^ (prec - 1) * 2) as Hp.
  { rewrite Z.mul_comm, <- Z.pow_succ_r by lia. f_equal. lia. }
  assert (n <= 0 ∨ (n = 1 ∧ m = 2 ^ (prec - 1) * 2)) as [Hn|[-> ->]].
  { destruct (Z.le_gt_cases n 0) as [|Hn]; [by left|right].
    pose proof (Zdigits2_le m (prec + 1)) as Hd. rewrite Z.pow_add_r in Hd by lia.
    pose proof (Zdigits2_le m prec). unfold n, fexp in *. lia. }
  - rewrite Z.max_l in * by lia. rewrite Z.div_1_r in Em. rewrite Em.
    replace (e + 0 - e) with 0 by lia. lia.
  - replace (e + Z.max 0 1 - e) with 1 by lia. rewrite Em, Z.div_mul by lia.
    pose proof (pow2_pos (prec - 1)). lia.
Qed.

(** The first shift makes the mantissa fit. *)
Lemma shr_fexp_fits N D m e l mrs' e' :
  located N D m l → shr_fexp prec emax m e l = (mrs', e') →
  Z.max e (emin prec emax) <= e' ∧ shr_m mrs' < 2 ^ prec ∧
  located N (D * 2 ^ (e' - e)) (shr_m mrs') (loc_of_shr_record mrs') ∧
  (e' = e ∨ e' = emin prec emax ∨ (0 < m ∧ 2 ^ (e' - e) <= m)).
Proof.
  intros Hl Hs. assert (0 <= m) as Hm by apply Hl. unfold shr_fexp in Hs.
  destruct (located_shr _ _ _ _ _ _ _ _ Hl Hs) as (-> & Em & Hl').
  set (n := fexp prec emax (Zdigits2 m + e) - e) in *.
  replace (e + Z.max 0 n - e) with (Z.max 0 n) by lia.
  destruct (Zdigits2_nonneg m Hm) as [Hd0 Hd]. pose proof (fexp_ge (Zdigits2 m + e)).
  split; [lia|]. split; [|split; [done|]].
  - rewrite Em. apply Z.div_lt_upper_bound; [apply pow2_pos; lia|].
    rewrite <- Z.pow_add_r by lia. eapply Z.lt_le_trans; [exact Hd|].
    apply pow2_mono. unfold n, fexp. lia.
  - destruct (Z.le_gt_cases n 0) as [|Hn]; [left; lia|right].
    destruct (Z.le_gt_cases (Zdigits2 m + e - prec) (emin prec emax)) as [|Hgt];
      [left; unfold n, fexp in *; lia|right].
    destruct m as [|p|p]; [|split; [lia|]|lia].
    { exfalso. unfold n, fexp in Hn. simpl Zdigits2 in *. lia. }
    pose proof (digits2_bounds p) as [Hb _]. etrans; [|exact Hb]. apply pow2_mono.
    unfold n, fexp in *. simpl in *. lia.
Qed.

(** The nearest multiple of the grid, in units of [2 ^ - fscale]. *)
Lemma near_scaled N D ex e' m v :
  0 < D → - fscale <= ex <= e' → N * 2 ^ (ex + fscale) = D * v →
  2 * Z.abs (D * 2 ^ (e' - ex) * m - N) <= D * 2 ^ (e' - ex) →
  2 * Z.abs (2 ^ (e' + fscale) * m - v) <= 2 ^ (e' + fscale).
Proof.
  intros HD He Hv Hnear. pose proof (pow2_pos (ex + fscale)) as HP.
  assert (2 ^ (e' + fscale) = 2 ^ (e' - ex) * 2 ^ (ex + fscale)) as Eg.
  { rewrite <- Z.pow_add_r by lia. f_equal. lia. }
  set (P := 2 ^ (ex + fscale)) in *. set (h := 2 ^ (e' - ex)) in *. rewrite Eg.
  apply (Z.mul_le_mono_pos_l _ _ D); [done|].
  replace (D * (2 * Z.abs (h * P * m - v))) with (2 * Z.abs (D * h * m - N) * P).
  - replace (D * (h * P)) with (D * h * P) by ring. apply Z.mul_le_mono_pos_r; lia.
  - replace (D * (2 * Z.abs (h * P * m - v))) with (2 * (Z.abs D * Z.abs (h * P * m - v))) by lia.
    rewrite <- Z.abs_mul. replace (D * (h * P * m - v)) with ((D * h * m - N) * P) by lia.
    rewrite Z.abs_mul. lia.
Qed.

(** Rounding on a grid of step [g] does not pass a multiple of it. *)
Lemma near_below g m v t : 0 < g → 2 * Z.abs (g * m - v) <= g → v <= g * t → m <= t.
Proof. intros Hg Hn Hv. destruct (Z.le_gt_cases m t); [done|nia]. Qed.

Lemma near_double g m v : 0 < g → 0 <= m → 0 <= v → 2 * Z.abs (g * m - v) <= g → g * m <= 2 * v.
Proof. intros. destruct (Z.eq_dec m 0) as [->|]; nia. Qed.

Lemma le_mul_pos p g : 0 <= g → 1 <= p → g <= p * g.
Proof. nia. Qed.

(** Rounding stays below a power of two: either the power is on the grid, or
    the exact value would be above it. *)
Lemma near_pow2 e k m v :
  - fscale <= e → - fscale <= k → v <= 2 ^ (k + fscale) →
  2 * Z.abs (2 ^ (e + fscale) * m - v) <= 2 ^ (e + fscale) →
  e <= k ∨ 2 ^ (e + fscale) <= v → 2 ^ (e + fscale) * m <= 2 ^ (k + fscale).
Proof.
  intros He Hk Hv Hn Hc. assert (e <= k) as Hek.
  { destruct Hc as [|Hc]; [done|]. apply Z.nlt_ge. intros Hlt.
    pose proof (Z.pow_lt_mono_r 2 (k + fscale) (e + fscale)). lia. }
  assert (2 ^ (k + fscale) = 2 ^ (e + fscale) * 2 ^ (k - e)) as Et.
  { rewrite <- Z.pow_add_r by lia. f_equal. lia. }
  pose proof (pow2_pos (e + fscale) ltac:(lia)). rewrite Et in *.
  apply Z.mul_le_mono_nonneg_l; [lia|]. by eapply near_below.
Qed.

(** The grid of the first shift is fine enough for that. *)
Lemma grid_reaches ex e' k mx v :
  - fscale <= ex <= e' → mx * 2 ^ (ex + fscale) <= v → emin prec emax <= k → 0 < mx ∨ ex <= k →
  e' = ex ∨ e' = emin prec emax ∨ (0 < mx ∧ 2 ^ (e' - ex) <= mx) →
  e' <= k ∨ 2 ^ (e' + fscale) <= v.
Proof.
  intros He Hlow Hk Hmx Hcase. pose proof (pow2_pos (ex + fscale) ltac:(lia)).
  destruct (Z.le_gt_cases e' k) as [|Hek]; [by left|right].
  destruct Hcase as [->|[->|[Hm1 Hm2]]]; [|lia|].
  - pose proof (le_mul_pos mx (2 ^ (ex + fscale))). lia.
  - replace (e' + fscale) with ((e' - ex) + (ex + fscale)) by lia.
    rewrite Z.pow_add_r by lia. etrans; [|exact Hlow]. apply Z.mul_le_mono_nonneg_r; lia.
Qed.

(** What the sources rely on: the result has a value, no larger than twice
    the exact value [v] (in units of [2 ^ - fscale]) and below every power of
    two [v] is below. *)
Lemma round_aux_spec sx N D mx ex lx v k :
  located N D mx lx → - fscale <= ex → N * 2 ^ (ex + fscale) = D * v →
  v <= 2 ^ (k + fscale) → emin prec emax <= k <= emax - prec → 0 < mx ∨ ex <= k →
  ∃ w, has_value (emin prec emax) (binary_round_aux prec emax sx mx ex lx) (cond_Zopp sx w) ∧
    0 <= w <= 2 ^ (k + fscale) ∧ w <= 2 * v.
Proof.
  intros Hl Hex Hv Hvk Hk Hmx. unfold binary_round_aux.
  destruct (shr_fexp prec emax mx ex lx) as [mrs' e'] eqn:E1.
  destruct (shr_fexp_fits _ _ _ _ _ _ _ Hl E1) as (He' & Hfit & Hl' & Hcase).
  destruct (rne_near _ _ _ _ Hl') as (Hr & Hnear & _).
  set (m' := round_nearest_even _ _) in *.
  assert (0 <= shr_m mrs') as Hm0 by apply Hl'.
  destruct (shr_fexp prec emax m' e' loc_Exact) as [mrs'' e''] eqn:E2.
  destruct (shr_fexp_exact m' e' mrs'' e'' ltac:(lia) ltac:(lia) E2) as (He'' & Hm'' & Em'').
  assert (0 < D ∧ D * mx <= N) as [HD HN].
  { destruct Hl as (? & _ & r & -> & Hr'). split; [done|]. destruct lx as [|[]]; simpl in Hr'; lia. }
  pose proof (near_scaled N D ex e' m' v HD ltac:(lia) Hv Hnear) as Hs.
  pose proof (pow2_pos (ex + fscale)). pose proof (pow2_pos (e' + fscale) ltac:(lia)) as Hg.
  assert (mx * 2 ^ (ex + fscale) <= v) as Hlow.
  { apply (Z.mul_le_mono_pos_l _ _ D); [done|]. rewrite <- Hv, Z.mul_assoc.
    apply Z.mul_le_mono_nonneg_r; lia. }
  assert (0 <= v) as Hv0 by (destruct Hl as (? & ? & _); assert (0 <= mx * 2 ^ (ex + fscale)) by (apply Z.mul_nonneg_nonneg; lia); lia).
  exists (2 ^ (e' + fscale) * m').
  assert (2 ^ (e' + fscale) * m' = shr_m mrs'' * 2 ^ (e'' + fscale)) as Ew.
  { rewrite Em''. replace (e'' + fscale) with ((e' + fscale) + (e'' - e')) by lia.
    rewrite (Z.pow_add_r 2 (e' + fscale)) by lia. ring. }
  assert (2 ^ (e' + fscale) * m' <= 2 ^ (k + fscale)) as Hwk.
  { apply (near_pow2 e' k m' v); [lia|lia|done|done|].
    apply (grid_reaches ex e' k mx v); auto with lia. }
  split; [|split; [split; [apply Z.mul_nonneg_nonneg; lia|done]|apply near_double; lia || done]].
  rewrite Ew in *. destruct (shr_m mrs'') as [|p|p]; [by destruct sx| |lia].
  assert (e'' <= k) as Hek.
  { destruct (Z.le_gt_cases e'' k); [done|].
    pose proof (Z.pow_lt_mono_r 2 (k + fscale) (e'' + fscale)).
    pose proof (le_mul_pos (Z.pos p) (2 ^ (e'' + fscale))). lia. }
  rewrite (proj2 (Z.leb_le _ _)) by lia. simpl. auto with lia.
Qed.

(** [rounded k v w]: [w] is what [v] may round to when [v] is below [2 ^ k]. *)
Definition rounded (k v w : Z) : Prop :=
  Z.abs w <= 2 ^ (k + fscale) ∧ Z.abs w <= 2 * Z.abs v ∧
  (0 <= v → 0 <= w) ∧ (v <= 0 → w <= 0).

Lemma rounded_refl k v : Z.abs v <= 2 ^ (k + fscale) → rounded k v v.
Proof. unfold rounded. lia. Qed.

Lemma rounded_cond k s v w :
  0 <= w <= 2 ^ (k + fscale) → w <= 2 * v → rounded k (cond_Zopp s v) (cond_Zopp s w).
Proof. unfold rounded. destruct s; simpl; lia. Qed.

Definition in_format (k : Z) : Prop := emin prec emax <= k <= emax - prec.

Lemma iter_xO m d : Z.pos (Pos.iter xO m d) = Z.pos m * 2 ^ Z.pos d.
Proof.
  induction d as [|d IH] using Pos.peano_ind; [simpl; lia|].
  rewrite Pos.iter_succ, Pos2Z.inj_xO, IH, Pos2Z.inj_succ, Z.pow_succ_r by lia. ring.
Qed.

Lemma shl_align_value m e e' mz ez :
  shl_align m e e' = (mz, ez) → - fscale <= e → - fscale <= e' →
  ez = Z.min e e' ∧ Z.pos mz * 2 ^ (ez + fscale) = Z.pos m * 2 ^ (e + fscale).
Proof.
  unfold shl_align. intros H He He'. destruct (e' - e) as [|d|d] eqn:Ed; simplify_eq; [lia|lia|].
  split; [lia|]. rewrite iter_xO, <- Z.mul_assoc, <- Z.pow_add_r by lia. do 2 f_equal. lia.
Qed.

Lemma located_exact m : 0 <= m → located m 1 m loc_Exact.
Proof. intros. split; [lia|split; [lia|exists 0; simpl; lia]]. Qed.

Lemma round_spec s m e k :
  - fscale <= e → in_format k → Z.pos m * 2 ^ (e + fscale) <= 2 ^ (k + fscale) →
  ∃ w, has_value (emin prec emax) (binary_round prec emax s m e) w ∧
    rounded k (cond_Zopp s (Z.pos m * 2 ^ (e + fscale))) w.
Proof.
  intros He Hk Hv. unfold binary_round.
  pose proof (fexp_ge (Z.pos (digits2_pos m) + e)).
  destruct (shl_align _ _ _) as [mz ez] eqn:E.
  destruct (shl_align_value _ _ _ _ _ E) as [Hez Hmz]; [lia|lia|].
  destruct (round_aux_spec s (Z.pos mz) 1 (Z.pos mz) ez loc_Exact
              (Z.pos m * 2 ^ (e + fscale)) k) as (w & Hw & Hb & H2);
    [by apply located_exact|lia|lia|done|done|lia|].
  exists (cond_Zopp s w). auto using rounded_cond.
Qed.

Lemma normalize_spec m e s k :
  - fscale <= e → in_format k → Z.abs (m * 2 ^ (e + fscale)) <= 2 ^ (k + fscale) →
  ∃ w, has_value (emin prec emax) (binary_normalize prec emax m e s) w ∧
    rounded k (m * 2 ^ (e + fscale)) w.
Proof.
  intros He Hk Hv. pose proof (pow2_pos (e + fscale) ltac:(lia)).
  destruct m as [|m|m]; simpl binary_normalize.
  - exists 0. split; [done|]. apply rounded_refl. lia.
  - apply (round_spec false); auto. lia.
  - destruct (round_spec true m e k) as (w & Hw & Hr); [done|done|lia|].
    exists w. split; [done|]. simpl in Hr. by rewrite <- Z.mul_opp_l in Hr.
Qed.

(** Sums and differences. *)
Lemma aligned_sum s1 m1 e1 s2 m2 e2 :
  emin prec emax <= e1 → emin prec emax <= e2 →
  (cond_Zopp s1 (Z.pos (fst (shl_align m1 e1 (Z.min e1 e2)))) +
   cond_Zopp s2 (Z.pos (fst (shl_align m2 e2 (Z.min e1 e2))))) * 2 ^ (Z.min e1 e2 + fscale) =
  cond_Zopp s1 (Z.pos m1 * 2 ^ (e1 + fscale)) + cond_Zopp s2 (Z.pos m2 * 2 ^ (e2 + fscale)).
Proof.
  intros H1 H2.
  destruct (shl_align m1 e1 _) as [a1 b1] eqn:E1. destruct (shl_align m2 e2 _) as [a2 b2] eqn:E2.
  apply shl_align_value in E1 as [-> <-]; [|lia..]. apply shl_align_value in E2 as [-> <-]; [|lia..].
  replace (Z.min e1 (Z.min e1 e2)) with (Z.min e1 e2) by lia.
  replace (Z.min e2 (Z.min e1 e2)) with (Z.min e1 e2) by lia.
  destruct s1, s2; simpl fst; simpl cond_Zopp; ring.
Qed.

Lemma add_spec x y vx vy k :
  has_value (emin prec emax) x vx → has_value (emin prec emax) y vy → in_format k →
  Z.abs (vx + vy) <= 2 ^ (k + fscale) →
  ∃ w, has_value (emin prec emax) (SFadd prec emax x y) w ∧ rounded k (vx + vy) w.
Proof.
  intros Hx Hy Hk Hv.
  destruct x as [s1|s1| |s1 m1 e1], y as [s2|s2| |s2 m2 e2]; try done; simpl in Hx, Hy.
  - subst. exists 0. split; [by destruct s1, s2|by apply rounded_refl].
  - subst vx. exists vy. split; [done|by apply rounded_refl].
  - subst vy. rewrite Z.add_0_r in *. exists vx. split; [done|by apply rounded_refl].
  - destruct Hx as [Hx ->], Hy as [Hy ->]. rewrite <- aligned_sum in * by done.
    apply normalize_spec; [lia|done..].
Qed.

Lemma opp_value x v : has_value (emin prec emax) x v → has_value (emin prec emax) (SFopp x) (- v).
Proof.
  destruct x as [| | |s m e]; simpl; [lia|done..|]. intros [? ->]. destruct s; simpl; lia.
Qed.

(** Subtraction is addition of the opposite, up to the sign of zero. *)
Lemma sub_spec x y vx vy k :
  has_value (emin prec emax) x vx → has_value (emin prec emax) y vy → in_format k →
  Z.abs (vx - vy) <= 2 ^ (k + fscale) →
  ∃ w, has_value (emin prec emax) (SFsub prec emax x y) w ∧ rounded k (vx - vy) w.
Proof.
  intros Hx Hy Hk Hv. destruct (add_spec x (SFopp y) vx (- vy) k) as (w & Hw & Hr);
    [done|by apply opp_value|done|done|]. exists w. split; [|by rewrite <- Z.add_opp_r].
  destruct x as [[]|s1| |s1 m1 e1], y as [[]|s2| |s2 m2 e2]; try done. simpl in *.
  by destruct s2.
Qed.
End format.

(** ** The operations of the sources *)

Definition value32 : spec_float → Z → Prop := has_value (emin 24 128).
Definition value64 : spec_float → Z → Prop := has_value (emin 53 1024).

Ltac format := by (vm_compute; try split; try discriminate).

(** Values below [2 ^ 40]: far more than any of the sources meets, far less
    than either format holds. *)
Definition small_exp (k : Z) : Prop := 0 <= k <= 40.

Lemma small_format32 k : small_exp k → in_format 24 128 k.
Proof. unfold small_exp, in_format, emin. lia. Qed.

Lemma small_format64 k : small_exp k → in_format 53 1024 k.
Proof. unfold small_exp, in_format, emin. lia. Qed.

#[export] Hint Resolve small_format32 small_format64 : net.

Lemma f32_of_Z_value z k :
  small_exp k → Z.abs z <= 2 ^ k →
  ∃ w, value32 (f32_of_Z z) w ∧ rounded k (z * 2 ^ fscale) w.
Proof.
  intros Hk Hz. apply (normalize_spec 24 128); [format..|by apply small_format32|].
  unfold small_exp in Hk. rewrite Z.abs_mul, (Z.pow_add_r 2 k) by (unfold fscale; lia).
  rewrite (Z.abs_eq (2 ^ _)) by (apply Z.lt_le_incl, pow2_pos; unfold fscale; lia).
  apply Z.mul_le_mono_nonneg_r; [apply Z.lt_le_incl, pow2_pos; unfold fscale; lia|done].
Qed.

Lemma f32_add_value x y vx vy k :
  value32 x vx → value32 y vy → small_exp k → Z.abs (vx + vy) <= 2 ^ (k + fscale) →
  ∃ w, value32 (f32_add x y) w ∧ rounded k (vx + vy) w.
Proof. intros. apply add_spec; eauto with net; format. Qed.

Lemma f32_sub_value x y vx vy k :
  value32 x vx → value32 y vy → small_exp k → Z.abs (vx - vy) <= 2 ^ (k + fscale) →
  ∃ w, value32 (f32_sub x y) w ∧ rounded k (vx - vy) w.
Proof. intros. apply sub_spec; eauto with net; format. Qed.

Lemma f64_add_value x y vx vy k :
  value64 x vx → value64 y vy → small_exp k → Z.abs (vx + vy) <= 2 ^ (k + fscale) →
  ∃ w, value64 (f64_add x y) w ∧ rounded k (vx + vy) w.
Proof. intros. apply add_spec; eauto with net; format. Qed.

Lemma f64_of_f32_value x v k :
  value32 x v → small_exp k → Z.abs v <= 2 ^ (k + fscale) →
  ∃ w, value64 (f64_of_f32 x) w ∧ rounded k v w.
Proof.
  intros Hx Hk Hv. destruct x as [s|s| |s m e]; try done; simpl in Hx.
  - subst. exists 0. split; [done|by apply rounded_refl].
  - destruct Hx as [He ->]. unfold emin in He. apply round_spec; eauto with net; [format..|unfold fscale; lia|].
    destruct s; simpl in Hv; lia.
Qed.

Lemma f64_four : f64_of_Z 4 = S754_finite false (2 ^ 52) (-50).
Proof. vm_compute. reflexivity. Qed.

Lemma f64_times_four x v k :
  value64 x v → small_exp k → Z.abs (4 * v) <= 2 ^ (k + fscale) →
  ∃ w, value64 (f64_mul (f64_of_Z 4) x) w ∧ rounded k (4 * v) w.
Proof.
  intros Hx Hk Hv. rewrite f64_four. destruct x as [s|s| |s m e]; try done.
  - simpl in Hx. subst. exists 0. split; [done|by apply rounded_refl].
  - destruct Hx as [He ->]. unfold emin in He. set (u := Z.pos m * 2 ^ (e + fscale)) in *.
    replace (4 * cond_Zopp s u) with (cond_Zopp s (4 * u)) in * by (destruct s; simpl; lia).
    unfold f64_mul, SFmul. rewrite xorb_false_l.
    assert (Z.pos (2 ^ 52 * m) * 2 ^ (-50 + e + fscale) = 1 * (4 * u)) as Ev.
    { unfold u. replace (e + fscale) with ((-50 + e + fscale) + 50) by lia.
      rewrite (Z.pow_add_r _ (-50 + e + fscale)) by (unfold fscale; lia).
      change (Z.pos (2 ^ 52 * m)) with (2 ^ 52 * Z.pos m). ring. }
    destruct (round_aux_spec 53 1024 ltac:(format) ltac:(format) s
      (Z.pos (2 ^ 52 * m)) 1 (Z.pos (2 ^ 52 * m)) (-50 + e) loc_Exact (4 * u) k)
      as (w & Hw & Hb & H2); [by apply located_exact|unfold fscale; lia|done| |
        by apply small_format64|lia|].
    { destruct s; simpl in Hv; lia. }
    exists (cond_Zopp s w). auto using rounded_cond.
Qed.

(** [(float) x / 4]. *)
Lemma f32_four : f32_of_Z 4 = S754_finite false (2 ^ 23) (-21).
Proof. vm_compute. reflexivity. Qed.

Lemma new_location_even_ok D r :
  0 < D → Z.even D = true → 0 <= r < D → loc_ok D r (new_location D r).
Proof.
  intros HD He Hr. unfold new_location. rewrite He. unfold new_location_even.
  destruct (Z.eqb_spec r 0) as [->|Hne]; [done|]. simpl.
  destruct (Z.compare_spec (2 * r) D); lia.
Qed.

(** The quotient [SFdiv] computes before rounding. *)
Lemma div_four_core m e q ez l :
  SFdiv_core_binary 24 128 (Z.pos m) e (2 ^ 23) (-21) = (q, ez, l) → emin 24 128 <= e →
  ∃ N, located N (2 ^ 23) q l ∧ N * 2 ^ (ez + fscale) = 2 ^ 23 * (Z.pos m * 2 ^ (e - 2 + fscale)) ∧
    - fscale <= ez ∧ (0 < q ∨ ez <= 0).
Proof.
  unfold SFdiv_core_binary. intros H He.
  set (ez' := Z.min (fexp 24 128 _) (e - -21)) in H.
  assert (emin 24 128 <= ez' <= e + 21) as Hez.
  { unfold ez'. pose proof (fexp_ge 24 128 (Zdigits2 (Z.pos m) + e - (Zdigits2 (2 ^ 23) + -21))). lia. }
  set (s := e - -21 - ez') in H.
  assert (match s with Z.pos _ => Z.shiftl (Z.pos m) s | 0 => Z.pos m | Z.neg _ => 0 end
          = Z.pos m * 2 ^ s) as Es.
  { destruct s as [|p|p] eqn:Ep; [lia|by rewrite Z.shiftl_mul_pow2|unfold s in Ep; lia]. }
  rewrite Es in H. pose proof (Z.div_mod (Z.pos m * 2 ^ s) (2 ^ 23)) as Hdm.
  pose proof (Z.mod_pos_bound (Z.pos m * 2 ^ s) (2 ^ 23)) as Hr.
  unfold Z.div, Z.modulo in Hdm, Hr. destruct (Z.div_eucl _ _) as [q' r].
  injection H as <- <- <-.
  set (N := Z.pos m * 2 ^ s) in *. pose proof (pow2_pos s ltac:(lia)).
  assert (0 < N) by (apply Z.mul_pos_pos; lia). exists N.
  split; [|split; [|split; [unfold emin, fscale in *; lia|]]].
  - split; [lia|]. split; [lia|]. exists r. split; [lia|]. apply new_location_even_ok; lia || done.
  - unfold N. rewrite <- Z.mul_assoc, <- Z.pow_add_r by (unfold emin, fscale in *; lia).
    rewrite Z.mul_comm, Z.mul_assoc, (Z.mul_comm (2 ^ 23)), <- Z.mul_assoc.
    rewrite <- Z.pow_add_r by (unfold emin, fscale in *; lia). rewrite Z.mul_comm.
    do 2 f_equal. unfold s. lia.
  - destruct (Z.le_gt_cases ez' 0) as [|Hpos]; [by right|left].
    assert (2 ^ 47 <= N); [|lia]. unfold N.
    pose proof (digits2_bounds m) as [Hm _]. set (d := Z.pos (digits2_pos m)) in *.
    assert (48 - d <= s) as Hs.
    { unfold s, ez', fexp, emin in *. change (Zdigits2 (2 ^ 23)) with 24 in *.
      change (Zdigits2 (Z.pos m)) with d in *. lia. }
    transitivity (2 ^ (d - 1) * 2 ^ s); [|apply Z.mul_le_mono_nonneg_r; lia].
    rewrite <- Z.pow_add_r by lia. apply pow2_mono. lia.
Qed.

Lemma f32_div_four x v k :
  value32 x v → small_exp k → Z.abs v <= 2 ^ (k + fscale) →
  ∃ w v', value32 (f32_div x (f32_of_Z 4)) w ∧ rounded k v' w ∧ v = 4 * v'.
Proof.
  intros Hx Hk Hv. rewrite f32_four. destruct x as [s|s| |s m e]; try done.
  - simpl in Hx. subst. exists 0, 0. split; [done|]. split; [by apply rounded_refl|done].
  - destruct Hx as [He ->]. set (u := Z.pos m * 2 ^ (e - 2 + fscale)) in *.
    assert (Z.pos m * 2 ^ (e + fscale) = 4 * u) as Eu.
    { unfold u. replace (e + fscale) with ((e - 2 + fscale) + 2) by lia.
      rewrite (Z.pow_add_r _ (e - 2 + fscale)) by (unfold emin, fscale in *; lia). ring. }
    rewrite Eu in *. unfold f32_div, SFdiv. rewrite xorb_false_r.
    change (Z.pos (2 ^ 23)) with (2 ^ 23).
    destruct (SFdiv_core_binary 24 128 (Z.pos m) e (2 ^ 23) (-21)) as [[q ez] l] eqn:E.
    destruct (div_four_core _ _ _ _ _ E He) as (N & HN & Ev & Hez & Hq).
    assert (0 <= u) by (apply Z.mul_nonneg_nonneg; [lia|]; apply Z.pow_nonneg; lia).
    destruct (round_aux_spec 24 128 ltac:(format) ltac:(format) s N (2 ^ 23) q ez l u k)
      as (w & Hw & Hb & H2); [done|done|done| |by apply small_format32|unfold small_exp in *; lia|].
    { destruct s; simpl in Hv; lia. }
    exists (cond_Zopp s w), (cond_Zopp s u). split; [done|].
    split; [by apply rounded_cond|]. destruct s; simpl; lia.
Qed.

(** [(int) x] truncates. *)
Lemma int_of_float_value lo x v :
  - fscale <= lo → has_value lo x v → Z.abs v <= 2 ^ (30 + fscale) →
  int_of_float x = Some (Z.quot v (2 ^ fscale)).
Proof.
  intros Hlo Hx Hv. destruct x as [s|s| |s m e]; try done; simpl in Hx.
  - subst. by rewrite Z.quot_0_l by (apply Z.pow_nonzero; unfold fscale; lia).
  - destruct Hx as [He ->]. pose proof (pow2_pos fscale ltac:(unfold fscale; lia)) as HK.
    assert (∀ u, 0 <= u → (if s then - (u / 2 ^ fscale) else u / 2 ^ fscale) =
                          Z.quot (cond_Zopp s u) (2 ^ fscale)) as Hq.
    { intros u Hu. destruct s; simpl; rewrite ?Z.quot_opp_l, Z.quot_div_nonneg by lia; done. }
    assert ((if 0 <=? e then Z.pos m * 2 ^ e else Z.pos m / 2 ^ (- e)) =
            Z.pos m * 2 ^ (e + fscale) / 2 ^ fscale) as Ea.
    { destruct (Z.leb_spec 0 e).
      - rewrite Z.pow_add_r, Z.mul_assoc, Z.div_mul by (unfold fscale in *; lia). done.
      - replace fscale with (- e + (e + fscale)) at 2 by lia.
        rewrite (Z.pow_add_r 2 (- e)), Z.div_mul_cancel_r by (apply Z.pow_nonzero || idtac; lia). done. }
    unfold int_of_float. rewrite Ea, Hq by (apply Z.mul_nonneg_nonneg; [lia|apply Z.pow_nonneg; lia]).
    set (V := cond_Zopp s _) in *. rewrite Z.pow_add_r in Hv by (unfold fscale; lia).
    assert (Z.abs (Z.quot V (2 ^ fscale)) <= 2 ^ 30) as Hb.
    { rewrite <- Z.quot_abs by lia. rewrite (Z.abs_eq (2 ^ fscale)) by lia.
      rewrite Z.quot_div_nonneg by lia. apply Z.div_le_upper_bound; lia. }
    rewrite (proj2 (Z.leb_le _ _)), (proj2 (Z.ltb_lt _ _)) by lia. done.
Qed.
