(* ===== verification/CScan.v ===== *)
(** * Formatted input

    The conversions of [fscanf] the programs use: [%s], [%d] and [%f], each on
    the bytes of a file not read so far.  A conversion that finds nothing
    assigns nothing.  The hexadecimal, infinite and NaN forms of [%f] are left
    out. *)

From Stdlib Require Import Strings.Byte.
From S2P Require Import Prelude.
From S2P Require Import CMem.
From S2P Require Import CText.
From S2P Require Import CFloat.

Definition is_space (b : byte) : bool :=
  let z := byte.unsigned b in (z =? 32) || ((9 <=? z) && (z <=? 13)).

Fixpoint skip_space (s : bytes) : bytes :=
  match s with
  | b :: s' => if is_space b then skip_space s' else s
  | [] => []
  end.

(** The bytes up to the next white space, and the rest. *)
Fixpoint word_of (s : bytes) : bytes * bytes :=
  match s with
  | b :: s' => if is_space b then ([], s) else let '(w, r) := word_of s' in (b :: w, r)
  | [] => ([], [])
  end.

(** [%s] *)
Definition scan_s (s : bytes) : option bytes * bytes :=
  match word_of (skip_space s) with
  | ([], r) => (None, r)
  | (w, r) => (Some w, r)
  end.

Definition sign_of (s : bytes) : bool * bytes :=
  match s with
  | b :: s' =>
      if bool_decide (b = byte.of_Z 45) then (true, s')
      else if bool_decide (b = byte.of_Z 43) then (false, s') else (false, s)
  | [] => (false, [])
  end.

Definition starts_with_digit (s : bytes) : bool :=
  match s with b :: _ => bool_decide (is_Some (digit_val b)) | [] => false end.

(** [%d]: the value [strtol] gives, converted to [int]. *)
Definition scan_d (s : bytes) : option Z * bytes :=
  let '(neg, t) := sign_of (skip_space s) in
  if starts_with_digit t then
    let '(v, r) := parse_digits t 0 in
    (Some (i32 (if (neg : bool) then Z.max LONG_MIN (- v) else Z.min LONG_MAX v)), r)
  else (None, t).

(** The [float] nearest to [m * 10 ^ e]. *)
Definition f32_of_decimal (neg : bool) (m e : Z) : spec_float :=
  match m with
  | Zpos p =>
      if 0 <=? e then binary_round 24 128 neg (p * Z.to_pos (10 ^ e)) 0
      else SFdiv 24 128 (S754_finite neg p 0) (S754_finite false (Z.to_pos (10 ^ (- e))) 0)
  | _ => S754_zero neg
  end.

(** The digits after a point: the value with them appended, and their number. *)
Definition fraction (v : Z) (s : bytes) : Z * Z * bytes :=
  match s with
  | b :: s' =>
      if bool_decide (b = byte.of_Z 46) then
        let '(v', r) := parse_digits s' v in (v', Z.of_nat (length s' - length r), r)
      else (v, 0, s)
  | [] => (v, 0, [])
  end.

(** An exponent, if there is one; [None] if it has no digits. *)
Definition exponent (s : bytes) : option Z * bytes :=
  match s with
  | b :: s' =>
      if bool_decide (b = byte.of_Z 101 ∨ b = byte.of_Z 69) then
        let '(neg, t) := sign_of s' in
        if starts_with_digit t then
          let '(v, r) := parse_digits t 0 in (Some (if (neg : bool) then - v else v), r)
        else (None, t)
      else (Some 0, s)
  | [] => (Some 0, [])
  end.

(** [%f] *)
Definition scan_f (s : bytes) : option spec_float * bytes :=
  let '(neg, t) := sign_of (skip_space s) in
  let '(v, t1) := parse_digits t 0 in
  let '(v, k, t2) := fraction v t1 in
  if (length t - length t1 =? 0)%nat && (k =? 0) then (None, t2)
  else
    let '(e, r) := exponent t2 in
    match e with
    | Some e => (Some (f32_of_decimal neg v (e - k)), r)
    | None => (None, r)
    end.

(** ** Reading back what was printed *)

Definition newline_ends (r : bytes) : Prop := ∃ r', r = x0a :: r'.

Definition no_space (w : bytes) : Prop := Forall (λ b, is_space b = false) w.

Lemma skip_space_word w r : no_space w → w ≠ [] → skip_space (w ++ r) = w ++ r.
Proof. intros Hw Hne. destruct w as [|b w]; [done|]. inversion_clear Hw as [|? ? Hb _]. cbn. by rewrite Hb. Qed.

Lemma word_of_app w r : no_space w → newline_ends r → word_of (w ++ r) = (w, r).
Proof. intros Hw [r' ->]. induction Hw as [|b w Hb _ IH]; cbn; [done|]. by rewrite Hb, IH. Qed.

(** A word in front of a line end, after blanks. *)
Lemma scan_s_word w r : no_space w → w ≠ [] → newline_ends r → scan_s (w ++ r) = (Some w, r).
Proof.
  intros Hw Hne Hr. unfold scan_s. rewrite skip_space_word, word_of_app by done. by destruct w.
Qed.

Lemma skip_newline s : skip_space (x0a :: s) = skip_space s.
Proof. done. Qed.
Lemma scan_s_newline s : scan_s (x0a :: s) = scan_s s.
Proof. done. Qed.
Lemma scan_d_newline s : scan_d (x0a :: s) = scan_d s.
Proof. done. Qed.
Lemma scan_f_newline s : scan_f (x0a :: s) = scan_f s.
Proof. done. Qed.

Lemma digit_facts d :
  0 <= d < 10 →
  is_space (digit d) = false ∧ digit d ≠ byte.of_Z 45 ∧ digit d ≠ byte.of_Z 43 ∧ digit d ≠ byte.of_Z 46.
Proof.
  intros H. assert (d ∈ seqZ 0 10) as Hd by (apply elem_of_seqZ; lia).
  clear H. revert d Hd. apply Forall_forall. by repeat constructor.
Qed.

(** The first digit of a number. *)
Lemma dec_u_head n : 0 <= n → ∃ d w, 0 <= d < 10 ∧ dec_u n = digit d :: w.
Proof.
  intros Hn. pose proof (dec_loop_digits (S (Z.to_nat (Z.log2 n))) n Hn) as H. fold (dec_u n) in H.
  destruct (dec_u n) as [|b w] eqn:E.
  { pose proof (parse_dec_u n [x0a] Hn) as Hp. rewrite E in Hp. unfold dec_u in E. cbn in E.
    destruct (n <? 10); [done|]. by destruct (dec_loop _ _). }
  inversion_clear H as [|? ? (d & Hd & ->) _]. by exists d, w.
Qed.

Lemma newline_no_digit r : newline_ends r → ∀ b r', r = b :: r' → digit_val b = None.
Proof. intros [r' ->] b r'' [= <- _]. by vm_compute. Qed.

Lemma dec_u_start n r :
  0 <= n → skip_space (dec_u n ++ r) = dec_u n ++ r ∧ sign_of (dec_u n ++ r) = (false, dec_u n ++ r) ∧
    starts_with_digit (dec_u n ++ r) = true.
Proof.
  intros Hn. destruct (dec_u_head n Hn) as (d & w & Hd & ->).
  destruct (digit_facts d Hd) as (Hs & Hm & Hp & _). cbn [app skip_space sign_of starts_with_digit].
  rewrite Hs, !bool_decide_eq_false_2 by done. split; [done|]. split; [done|].
  rewrite digit_val_digit by done. by apply bool_decide_eq_true.
Qed.

(** [%d] reads back what [%d] printed. *)
Lemma scan_d_dec z r : is_i32 z → newline_ends r → scan_d (dec_d z ++ r) = (Some z, r).
Proof.
  intros Hz Hr. unfold scan_d, dec_d. destruct (Z.ltb_spec z 0) as [Hneg|Hpos].
  - cbn [app skip_space]. change (is_space (byte.of_Z 45)) with false. cbn [sign_of].
    rewrite bool_decide_eq_true_2 by done. destruct (dec_u_start (- z) r ltac:(lia)) as (_ & _ & ->).
    rewrite parse_dec_u by (lia || by apply newline_no_digit). rewrite Z.max_r, Z.opp_involutive, i32_small; try done.
    unfold is_i32, LONG_MIN in *. lia.
  - destruct (dec_u_start z r Hpos) as (-> & -> & ->).
    rewrite parse_dec_u by (done || by apply newline_no_digit). rewrite Z.min_r, i32_small; try done.
    unfold is_i32, LONG_MAX in *. lia.
Qed.

Lemma parse_digits_all ds r acc :
  Forall (λ d, 0 <= d < 10) ds → newline_ends r →
  parse_digits (map digit ds ++ r) acc = (fold_left (λ v d, v * 10 + d) ds acc, r).
Proof.
  intros Hds [r' ->]. revert acc. induction Hds as [|d ds Hd _ IH]; intros acc; cbn [map app fold_left]; [done|].
  cbn [parse_digits]. by rewrite digit_val_digit.
Qed.

(** [%f] of a number with decimal places [ds]. *)
Lemma scan_f_point n ds r :
  0 <= n → Forall (λ d, 0 <= d < 10) ds → newline_ends r →
  scan_f (dec_u n ++ byte.of_Z 46 :: map digit ds ++ r) =
    (Some (f32_of_decimal false (fold_left (λ v d, v * 10 + d) ds n) (- Z.of_nat (length ds))), r).
Proof.
  intros Hn Hds Hr. unfold scan_f. destruct (dec_u_start n (byte.of_Z 46 :: map digit ds ++ r) Hn) as (-> & -> & _).
  rewrite parse_dec_u by (done || by intros b r' [= <- _]). cbn [fraction].
  rewrite bool_decide_eq_true_2, parse_digits_all by done.
  destruct (dec_u_head n Hn) as (d & w & _ & Ew).
  rewrite (length_app (dec_u n)), (proj2 (Nat.eqb_neq _ 0)) by (rewrite Ew; cbn [length]; lia). cbn [andb].
  destruct Hr as [r' ->]. cbn [exponent]. rewrite bool_decide_eq_false_2 by (by intros [E|E]).
  do 3 f_equal. rewrite length_app, length_map. lia.
Qed.
