(* ===== verification/Rtt.v ===== *)
(** * The retransmission timer (hw2/rtt.c, hw2/unprtt.h)

    [rtt_info] keeps the smoothed round-trip estimators in [float]s and the
    timeout in an [int] number of milliseconds.  [Gettimeofday] is an input:
    the functions that call it take the [timeval] it returned. *)

From S2P Require Import Prelude.
From S2P Require Import CFloat.
From S2P Require Import CRound.

Record timeval := mk_timeval { tv_sec : Z; tv_usec : Z }.

Record rtt_info := mk_rtt_info {
  rtt_rtt : Z;              (* int *)
  rtt_srtt : spec_float;    (* float *)
  rtt_rttvar : spec_float;  (* float *)
  rtt_rto : Z;              (* int *)
  rtt_nrexmt : Z;           (* int *)
  rtt_base : Z              (* uint32_t *)
}.

Definition RTT_RXTMIN : Z := 1000.
Definition RTT_RXTMAX : Z := 3000.
Definition RTT_MAXNREXMT : Z := 12.

(** The macro [RTT_RTOCALC]: a [double] expression. *)
Definition RTT_RTOCALC (p : rtt_info) : spec_float :=
  f64_add (f64_of_f32 (rtt_srtt p)) (f64_mul (f64_of_Z 4) (f64_of_f32 (rtt_rttvar p))).

Definition rtt_minmax (rto : Z) : Z :=
  if rto <? RTT_RXTMIN then RTT_RXTMIN
  else if RTT_RXTMAX <? rto then RTT_RXTMAX
  else rto.

(** The float constant 0.75. *)
Definition three_quarters : spec_float := f32_div (f32_of_Z 3) (f32_of_Z 4).

(** [rtt_nrexmt] is not set: it keeps the value of the memory. *)
Definition rtt_init (p : rtt_info) (now : timeval) : option rtt_info :=
  let p := mk_rtt_info 0 (f32_of_Z 0) three_quarters (rtt_rto p) (rtt_nrexmt p)
             (u32 (tv_sec now)) in
  rto ← int_of_float (RTT_RTOCALC p);
  Some (mk_rtt_info (rtt_rtt p) (rtt_srtt p) (rtt_rttvar p) (rtt_minmax rto)
          (rtt_nrexmt p) (rtt_base p)).

Definition rtt_ts (p : rtt_info) (now : timeval) : Z :=
  u32 ((tv_sec now - rtt_base p) * 1000 + Z.quot (tv_usec now) 1000).

Definition rtt_newpack (p : rtt_info) : rtt_info :=
  mk_rtt_info (rtt_rtt p) (rtt_srtt p) (rtt_rttvar p) (rtt_rto p) 0 (rtt_base p).

Definition one_half : spec_float := f64_div (f64_of_Z 1) (f64_of_Z 2).

Definition rtt_start (p : rtt_info) : option Z :=
  int_of_float (f64_add (f64_of_Z (rtt_rto p)) one_half).

Definition rtt_stop (p : rtt_info) (ms : Z) : option rtt_info :=
  let rtt := i32 ms in
  delta ← int_of_float (f32_sub (f32_of_Z rtt) (rtt_srtt p));
  let srtt := f32_add (rtt_srtt p) (f32_of_Z (Z.quot delta 8)) in
  let delta := if delta <? 0 then i32 (- delta) else delta in
  let rttvar := f32_add (rtt_rttvar p)
                  (f32_div (f32_sub (f32_of_Z delta) (rtt_rttvar p)) (f32_of_Z 4)) in
  let p := mk_rtt_info rtt srtt rttvar (rtt_rto p) (rtt_nrexmt p) (rtt_base p) in
  rto ← int_of_float (RTT_RTOCALC p);
  Some (mk_rtt_info rtt srtt rttvar (rtt_minmax rto) (rtt_nrexmt p) (rtt_base p)).

(** The next timeout, and -1 when it is time to give up. *)
Definition rtt_timeout (p : rtt_info) : rtt_info * Z :=
  let rto := rtt_minmax (i32 (rtt_rto p * 2)) in
  let n := i32 (rtt_nrexmt p + 1) in
  (mk_rtt_info (rtt_rtt p) (rtt_srtt p) (rtt_rttvar p) rto n (rtt_base p),
   if RTT_MAXNREXMT <? n then -1 else 0).

(** ** Properties *)

Definition rto_ok (p : rtt_info) : Prop := RTT_RXTMIN <= rtt_rto p <= RTT_RXTMAX.

Lemma rtt_minmax_range r : RTT_RXTMIN <= rtt_minmax r <= RTT_RXTMAX.
Proof. unfold rtt_minmax, RTT_RXTMIN, RTT_RXTMAX. zbool. Qed.

(** The estimators [rtt_init] stores give 3, in the units of [rtt_rto]. *)
Lemma init_rto_calc :
  int_of_float (f64_add (f64_of_f32 (f32_of_Z 0))
    (f64_mul (f64_of_Z 4) (f64_of_f32 three_quarters))) = Some 3.
Proof. vm_compute. reflexivity. Qed.

Lemma rtt_init_eq p now :
  rtt_init p now = Some (mk_rtt_info 0 (f32_of_Z 0) three_quarters RTT_RXTMIN
                           (rtt_nrexmt p) (u32 (tv_sec now))).
Proof.
  unfold rtt_init, RTT_RTOCALC. cbn [rtt_srtt rtt_rttvar rtt_rtt rtt_rto rtt_nrexmt rtt_base].
  rewrite init_rto_calc. reflexivity.
Qed.

Lemma rtt_stop_rto_ok p ms p' : rtt_stop p ms = Some p' → rto_ok p'.
Proof.
  unfold rtt_stop, rto_ok. intros H.
  destruct (int_of_float (f32_sub _ _)) as [d|]; [simpl in H|done].
  destruct (int_of_float (RTT_RTOCALC _)) as [r|]; [simpl in H|done].
  injection H as <-. apply rtt_minmax_range.
Qed.

Lemma rtt_timeout_rto_ok p : rto_ok (rtt_timeout p).1.
Proof. apply rtt_minmax_range. Qed.

#[export] Hint Resolve rtt_stop_rto_ok rtt_timeout_rto_ok : net.

(** ** The estimators stay in range

    The floats are followed as integers, in units of [2 ^ - fscale] (CRound). *)

(** The smoothed round trip is below [2 ^ k], its deviation below [2 ^ (k+1)]. *)
Definition estimators_in (k : Z) (p : rtt_info) : Prop :=
  ∃ vs vv, value32 (rtt_srtt p) vs ∧ Z.abs vs <= 2 ^ (k + fscale) ∧
    value32 (rtt_rttvar p) vv ∧ Z.abs vv <= 2 ^ (k + 1 + fscale).

Lemma quot_towards_zero a b :
  0 < b → Z.abs (Z.quot a b) * b <= Z.abs a ∧
  (0 <= a → 0 <= Z.quot a b) ∧ (a <= 0 → Z.quot a b <= 0).
Proof.
  intros Hb. split; [|split].
  - rewrite <- Z.quot_abs by lia. rewrite (Z.abs_eq b) by lia.
    rewrite Z.mul_comm. apply Z.mul_quot_le; lia.
  - intros. by apply Z.quot_pos.
  - intros. rewrite <- (Z.opp_involutive a), Z.quot_opp_l by lia.
    pose proof (Z.quot_pos (- a) b). lia.
Qed.

Lemma pow2_scaled k : 0 <= k → 2 ^ (k + fscale) = 2 ^ k * 2 ^ fscale.
Proof. intros. apply Z.pow_add_r; [done|unfold fscale; lia]. Qed.

Lemma fscale_pos : 0 < 2 ^ fscale.
Proof. apply pow2_pos. unfold fscale. lia. Qed.

(** [delta], an integer, is at most as large as the difference it truncates. *)
Lemma trunc_value x v k :
  value32 x v → 0 <= k <= 30 → Z.abs v <= 2 ^ (k + fscale) →
  ∃ z, int_of_float x = Some z ∧ Z.abs z <= 2 ^ k ∧ Z.abs (z * 2 ^ fscale) <= Z.abs v ∧
    (0 <= v → 0 <= z) ∧ (v <= 0 → z <= 0).
Proof.
  intros Hx Hk Hv. pose proof fscale_pos as HK.
  assert (2 ^ (k + fscale) <= 2 ^ (30 + fscale)) by (apply pow2_mono; unfold fscale; lia).
  exists (Z.quot v (2 ^ fscale)).
  destruct (quot_towards_zero v (2 ^ fscale) HK) as (Hq & Hp & Hn).
  rewrite (int_of_float_value (emin 24 128) x v) by (done || (unfold emin, fscale; lia) || lia).
  rewrite pow2_scaled in Hv by lia.
  split; [done|]. split; [|rewrite Z.abs_mul, (Z.abs_eq (2 ^ fscale)) by lia; auto].
  apply (Z.mul_le_mono_pos_r _ _ (2 ^ fscale)); lia.
Qed.

(** A rounded correction that is at most the distance moves towards the target
    without passing it. *)
Lemma moves_between a b w m :
  Z.abs a <= m → Z.abs b <= m → Z.abs w <= Z.abs (b - a) →
  (0 <= b - a → 0 <= w) → (b - a <= 0 → w <= 0) → Z.abs (a + w) <= m.
Proof. lia. Qed.

(** The largest round trips considered: [2 ^ 26] milliseconds, 18 hours. *)
Definition rtt_exp : Z := 26.

Lemma estimators_mono k k' p : 0 <= k <= k' → estimators_in k p → estimators_in k' p.
Proof.
  intros Hk (vs & vv & Hs & Hbs & Hv & Hbv). exists vs, vv.
  pose proof (pow2_mono (k + fscale) (k' + fscale) ltac:(unfold fscale; lia)).
  pose proof (pow2_mono (k + 1 + fscale) (k' + 1 + fscale) ltac:(unfold fscale; lia)).
  auto with lia.
Qed.

(** The timeout computed from estimators in range is an [int]. *)
Lemma rtocalc_defined p k :
  0 <= k <= rtt_exp → estimators_in k p → ∃ r, int_of_float (RTT_RTOCALC p) = Some r.
Proof.
  intros Hk (vs & vv & Hs & Hbs & Hv & Hbv)%(estimators_mono k rtt_exp); [|done].
  unfold RTT_RTOCALC, rtt_exp in *.
  rewrite pow2_scaled in Hbs, Hbv by lia. pose proof fscale_pos.
  destruct (f64_of_f32_value _ _ 26 Hs) as (ws & Hws & Hrs);
    [unfold small_exp; lia|by rewrite pow2_scaled by lia|].
  destruct (f64_of_f32_value _ _ 27 Hv) as (wv & Hwv & Hrv);
    [unfold small_exp; lia|by rewrite pow2_scaled by lia|].
  destruct Hrs as (Hrs & _), Hrv as (Hrv & _). rewrite pow2_scaled in Hrs, Hrv by lia.
  destruct (f64_times_four _ _ 29 Hwv) as (w4 & Hw4 & Hr4 & _);
    [unfold small_exp; lia|rewrite pow2_scaled by lia; lia|].
  rewrite pow2_scaled in Hr4 by lia.
  destruct (f64_add_value _ _ _ _ 30 Hws Hw4) as (w & Hw & Hr & _);
    [unfold small_exp; lia|rewrite pow2_scaled by lia; lia|].
  eexists. apply (int_of_float_value (emin 53 1024) _ w); [unfold emin, fscale; lia|done|done].
Qed.

(** One measured round trip: the new [srtt] lies between the old one and the
    measurement. *)
Lemma srtt_moves srtt vs ms k :
  value32 srtt vs → 0 <= k <= 26 → Z.abs vs <= 2 ^ (k + fscale) → Z.abs ms <= 2 ^ k →
  ∃ delta vs', int_of_float (f32_sub (f32_of_Z ms) srtt) = Some delta ∧
    Z.abs delta <= 2 ^ (k + 1) ∧
    value32 (f32_add srtt (f32_of_Z (Z.quot delta 8))) vs' ∧ Z.abs vs' <= 2 ^ (k + fscale).
Proof.
  intros Hs Hk Hbs Hms. pose proof fscale_pos as HK.
  assert (2 ^ (k + 1 + fscale) = 2 * 2 ^ (k + fscale)) as E2.
  { replace (k + 1 + fscale) with (Z.succ (k + fscale)) by lia.
    apply Z.pow_succ_r. unfold fscale. lia. }
  destruct (f32_of_Z_value ms k) as (vr & Hr & Hbr & _); [unfold small_exp; lia|done|].
  destruct (f32_sub_value _ _ _ _ (k + 1) Hr Hs) as (vx & Hx & Hbx & Hx2 & Hxp & Hxn);
    [unfold small_exp; lia|lia|].
  destruct (trunc_value _ _ (k + 1) Hx) as (delta & Ed & Hd & Hdv & Hdp & Hdn); [lia|done|].
  destruct (quot_towards_zero delta 8) as (Hq & Hqp & Hqn); [lia|].
  set (w0 := Z.quot delta 8) in *.
  assert (2 ^ (k + 1) = 2 * 2 ^ k) as E1 by (rewrite Z.add_1_r; apply Z.pow_succ_r; lia).
  destruct (f32_of_Z_value w0 k) as (w & Hw & Hbw & Hw2 & Hwp & Hwn);
    [unfold small_exp; lia|lia|].
  rewrite Z.abs_mul, (Z.abs_eq (2 ^ fscale)) in Hw2, Hdv by lia.
  assert (8 * (Z.abs w0 * 2 ^ fscale) <= Z.abs delta * 2 ^ fscale) as H8.
  { rewrite Z.mul_assoc. apply Z.mul_le_mono_nonneg_r; lia. }
  assert (Z.abs (vs + w) <= 2 ^ (k + fscale)) as Hsum.
  { apply (moves_between vs vr w); [done|done|lia| |].
    - intros. apply Hwp. apply Z.mul_nonneg_nonneg; [auto|lia].
    - intros. apply Hwn. apply Z.mul_nonpos_nonneg; [auto|lia]. }
  destruct (f32_add_value _ _ _ _ k Hs Hw) as (vs' & Hs' & Hbs' & _); [unfold small_exp; lia|done|].
  exists delta, vs'. auto.
Qed.

(** The new [rttvar] lies between the old one and [delta]. *)
Lemma rttvar_moves rttvar vv delta k :
  value32 rttvar vv → 0 <= k <= 38 → Z.abs vv <= 2 ^ (k + fscale) → Z.abs delta <= 2 ^ k →
  ∃ vv', value32 (f32_add rttvar (f32_div (f32_sub (f32_of_Z delta) rttvar) (f32_of_Z 4))) vv' ∧
    Z.abs vv' <= 2 ^ (k + fscale).
Proof.
  intros Hv Hk Hbv Hd.
  assert (2 ^ (k + 1 + fscale) = 2 * 2 ^ (k + fscale)) as E2.
  { replace (k + 1 + fscale) with (Z.succ (k + fscale)) by lia.
    apply Z.pow_succ_r. unfold fscale. lia. }
  destruct (f32_of_Z_value delta k) as (vd & Hvd & Hbd & _); [unfold small_exp; lia|done|].
  destruct (f32_sub_value _ _ _ _ (k + 1) Hvd Hv) as (vy & Hy & Hby & Hy2 & Hyp & Hyn);
    [unfold small_exp; lia|lia|].
  destruct (f32_div_four _ _ (k + 1) Hy) as (w & v4 & Hw & (Hbw & Hw2 & Hwp & Hwn) & E4);
    [unfold small_exp; lia|done|].
  destruct (f32_add_value _ _ _ _ k Hv Hw) as (vv' & Hv' & Hbv' & _); [unfold small_exp; lia| |].
  - apply (moves_between vv vd w); lia.
  - exists vv'. auto.
Qed.

(** So a round trip of at most 18 hours never overflows the arithmetic. *)
Lemma rtt_stop_defined p ms k :
  0 <= k <= rtt_exp → estimators_in k p → Z.abs (i32 ms) <= 2 ^ k →
  ∃ p', rtt_stop p ms = Some p' ∧ estimators_in k p'.
Proof.
  intros Hk (vs & vv & Hs & Hbs & Hv & Hbv) Hms. unfold rtt_stop.
  destruct (srtt_moves _ _ _ k Hs Hk Hbs Hms) as (delta & vs' & Ed & Hd & Hs' & Hbs').
  rewrite Ed. cbn [mbind option_bind]. set (d := if delta <? 0 then _ else _).
  assert (Z.abs d <= 2 ^ (k + 1)) as Hd'.
  { pose proof (pow2_mono (k + 1) 27). unfold d, rtt_exp in *. zbool.
    rewrite i32_small; [lia|unfold is_i32; lia]. }
  destruct (rttvar_moves _ _ d (k + 1) Hv ltac:(unfold rtt_exp in *; lia) Hbv Hd')
    as (vv' & Hv' & Hbv').
  set (p1 := mk_rtt_info _ _ _ _ _ _).
  destruct (rtocalc_defined p1 k Hk) as (r & ->); [by exists vs', vv'|].
  eexists. split; [reflexivity|]. by exists vs', vv'.
Qed.

(** The events of a timer's life. *)
Inductive rtt_event := Init (now : timeval) | Newpack | Stop (ms : Z) | Timeout.

Definition rtt_step (p : rtt_info) (e : rtt_event) : option rtt_info :=
  match e with
  | Init now => rtt_init p now
  | Newpack => Some (rtt_newpack p)
  | Stop ms => rtt_stop p ms
  | Timeout => Some (rtt_timeout p).1
  end.

Fixpoint rtt_run (p : rtt_info) (es : list rtt_event) : option rtt_info :=
  match es with
  | [] => Some p
  | e :: es => p' ← rtt_step p e; rtt_run p' es
  end.

Lemma rtt_step_rto_ok p e p' : rto_ok p → rtt_step p e = Some p' → rto_ok p'.
Proof.
  intros Hp. destruct e as [now| |ms|]; simpl.
  - rewrite rtt_init_eq. intros [= <-]. unfold rto_ok, RTT_RXTMIN, RTT_RXTMAX. simpl. lia.
  - by intros [= <-].
  - apply rtt_stop_rto_ok.
  - intros [= <-]. apply rtt_timeout_rto_ok.
Qed.

Lemma rtt_run_rto_ok p es p' : rto_ok p → rtt_run p es = Some p' → rto_ok p'.
Proof.
  revert p. induction es as [|e es IH]; intros p Hp; simpl; [by intros [= <-]|].
  destruct (rtt_step p e) as [q|] eqn:Hq; simpl; [|done].
  apply IH. by eapply rtt_step_rto_ok.
Qed.

(** [rtt_init]'s estimators are in range, and every operation keeps them there
    as long as the measured round trips are. *)
Definition measures_within (k : Z) (e : rtt_event) : Prop :=
  match e with Stop ms => Z.abs (i32 ms) <= 2 ^ k | _ => True end.

Lemma init_estimators k r x n b :
  0 <= k → estimators_in k (mk_rtt_info r (f32_of_Z 0) three_quarters x n b).
Proof.
  intros Hk. apply (estimators_mono 0); [lia|].
  exists 0, (3 * 2 ^ (fscale - 2)). repeat split; by vm_compute.
Qed.

Lemma rtt_run_defined k p es :
  0 <= k <= rtt_exp → estimators_in k p → Forall (measures_within k) es →
  ∃ p', rtt_run p es = Some p' ∧ estimators_in k p'.
Proof.
  intros Hk Hp Hes. revert p Hp. induction Hes as [|e es He Hes IH]; intros p Hp; [by exists p|].
  assert (∃ q, rtt_step p e = Some q ∧ estimators_in k q) as (q & Eq & Hq).
  { destruct e as [now| |ms|]; simpl.
    - rewrite rtt_init_eq. eexists. split; [reflexivity|]. apply init_estimators. lia.
    - by eexists.
    - by apply rtt_stop_defined.
    - by eexists. }
  cbn [rtt_run]. rewrite Eq. by apply IH.
Qed.

(** [rtt_start] rounds: the timer is armed with the timeout itself. *)
Lemma rtt_start_exact_all :
  forallb (λ r, bool_decide (int_of_float (f64_add (f64_of_Z r) one_half) = Some r))
    (seqZ RTT_RXTMIN (RTT_RXTMAX - RTT_RXTMIN + 1)) = true.
Proof. vm_compute. reflexivity. Qed.

Lemma rtt_start_exact p : rto_ok p → rtt_start p = Some (rtt_rto p).
Proof.
  intros Hp. unfold rto_ok in Hp. pose proof rtt_start_exact_all as H.
  rewrite forallb_forall in H. unfold rtt_start.
  eapply bool_decide_eq_true_1, H, list_elem_of_In, elem_of_seqZ. lia.
Qed.

Fixpoint timeouts (n : nat) (p : rtt_info) : rtt_info :=
  match n with O => p | S n => (rtt_timeout (timeouts n p)).1 end.

Lemma timeouts_nrexmt n p :
  0 <= rtt_nrexmt p → rtt_nrexmt p + Z.of_nat n < 2 ^ 31 →
  rtt_nrexmt (timeouts n p) = rtt_nrexmt p + Z.of_nat n.
Proof.
  intros H0. induction n as [|n IH]; intros Hn; simpl; [lia|].
  rewrite IH by lia. rewrite i32_small; [lia|]. unfold is_i32. lia.
Qed.

Lemma timeouts_rto n p :
  rto_ok p → rtt_rto (timeouts n p) = Z.min RTT_RXTMAX (rtt_rto p * 2 ^ Z.of_nat n).
Proof.
  unfold rto_ok. intros Hp. induction n as [|n IH]; simpl timeouts.
  - unfold RTT_RXTMIN, RTT_RXTMAX in *. rewrite Z.mul_1_r. lia.
  - cbn [rtt_timeout fst rtt_rto]. rewrite IH, Nat2Z.inj_succ, Z.pow_succ_r by lia.
    unfold rtt_minmax, RTT_RXTMIN, RTT_RXTMAX in *.
    assert (0 < 2 ^ Z.of_nat n) by lia.
    rewrite i32_small by (unfold is_i32; lia). zbool; nia.
Qed.

(** ** The theorems *)

(** C22: from [rtt_init] on, whatever round trips of at most [2 ^ k]
    milliseconds are measured ([k] up to 26: 18 hours) and however many timeouts
    occur, in any order, no conversion of the timer's floating point overflows:
    every operation returns, the smoothed round trip stays within the range of
    the measurements and its deviation within twice that, the timeout stays
    between one and three seconds, and [rtt_start] arms the timer with exactly
    that timeout. *)
Theorem timer_never_overflows k p now es :
  0 <= k <= rtt_exp → Forall (measures_within k) es →
  ∃ p', rtt_run p (Init now :: es) = Some p' ∧ estimators_in k p' ∧
    RTT_RXTMIN <= rtt_rto p' <= RTT_RXTMAX ∧ rtt_start p' = Some (rtt_rto p').
Proof.
  intros Hk Hes. cbn [rtt_run rtt_step]. rewrite rtt_init_eq. cbn [mbind option_bind].
  destruct (rtt_run_defined k (mk_rtt_info 0 (f32_of_Z 0) three_quarters RTT_RXTMIN
    (rtt_nrexmt p) (u32 (tv_sec now))) es Hk) as (p' & E & He); [apply init_estimators; lia|done|].
  exists p'. split; [done|]. split; [done|].
  apply rtt_run_rto_ok in E; [split; [done|by apply rtt_start_exact]|by vm_compute].
Qed.

Lemma timer_never_overflows_witness :
  ∃ p', rtt_run (mk_rtt_info 0 (f32_of_Z 0) (f32_of_Z 0) 0 0 0)
          [Init (mk_timeval 100 0); Newpack; Stop 5000; Timeout; Stop (2 ^ 32 - 7)] = Some p' ∧
        estimators_in 13 p' ∧ RTT_RXTMIN <= rtt_rto p' <= RTT_RXTMAX ∧
        rtt_start p' = Some (rtt_rto p').
Proof.
  apply (timer_never_overflows 13 _ (mk_timeval 100 0)
    [Newpack; Stop 5000; Timeout; Stop (2 ^ 32 - 7)]); [unfold rtt_exp; lia|].
  repeat constructor; by vm_compute.
Defined.

(** The bound on the measurements matters.  The server stamps its first packet
    before [rtt_init] has given the timer a base; had the memory of [rtt_base]
    been zero on 5 November 2014, the first measurement would be 24 days long and the
    new timeout would not fit an [int]. *)
Example junk_base_overflows :
  let p := mk_rtt_info 0 (f32_of_Z 0) (f32_of_Z 0) 0 0 0 in
  let sent := mk_timeval 1415200000 0 in
  let acked := mk_timeval 1415200000 50000 in
  ∃ p', rtt_init p sent = Some p' ∧ rtt_stop p' (u32 (rtt_ts p' acked - rtt_ts p sent)) = None.
Proof. eexists. split; [apply rtt_init_eq|]. vm_compute. reflexivity. Qed.

(** The timeouts of one packet double the timeout from one second up to
    the three-second limit, and the thirteenth in a row, no earlier and no
    later, says to give up. *)
Theorem backoff_schedule p now p0 n :
  rtt_init p now = Some p0 → Z.of_nat n < INT_MAX →
  let '(p', r) := rtt_timeout (timeouts n (rtt_newpack p0)) in
  rtt_rto p' = Z.min RTT_RXTMAX (RTT_RXTMIN * 2 ^ (Z.of_nat n + 1)) ∧
  r = if Z.of_nat n <? RTT_MAXNREXMT then 0 else -1.
Proof.
  rewrite rtt_init_eq. intros [= <-] Hn. set (q := rtt_newpack _).
  assert (rto_ok q) as Hq by by vm_compute.
  pose proof (timeouts_rto (S n) q Hq) as Hr. cbn [timeouts] in Hr.
  pose proof (timeouts_nrexmt n q) as Hx. change (rtt_nrexmt q) with 0 in Hx.
  destruct (rtt_timeout (timeouts n q)) as [p' r] eqn:E. cbn [fst] in Hr. split.
  - rewrite Hr. change (rtt_rto q) with RTT_RXTMIN. do 3 f_equal. lia.
  - unfold rtt_timeout in E. injection E as _ <-. unfold INT_MAX in *. rewrite Hx by lia.
    rewrite i32_small by (unfold is_i32; lia). unfold RTT_MAXNREXMT. zbool.
Qed.

Lemma backoff_schedule_witness :
  ∃ p0, rtt_init (mk_rtt_info 0 (f32_of_Z 0) (f32_of_Z 0) 0 0 0) (mk_timeval 100 0) = Some p0 ∧
  let '(p', r) := rtt_timeout (timeouts 12 (rtt_newpack p0)) in rtt_rto p' = 3000 ∧ r = -1.
Proof.
  eexists. split; [apply rtt_init_eq|].
  apply (backoff_schedule (mk_rtt_info 0 (f32_of_Z 0) (f32_of_Z 0) 0 0 0) (mk_timeval 100 0) _ 12);
    [apply rtt_init_eq|by vm_compute].
Defined.
