(* ===== verification/UdpMsg.v ===== *)
(** * The datagrams of the file transfer (hw2/common.h, hw2/common.c)

    A [query_obj] is gathered into one datagram from two pieces: the [MAXLINE]
    bytes of [buf], then the [udp_data] header.  [recv_udp_data] scatters a
    datagram back over the same two pieces. *)

From S2P Require Import Prelude.
From S2P Require Import CMem.

(** [data_type]: an enum, stored as an [int]. *)
Definition ack : Z := 0.
Definition ping : Z := 1.
Definition data : Z := 2.
Definition eof : Z := 3.

Record udp_data := mk_udp_data {
  seq : Z;    (* uint32_t *)
  ts : Z;     (* uint32_t *)
  rwnd : Z;   (* uint32_t *)
  type : Z    (* data_type *)
}.

#[export] Instance udp_data_eq_decision : EqDecision udp_data.
Proof. solve_decision. Defined.

Definition sizeof_udp_data : nat := 16.

(** The header in memory. *)
Definition encode_udp_data (h : udp_data) : bytes :=
  put_i32 (seq h) ++ put_i32 (ts h) ++ put_i32 (rwnd h) ++ put_i32 (type h).

Definition decode_udp_data (a : bytes) : udp_data :=
  mk_udp_data (u32 (get_i32 (slice 0 4 a))) (u32 (get_i32 (slice 4 4 a)))
    (u32 (get_i32 (slice 8 4 a))) (get_i32 (slice 12 4 a)).

(** Where [msg_name] points: the caller's address or the object's own. *)
Inductive name_ref := CallerName | OwnSockAddr.
(** What an [iovec] points to. *)
Inductive iov_ref := IovBuf | IovConfig.

Record msghdr := mk_msghdr {
  msg_name : name_ref;
  msg_namelen : Z;
  msg_iov : list (iov_ref * nat)
}.

Definition sizeof_sockaddr_in : Z := 16.

Record query_obj := mk_query_obj {
  msgdata : msghdr;
  config : udp_data;
  buf : bytes              (* char[MAXLINE] *)
}.

(** [init_query_obj(servaddr, servlen, obj)]; [null] says [servaddr == NULL]. *)
Definition init_query_obj (null : bool) (servlen : Z) (obj : query_obj) : query_obj :=
  mk_query_obj
    (mk_msghdr (if null then OwnSockAddr else CallerName)
       (if servlen =? 0 then sizeof_sockaddr_in else servlen)
       [(IovBuf, Z.to_nat MAXLINE); (IovConfig, sizeof_udp_data)])
    (config obj) (buf obj).

(** The bytes an [iovec] of the object names. *)
Definition iov_bytes (obj : query_obj) (v : iov_ref * nat) : bytes :=
  take v.2 (match v.1 with IovBuf => buf obj | IovConfig => encode_udp_data (config obj) end).

(** [sendmsg] gathers the pieces in order. *)
Definition gather (obj : query_obj) : bytes :=
  mjoin (map (iov_bytes obj) (msg_iov (msgdata obj))).

(** [recvmsg] overwrites the pieces in order with the datagram's bytes. *)
Definition overlay (a d : bytes) : bytes := take (length a) (d ++ drop (length d) a).

Definition scatter_piece (obj : query_obj) (v : iov_ref * nat) (d : bytes) : query_obj :=
  let d := take v.2 d in
  match v.1 with
  | IovBuf => mk_query_obj (msgdata obj) (config obj) (overlay (buf obj) d)
  | IovConfig => mk_query_obj (msgdata obj)
      (decode_udp_data (overlay (encode_udp_data (config obj)) d)) (buf obj)
  end.

Fixpoint scatter (obj : query_obj) (vs : list (iov_ref * nat)) (d : bytes) : query_obj :=
  match vs with
  | [] => obj
  | v :: vs => scatter (scatter_piece obj v d) vs (drop v.2 d)
  end.

(** [send_udp_data]: the datagram [Sendmsg] puts on the wire. *)
Definition send_udp_data (null : bool) (servlen : Z) (obj : query_obj) : bytes :=
  gather (init_query_obj null servlen obj).

(** [recv_udp_data]: the object after a datagram [d] arrived, and its length. *)
Definition recv_udp_data (null : bool) (servlen : Z) (obj : query_obj) (d : bytes)
    : query_obj * Z :=
  let obj := init_query_obj null servlen obj in
  (scatter obj (msg_iov (msgdata obj)) d, Z.of_nat (length d)).

(** [bzero(&q_obj, sizeof(q_obj))] *)
Definition zero_msghdr : msghdr := mk_msghdr OwnSockAddr 0 [].
Definition zero_query_obj : query_obj :=
  mk_query_obj zero_msghdr (mk_udp_data 0 0 0 0) (zeros (Z.to_nat MAXLINE)).

(** ** Round trip *)

Definition udp_data_ok (h : udp_data) : Prop :=
  is_u32 (seq h) ∧ is_u32 (ts h) ∧ is_u32 (rwnd h) ∧ is_i32 (type h).

Lemma get_put_u32 z : is_u32 z → u32 (get_i32 (put_i32 z)) = z.
Proof.
  intros H. unfold get_i32. rewrite u32_i32. unfold put_i32. rewrite le_combine_split.
  change (2 ^ (Z.of_nat 4 * 8)) with (2 ^ 32). unfold u32. rewrite Z.mod_mod by lia.
  by apply u32_small.
Qed.

Lemma encode_udp_data_length h : length (encode_udp_data h) = sizeof_udp_data.
Proof. reflexivity. Qed.

Lemma decode_encode_udp_data h :
  udp_data_ok h → decode_udp_data (encode_udp_data h) = h.
Proof.
  intros (H1 & H2 & H3 & H4). destruct h as [s t r y]. simpl in *.
  unfold decode_udp_data, encode_udp_data. cbn [seq ts rwnd type]. slices.
  by rewrite !get_put_u32, get_put_i32.
Qed.

Lemma overlay_full a d : length d = length a → overlay a d = d.
Proof.
  intros H. unfold overlay. rewrite drop_ge, app_nil_r by lia.
  rewrite <- H. apply firstn_all.
Qed.

(** A datagram sent from an object and received into another restores the
    buffer and the header. *)
Lemma recv_send_query_obj null servlen obj null' servlen' obj' :
  length (buf obj) = Z.to_nat MAXLINE → length (buf obj') = Z.to_nat MAXLINE →
  udp_data_ok (config obj) →
  let '(got, n) := recv_udp_data null' servlen' obj' (send_udp_data null servlen obj) in
  buf got = buf obj ∧ config got = config obj ∧
  n = MAXLINE + Z.of_nat sizeof_udp_data.
Proof.
  intros Hb Hb' Hc. unfold recv_udp_data, send_udp_data, gather, iov_bytes.
  cbn [msg_iov msgdata init_query_obj map mjoin list_join fst snd].
  rewrite app_nil_r, (firstn_all2 (buf _)), (firstn_all2 (encode_udp_data _)) by
    (cbn [buf config init_query_obj]; rewrite ?encode_udp_data_length; lia).
  cbn [buf config init_query_obj scatter scatter_piece fst snd].
  rewrite take_app_length', drop_app_length' by done.
  rewrite overlay_full by lia. rewrite firstn_all2 by by rewrite encode_udp_data_length.
  rewrite overlay_full by by rewrite !encode_udp_data_length.
  rewrite decode_encode_udp_data by done.
  split_and!; [done..|]. rewrite length_app, Hb, encode_udp_data_length.
  unfold MAXLINE. lia.
Qed.
