(* ===== verification/Hw2Addr.v ===== *)
(** * Local addresses (hw2/common.c)

    Client and server list their own addresses and masks as text and look for
    the interface a peer is local to: the one with the longest matching mask. *)

From Stdlib Require Import Strings.Byte.
From S2P Require Import Prelude.
From S2P Require Import CMem.
From S2P Require Import CText.
From S2P Require Import Inet.
From S2P Require Import Interfaces.

(** [struct iAddr]: the two [char[MAXLINE]] texts. *)
Record iAddr := mk_iAddr { ip_addr : bytes; mask : bytes }.

(** The [sin_addr] member of a [struct sockaddr]. *)
Definition sin_addr (sa : bytes) : bytes := slice 4 4 sa.

(** [sock_ntop_host] for [AF_INET]: the text, in a static array. *)
Definition sock_ntop_host (sa : bytes) : bytes := quad_text (sin_addr sa).

Definition get_addr_count (ifis : list ifi_info) : Z := Z.of_nat (length ifis).

(** Copy an address's text over [dst], if there is an address. *)
Definition fill_text (dst : bytes) (sa : option bytes) : option bytes :=
  match sa with
  | Some sa => strcpy dst (sock_ntop_host sa)
  | None => Some dst
  end.

(** [fill_addr_contents] into the array [addr]; [None] when it is too short. *)
Fixpoint fill_addr_contents (addr : list iAddr) (ifis : list ifi_info) : option (list iAddr) :=
  match ifis, addr with
  | [], _ => Some addr
  | _ :: _, [] => None
  | ifi :: ifis, a :: addr =>
      ip ← fill_text (ip_addr a) (ifi_addr ifi);
      m ← fill_text (mask a) (ifi_ntmaddr ifi);
      rest ← fill_addr_contents addr ifis;
      Some (mk_iAddr ip m :: rest)
  end.

(** The loop of [check_addr_local] from index [i] on; [None] is [Inet_pton]
    quitting on a text that is not an address. *)
Fixpoint check_loop (s1 : Z) (addr : list iAddr) (i local maxMask : Z) : option Z :=
  match addr with
  | [] => Some local
  | a :: addr =>
      s2 ← s_addr <$> inet_pton4 (ip_addr a);
      s3 ← s_addr <$> inet_pton4 (mask a);
      if Z.land s1 s3 =? Z.land s2 s3 then
        let local := if local =? 0 then i else local in
        if maxMask <? s3 then check_loop s1 addr (i + 1) i s3
        else check_loop s1 addr (i + 1) local maxMask
      else check_loop s1 addr (i + 1) local maxMask
  end.

Definition check_addr_local (address : bytes) (addr : list iAddr) : option Z :=
  if streq address (str "127.0.0.1") then Some 1 else
  s1 ← s_addr <$> inet_pton4 address;
  check_loop s1 addr 0 0 0.

(** ** Properties *)

(** An interface by its numbers, and whether a peer is on its network. *)
Definition net : Type := Z * Z.
Definition on_net (s1 : Z) (n : net) : bool := Z.land s1 n.2 =? Z.land n.1 n.2.

Definition parses_to (a : iAddr) (n : net) : Prop :=
  s_addr <$> inet_pton4 (ip_addr a) = Some n.1 ∧ s_addr <$> inet_pton4 (mask a) = Some n.2.

(** [r] is the first of the interfaces before [i] with the largest mask among
    those the peer is on. *)
Definition best (s1 : Z) (ns : list net) (i r : Z) : Prop :=
  0 <= r < i ∧ ∃ n : net, ns !! Z.to_nat r = Some n ∧ on_net s1 n = true ∧
  ∀ j (m : net), Z.of_nat j < i → ns !! j = Some m → on_net s1 m = true →
    m.2 <= n.2 ∧ (Z.of_nat j < r → m.2 < n.2).

Definition none (s1 : Z) (ns : list net) (i : Z) : Prop :=
  ∀ j (m : net), Z.of_nat j < i → ns !! j = Some m → on_net s1 m = false.

(** The loop's state after the interfaces before [i]. *)
Definition check_inv (s1 : Z) (ns : list net) (i local maxMask : Z) : Prop :=
  local = 0 ∧ maxMask = 0 ∧ none s1 ns i ∨
  best s1 ns i local ∧ ∃ n : net, ns !! Z.to_nat local = Some n ∧ maxMask = n.2.

Lemma check_inv_skip s1 ns i local maxMask n :
  0 <= i → ns !! Z.to_nat i = Some n → on_net s1 n = false →
  check_inv s1 ns i local maxMask → check_inv s1 ns (i + 1) local maxMask.
Proof.
  intros Hi Hn Hoff [(-> & -> & H)|[(Hr & b & Hb & Hon & Hmax) Hm]].
  - left. split_and!; [done..|]. intros j m Hj Hm.
    destruct (decide (Z.of_nat j = i)) as [E|]; [|apply (H j); [lia|done]].
    subst i. rewrite Nat2Z.id in Hn. congruence.
  - right. split; [|done]. split; [lia|]. exists b. split_and!; [done..|].
    intros j m Hj Hjm Honm. destruct (decide (Z.of_nat j = i)) as [E|]; [|apply (Hmax j); [lia|done..]].
    subst i. rewrite Nat2Z.id in Hn. congruence.
Qed.

Lemma check_inv_take s1 ns i local maxMask n :
  0 <= i → ns !! Z.to_nat i = Some n → on_net s1 n = true → 0 < n.2 →
  check_inv s1 ns i local maxMask → maxMask < n.2 → check_inv s1 ns (i + 1) i n.2.
Proof.
  intros Hi Hn Hon Hpos Hinv Hlt. right. split; [|by exists n]. split; [lia|]. exists n.
  split_and!; [done..|]. intros j m Hj Hjm Honm.
  destruct (decide (Z.of_nat j = i)) as [E|].
  { subst i. rewrite Nat2Z.id in Hn. rewrite Hn in Hjm. injection Hjm as <-. lia. }
  destruct Hinv as [(_ & _ & H)|[(Hr & b & Hb & _ & Hmax) (b' & Hb' & ->)]].
  - rewrite (H j m) in Honm; [done|lia|done].
  - destruct (Hmax j m) as [H _]; [lia|done..|].
    assert (b' = b) as -> by (rewrite Hb in Hb'; by injection Hb'). lia.
Qed.

Lemma check_inv_keep s1 ns i local maxMask n :
  0 <= i → ns !! Z.to_nat i = Some n → on_net s1 n = true → 0 < n.2 →
  check_inv s1 ns i local maxMask → n.2 <= maxMask → check_inv s1 ns (i + 1) local maxMask.
Proof.
  intros Hi Hn Hon Hpos [(-> & -> & H)|[(Hr & b & Hb & Honb & Hmax) Hm]] Hle; [lia|].
  right. split; [|done]. split; [lia|]. exists b. split_and!; [done..|].
  destruct Hm as (b' & Hb' & ->). assert (b' = b) as -> by (rewrite Hb in Hb'; by injection Hb').
  intros j m Hj Hjm Honm. destruct (decide (Z.of_nat j = i)) as [E|]; [|apply (Hmax j); [lia|done..]].
  subst i. rewrite Nat2Z.id in Hn. rewrite Hn in Hjm. injection Hjm as <-. lia.
Qed.

(** The code takes the index 0 for "none yet", so the first interface must not
    match. *)
Definition first_off (s1 : Z) (ns : list net) : Prop :=
  ∀ n : net, ns !! 0%nat = Some n → on_net s1 n = false.

Lemma check_loop_inv s1 ns done_ addr ms local maxMask :
  Forall2 parses_to addr ms → ns = done_ ++ ms → Forall (λ n : net, 0 < n.2) ns →
  first_off s1 ns →
  check_inv s1 ns (Z.of_nat (length done_)) local maxMask →
  ∃ r m, check_loop s1 addr (Z.of_nat (length done_)) local maxMask = Some r ∧
    check_inv s1 ns (Z.of_nat (length ns)) r m.
Proof.
  intros Hp. revert done_ local maxMask. induction Hp as [|a n addr ms [H1 H2] Hp IH];
    intros done_ local maxMask -> Hpos Hoff Hinv.
  { rewrite app_nil_r in *. by exists local, maxMask. }
  assert ((done_ ++ n :: ms) !! Z.to_nat (Z.of_nat (length done_)) = Some n) as Hn
    by (rewrite Nat2Z.id; apply list_lookup_middle; done).
  assert (0 < n.2) as Hn0 by (rewrite Forall_forall in Hpos; apply Hpos; set_solver).
  assert (∀ l m, check_inv s1 (done_ ++ n :: ms) (Z.of_nat (length done_) + 1) l m →
    ∃ r m', check_loop s1 addr (Z.of_nat (length done_) + 1) l m = Some r ∧
      check_inv s1 (done_ ++ n :: ms) (Z.of_nat (length (done_ ++ n :: ms))) r m') as Hnext.
  { intros l m Hi. specialize (IH (done_ ++ [n]) l m). rewrite length_app, <- app_assoc in IH.
    replace (Z.of_nat (length done_ + length [n])) with (Z.of_nat (length done_) + 1) in IH
      by (cbn; lia). by apply IH. }
  cbn [check_loop]. rewrite H1, H2. cbn [mbind option_bind].
  change (Z.land s1 n.2 =? Z.land n.1 n.2) with (on_net s1 n).
  destruct (on_net s1 n) eqn:Hon.
  - destruct (Z.ltb_spec maxMask n.2).
    + apply Hnext. eapply check_inv_take; eauto with lia.
    + apply Hnext. destruct (Z.eqb_spec local 0) as [->|].
      2: eapply check_inv_keep; eauto with lia.
      exfalso. destruct Hinv as [(_ & -> & _)|[(_ & b & Hb & Honb & _) _]]; [lia|].
      by rewrite (Hoff b Hb) in Honb.
  - apply Hnext. eapply check_inv_skip; eauto with lia.
Qed.

(** *** Prefixes *)

(** The mask of a prefix length, in network order. *)
Definition netmask (k : Z) : bytes := rev (le_split 4 (2 ^ 32 - 2 ^ (32 - k))).

(** Read as little-endian integers, longer masks are still larger. *)
Lemma netmask_order_all :
  forallb (λ k, forallb (λ j, Bool.eqb (k <? j) (s_addr (netmask k) <? s_addr (netmask j))
      && (length (netmask k) =? 4)%nat) (seqZ 0 33)) (seqZ 0 33) = true.
Proof. vm_compute. reflexivity. Qed.

Lemma netmask_facts k j :
  0 <= k <= 32 → 0 <= j <= 32 →
  is_addr (netmask k) ∧ (k < j ↔ s_addr (netmask k) < s_addr (netmask j)).
Proof.
  intros Hk Hj. pose proof netmask_order_all as H. rewrite forallb_forall in H.
  specialize (H k (proj1 (list_elem_of_In _ _) (proj2 (elem_of_seqZ 0 33 k) ltac:(lia)))).
  rewrite forallb_forall in H.
  specialize (H j (proj1 (list_elem_of_In _ _) (proj2 (elem_of_seqZ 0 33 j) ltac:(lia)))).
  apply andb_prop in H as [H1%eqb_prop H2%Nat.eqb_eq]. split; [exact H2|].
  by rewrite <- !Z.ltb_lt, H1.
Qed.

(** An interface: its address and prefix length. *)
Definition prefix : Type := bytes * Z.
Definition prefix_ok (f : prefix) : Prop := is_addr f.1 ∧ 0 < f.2 <= 32.
Definition net_of (f : prefix) : net := (s_addr f.1, s_addr (netmask f.2)).
(** The peer [p] and the interface share the prefix. *)
Definition shares (p : bytes) (f : prefix) : bool := on_net (s_addr p) (net_of f).

(** The kernel's view of the interface. *)
Definition ifi_has (ifi : ifi_info) (f : prefix) : Prop :=
  (∃ sa, ifi_addr ifi = Some sa ∧ sin_addr sa = f.1) ∧
  (∃ sm, ifi_ntmaddr ifi = Some sm ∧ sin_addr sm = netmask f.2).

Lemma fill_text_quad dst sa a :
  (16 ≤ length dst)%nat → sin_addr sa = a →
  ∃ d, fill_text dst (Some sa) = Some d ∧ (is_addr a → inet_pton4 d = Some a).
Proof.
  intros Hd <-. pose proof (quad_text_length (sin_addr sa)). cbn. unfold sock_ntop_host.
  rewrite strcpy_Some; rewrite cstr_id by apply quad_text_no_nul; [|lia].
  eexists. split; [done|]. apply pton4_quad_text.
Qed.

Lemma fill_addr_parses junk ifis fs :
  Forall (λ a, 16 ≤ length (ip_addr a) ∧ 16 ≤ length (mask a))%nat junk →
  length junk = length ifis → Forall2 ifi_has ifis fs → Forall prefix_ok fs →
  ∃ addr, fill_addr_contents junk ifis = Some addr ∧
    Forall2 parses_to addr (net_of <$> fs).
Proof.
  intros Hj Hl Hf. revert junk Hj Hl. induction Hf as [|ifi f ifis fs Hifi Hf IH];
    intros junk Hj Hl Hok; (destruct junk as [|a junk]; [try done|]); [by exists []|done|].
  inversion_clear Hj as [|? ? [Hi Hm] Hj']. inversion_clear Hok as [|? ? [Ha Hk] Hok'].
  destruct Hifi as [(sa & Esa & Hsa) (sm & Esm & Hsm)].
  destruct (fill_text_quad (ip_addr a) sa f.1 Hi Hsa) as (ip & Eip & Hip).
  destruct (fill_text_quad (mask a) sm (netmask f.2) Hm Hsm) as (mm & Emm & Hmm).
  destruct (IH junk Hj') as (addr & E & Hp); [by injection Hl|done|].
  exists (mk_iAddr ip mm :: addr). cbn [fill_addr_contents]. rewrite Esa, Esm.
  rewrite Eip. cbn [mbind option_bind]. rewrite Emm. cbn [mbind option_bind]. rewrite E. split; [done|].
  constructor; [|done]. unfold parses_to. cbn [ip_addr mask].
  rewrite (Hip Ha), (Hmm (proj1 (netmask_facts f.2 f.2 ltac:(lia) ltac:(lia)))). done.
Qed.

(** ** The theorems *)

(** C31: when the first interface is not on the peer's network (it is the
    loopback interface), [check_addr_local] applied to the addresses
    [fill_addr_contents] collected returns the interface with the longest
    prefix the peer shares, the first such one, and 0 when there is none. *)
Theorem check_addr_local_longest_prefix junk ifis fs p r :
  Forall (λ a, 16 ≤ length (ip_addr a) ∧ 16 ≤ length (mask a))%nat junk →
  length junk = length ifis → Forall2 ifi_has ifis fs → Forall prefix_ok fs →
  is_addr p → cstr (quad_text p) ≠ str "127.0.0.1" →
  (∀ f, fs !! 0%nat = Some f → shares p f = false) →
  ∃ addr i, fill_addr_contents junk ifis = Some addr ∧
    check_addr_local (quad_text p ++ NUL :: r) addr = Some i ∧
    (i = 0 ∧ Forall (λ f, shares p f = false) fs ∨
     0 <= i ∧ ∃ f, fs !! Z.to_nat i = Some f ∧ shares p f = true ∧
       ∀ j g, fs !! j = Some g → shares p g = true →
         g.2 <= f.2 ∧ (Z.of_nat j < i → g.2 < f.2)).
Proof.
  intros Hj Hl Hf Hok Hp Hnl Hoff.
  destruct (fill_addr_parses junk ifis fs Hj Hl Hf Hok) as (addr & E & Hpar).
  assert (∀ j n, (net_of <$> fs) !! j = Some n → ∃ f, n = net_of f ∧ fs !! j = Some f ∧ prefix_ok f) as Hget.
  { intros j n Hn. apply list_lookup_fmap_Some_1 in Hn as (f & -> & Hfj). exists f.
    split_and!; [done..|]. by eapply Forall_lookup_1. }
  destruct (check_loop_inv (s_addr p) (net_of <$> fs) [] addr (net_of <$> fs) 0 0) as (i & m & Er & Hinv);
    [done|done| | |left; split_and!; [done..|intros j ? Hj0; cbn in Hj0; lia]|].
  { apply Forall_fmap. eapply Forall_impl; [exact Hok|]. intros f [_ Hk]. cbn.
    apply Z.le_lt_trans with (s_addr (netmask 0)); [by vm_compute|]. apply (proj2 (netmask_facts 0 f.2 ltac:(lia) ltac:(lia))). lia. }
  { intros n Hn. destruct (Hget _ _ Hn) as (f & -> & Hf0 & _). by apply Hoff. }
  exists addr, i. split; [done|]. split.
  { unfold check_addr_local. rewrite (proj2 (streq_false _ _)).
    - by rewrite pton4_quad_text by done.
    - rewrite cstr_app_nul by apply quad_text_no_nul. by rewrite cstr_id in Hnl by apply quad_text_no_nul. }
  rewrite length_fmap in Hinv. destruct Hinv as [(-> & _ & Hnone)|[(Hi & n & Hn & Hon & Hmax) _]].
  - left. split; [done|]. apply Forall_lookup. intros j f Hfj.
    apply (Hnone j (net_of f)); [apply lookup_lt_Some in Hfj; lia|]. by apply list_lookup_fmap_Some_2.
  - right. split; [lia|]. destruct (Hget _ _ Hn) as (f & -> & Hfi & Hfok). exists f.
    split_and!; [done..|]. intros j g Hg Hsh. pose proof (Forall_lookup_1 _ _ _ _ Hok Hg) as [_ Hgk].
    destruct Hfok as [_ Hfk]. destruct (Hmax j (net_of g)) as [H1 H2];
      [apply lookup_lt_Some in Hg; lia|by apply list_lookup_fmap_Some_2|done|]. cbn in H1, H2.
    pose proof (netmask_facts f.2 g.2 ltac:(lia) ltac:(lia)) as [_ Hfg].
    pose proof (netmask_facts g.2 f.2 ltac:(lia) ltac:(lia)) as [_ Hgf]. lia.
Qed.

Definition quad (a b c d : Z) : bytes := map byte.of_Z [a; b; c; d].
Definition ifi_at (f : prefix) : ifi_info :=
  mk_ifi_info [] 0 1 0 (Some (zeros 4 ++ f.1 ++ zeros 8)) None None
    (Some (zeros 4 ++ netmask f.2 ++ zeros 8)).
Lemma ifi_at_has f : is_addr f.1 → is_addr (netmask f.2) → ifi_has (ifi_at f) f.
Proof.
  unfold is_addr. intros Ha Hm. split; eexists; (split; [reflexivity|]);
    unfold sin_addr; rewrite slice_skip by done; by rewrite slice_here.
Qed.
Definition host : list prefix :=
  [(quad 127 0 0 1, 8); (quad 10 0 5 1, 16); (quad 10 0 0 1, 24)].

Lemma check_addr_local_longest_prefix_witness :
  ∃ addr, fill_addr_contents (replicate 3 (mk_iAddr (zeros 20) (zeros 20))) (map ifi_at host)
            = Some addr ∧
          ∃ i, check_addr_local (quad_text (quad 10 0 0 7) ++ [NUL]) addr = Some i ∧ i = 2.
Proof.
  destruct (check_addr_local_longest_prefix
    (replicate 3 (mk_iAddr (zeros 20) (zeros 20))) (map ifi_at host) host (quad 10 0 0 7) [])
    as (addr & i & E & Ei & H).
  - repeat constructor; cbn; lia.
  - done.
  - repeat (apply Forall2_cons_2; [apply ifi_at_has; by vm_compute|]). apply Forall2_nil_2.
  - repeat (constructor; [split; [reflexivity|cbn; lia]|]). constructor.
  - done.
  - by vm_compute.
  - by intros f [= <-].
  - exists addr. split; [exact E|]. exists i. split; [exact Ei|].
    vm_compute in E. injection E as <-. vm_compute in Ei. by injection Ei as <-.
Defined.

(** The index 0 means both "the first interface" and "not local": a peer
    on the first interface's network alone is reported as not local, and one
    also on a later network with a shorter prefix is assigned to the latter. *)
Theorem check_addr_local_index_zero :
  check_addr_local (str "10.0.0.7") [mk_iAddr (str "10.0.0.1") (str "255.255.255.0")] = Some 0 ∧
  check_addr_local (str "10.0.0.7")
    [mk_iAddr (str "10.0.0.1") (str "255.255.255.0");
     mk_iAddr (str "10.0.5.1") (str "255.255.0.0")] = Some 1.
Proof. by vm_compute. Qed.
