(* ===== verification/Hw2Client.v ===== *)
(** * The receiver of the file transfer (hw2/client.c)

    The client keeps a ring of [rwnd] buffers shared by two threads under one
    mutex: the receive loop of [create_new_connection], which files datagrams
    and acknowledges them, and [buffer_reader_thread], which prints and frees
    them.  Each iteration of either loop holds the mutex throughout, so an
    iteration is one step of the model; the [continue] of a dropped datagram
    takes no lock. *)

From S2P Require Import Prelude.
From S2P Require Import CMem.
From S2P Require Import CFloat.
From S2P Require Import UdpMsg.

(** ** Data *)

(** [struct buffer]; [data] is kept as the C string it holds. *)
Record buffer := mk_buffer { b_data : bytes; is_filled : Z; b_seq : Z }.

(** [is_filled] is a [uint32_t]: the code's [-1] is its largest value. *)
Definition EMPTY : Z := u32 (-1).

(** [struct client_config]; strings as in [buffer]. *)
Record client_config := mk_client_config {
  cfg_server_ip : bytes;
  cfg_server_port : Z;
  cfg_file_name : bytes;
  cfg_rwnd : Z;
  cfg_seed : Z;
  cfg_probability : spec_float;
  cfg_buffer_read_time : Z
}.

(** The shared globals and the receive loop's [expected_seq_num]. *)
Record client := mk_client {
  cli_config : client_config;
  text_buffer : list buffer;
  expected_seq_num : Z;
  mutex_held : bool;
  is_EOF : Z
}.

(** What the client does to the outside: acknowledgements and printed lines. *)
Inductive client_out :=
| AckSent (h : udp_data)
| FileData (d : bytes) (s : Z).

(** A received datagram: the C string in [buf] and the header. *)
Record udp_msg := mk_udp_msg { m_buf : bytes; m_config : udp_data }.

Definition set_text_buffer (b : list buffer) (c : client) : client :=
  mk_client (cli_config c) b (expected_seq_num c) (mutex_held c) (is_EOF c).
Definition set_expected (e : Z) (c : client) : client :=
  mk_client (cli_config c) (text_buffer c) e (mutex_held c) (is_EOF c).
Definition set_mutex (b : bool) (c : client) : client :=
  mk_client (cli_config c) (text_buffer c) (expected_seq_num c) b (is_EOF c).
Definition set_is_EOF (z : Z) (c : client) : client :=
  mk_client (cli_config c) (text_buffer c) (expected_seq_num c) (mutex_held c) z.

(** ** Operations on the ring *)

(** [text_buffer] after [main]'s loop marked every element free; [junk] is the
    memory [malloc] returned. *)
Definition init_text_buffer (junk : list buffer) : list buffer :=
  map (λ s, mk_buffer (b_data s) EMPTY (b_seq s)) junk.

Definition ispresent (b : list buffer) (seq_num : Z) : Z :=
  if existsb (λ s, negb (is_filled s =? EMPTY) && (b_seq s =? u32 seq_num)) b
  then 1 else 0.

(** The loop of [min_seq_num] from index [i] on; [min] compares an [int] with
    a [uint32_t], hence as unsigned. *)
Fixpoint min_seq_loop (b : list buffer) (i min_index min_val : Z) : Z :=
  match b with
  | [] => min_index
  | s :: b =>
      if negb (is_filled s =? EMPTY) then
        let val := i32 (if u32 min_val <? b_seq s then u32 min_val else b_seq s) in
        if val <? min_val then min_seq_loop b (i + 1) i val
        else min_seq_loop b (i + 1) min_index min_val
      else min_seq_loop b (i + 1) min_index min_val
  end.

Definition min_seq_num (b : list buffer) : Z := min_seq_loop b 0 0 INT_MAX.

(** The [while] of [update_expected_seq_num]; one turn per buffer is enough. *)
Fixpoint update_expected_loop (fuel : nat) (b : list buffer) (e : Z) : Z :=
  match fuel with
  | O => e
  | S fuel => if ispresent b e =? 1 then update_expected_loop fuel b (i32 (e + 1)) else e
  end.

Definition update_expected_seq_num (b : list buffer) (e : Z) : Z :=
  update_expected_loop (S (length b)) b e.

Definition get_window_size (b : list buffer) : Z :=
  Z.of_nat (length (filter (λ s, is_filled s = EMPTY) b)).

Definition push_data_to_buffer (send_buf : bytes) (seq_num expected : Z)
    : M client client_out unit :=
  n ← gets (λ c, cfg_rwnd (cli_config c));
  if n =? 0 then fail BadArith else
  let i := Z.rem seq_num n in
  if i <? 0 then fail BadIndex else
  b ← gets text_buffer;
  s ← required BadIndex (b !! Z.to_nat i);
  if is_filled s =? EMPTY then
    if negb (seq_num =? expected) then mret tt
    else modify (set_text_buffer
           (<[Z.to_nat i := mk_buffer send_buf 1 (u32 seq_num)]> b))
  else mret tt.

(** One element of the printing loops: print it, clear it, free it. *)
Definition print_buffer (s : buffer) : list client_out * buffer :=
  if is_filled s =? 1
  then ([FileData (b_data s) (b_seq s)], mk_buffer [] EMPTY (b_seq s))
  else ([], s).

(** [for (i = min_seq_num(); i < rwnd; i++)] of the reader and of [main]. *)
Definition print_from (i : nat) (b : list buffer) : list client_out * list buffer :=
  (flat_map (λ s, (print_buffer s).1) (drop i b),
   take i b ++ map (λ s, (print_buffer s).2) (drop i b)).

Definition print_buffers : M client client_out unit :=
  λ c, let b := text_buffer c in
       let '(o, b') := print_from (Z.to_nat (min_seq_num b)) b in
       (o, Ret tt (set_text_buffer b' c)).

(** [drop_packet]: the second of two [rand()] results decides. *)
Definition drop_packet (probability : spec_float) (max_seed rand2 : Z) : option bool :=
  if max_seed =? 0 then None else
  let r := f64_div (f64_of_Z (Z.rem rand2 max_seed)) (f64_of_Z max_seed) in
  Some (SFltb r (f64_of_f32 probability)).

(** [send_ack_to_server]: [type] is compared with [ack], not assigned, so the
    field is what the stack held. *)
Definition send_ack_to_server (junk_type ts expected : Z) : M client client_out unit :=
  b ← gets text_buffer;
  emit (AckSent (mk_udp_data (u32 expected) ts (u32 (get_window_size b)) junk_type)).

(** ** The threads *)

Definition eof_text : bytes := str "End of File!".

(** The part of a turn that files the datagram, by its type. *)
Definition file_datagram (q : udp_msg) (expected : Z) : M client client_out unit :=
  let h := m_config q in
  if type h =? data then push_data_to_buffer (m_buf q) (i32 (seq h)) expected
  else if type h =? ping then mret tt
  else if type h =? eof then push_data_to_buffer eof_text (i32 (seq h)) expected
  else mret tt.

(** One turn of [create_new_connection]'s loop on datagram [q]; [true] is the
    [break], which leaves the mutex locked. *)
Definition receive_turn (rand2 junk_type : Z) (q : udp_msg) : M client client_out bool :=
  cfg ← gets cli_config;
  drop ← required BadArith (drop_packet (cfg_probability cfg) (cfg_seed cfg) rand2);
  if (drop : bool) then mret false else
  modify (set_mutex true) ≫= λ _,
  expected ← gets expected_seq_num;
  let h := m_config q in
  file_datagram q expected ≫= λ _,
  b ← gets text_buffer;
  let expected := update_expected_seq_num b expected in
  modify (set_expected expected) ≫= λ _,
  send_ack_to_server junk_type (ts h) expected ≫= λ _,
  if (type h =? eof) && (u32 (seq h + 1) =? u32 expected) then mret true
  else modify (set_mutex false) ≫= λ _, mret false.

(** One turn of [buffer_reader_thread]; [true] is the [break]. *)
Definition reader_turn : M client client_out bool :=
  modify (set_mutex true) ≫= λ _,
  print_buffers ≫= λ _,
  e ← gets is_EOF;
  if e =? 1 then mret true
  else modify (set_mutex false) ≫= λ _, mret false.

(** The end of [main] after [create_new_connection] returned: one pass over
    the ring, without the mutex. *)
Definition final_print : M client client_out unit :=
  modify (set_is_EOF 1) ≫= λ _, print_buffers.
