(* ===== verification/Hw2Ring.v ===== *)
(** * The client's ring is a queue (properties of hw2/client.c)

    [repr b lo h]: the datagrams accepted so far are [h], numbered from 0; the
    first [lo] of them have been printed, the others are in the ring, each at
    its number modulo the ring's size.  The operations of [Hw2Client] are
    shown to implement the bounded queue [RecvQueue] under this relation. *)

From S2P Require Import Prelude.
From S2P Require Import CMem.
From S2P Require Import CFloat.
From S2P Require Import UdpMsg.
From S2P Require Import Hw2Client.

(** ** What the receiver promises *)
Module RecvQueue.
(** The accepted data in order, and how many of them were printed. *)
Record t := mk { accepted : list bytes; printed : nat }.

Definition window (n : nat) (q : t) : nat := n - (length (accepted q) - printed q).

(** A datagram is accepted when it is the next one and there is room. *)
Definition accept (n : nat) (num : Z) (d : bytes) (q : t) : t :=
  if decide (num = Z.of_nat (length (accepted q)) ∧ (0 < window n q)%nat)
  then mk (accepted q ++ [d]) (printed q) else q.
End RecvQueue.

Definition slot_ok (n lo : nat) (h : list bytes) (i : nat) (s : buffer) : Prop :=
  (∃ k d, (lo ≤ k)%nat ∧ (k mod n)%nat = i ∧ h !! k = Some d ∧
          s = mk_buffer d 1 (Z.of_nat k)) ∨
  (is_filled s = EMPTY ∧ ∀ k, (lo ≤ k < length h)%nat → (k mod n)%nat ≠ i).

Record repr (b : list buffer) (lo : nat) (h : list bytes) : Prop := {
  repr_pos : (0 < length b)%nat;
  repr_lo : (lo ≤ length h ≤ lo + length b)%nat;
  repr_max : Z.of_nat (length h) <= INT_MAX;
  repr_slot : ∀ i s, b !! i = Some s → slot_ok (length b) lo h i s
}.

(** ** Numbers in a window are told apart by their remainder *)

Lemma mod_window_inj n lo k k' :
  (0 < n)%nat → (lo ≤ k < lo + n)%nat → (lo ≤ k' < lo + n)%nat →
  (k mod n = k' mod n)%nat → k = k'.
Proof.
  intros Hn Hk Hk' Hm.
  pose proof (Nat.div_mod_eq k n) as E. pose proof (Nat.div_mod_eq k' n) as E'.
  rewrite Hm in E. revert E E'. generalize (k / n)%nat (k' / n)%nat (k' mod n)%nat.
  intros q q' r E E'. destruct (Nat.lt_trichotomy q q') as [Hq|[->|Hq]]; [|lia|].
  - assert (n * q + n ≤ n * q')%nat by nia. lia.
  - assert (n * q' + n ≤ n * q)%nat by nia. lia.
Qed.

Lemma mod_window_shift n lo : (0 < n)%nat → ((lo + n) mod n = lo mod n)%nat.
Proof. intros Hn. rewrite <- (Nat.mul_1_l n) at 1. apply Nat.Div0.mod_add. Qed.

Lemma mod_window_step n lo j :
  (j < n)%nat →
  ((lo + j) mod n = if decide (lo mod n + j < n) then lo mod n + j else lo mod n + j - n)%nat.
Proof.
  intros Hj. pose proof (Nat.mod_upper_bound lo n). pose proof (Nat.div_mod_eq lo n) as E.
  case_decide; symmetry; [apply Nat.mod_unique with (lo / n)%nat; lia|].
  apply Nat.mod_unique with (S (lo / n))%nat; lia.
Qed.

(** ** The printed lines: consecutive numbers *)
Fixpoint file_lines (k : nat) (ds : list bytes) : list client_out :=
  match ds with
  | [] => []
  | d :: ds => FileData d (Z.of_nat k) :: file_lines (S k) ds
  end.

Lemma file_lines_app k ds ds' :
  file_lines k (ds ++ ds') = file_lines k ds ++ file_lines (k + length ds) ds'.
Proof.
  revert k. induction ds as [|d ds IH]; intros k; simpl; [by rewrite Nat.add_0_r|].
  rewrite IH. do 3 f_equal. lia.
Qed.

(** ** min_seq_num finds the least number of the filled slots *)
Lemma min_seq_loop_spec b i mi mv :
  0 <= mv <= INT_MAX → (∀ s, s ∈ b → is_filled s ≠ EMPTY → 0 <= b_seq s <= INT_MAX) →
  let r := min_seq_loop b i mi mv in
  (r = mi ∧ ∀ s, s ∈ b → is_filled s ≠ EMPTY → mv <= b_seq s) ∨
  (∃ j s, r = i + Z.of_nat j ∧ b !! j = Some s ∧ is_filled s ≠ EMPTY ∧ b_seq s < mv ∧
          ∀ s', s' ∈ b → is_filled s' ≠ EMPTY → b_seq s <= b_seq s').
Proof.
  revert i mi mv. induction b as [|s b IH]; intros i mi mv Hmv Hb; cbn [min_seq_loop].
  { left. split; [done|]. set_solver. }
  assert (∀ s, s ∈ b → is_filled s ≠ EMPTY → 0 <= b_seq s <= INT_MAX) as Hb' by set_solver.
  destruct (Z.eqb_spec (is_filled s) EMPTY) as [He|He]; cbn [negb].
  { destruct (IH (i + 1) mi mv Hmv Hb') as [[-> H]|(j & t & -> & Hj & Hf & Hlt & H)].
    - left. split; [done|]. intros t [->|Ht]%elem_of_cons; [done|by apply H].
    - right. exists (S j), t. split_and!; [lia|done|done|done|].
      intros t' [->|Ht]%elem_of_cons; [done|by apply H]. }
  assert (0 <= b_seq s <= INT_MAX) as Hs by (apply Hb; set_solver).
  unfold INT_MAX in *. rewrite (u32_small mv) by (unfold is_u32; lia).
  assert (i32 (if mv <? b_seq s then mv else b_seq s) = Z.min mv (b_seq s)) as ->.
  { rewrite i32_small; [zbool|]. unfold is_i32. zbool. }
  destruct (Z.ltb_spec (Z.min mv (b_seq s)) mv) as [Hlt|Hge].
  - destruct (IH (i + 1) i (Z.min mv (b_seq s))) as [[-> H]|(j & t & -> & Hj & Hf & Hlt' & H)];
      [lia|done| |].
    + right. exists 0%nat, s. split_and!; [lia|done|done|lia|].
      intros t [->|Ht]%elem_of_cons Hf; [lia|]. specialize (H t Ht Hf). lia.
    + right. exists (S j), t. split_and!; [lia|done|done|lia|].
      intros t' [->|Ht]%elem_of_cons Hf'; [lia|by apply H].
  - destruct (IH (i + 1) mi mv) as [[-> H]|(j & t & -> & Hj & Hf & Hlt' & H)]; [lia|done| |].
    + left. split; [done|]. intros t [->|Ht]%elem_of_cons Hf; [lia|by apply H].
    + right. exists (S j), t. split_and!; [lia|done|done|done|].
      intros t' [->|Ht]%elem_of_cons Hf'; [lia|by apply H].
Qed.

Section ring.
Context {b : list buffer} {lo : nat} {h : list bytes} (R : repr b lo h).

Lemma repr_in k d :
  (lo ≤ k)%nat → h !! k = Some d → b !! (k mod length b)%nat = Some (mk_buffer d 1 (Z.of_nat k)).
Proof.
  intros Hk Hd. pose proof (lookup_lt_Some _ _ _ Hd) as Hlt.
  pose proof (repr_pos _ _ _ R) as Hn. pose proof (repr_lo _ _ _ R) as Hlo.
  destruct (lookup_lt_is_Some_2 b (k mod length b)) as [s Hs];
    [apply Nat.mod_upper_bound; lia|].
  destruct (repr_slot _ _ _ R _ _ Hs) as [(k' & d' & Hk' & Hm & Hd' & ->)|[_ Hno]].
  - pose proof (lookup_lt_Some _ _ _ Hd').
    assert (k' = k) as -> by (apply (mod_window_inj (length b) lo); lia). congruence.
  - by destruct (Hno k).
Qed.

(** The slot of the next number is free exactly when the ring is not full. *)
Lemma repr_next_slot :
  ∃ s, b !! (length h mod length b)%nat = Some s ∧
    (is_filled s = EMPTY ∧ (length h < lo + length b)%nat ∨
     is_filled s = 1 ∧ length h = (lo + length b)%nat).
Proof.
  pose proof (repr_pos _ _ _ R) as Hn. pose proof (repr_lo _ _ _ R) as Hlo.
  destruct (lookup_lt_is_Some_2 b (length h mod length b)) as [s Hs];
    [apply Nat.mod_upper_bound; lia|].
  exists s. split; [done|].
  destruct (repr_slot _ _ _ R _ _ Hs) as [(k & d & Hk & Hm & Hd & ->)|[He Hno]].
  - right. split; [done|]. pose proof (lookup_lt_Some _ _ _ Hd).
    destruct (decide (length h = lo + length b)%nat); [done|].
    assert (k = length h) by (apply (mod_window_inj (length b) lo); lia). lia.
  - left. split; [done|]. destruct (decide (length h = lo + length b)%nat) as [E|]; [|lia].
    destruct (Hno lo); [lia|]. rewrite E. symmetry. by apply mod_window_shift.
Qed.

Lemma repr_filled s : s ∈ b → is_filled s ≠ EMPTY →
  ∃ k d, (lo ≤ k < length h)%nat ∧ h !! k = Some d ∧ s = mk_buffer d 1 (Z.of_nat k).
Proof.
  intros [i Hi]%list_elem_of_lookup Hf.
  destruct (repr_slot _ _ _ R _ _ Hi) as [(k & d & Hk & _ & Hd & ->)|[? _]]; [|done].
  exists k, d. split_and!; [done| |done|done]. by eapply lookup_lt_Some.
Qed.

(** ** ispresent, update_expected_seq_num *)

Lemma ispresent_repr k :
  (k ≤ length h)%nat → ispresent b (Z.of_nat k) = if decide (lo ≤ k < length h)%nat then 1 else 0.
Proof.
  intros Hk. pose proof (repr_max _ _ _ R) as Hmax. unfold ispresent, INT_MAX in *.
  rewrite (u32_small (Z.of_nat k)) by (unfold is_u32; lia). case_decide as Hin.
  - destruct (lookup_lt_is_Some_2 h k) as [d Hd]; [lia|].
    rewrite (proj2 (existsb_exists _ _)); [done|].
    exists (mk_buffer d 1 (Z.of_nat k)). split.
    + apply list_elem_of_In, list_elem_of_lookup. eexists. apply repr_in; [lia|done].
    + simpl. by rewrite Z.eqb_refl.
  - destruct (existsb _ b) eqn:He; [|done]. apply existsb_exists in He as (s & Hs & Hp).
    apply andb_prop in Hp as [Hf Hq]. apply negb_true_iff, Z.eqb_neq in Hf. apply Z.eqb_eq in Hq.
    destruct (repr_filled s) as (k' & d & Hk' & _ & ->); [by apply list_elem_of_In|done|].
    simpl in Hq. lia.
Qed.

Lemma update_expected_repr e :
  (e ≤ length h ≤ S e)%nat → (length h = S e → lo ≤ e)%nat →
  update_expected_seq_num b (Z.of_nat e) = Z.of_nat (length h).
Proof.
  intros He Hlo. pose proof (repr_pos _ _ _ R). pose proof (repr_max _ _ _ R) as Hmax.
  assert (ispresent b (Z.of_nat (length h)) = 0) as Hend.
  { rewrite ispresent_repr, decide_False; [done|lia|lia]. }
  unfold update_expected_seq_num. destruct (length b) as [|m]; [lia|].
  cbn [update_expected_loop]. destruct (decide (e = length h)) as [->|Hne].
  - by rewrite Hend.
  - rewrite (ispresent_repr e), decide_True by lia. cbn [Z.eqb Pos.eqb].
    unfold INT_MAX in Hmax.
    replace (i32 (Z.of_nat e + 1)) with (Z.of_nat (length h))
      by (rewrite i32_small; [lia|unfold is_i32; lia]).
    by rewrite Hend.
Qed.

(** ** min_seq_num, get_window_size *)

Lemma min_seq_num_repr :
  min_seq_num b = if decide (lo < length h)%nat then Z.of_nat (lo mod length b) else 0.
Proof.
  pose proof (repr_max _ _ _ R) as Hmax. pose proof (repr_lo _ _ _ R) as Hlo.
  destruct (min_seq_loop_spec b 0 0 INT_MAX) as [[Hr H]|(j & s & Hr & Hj & Hf & Hlt & H)].
  - unfold INT_MAX. lia.
  - intros s Hs Hf. destruct (repr_filled s Hs Hf) as (k & d & Hk & _ & ->). simpl. lia.
  - unfold min_seq_num. rewrite Hr. case_decide as Hd; [|done]. exfalso.
    destruct (lookup_lt_is_Some_2 h lo) as [d Hd']; [lia|].
    specialize (H _ (list_elem_of_lookup_2 _ _ _ (repr_in lo d (le_n _) Hd'))).
    simpl in H. specialize (H ltac:(done)). lia.
  - unfold min_seq_num. rewrite Hr.
    destruct (repr_slot _ _ _ R _ _ Hj) as [(k & d & Hk & Hm & Hd & ->)|[? _]]; [|done].
    pose proof (lookup_lt_Some _ _ _ Hd). rewrite decide_True by lia.
    destruct (lookup_lt_is_Some_2 h lo) as [d' Hd']; [lia|].
    specialize (H _ (list_elem_of_lookup_2 _ _ _ (repr_in lo d' (le_n _) Hd')) ltac:(done)).
    simpl in H. replace k with lo in Hm by lia. lia.
Qed.

End ring.

(** ** The printing loops *)

(** A stretch of the ring that holds the numbers from [lo] on. *)
Definition run_of (lo : nat) (h : list bytes) (l : list buffer) : Prop :=
  ∀ j s, l !! j = Some s →
    match h !! (lo + j)%nat with
    | Some d => s = mk_buffer d 1 (Z.of_nat (lo + j))
    | None => is_filled s = EMPTY
    end.

Lemma print_run lo h l :
  run_of lo h l →
  flat_map (λ s, (print_buffer s).1) l = file_lines lo (take (length l) (drop lo h)) ∧
  Forall (λ s, is_filled s = EMPTY) (map (λ s, (print_buffer s).2) l).
Proof.
  revert lo. induction l as [|s l IH]; intros lo Hrun; [done|].
  destruct (IH (S lo)) as [IH1 IH2].
  { intros j t Hj. specialize (Hrun (S j) t Hj). by rewrite Nat.add_succ_comm. }
  pose proof (Hrun 0%nat s eq_refl) as Hs. rewrite Nat.add_0_r in Hs.
  cbn [map flat_map length]. rewrite IH1. destruct (h !! lo) as [d|] eqn:Hd.
  - subst s. simpl. rewrite (drop_S h d lo Hd). simpl. split; [done|]. by constructor.
  - assert ((is_filled s =? 1) = false) as E by (rewrite Hs; done).
    unfold print_buffer at 1. rewrite E. apply lookup_ge_None in Hd.
    rewrite !drop_ge by lia. rewrite !take_nil. simpl. split; [done|].
    constructor; [|done]. unfold print_buffer. by rewrite E.
Qed.

Section printing.
Context {b : list buffer} {lo : nat} {h : list bytes} (R : repr b lo h).

(** From the oldest number's slot to the end of the array, the ring holds
    consecutive numbers. *)
Lemma run_from_oldest : run_of lo h (drop (lo mod length b) b).
Proof.
  intros j s Hj. rewrite lookup_drop in Hj. pose proof (repr_pos _ _ _ R) as Hn.
  pose proof (repr_lo _ _ _ R) as Hlo. pose proof (lookup_lt_Some _ _ _ Hj) as Hlt.
  assert (((lo + j) mod length b = lo mod length b + j)%nat) as Hm
    by (rewrite mod_window_step, decide_True; lia).
  destruct (h !! (lo + j)%nat) as [d|] eqn:Hd.
  - pose proof (repr_in R (lo + j) d ltac:(lia) Hd) as Hin. rewrite Hm in Hin. congruence.
  - apply lookup_ge_None in Hd.
    destruct (repr_slot _ _ _ R _ _ Hj) as [(k & d & Hk & Hk' & Hd' & ->)|[? _]]; [|done].
    pose proof (lookup_lt_Some _ _ _ Hd').
    assert (k = lo + j)%nat; [|lia]. apply (mod_window_inj (length b) lo); lia.
Qed.

(** The first number the loop does not reach. *)
Definition next_lo : nat := Nat.min (length h) (lo + (length b - lo mod length b)).

Lemma take_drop_next_lo :
  take (length b - lo mod length b) (drop lo h) = take (next_lo - lo) (drop lo h).
Proof.
  unfold next_lo. pose proof (repr_lo _ _ _ R).
  destruct (decide (length h ≤ lo + (length b - lo mod length b))%nat).
  - rewrite !take_ge; [done|rewrite length_drop; lia..].
  - f_equal. lia.
Qed.

Lemma print_from_repr :
  ∃ b', print_from (lo mod length b) b = (file_lines lo (take (next_lo - lo) (drop lo h)), b') ∧
        repr b' next_lo h ∧ length b' = length b.
Proof.
  pose proof (repr_pos _ _ _ R) as Hn. pose proof (repr_lo _ _ _ R) as Hlo.
  assert (lo mod length b < length b)%nat as Hm by (apply Nat.mod_upper_bound; lia).
  destruct (print_run _ _ _ run_from_oldest) as [Hout Hempty].
  unfold print_from. rewrite Hout, length_drop, take_drop_next_lo.
  eexists. split; [done|].
  assert (length (take (lo mod length b) b ++
            map (λ s, (print_buffer s).2) (drop (lo mod length b) b)) = length b) as Hlen.
  { rewrite length_app, length_take, length_map, length_drop. lia. }
  split; [|done]. unfold next_lo. split; [lia|lia|apply R|]. rewrite Hlen. intros i s Hi.
  destruct (decide (i < lo mod length b)%nat) as [Hi'|Hi'].
  - rewrite lookup_app_l, lookup_take_lt in Hi by (rewrite ?length_take; lia).
    destruct (repr_slot _ _ _ R _ _ Hi) as [(k & d & Hk & Hkm & Hd & ->)|[He Hno]].
    + left. exists k, d. split_and!; [|done..]. pose proof (lookup_lt_Some _ _ _ Hd).
      destruct (decide (k < lo + (length b - lo mod length b))%nat); [|lia].
      replace k with (lo + (k - lo))%nat in Hkm by lia.
      rewrite mod_window_step, decide_True in Hkm; lia.
    + right. split; [done|]. intros k Hk. apply Hno. lia.
  - right. rewrite lookup_app_r in Hi by (rewrite length_take; lia).
    split; [eapply (Forall_lookup_1 _ _ _ _ Hempty Hi)|]. intros k Hk Hkm.
    replace k with (lo + (k - lo))%nat in Hkm by lia.
    rewrite mod_window_step, decide_False in Hkm; lia.
Qed.

End printing.

(** ** get_window_size *)

Lemma run_free lo h l :
  run_of lo h l → length (filter (λ s, is_filled s = EMPTY) l) = (length l - (length h - lo))%nat.
Proof.
  revert lo. induction l as [|s l IH]; intros lo Hrun; [done|].
  specialize (IH (S lo)).
  assert (run_of (S lo) h l) as Hl.
  { intros j t Hj. specialize (Hrun (S j) t Hj). by rewrite Nat.add_succ_comm. }
  pose proof (Hrun 0%nat s eq_refl) as Hs. rewrite Nat.add_0_r in Hs.
  destruct (h !! lo) as [d|] eqn:Hd.
  - subst s. rewrite filter_cons_False by done. rewrite IH by done.
    apply lookup_lt_Some in Hd. simpl. lia.
  - rewrite filter_cons_True by done. apply lookup_ge_None in Hd. simpl. rewrite IH by done. lia.
Qed.

Section operations.
Context {b : list buffer} {lo : nat} {h : list bytes} (R : repr b lo h).

(** Read from the oldest number's slot and around the end, the ring holds
    consecutive numbers and then free slots. *)
Lemma rotated_run : run_of lo h (drop (lo mod length b) b ++ take (lo mod length b) b).
Proof.
  pose proof (repr_pos _ _ _ R) as Hn. pose proof (repr_lo _ _ _ R) as Hlo.
  assert (lo mod length b < length b)%nat as Hm by (apply Nat.mod_upper_bound; lia).
  intros j s Hj. destruct (decide (j < length b - lo mod length b)%nat) as [Hj'|Hj'].
  - rewrite lookup_app_l in Hj by (rewrite length_drop; lia). by apply (run_from_oldest R).
  - rewrite lookup_app_r in Hj by (rewrite length_drop; lia). rewrite length_drop in Hj.
    apply lookup_take_Some in Hj as [Hj Hlt].
    assert (((lo + j) mod length b = j - (length b - lo mod length b))%nat) as Hmod
      by (rewrite mod_window_step, decide_False; lia).
    destruct (h !! (lo + j)%nat) as [d|] eqn:Hd.
    + pose proof (repr_in R (lo + j) d ltac:(lia) Hd) as Hin. rewrite Hmod in Hin. congruence.
    + apply lookup_ge_None in Hd.
      destruct (repr_slot _ _ _ R _ _ Hj) as [(k & d & Hk & Hk' & Hd' & ->)|[? _]]; [|done].
      pose proof (lookup_lt_Some _ _ _ Hd').
      assert (k = lo + j)%nat; [|lia]. apply (mod_window_inj (length b) lo); lia.
Qed.

Lemma get_window_size_repr :
  get_window_size b = Z.of_nat (RecvQueue.window (length b) (RecvQueue.mk h lo)).
Proof.
  unfold get_window_size, RecvQueue.window. simpl. f_equal.
  rewrite <- (take_drop (lo mod length b) b) at 1 2.
  rewrite filter_app, !length_app, Nat.add_comm, <- length_app, <- filter_app.
  rewrite (run_free lo h) by apply rotated_run. rewrite length_app. lia.
Qed.

(** ** push_data_to_buffer *)

Lemma repr_push d i s :
  i = (length h mod length b)%nat → b !! i = Some s → (length h < lo + length b)%nat →
  Z.of_nat (S (length h)) <= INT_MAX →
  repr (<[i := mk_buffer d 1 (Z.of_nat (length h))]> b) lo (h ++ [d]).
Proof.
  intros -> Hs Hroom Hmax. pose proof (repr_pos _ _ _ R). pose proof (repr_lo _ _ _ R).
  split; rewrite ?length_insert, ?length_app; simpl; [lia..|].
  intros j t Hj. destruct (decide (j = length h mod length b)%nat) as [->|Hne].
  - rewrite list_lookup_insert_eq in Hj by (by eapply lookup_lt_Some). injection Hj as <-.
    left. exists (length h), d. split_and!; [lia|done| |done].
    by rewrite lookup_app_r, Nat.sub_diag by lia.
  - rewrite list_lookup_insert_ne in Hj by done.
    destruct (repr_slot _ _ _ R _ _ Hj) as [(k & d' & Hk & Hm & Hd & ->)|[He Hno]].
    + left. exists k, d'. split_and!; [done..| |done]. by apply lookup_app_l_Some.
    + right. split; [done|]. intros k Hk. rewrite length_app in Hk. simpl in Hk.
      destruct (decide (k = length h)) as [->|]; [done|]. apply Hno. lia.
Qed.
End operations.

(** The client's state implements the queue. *)
Record client_repr (c : client) (q : RecvQueue.t) : Prop := {
  cr_ring : repr (text_buffer c) (RecvQueue.printed q) (RecvQueue.accepted q);
  cr_expected : expected_seq_num c = Z.of_nat (length (RecvQueue.accepted q));
  cr_rwnd : cfg_rwnd (cli_config c) = Z.of_nat (length (text_buffer c));
  cr_int : cfg_rwnd (cli_config c) <= INT_MAX
}.

Lemma push_refines c q d num :
  client_repr c q → 0 <= num → Z.of_nat (S (length (RecvQueue.accepted q))) <= INT_MAX →
  ∃ b', push_data_to_buffer d num (expected_seq_num c) c = ([], Ret tt (set_text_buffer b' c)) ∧
        length b' = length (text_buffer c) ∧
        let q' := RecvQueue.accept (length (text_buffer c)) num d q in
        repr b' (RecvQueue.printed q') (RecvQueue.accepted q').
Proof.
  intros [R He Hr _] Hnum Hmax. pose proof (repr_pos _ _ _ R) as Hn.
  destruct c as [cfg b e m eo]. destruct q as [h lo]. simpl in *.
  unfold push_data_to_buffer, mbind, M_bind. cbn [gets cli_config text_buffer].
  rewrite Hr. destruct (Z.eqb_spec (Z.of_nat (length b)) 0) as [|_]; [lia|].
  assert (Z.rem num (Z.of_nat (length b)) = Z.of_nat (Z.to_nat num mod length b)) as ->.
  { rewrite Z.rem_mod_nonneg, <- (Z2Nat.id num) at 1 by lia. by rewrite Nat2Z.inj_mod. }
  destruct (Z.ltb_spec (Z.of_nat (Z.to_nat num mod length b)) 0) as [|_]; [lia|].
  rewrite Nat2Z.id. cbn [gets text_buffer].
  destruct (lookup_lt_is_Some_2 b (Z.to_nat num mod length b)) as [s Hs];
    [apply Nat.mod_upper_bound; lia|].
  rewrite Hs. cbn [required mret M_ret].
  unfold RecvQueue.accept, RecvQueue.window. cbn [RecvQueue.accepted RecvQueue.printed].
  destruct (repr_next_slot R) as (s' & Hs' & Hfull). rewrite He.
  destruct (Z.eqb_spec num (Z.of_nat (length h))) as [->|Hne].
  - rewrite Nat2Z.id in *. rewrite Hs in Hs'. injection Hs' as <-.
    destruct Hfull as [[Hf Hroom]|[Hf Hroom]]; rewrite Hf; cbn [Z.eqb EMPTY negb].
    + rewrite Z.eqb_refl. eexists. split; [done|]. split; [by rewrite length_insert|].
      rewrite decide_True by lia. cbn [RecvQueue.accepted RecvQueue.printed].
      rewrite u32_small by (unfold is_u32, INT_MAX in *; lia).
      eapply (repr_push R); eauto.
    + exists b. split; [done|]. split; [done|]. rewrite decide_False by lia. done.
  - exists b. rewrite decide_False by tauto. cbn [negb].
    split; [|done]. by destruct (is_filled s =? EMPTY).
Qed.

(** ** The loop of [update_expected_seq_num] ends *)

Lemma ispresent_elem b e :
  ispresent b e = 1 → u32 e ∈ map b_seq b.
Proof.
  unfold ispresent. destruct (existsb _ b) eqn:H; [|done]. intros _.
  apply existsb_exists in H as (s & Hs & Hp). apply andb_prop in Hp as [_ Hp%Z.eqb_eq].
  rewrite <- Hp. apply list_elem_of_fmap. exists s. split; [done|]. by apply list_elem_of_In.
Qed.

(** Either the loop stopped at a missing number, or every number it passed is
    in the ring. *)
Lemma update_expected_loop_passed fuel b e :
  ispresent b (update_expected_loop fuel b e) ≠ 1 ∨
  ∀ j, (j < fuel)%nat → u32 (e + Z.of_nat j) ∈ map b_seq b.
Proof.
  revert e. induction fuel as [|fuel IH]; intros e; [right; lia|]. cbn [update_expected_loop].
  destruct (Z.eqb_spec (ispresent b e) 1) as [Hp|]; [|by left].
  destruct (IH (i32 (e + 1))) as [?|H]; [by left|right]. intros [|j] Hj.
  - rewrite Z.add_0_r. by apply ispresent_elem.
  - specialize (H j ltac:(lia)). rewrite u32_i32_add in H. by rewrite Nat2Z.inj_succ, <- Z.add_1_l, Z.add_assoc.
Qed.

Lemma update_expected_stops b e :
  Z.of_nat (length b) < 2 ^ 32 → ispresent b (update_expected_seq_num b e) = 0.
Proof.
  intros Hlen. unfold update_expected_seq_num.
  destruct (update_expected_loop_passed (S (length b)) b e) as [H|H].
  - revert H. unfold ispresent. by destruct (existsb _ b).
  - exfalso. set (l := map (λ j, u32 (e + Z.of_nat j)) (List.seq 0 (S (length b)))).
    assert (length l ≤ length (map b_seq b))%nat as Hle.
    { apply submseteq_length, NoDup_submseteq.
      - apply NoDup_fmap_2_strong; [|apply NoDup_seq].
        intros j j' Hj%elem_of_seq Hj'%elem_of_seq E.
        assert ((Z.of_nat j - Z.of_nat j') mod 2 ^ 32 = 0) as E'.
        { unfold u32 in E.
          replace (Z.of_nat j - Z.of_nat j') with ((e + Z.of_nat j) - (e + Z.of_nat j')) by lia.
          rewrite Zminus_mod, E, Z.sub_diag. done. }
        apply Z.mod_divide in E' as [z Hz]; [|lia]. nia.
      - intros x (j & -> & Hj)%list_elem_of_fmap. apply elem_of_seq in Hj. apply H. lia. }
    unfold l in Hle. rewrite !length_map, length_seq in Hle. lia.
Qed.
