(* ===== verification/Hw2Receiver.v ===== *)
(** * The client's threads deliver in order (properties of hw2/client.c)

    One turn of each thread, then any interleaving of turns: the acknowledgement
    always names the first missing number, and the printed lines are the
    accepted data, in order, each once. *)

From S2P Require Import Prelude.
From S2P Require Import CMem.
From S2P Require Import CFloat.
From S2P Require Import UdpMsg.
From S2P Require Import Hw2Client.
From S2P Require Import Hw2Ring.

(** What a datagram offers to the queue, if anything. *)
Definition offer (m : udp_msg) : option bytes :=
  let t := type (m_config m) in
  if t =? data then Some (m_buf m) else if t =? ping then None
  else if t =? eof then Some eof_text else None.

Definition accept_msg (n : nat) (m : udp_msg) (q : RecvQueue.t) : RecvQueue.t :=
  match offer m with
  | Some d => RecvQueue.accept n (seq (m_config m)) d q
  | None => q
  end.

(** The acknowledgement owed in a state. *)
Definition ack_of (n : nat) (junk_type ts : Z) (q : RecvQueue.t) : udp_data :=
  mk_udp_data (Z.of_nat (length (RecvQueue.accepted q))) ts
    (Z.of_nat (RecvQueue.window n q)) junk_type.

(** The condition of the loop's [break]. *)
Definition ends_transfer (m : udp_msg) (q : RecvQueue.t) : bool :=
  (type (m_config m) =? eof) &&
  (seq (m_config m) + 1 =? Z.of_nat (length (RecvQueue.accepted q))).

Lemma accept_accepted n num d q :
  (length (RecvQueue.accepted q) ≤ length (RecvQueue.accepted (RecvQueue.accept n num d q))
     ≤ S (length (RecvQueue.accepted q)))%nat ∧
  RecvQueue.printed (RecvQueue.accept n num d q) = RecvQueue.printed q.
Proof.
  unfold RecvQueue.accept. case_decide; simpl; [rewrite length_app; simpl|]; lia.
Qed.

Lemma accept_msg_accepted n m q :
  (length (RecvQueue.accepted q) ≤ length (RecvQueue.accepted (accept_msg n m q))
     ≤ S (length (RecvQueue.accepted q)))%nat ∧
  RecvQueue.printed (accept_msg n m q) = RecvQueue.printed q.
Proof. unfold accept_msg. destruct (offer m); [apply accept_accepted|lia]. Qed.

(** The filing part of a turn, whatever the type of the datagram. *)
Lemma file_refines c q m :
  client_repr c q → (is_Some (offer m) → 0 <= seq (m_config m) < 2 ^ 31 - 1) →
  Z.of_nat (S (length (RecvQueue.accepted q))) <= INT_MAX →
  ∃ b',
    file_datagram m (expected_seq_num c) c = ([], Ret tt (set_text_buffer b' c)) ∧
    length b' = length (text_buffer c) ∧
    let q' := accept_msg (length (text_buffer c)) m q in
    repr b' (RecvQueue.printed q') (RecvQueue.accepted q').
Proof.
  intros Hc Hs Hmax. unfold file_datagram, accept_msg, offer.
  assert (∃ b', (mret tt : M client client_out unit) c = ([], Ret tt (set_text_buffer b' c)) ∧
            length b' = length (text_buffer c) ∧
            repr b' (RecvQueue.printed q) (RecvQueue.accepted q)) as Hskip.
  { exists (text_buffer c). destruct c. split_and!; [done..|apply Hc]. }
  unfold offer in Hs.
  destruct (type (m_config m) =? data).
  { specialize (Hs ltac:(eauto)). rewrite i32_small by (unfold is_i32; lia).
    apply push_refines; try done; lia. }
  destruct (type (m_config m) =? ping); [done|].
  destruct (type (m_config m) =? eof); [|done].
  specialize (Hs ltac:(eauto)). rewrite i32_small by (unfold is_i32; lia).
  apply push_refines; try done; lia.
Qed.

Lemma ends_transfer_u32 m q :
  (is_Some (offer m) → 0 <= seq (m_config m) < 2 ^ 31 - 1) →
  (type (m_config m) =? eof) &&
    (u32 (seq (m_config m) + 1) =? Z.of_nat (length (RecvQueue.accepted q))) = ends_transfer m q.
Proof.
  intros Hs. unfold ends_transfer. destruct (Z.eqb_spec (type (m_config m)) eof) as [E|]; [|done].
  unfold offer in Hs. rewrite E in Hs. specialize (Hs ltac:(cbn; eauto)).
  by rewrite u32_small by (unfold is_u32; lia).
Qed.

(** A turn of the receive loop that does not simulate a loss. *)
Lemma receive_turn_refines c q m rand2 junk_type :
  client_repr c q → (is_Some (offer m) → 0 <= seq (m_config m) < 2 ^ 31 - 1) →
  Z.of_nat (S (length (RecvQueue.accepted q))) <= INT_MAX →
  drop_packet (cfg_probability (cli_config c)) (cfg_seed (cli_config c)) rand2 = Some false →
  let n := length (text_buffer c) in
  let q' := accept_msg n m q in
  ∃ c', receive_turn rand2 junk_type m c =
          ([AckSent (ack_of n junk_type (ts (m_config m)) q')], Ret (ends_transfer m q') c') ∧
        client_repr c' q' ∧ mutex_held c' = ends_transfer m q' ∧
        cli_config c' = cli_config c ∧ is_EOF c' = is_EOF c ∧
        length (text_buffer c') = n.
Proof.
  intros Hc Hs Hmax Hdrop n q'.
  assert (client_repr (set_mutex true c) q) as Hc1 by (destruct Hc; by split).
  destruct (file_refines (set_mutex true c) q m) as (b' & Hfile & Hlen & R); [done..|].
  change (length (text_buffer (set_mutex true c))) with n in *. fold q' in R.
  change (expected_seq_num (set_mutex true c)) with (expected_seq_num c) in Hfile.
  destruct (accept_msg_accepted n m q) as [Hacc Hpr]. fold q' in Hacc, Hpr.
  pose proof (cr_expected _ _ Hc) as He. pose proof (repr_lo _ _ _ (cr_ring _ _ Hc)) as Hlo.
  pose proof (cr_int _ _ Hc) as Hint. pose proof (cr_rwnd _ _ Hc) as Hrw. fold n in Hrw.
  assert (update_expected_seq_num b' (expected_seq_num c) =
          Z.of_nat (length (RecvQueue.accepted q'))) as Hupd.
  { rewrite He. apply (update_expected_repr R); rewrite ?Hpr; lia. }
  unfold receive_turn, mbind, M_bind. cbn [gets]. rewrite Hdrop.
  cbn [required mret M_ret modify gets].
  change (expected_seq_num (set_mutex true c)) with (expected_seq_num c).
  rewrite Hfile. cbn [gets modify text_buffer set_text_buffer]. rewrite Hupd.
  unfold send_ack_to_server, mbind, M_bind.
  cbn [gets emit text_buffer set_expected set_text_buffer app].
  rewrite (get_window_size_repr R), Hlen. unfold INT_MAX in *.
  replace (RecvQueue.mk (RecvQueue.accepted q') (RecvQueue.printed q')) with q'
    by by destruct q'.
  assert (RecvQueue.window n q' ≤ n)%nat by (unfold RecvQueue.window; lia).
  rewrite !(u32_small (Z.of_nat _)) by (unfold is_u32; lia).
  rewrite (ends_transfer_u32 m q' Hs). fold (ack_of n junk_type (ts (m_config m)) q').
  destruct (ends_transfer m q') eqn:Hends; eexists; (split; [reflexivity|]);
    (split; [|done]); split; cbn; rewrite ?Hlen; done.
Qed.

(** ** Printing *)

(** The queue after a pass of a printing loop: everything up to the end of the
    array, starting at the oldest number. *)
Definition print_pass (n : nat) (q : RecvQueue.t) : RecvQueue.t :=
  let lo := RecvQueue.printed q in
  RecvQueue.mk (RecvQueue.accepted q)
    (Nat.min (length (RecvQueue.accepted q)) (lo + (n - lo mod n))).

(** The lines a pass from [q] to [q'] prints. *)
Definition printed_between (q q' : RecvQueue.t) : list client_out :=
  file_lines (RecvQueue.printed q)
    (take (RecvQueue.printed q' - RecvQueue.printed q)
       (drop (RecvQueue.printed q) (RecvQueue.accepted q))).

Lemma length_file_lines k ds : length (file_lines k ds) = length ds.
Proof. revert k. induction ds as [|d ds IH]; intros k; simpl; [done|]. by rewrite IH. Qed.

Lemma print_buffers_refines c q :
  client_repr c q →
  let n := length (text_buffer c) in
  ∃ b', print_buffers c = (printed_between q (print_pass n q), Ret tt (set_text_buffer b' c)) ∧
        client_repr (set_text_buffer b' c) (print_pass n q) ∧ length b' = n.
Proof.
  intros [R He Hr Hi] n. pose proof (repr_pos _ _ _ R) as Hn. pose proof (repr_lo _ _ _ R) as Hlo.
  destruct q as [h lo]. cbn [RecvQueue.accepted RecvQueue.printed] in *.
  unfold print_buffers. rewrite (min_seq_num_repr R). case_decide as Hd.
  - destruct (print_from_repr R) as (b' & Hp & R' & Hlen). rewrite Nat2Z.id, Hp.
    exists b'. split; [done|]. split; [|done].
    split; cbn; [done|done|by rewrite Hlen|done].
  - (* nothing is filled: the pass starts at index 0 and prints nothing *)
    assert (lo = length h) as -> by lia.
    assert (print_pass n (RecvQueue.mk h (length h)) = RecvQueue.mk h (length h)) as ->.
    { unfold print_pass. cbn. f_equal. lia. }
    unfold printed_between. cbn [RecvQueue.accepted RecvQueue.printed].
    rewrite Nat.sub_diag, take_0. cbn [file_lines].
    assert (Forall (λ s, is_filled s = EMPTY) (text_buffer c)) as Hall.
    { apply Forall_lookup. intros i s Hs.
      destruct (repr_slot _ _ _ R _ _ Hs) as [(k & d & Hk & _ & Hd' & _)|[? _]]; [|done].
      apply lookup_lt_Some in Hd'. lia. }
    exists (text_buffer c). split; [|split; [by split|done]].
    unfold print_from. change (Z.to_nat 0) with 0%nat. rewrite drop_0, take_0, app_nil_l.
    revert Hall. clear.
    destruct c as [cfg b e m eo]. cbn [text_buffer set_text_buffer]. intros Hall.
    enough (flat_map (λ s, (print_buffer s).1) b = [] ∧ map (λ s, (print_buffer s).2) b = b)
      as [-> ->] by done.
    induction Hall as [|s b Hs _ [IH1 IH2]]; [done|]. cbn [map flat_map].
    assert (print_buffer s = ([], s)) as -> by (unfold print_buffer; by rewrite Hs).
    by rewrite IH1, IH2.
Qed.

Lemma reader_turn_refines c q :
  client_repr c q →
  let n := length (text_buffer c) in
  ∃ c', reader_turn c = (printed_between q (print_pass n q), Ret (is_EOF c =? 1) c') ∧
        client_repr c' (print_pass n q) ∧ mutex_held c' = (is_EOF c =? 1) ∧
        cli_config c' = cli_config c ∧ is_EOF c' = is_EOF c ∧ length (text_buffer c') = n.
Proof.
  intros Hc n.
  destruct (print_buffers_refines (set_mutex true c) q) as (b' & Hp & Hr & Hlen);
    [by destruct Hc; split|].
  change (length (text_buffer (set_mutex true c))) with n in *.
  unfold reader_turn, mbind, M_bind. cbn [modify]. rewrite Hp. cbn [gets].
  change (is_EOF (set_text_buffer b' (set_mutex true c))) with (is_EOF c).
  destruct (is_EOF c =? 1) eqn:E; cbn [modify mret M_ret app]; rewrite app_nil_r;
    eexists; (split; [reflexivity|]); (split; [|done]); [done|].
  destruct Hr; by split.
Qed.

Lemma final_print_refines c q :
  client_repr c q →
  let n := length (text_buffer c) in
  ∃ c', final_print c = (printed_between q (print_pass n q), Ret tt c') ∧
        client_repr c' (print_pass n q).
Proof.
  intros Hc n.
  destruct (print_buffers_refines (set_is_EOF 1 c) q) as (b' & Hp & Hr & Hlen);
    [by destruct Hc; split|].
  unfold final_print, mbind, M_bind. cbn [modify]. rewrite Hp. by eexists.
Qed.

(** C39: [main]'s last pass prints, in order, the pending packets up to the end
    of the array and no others: those whose slots wrapped around to its front are
    never printed.  So it prints everything that is still in the ring exactly when
    the pending numbers do not wrap. *)
Theorem final_print_complete_iff c q :
  client_repr c q →
  let n := length (text_buffer c) in
  let lo := RecvQueue.printed q in
  let pending := drop lo (RecvQueue.accepted q) in
  outputs final_print c = file_lines lo (take (n - lo mod n) pending) ∧
  (outputs final_print c = file_lines lo pending ↔ (length pending ≤ n - lo mod n)%nat).
Proof.
  intros Hc n lo pending. destruct (final_print_refines c q Hc) as (c' & Hf & _).
  unfold outputs. rewrite Hf. cbn [fst]. unfold printed_between. fold n lo pending.
  assert (RecvQueue.printed (print_pass n q) - lo = Nat.min (length pending) (n - lo mod n))%nat as ->.
  { pose proof (repr_lo _ _ _ (cr_ring _ _ Hc)). unfold pending. rewrite length_drop.
    unfold print_pass. cbn. fold lo n. lia. }
  split; [f_equal; by rewrite Nat.min_comm, <- take_take, (firstn_all pending)|].
  split.
  - intros H. apply (f_equal length) in H. rewrite !length_file_lines, length_take in H. lia.
  - intros H. by rewrite take_ge by lia.
Qed.

(** Three numbers pending from slot 2 of a ring of three: only the first is
    printed. *)
Lemma final_print_complete_iff_witness :
  let cfg := mk_client_config (str "130.245.1.44") 5511 (str "test_file") 3 10 (f32_of_Z 0) 1000 in
  let b := [mk_buffer (str "D") 1 3; mk_buffer eof_text 1 4; mk_buffer (str "C") 1 2] in
  let c := mk_client cfg b 5 true 0 in
  let q := RecvQueue.mk [str "A"; str "B"; str "C"; str "D"; eof_text] 2 in
  client_repr c q ∧ outputs final_print c = [FileData (str "C") 2] ∧
  outputs final_print c ≠ file_lines 2 [str "C"; str "D"; eof_text].
Proof.
  set (cfg := mk_client_config (str "130.245.1.44") 5511 (str "test_file") 3 10 (f32_of_Z 0) 1000).
  set (b := [mk_buffer (str "D") 1 3; mk_buffer eof_text 1 4; mk_buffer (str "C") 1 2]).
  set (c := mk_client cfg b 5 true 0).
  set (q := RecvQueue.mk [str "A"; str "B"; str "C"; str "D"; eof_text] 2). cbv zeta.
  assert (client_repr c q) as Hc.
  { split; [|done|done|done]. split; [cbn; lia|cbn; lia|done|].
    intros i s Hi. left. destruct i as [|[|[|i]]]; [injection Hi as <-..|done].
    - by exists 3%nat, (str "D"); split_and!; [cbn; lia|..].
    - by exists 4%nat, eof_text; split_and!; [cbn; lia|..].
    - by exists 2%nat, (str "C"); split_and!; [cbn; lia|..]. }
  split; [done|]. split; [apply (proj1 (final_print_complete_iff c q Hc))|].
  intros H. pose proof (proj1 (proj2 (final_print_complete_iff c q Hc)) H) as Hle. vm_compute in Hle. lia.
Defined.
