(* ===== verification/Hw2Server.v ===== *)
(** * The sender of the file transfer (hw2/server.c)

    [send_file_data] alternates a burst of packets with [receive_ack].  The
    sender waits only in [receive_ack], for an acknowledgement or for SIGALRM,
    so the model's steps are: one burst, up to that wait, and one event.  The
    file is the list of the words [fscanf("%s")] yields; [Gettimeofday] reads
    an arbitrary clock, one reading per call. *)

From S2P Require Import Prelude.
From S2P Require Import CMem.
From S2P Require Import Rtt.
From S2P Require Import UdpMsg.
From S2P Require Import Hw2Client.

(** ** Data *)

(** [struct thread_config], less the socket and the peer's address. *)
Record th_config := mk_th_config {
  th_rwnd : Z;              (* uint32_t *)
  last_unacked_seq : Z;
  rttinfo : rtt_info;
  rttinit : Z;
  cwnd : Z;
  isEOF : Z;
  last_pack_seq_no : Z;
  ssthresh : Z
}.

(** The configuration, the locals of [send_file_data] ([seq_num], [q_obj], the
    position of [fp]) and the number of clock readings made. *)
Record server := mk_server {
  th : th_config;
  seq_num : Z;
  fp_pos : nat;
  q_obj : udp_msg;
  ticks : nat
}.

(** What ends a wait in [Recvmsg]: a datagram of [n] bytes, or the alarm. *)
Inductive ack_event := AckMsg (n : Z) (h : udp_data) | Alarm.

(** [receive_ack]'s locals while it waits. *)
Record ra_locals := mk_ra { ra_expected : Z; prev_seq_num : Z; fast_retransmit : Z }.

(** Where [receive_ack] is after an event: waiting again, or returned. *)
Inductive ra_status := Waiting (l : ra_locals) | Returned.

(** ** Field updates *)

Definition upd_th (f : th_config → th_config) (s : server) : server :=
  mk_server (f (th s)) (seq_num s) (fp_pos s) (q_obj s) (ticks s).
Definition set_th_rwnd (v : Z) (t : th_config) : th_config :=
  mk_th_config v (last_unacked_seq t) (rttinfo t) (rttinit t) (cwnd t) (isEOF t)
    (last_pack_seq_no t) (ssthresh t).
Definition set_last_unacked (v : Z) (t : th_config) : th_config :=
  mk_th_config (th_rwnd t) v (rttinfo t) (rttinit t) (cwnd t) (isEOF t)
    (last_pack_seq_no t) (ssthresh t).
Definition set_rttinfo (v : rtt_info) (t : th_config) : th_config :=
  mk_th_config (th_rwnd t) (last_unacked_seq t) v (rttinit t) (cwnd t) (isEOF t)
    (last_pack_seq_no t) (ssthresh t).
Definition set_rttinit (v : Z) (t : th_config) : th_config :=
  mk_th_config (th_rwnd t) (last_unacked_seq t) (rttinfo t) v (cwnd t) (isEOF t)
    (last_pack_seq_no t) (ssthresh t).
Definition set_cwnd (v : Z) (t : th_config) : th_config :=
  mk_th_config (th_rwnd t) (last_unacked_seq t) (rttinfo t) (rttinit t) v (isEOF t)
    (last_pack_seq_no t) (ssthresh t).
Definition set_isEOF (v : Z) (t : th_config) : th_config :=
  mk_th_config (th_rwnd t) (last_unacked_seq t) (rttinfo t) (rttinit t) (cwnd t) v
    (last_pack_seq_no t) (ssthresh t).
Definition set_last_pack (v : Z) (t : th_config) : th_config :=
  mk_th_config (th_rwnd t) (last_unacked_seq t) (rttinfo t) (rttinit t) (cwnd t) (isEOF t)
    v (ssthresh t).
Definition set_ssthresh (v : Z) (t : th_config) : th_config :=
  mk_th_config (th_rwnd t) (last_unacked_seq t) (rttinfo t) (rttinit t) (cwnd t) (isEOF t)
    (last_pack_seq_no t) v.
Definition set_seq_num (v : Z) (s : server) : server :=
  mk_server (th s) v (fp_pos s) (q_obj s) (ticks s).
Definition set_fp_pos (v : nat) (s : server) : server :=
  mk_server (th s) (seq_num s) v (q_obj s) (ticks s).
Definition set_q_obj (v : udp_msg) (s : server) : server :=
  mk_server (th s) (seq_num s) (fp_pos s) v (ticks s).
Definition set_q_buf (v : bytes) (s : server) : server :=
  set_q_obj (mk_udp_msg v (m_config (q_obj s))) s.
Definition set_q_seq (v : Z) (s : server) : server :=
  let h := m_config (q_obj s) in
  set_q_obj (mk_udp_msg (m_buf (q_obj s)) (mk_udp_data v (ts h) (rwnd h) (type h))) s.
Definition set_q_ts (v : Z) (s : server) : server :=
  let h := m_config (q_obj s) in
  set_q_obj (mk_udp_msg (m_buf (q_obj s)) (mk_udp_data (seq h) v (rwnd h) (type h))) s.
Definition set_q_type (v : Z) (s : server) : server :=
  let h := m_config (q_obj s) in
  set_q_obj (mk_udp_msg (m_buf (q_obj s)) (mk_udp_data (seq h) (ts h) (rwnd h) v)) s.

Definition zero_msg : udp_msg := mk_udp_msg [] (mk_udp_data 0 0 0 0).

Section server.
(** The words of the requested file and the clock. *)
Context (words : list bytes) (clock : nat → timeval).

Abbreviation Srv := (M server udp_msg).

Definition gettimeofday : Srv timeval :=
  λ s, ([], Ret (clock (ticks s))
              (mk_server (th s) (seq_num s) (fp_pos s) (q_obj s) (S (ticks s)))).

(** [fscanf(fp, "%s", &q_obj.buf) != EOF]; at the end of the file the buffer
    keeps its contents. *)
Definition fscanf_buf : Srv bool :=
  p ← gets fp_pos;
  match words !! p with
  | Some w =>
      if Z.of_nat (length w) <? MAXLINE
      then modify (λ s, set_fp_pos (S p) (set_q_buf w s)) ≫= λ _, mret true
      else fail BadCopy
  | None => mret false
  end.

(** [while (count != q_obj.config.seq) { fscanf; count++; }] *)
Fixpoint skip_words (n : nat) : Srv unit :=
  match n with
  | O => mret tt
  | S n => fscanf_buf ≫= λ _, skip_words n
  end.

(** The branch that sends [last_unacked_seq] again: the file is reopened and
    read up to that word. *)
Definition retransmit : Srv unit :=
  t ← gets th;
  let n := last_unacked_seq t in
  modify (λ s, set_seq_num n (set_q_seq (u32 n) s)) ≫= λ _,
  modify (set_fp_pos 0) ≫= λ _,
  skip_words (Z.to_nat (u32 n)) ≫= λ _,
  fscanf_buf ≫= λ _,
  modify (upd_th (set_last_unacked (-1))).

(** The branch that sends the next word. *)
Definition next_packet : Srv unit :=
  now ← gettimeofday;
  t ← gets th;
  modify (set_q_ts (rtt_ts (rttinfo t) now)) ≫= λ _,
  n ← gets seq_num;
  let n := i32 (n + 1) in
  modify (λ s, set_seq_num n (set_q_seq (u32 n) s)) ≫= λ _,
  got ← fscanf_buf;
  if negb got && (last_pack_seq_no t =? -1)
  then modify (upd_th (set_last_pack n)) else mret tt.

(** Mark the packet as data, or as the end of the file. *)
Definition mark_type : Srv unit :=
  t ← gets th;
  n ← gets seq_num;
  if (last_pack_seq_no t <=? n) && negb (last_pack_seq_no t =? -1) then
    modify (λ s, set_q_seq (u32 (last_pack_seq_no t))
                   (set_seq_num (last_pack_seq_no t) (set_q_type eof s)))
  else modify (set_q_type data).

Definition init_timer : Srv unit :=
  t ← gets th;
  if rttinit t =? 0 then
    now ← gettimeofday;
    p ← required BadArith (rtt_init (rttinfo t) now);
    modify (upd_th (λ t, set_rttinit 3 (set_rttinfo p t)))
  else mret tt.

Definition send : Srv unit := q ← gets q_obj; emit q.

(** One turn of the burst's [for] loop; [true] is its [break]. *)
Definition send_turn : Srv bool :=
  modify (set_q_obj zero_msg) ≫= λ _,
  t ← gets th;
  if isEOF t =? 1 then mret true else
  (if negb (last_unacked_seq t =? -1) then retransmit else next_packet) ≫= λ _,
  mark_type ≫= λ _,
  init_timer ≫= λ _,
  modify (upd_th (λ t, set_rttinfo (rtt_newpack (rttinfo t)) t)) ≫= λ _,
  send ≫= λ _, mret false.

Fixpoint send_loop (count : nat) : Srv unit :=
  match count with
  | O => mret tt
  | S count => stop ← send_turn; if (stop : bool) then mret tt else send_loop count
  end.

Definition send_ping : Srv unit :=
  t ← gets th;
  when ((th_rwnd t =? 0) && negb (isEOF t =? 1))
    (modify (λ s, set_q_seq (u32 (seq_num s)) (set_q_type ping s)) ≫= λ _, send).

(** The start of [receive_ack]: its locals, and the timer armed. *)
Definition receive_ack_start : Srv ra_status :=
  s ← gets id;
  _ ← required BadArith (rtt_start (rttinfo (th s)));
  mret (Waiting (mk_ra (i32 (seq_num s + 1)) (-1) 0)).

(** One turn of [send_file_data]'s loop up to the wait in [receive_ack];
    [Returned] is the [break] at the end of the transfer. *)
Definition burst : Srv ra_status :=
  t ← gets th;
  send_loop (Z.to_nat (Z.min (cwnd t) (i32 (th_rwnd t)))) ≫= λ _,
  send_ping ≫= λ _,
  t ← gets th;
  if isEOF t =? 1 then mret Returned else receive_ack_start.

(** The branch of [receive_ack] for SIGALRM and for three duplicates. *)
Definition give_up_or_back_off (l : ra_locals) : Srv unit :=
  t ← gets th;
  if (last_pack_seq_no t <? prev_seq_num l) && negb (last_pack_seq_no t =? -1)
  then modify (upd_th (set_isEOF 1)) else
  let '(p, r) := rtt_timeout (rttinfo t) in
  modify (upd_th (set_rttinfo p)) ≫= λ _,
  if r <? 0 then modify (upd_th (set_rttinit 0)) ≫= λ _, exit 0 else
  modify (upd_th (λ t, set_cwnd 1 (set_ssthresh (Z.quot (cwnd t) 2) t))) ≫= λ _,
  when (negb (prev_seq_num l =? -1))
    (modify (upd_th (set_last_unacked (prev_seq_num l)))) ≫= λ _,
  modify (upd_th (set_rttinit 0)).

(** The top of [receive_ack]'s loop. *)
Definition ra_loop_top (l : ra_locals) : Srv ra_status :=
  if fast_retransmit l =? 3 then give_up_or_back_off l ≫= λ _, mret Returned
  else mret (Waiting l).

(** The code after the loop. *)
Definition ra_finish (h : udp_data) : Srv ra_status :=
  now ← gettimeofday;
  t ← gets th;
  p ← required BadArith (rtt_stop (rttinfo t) (u32 (rtt_ts (rttinfo t) now - ts h)));
  modify (upd_th (λ t, set_last_unacked (-1) (set_rttinfo p t))) ≫= λ _,
  mret Returned.

(** Slow start doubles the window, congestion avoidance adds one. *)
Definition grow_cwnd (t : th_config) : Z :=
  if negb (ssthresh t =? -1) && (ssthresh t <=? cwnd t)
  then i32 (cwnd t + 1) else i32 (cwnd t * 2).

Definition ra_event (l : ra_locals) (e : ack_event) : Srv ra_status :=
  match e with
  | Alarm => give_up_or_back_off l ≫= λ _, mret Returned
  | AckMsg n h =>
      modify (upd_th (λ t, set_cwnd (grow_cwnd t) t)) ≫= λ _,
      t ← gets th;
      if (u32 (last_pack_seq_no t) <? seq h) && negb (last_pack_seq_no t =? -1) then
        modify (upd_th (set_isEOF 1)) ≫= λ _, ra_finish h
      else
        modify (upd_th (set_th_rwnd (rwnd h))) ≫= λ _,
        let l := if u32 (prev_seq_num l) =? seq h
                 then mk_ra (ra_expected l) (prev_seq_num l) (fast_retransmit l + 1)
                 else mk_ra (ra_expected l) (i32 (seq h)) 0 in
        if (n <? Z.of_nat sizeof_udp_data) || negb (seq h =? u32 (ra_expected l))
        then ra_loop_top l else ra_finish h
  end.

(** [receive_ack] run on a sequence of events: where it is after them, and
    the events it did not consume. *)
Fixpoint receive_ack_loop (l : ra_locals) (es : list ack_event)
    : Srv (ra_status * list ack_event) :=
  match es with
  | [] => mret (Waiting l, [])
  | e :: es =>
      st ← ra_event l e;
      match st with
      | Waiting l => receive_ack_loop l es
      | Returned => mret (Returned, es)
      end
  end.

(** [send_file_data] before its loop; [isEOF], [rttinfo] and [q_obj] are not
    initialised by the code and keep what the memory held. *)
Definition send_file_data_init (serv_rwnd : Z) (t0 : th_config) (q0 : udp_msg) : server :=
  mk_server (mk_th_config (u32 serv_rwnd) (-1) (rttinfo t0) (rttinit t0) 1 (isEOF t0) (-1) (-1))
    (-1) 0 q0 0.
End server.
