(* ===== verification/Hw2Handshake.v ===== *)
(** * Opening a transfer (main of hw2/client.c and hw2/server.c)

    The client sends the file name to the well-known port; the server answers
    from that port with an acknowledgement, and a child with the port of its
    own socket; the client then talks to that port.  Datagrams are the bytes
    [Sendmsg] and [Write] put on the wire. *)

From S2P Require Import Prelude.
From S2P Require Import CMem.
From S2P Require Import CText.
From S2P Require Import Rtt.
From S2P Require Import UdpMsg.
From S2P Require Import Hw2Client.
From S2P Require Import Hw2Server.

(** ** The client *)

(** The server is addressed through the loopback interface when the names of
    the two hosts are equal. *)
Definition choose_server_ip (clihost servhost config_ip : bytes) : bytes :=
  if streq clihost servhost then str "127.0.0.1" else cstr config_ip.

(** [Write(sockfd, sendline, strlen(sendline))] *)
Definition client_request (file_name : bytes) : bytes := cstr file_name.

(** [do { bzero; recv_udp_data } while (q_obj.config.type != t)], on the
    datagrams that arrive; [None] is waiting for more. *)
Fixpoint await_type (t : Z) (ds : list bytes) : option (query_obj * list bytes) :=
  match ds with
  | [] => None
  | d :: ds =>
      let q := (recv_udp_data true 0 zero_query_obj d).1 in
      if type (config q) =? t then Some (q, ds) else await_type t ds
  end.

(** The port the client connects to after the two loops.  [strtol] stores the end
    of the number through [ptr], a local pointer that was never set: unless it
    happens to be null, something else is overwritten. *)
Definition client_port (ptr : Z) (ds : list bytes) : option (fault + Z * list bytes) :=
  '(_, ds) ← await_type ack ds;
  '(q, ds) ← await_type data ds;
  Some (if ptr =? 0 then inr (i32 (strtol10 (buf q)), ds) else inl Unset).

(** [create_new_connection]'s first datagram. *)
Definition client_hello : bytes := send_udp_data false sizeof_sockaddr_in zero_query_obj.

(** ** The server *)

Definition set_type (t : Z) (q : query_obj) : query_obj :=
  mk_query_obj (msgdata q) (mk_udp_data (seq (config q)) (ts (config q)) (rwnd (config q)) t) (buf q).
Definition set_buf (b : bytes) (q : query_obj) : query_obj := mk_query_obj (msgdata q) (config q) b.

(** A datagram on the well-known port: the file name it requests, copied into
    [serv_config.file_name], and the acknowledgement. *)
Definition server_request (file_name d : bytes) : option (bytes * bytes) :=
  let q := (recv_udp_data true 0 zero_query_obj d).1 in
  fn ← strcpy file_name (buf q);
  Some (fn, send_udp_data false sizeof_sockaddr_in (set_type ack zero_query_obj)).

(** The child's first datagram: the port its socket was bound to. *)
Definition server_port_msg (port : Z) : option bytes :=
  b ← strcpy (buf zero_query_obj) (dec_d port);
  Some (send_udp_data false sizeof_sockaddr_in (set_type data (set_buf b zero_query_obj))).

(** The configuration handed to [send_file_data] after the client's first
    datagram came: only these members are set. *)
Definition transfer_config (junk : th_config) : th_config :=
  set_rttinit 0 (set_th_rwnd (u32 (-1)) junk).

(** ** Properties *)

Lemma zero_buf_length : length (buf zero_query_obj) = Z.to_nat MAXLINE.
Proof. apply length_zeros. Qed.

(** What arrives when a whole object is sent into a cleared one. *)
Lemma recv_sent null servlen q :
  length (buf q) = Z.to_nat MAXLINE → udp_data_ok (config q) →
  let q' := (recv_udp_data true 0 zero_query_obj (send_udp_data null servlen q)).1 in
  buf q' = buf q ∧ config q' = config q.
Proof.
  intros Hb Hc. pose proof (recv_send_query_obj null servlen q true 0 zero_query_obj Hb zero_buf_length Hc).
  destruct (recv_udp_data true 0 zero_query_obj (send_udp_data null servlen q)). cbn. tauto.
Qed.

Lemma ack_msg_ok :
  type (config (recv_udp_data true 0 zero_query_obj
    (send_udp_data false sizeof_sockaddr_in (set_type ack zero_query_obj))).1) = ack.
Proof.
  destruct (recv_sent false sizeof_sockaddr_in (set_type ack zero_query_obj)) as [_ ->];
    [apply zero_buf_length|by split_and!|done].
Qed.

Lemma dec_d_port p : 0 <= p < 65536 → dec_d p = dec_u p ∧ (length (dec_u p) < Z.to_nat MAXLINE)%nat.
Proof.
  intros Hp. unfold dec_d. rewrite (proj2 (Z.ltb_ge p 0)) by lia. split; [done|].
  pose proof (dec_u_length p 16 ltac:(lia) ltac:(lia)). unfold MAXLINE. lia.
Qed.

(** The child's datagram as the client sees it. *)
Lemma port_msg_ok p :
  0 <= p < 65536 → ∃ d b, server_port_msg p = Some d ∧
    let q := (recv_udp_data true 0 zero_query_obj d).1 in
    type (config q) = data ∧ buf q = dec_u p ++ NUL :: b.
Proof.
  intros Hp. destruct (dec_d_port p Hp) as [Ed Hl]. unfold server_port_msg.
  rewrite strcpy_Some; rewrite Ed, cstr_id by (apply dec_u_no_nul; lia);
    [|by rewrite zero_buf_length].
  cbn [mbind option_bind]. eexists _, _. split; [reflexivity|].
  set (q := set_type data (set_buf _ zero_query_obj)).
  destruct (recv_sent false sizeof_sockaddr_in q) as [Hb Hc].
  - unfold q. cbn [buf set_type set_buf]. rewrite length_app. cbn [length].
    rewrite length_drop, zero_buf_length. lia.
  - by split_and!.
  - cbv zeta. rewrite Hc, Hb. by split.
Qed.

(** A file name sent without a header. *)
Lemma recv_name name :
  no_nul name → (length name < Z.to_nat MAXLINE)%nat →
  cstr (buf (recv_udp_data true 0 zero_query_obj (client_request name)).1) = name ∧
  length (buf (recv_udp_data true 0 zero_query_obj (client_request name)).1) = Z.to_nat MAXLINE.
Proof.
  intros Hn Hl. unfold client_request. rewrite (cstr_id name) by exact Hn.
  unfold recv_udp_data. cbn [fst msg_iov msgdata init_query_obj scatter scatter_piece snd buf].
  rewrite (firstn_all2 name) by lia. unfold overlay. rewrite zero_buf_length.
  cbn [zero_query_obj buf]. rewrite drop_zeros.
  rewrite firstn_all2 by (rewrite length_app, length_zeros; lia).
  split; [|rewrite length_app, length_zeros; lia].
  replace (Z.to_nat MAXLINE - length name)%nat with (S (Z.to_nat MAXLINE - length name - 1)) by lia.
  by apply cstr_app_nul.
Qed.

(** The client's two waits on the datagrams [a] and [d]. *)
Abbreviation arrived d := (recv_udp_data true 0 zero_query_obj d).1.

Lemma await_hit t d ds :
  type (config (arrived d)) = t → await_type t (d :: ds) = Some (arrived d, ds).
Proof. intros H. cbn [await_type]. by rewrite (proj2 (Z.eqb_eq _ _) H). Qed.

Lemma await_miss t d ds :
  type (config (arrived d)) ≠ t → await_type t (d :: ds) = await_type t ds.
Proof. intros H. cbn [await_type]. by rewrite (proj2 (Z.eqb_neq _ _) H). Qed.

Lemma client_port_eq ptr ds q ds' q' ds'' :
  await_type ack ds = Some (q, ds') → await_type data ds' = Some (q', ds'') →
  client_port ptr ds = Some (if ptr =? 0 then inr (i32 (strtol10 (buf q')), ds'') else inl Unset).
Proof. intros H1 H2. unfold client_port. rewrite H1. cbn [mbind option_bind]. by rewrite H2. Qed.

Lemma client_port_waits ptr ds q ds' :
  await_type ack ds = Some (q, ds') → await_type data ds' = None → client_port ptr ds = None.
Proof. intros H1 H2. unfold client_port. rewrite H1. cbn [mbind option_bind]. by rewrite H2. Qed.

Lemma client_port_in_order ptr a d :
  type (config (arrived a)) = ack → type (config (arrived d)) = data →
  client_port ptr [a; d] = Some (if ptr =? 0 then inr (i32 (strtol10 (buf (arrived d))), []) else inl Unset).
Proof. intros Ha Hd. eapply client_port_eq; by apply await_hit. Qed.

Lemma client_port_reordered ptr a d rest :
  type (config (arrived d)) = data → type (config (arrived a)) = ack →
  Forall (λ x, type (config (arrived x)) ≠ data) rest →
  client_port ptr (d :: a :: rest) = None.
Proof.
  intros Hd Ha Hrest. eapply client_port_waits.
  - rewrite await_miss by by rewrite Hd. by apply await_hit.
  - induction Hrest as [|x rest Hx _ IH]; [done|]. by rewrite await_miss.
Qed.

(** The server's view of a request for [name]. *)
Lemma server_request_name fn0 d name :
  cstr (buf (arrived d)) = name → (length name < length fn0)%nat →
  ∃ fn, server_request fn0 d =
    Some (fn, send_udp_data false sizeof_sockaddr_in (set_type ack zero_query_obj)) ∧ cstr fn = name.
Proof.
  intros Hr Hl. unfold server_request. destruct (strcpy fn0 _) as [fn|] eqn:E.
  - exists fn. split; [done|]. by rewrite (strcpy_cstr _ _ _ E).
  - rewrite strcpy_Some in E; [done|]. by rewrite Hr.
Qed.

(** ** The theorems *)

(** C28: when nothing is lost or reordered the two ends agree: the server opens
    the file the client named, and the client's two waits end with the port
    the child is bound to.  That is if the pointer that the client hands to
    [strtol] without having set it happens to be null; with any other value the
    client writes through it, and nothing can be said of what follows. *)
Theorem handshake_agrees name fn0 p ptr :
  no_nul name → (length name < Z.to_nat MAXLINE)%nat → length fn0 = Z.to_nat MAXLINE →
  0 <= p < 65536 →
  ∃ fn a d, server_request fn0 (client_request name) = Some (fn, a) ∧ cstr fn = name ∧
    server_port_msg p = Some d ∧
    client_port ptr [a; d] = Some (if ptr =? 0 then inr (p, []) else inl Unset).
Proof.
  intros Hn Hl Hf Hp. destruct (recv_name name Hn Hl) as [Hr _].
  destruct (port_msg_ok p Hp) as (d & b & Ed & Ht & Hb).
  destruct (server_request_name fn0 _ name Hr) as (fn & E & Hfn); [by rewrite Hf|].
  eexists fn, _, d. split; [exact E|]. split; [done|]. split; [done|].
  rewrite client_port_in_order by (exact ack_msg_ok || done).
  rewrite Hb, strtol_dec_u by (unfold LONG_MAX; lia). rewrite i32_small by (unfold is_i32; lia). done.
Qed.

Lemma handshake_agrees_witness :
  ∃ fn a d, server_request (zeros (Z.to_nat MAXLINE)) (client_request (str "test.txt")) = Some (fn, a) ∧
    cstr fn = str "test.txt" ∧ server_port_msg 40000 = Some d ∧ client_port 0 [a; d] = Some (inr (40000, [])).
Proof.
  apply (handshake_agrees (str "test.txt") (zeros (Z.to_nat MAXLINE)) 40000 0).
  - unfold no_nul. refine (bool_decide_unpack _ _). by vm_compute.
  - by apply Nat.ltb_lt; vm_compute.
  - apply length_zeros.
  - by vm_compute.
Defined.

(** If the child's port overtakes the acknowledgement, the client throws
    it away while it waits for the acknowledgement and then waits for good:
    whatever else arrives that is not data, it never learns a port. *)
Theorem handshake_reordered_hangs p d a rest ptr :
  0 <= p < 65536 → server_port_msg p = Some d →
  a = send_udp_data false sizeof_sockaddr_in (set_type ack zero_query_obj) →
  Forall (λ x, type (config (recv_udp_data true 0 zero_query_obj x).1) ≠ data) rest →
  client_port ptr (d :: a :: rest) = None.
Proof.
  intros Hp Hd -> Hrest. destruct (port_msg_ok p Hp) as (d' & b & Ed & Ht & _).
  rewrite Hd in Ed. injection Ed as <-. by apply client_port_reordered; [|apply ack_msg_ok|].
Qed.

Lemma handshake_reordered_hangs_witness :
  ∃ d a, server_port_msg 40000 = Some d ∧ client_port 0 [d; a] = None.
Proof.
  destruct (port_msg_ok 40000) as (d & b & E & _); [lia|].
  exists d, (send_udp_data false sizeof_sockaddr_in (set_type ack zero_query_obj)). split; [exact E|].
  apply (handshake_reordered_hangs 40000 d _ [] 0); [lia|exact E|reflexivity|constructor].
Defined.
