(* ===== verification/Hw2Config.v ===== *)
(** * Starting the two programs (main of hw2/client.c and hw2/server.c)

    Reading client.in and server.in, the address the client uses for the
    server, the sockets the server listens on, and its loop over them.  The
    name service is a parameter. *)

From Stdlib Require Import Strings.Byte.
From S2P Require Import Prelude.
From S2P Require Import CMem.
From S2P Require Import CText.
From S2P Require Import CFloat.
From S2P Require Import CScan.
From S2P Require Import Inet.
From S2P Require Import UdpMsg.
From S2P Require Import Hw2Addr.
From S2P Require Import Hw2Client.
From S2P Require Import Hw2Handshake.

(** ** client.in *)

(** A field assigned by a conversion, or left as it was. *)
Definition assign {A} (r : option A * bytes) (old : A) : A * bytes := (default old r.1, r.2).

(** [fscanf(fp, "%s", a)] for an array of [MAXLINE]. *)
Definition read_s (file old : bytes) : option (bytes * bytes) :=
  let '(w, r) := assign (scan_s file) old in
  if Z.of_nat (length w) <? MAXLINE then Some (w, r) else None.

(** The seven conversions; [None] is a word too long for its array. *)
Definition read_client_config (file : bytes) (c : client_config) : option client_config :=
  '(server_ip, file) ← read_s file (cfg_server_ip c);
  let '(server_port, file) := assign (scan_d file) (cfg_server_port c) in
  '(file_name, file) ← read_s file (cfg_file_name c);
  let '(rwnd, file) := assign (scan_d file) (cfg_rwnd c) in
  let '(seed, file) := assign (scan_d file) (cfg_seed c) in
  let '(probability, file) := assign (scan_f file) (cfg_probability c) in
  let '(buffer_read_time, _) := assign (scan_d file) (cfg_buffer_read_time c) in
  Some (mk_client_config server_ip server_port file_name rwnd seed probability buffer_read_time).

(** The globals before [main]. *)
Definition zero_config : client_config := mk_client_config [] 0 [] 0 0 (S754_zero false) 0.

(** [main] up to the configuration; [None] for a file that cannot be opened. *)
Definition client_in {S O} (file : option bytes) : M S O client_config :=
  match file with
  | None => exit 0
  | Some f => required BadCopy (read_client_config f zero_config)
  end.

(** [get_host]: the name of the host with an address, into an array.  [host_of]
    is [gethostbyaddr]; [junk] what an address that cannot be read leaves. *)
Definition get_host (host_of : bytes → option bytes) (junk a hostname : bytes) : fault + bytes :=
  match strcpy (zeros 100) a with
  | None => inl BadCopy
  | Some copy =>
      match host_of (default junk (inet_pton4 copy)) with
      | None => inl NullPointer
      | Some name => match strcpy hostname name with Some h => inr h | None => inl BadCopy end
      end
  end.

(** The address the client talks to: loopback when the server has the name of
    the client's second interface. *)
Definition client_server_ip (host_of : bytes → option bytes) (junk : bytes) (cfg : client_config)
    (addr : list iAddr) : fault + bytes :=
  match get_host host_of junk (cfg_server_ip cfg) (zeros 40), addr !! 1%nat with
  | inl f, _ => inl f
  | _, None => inl BadIndex
  | inr servhost, Some a1 =>
      match get_host host_of junk (ip_addr a1) (zeros 40) with
      | inl f => inl f
      | inr clihost => inr (choose_server_ip clihost servhost (cfg_server_ip cfg))
      end
  end.

(** ** server.in *)

Record server_config := mk_server_config { port_num : Z; serv_rwnd : Z; serv_file_name : bytes }.

Definition read_server_config (file : bytes) (c : server_config) : server_config :=
  let '(port, file) := assign (scan_d file) (port_num c) in
  let '(rwnd, _) := assign (scan_d file) (serv_rwnd c) in
  mk_server_config port rwnd (serv_file_name c).

(** [main] up to the configuration; its globals are zero. *)
Definition server_in {S O} (file : option bytes) : M S O server_config :=
  match file with
  | None => exit 0
  | Some f => mret (read_server_config f (mk_server_config 0 0 (zeros (Z.to_nat MAXLINE))))
  end.

(** The addresses the sockets are bound to; [Inet_pton] exits on a bad one. *)
Fixpoint bound_addresses (port : Z) (addr : list iAddr) : option (list (bytes * Z)) :=
  match addr with
  | [] => Some []
  | a :: addr =>
      p ← inet_pton4 (ip_addr a);
      rest ← bound_addresses port addr;
      Some ((p, u16 port) :: rest)
  end.

(** ** The server's loop *)

(** The acknowledgement sent from socket [i], and the child forked for a
    client, which inherits the file name. *)
Inductive srv_out :=
| SentFrom (i : nat) (to : bytes) (d : bytes)
| Forked (i : nat) (to : bytes) (file_name : bytes).

(** A datagram on socket [i] from the address [from]; the state is
    [serv_config.file_name]. *)
Definition serve_request (i : nat) (from d : bytes) : M bytes srv_out unit :=
  fn ← gets id;
  r ← required BadCopy (server_request fn d);
  modify (λ _, r.1) ≫= λ _,
  emit (SentFrom i from r.2) ≫= λ _,
  emit (Forked i from (cstr r.1)).

(** One turn: what is ready on the sockets, in the order of the sockets. *)
Definition server_turn (ready : list (option (bytes * bytes))) : M bytes srv_out unit :=
  foreach (zip (List.seq 0 (length ready)) ready) (λ '(i, r),
    match r with Some (from, d) => serve_request i from d | None => mret tt end).

(** ** Properties *)

Definition line (s : bytes) : bytes := s ++ [x0a].

(** A configuration file: the values one per line, the probability as [n] with
    the decimal places [ds]. *)
Definition client_file (c : client_config) (n : Z) (ds : list Z) : bytes :=
  line (cfg_server_ip c) ++ line (dec_d (cfg_server_port c)) ++ line (cfg_file_name c) ++
  line (dec_d (cfg_rwnd c)) ++ line (dec_d (cfg_seed c)) ++
  line (dec_u n ++ byte.of_Z 46 :: map digit ds) ++ line (dec_d (cfg_buffer_read_time c)).

Definition word_ok (w : bytes) : Prop := no_space w ∧ w ≠ [] ∧ Z.of_nat (length w) < MAXLINE.

Lemma read_s_line w old r : word_ok w → read_s (line w ++ r) old = Some (w, x0a :: r).
Proof.
  intros (Hw & Hne & Hlen). unfold read_s, line, assign. rewrite <- app_assoc.
  rewrite scan_s_word by (done || by eexists). cbn. by rewrite (proj2 (Z.ltb_lt _ _) Hlen).
Qed.

Lemma read_s_newline s old : read_s (x0a :: s) old = read_s s old.
Proof. unfold read_s. by rewrite scan_s_newline. Qed.

Lemma scan_d_line z r : is_i32 z → scan_d (line (dec_d z) ++ r) = (Some z, x0a :: r).
Proof. intros Hz. unfold line. rewrite <- app_assoc. apply scan_d_dec; [done|by eexists]. Qed.

Lemma scan_f_line n ds r :
  0 <= n → Forall (λ d, 0 <= d < 10) ds →
  scan_f (line (dec_u n ++ byte.of_Z 46 :: map digit ds) ++ r) =
    (Some (f32_of_decimal false (fold_left (λ v d, v * 10 + d) ds n) (- Z.of_nat (length ds))), x0a :: r).
Proof.
  intros Hn Hds. unfold line. rewrite <- !app_assoc. cbn [app].
  apply scan_f_point; [done..|by eexists].
Qed.

(** C30: the configuration survives being written to a file.  Whatever the
    globals held, reading a client.in that lists the seven values, one per line,
    gives exactly them, the probability being the [float] nearest to its decimal
    text. *)
Theorem client_in_roundtrip c n ds c0 :
  word_ok (cfg_server_ip c) → word_ok (cfg_file_name c) → is_i32 (cfg_server_port c) → is_i32 (cfg_rwnd c) →
  is_i32 (cfg_seed c) → is_i32 (cfg_buffer_read_time c) → 0 <= n → Forall (λ d, 0 <= d < 10) ds →
  cfg_probability c = f32_of_decimal false (fold_left (λ v d, v * 10 + d) ds n) (- Z.of_nat (length ds)) →
  read_client_config (client_file c n ds) c0 = Some c.
Proof.
  intros Hip Hname Hport Hrwnd Hseed Htime Hn Hds Hp. unfold read_client_config, client_file.
  rewrite read_s_line by done. cbn [mbind option_bind]. rewrite scan_d_newline, scan_d_line by done.
  unfold assign at 1. cbn [default fst snd]. rewrite read_s_newline, read_s_line by done. cbn [mbind option_bind].
  rewrite scan_d_newline, scan_d_line by done. unfold assign at 1. cbn [default fst snd].
  rewrite scan_d_newline, scan_d_line by done. unfold assign at 1. cbn [default fst snd].
  rewrite scan_f_newline, scan_f_line by done. unfold assign at 1. cbn [default fst snd].
  rewrite scan_d_newline, <- (app_nil_r (line (dec_d (cfg_buffer_read_time c)))), scan_d_line by done.
  unfold assign. cbn [default fst snd]. rewrite <- Hp. by destruct c.
Qed.

(** The acknowledgement of the well-known port. *)
Definition port_ack : bytes := send_udp_data false sizeof_sockaddr_in (set_type ack zero_query_obj).

Definition served (x : nat * option (bytes * bytes)) : list srv_out :=
  match x.2 with
  | Some (from, name) => [SentFrom x.1 from port_ack; Forked x.1 from name]
  | None => []
  end.

Definition as_datagrams (rs : list (option (bytes * bytes))) : list (option (bytes * bytes)) :=
  map (option_map (λ r, (r.1, client_request r.2))) rs.

Lemma server_request_length fn d r : server_request fn d = Some r → length r.1 = length fn.
Proof.
  unfold server_request. generalize (send_udp_data false sizeof_sockaddr_in (set_type ack zero_query_obj)). intros a E.
  apply bind_Some in E as (x & Ex & E). injection E as <-. apply (strcpy_length _ _ _ Ex).
Qed.

Lemma serve_request_eq i from d fn r :
  server_request fn d = Some r →
  serve_request i from d fn = ([SentFrom i from r.2; Forked i from (cstr r.1)], Ret tt r.1).
Proof. intros E. unfold serve_request, mbind, M_bind, gets. cbn [Datatypes.id]. by rewrite E. Qed.

Lemma serve_one i from name fn :
  length fn = Z.to_nat MAXLINE → no_nul name → (length name < Z.to_nat MAXLINE)%nat →
  ∃ fn', serve_request i from (client_request name) fn = (served (i, Some (from, name)), Ret tt fn') ∧
    length fn' = Z.to_nat MAXLINE.
Proof.
  intros Hfn Hn Hl. destruct (recv_name name Hn Hl) as [Hc _].
  destruct (server_request_name fn (client_request name) name Hc) as (fn' & E & Hc'); [by rewrite Hfn|].
  fold port_ack in E. exists fn'. rewrite <- Hfn.
  split; [|exact (server_request_length _ _ _ E)]. rewrite (serve_request_eq _ _ _ _ _ E).
  unfold served. cbn [fst snd]. by rewrite Hc'.
Qed.

Lemma serve_all rs fn k :
  length fn = Z.to_nat MAXLINE →
  Forall (λ r : option (bytes * bytes), ∀ from name, r = Some (from, name) →
    no_nul name ∧ (length name < Z.to_nat MAXLINE)%nat) rs →
  ∃ fn', foreach (zip (List.seq k (length (as_datagrams rs))) (as_datagrams rs)) (λ '(i, r),
      match r with Some (from, d) => serve_request i from d | None => mret tt end) fn =
    (flat_map served (zip (List.seq k (length rs)) rs), Ret tt fn').
Proof.
  intros Hfn Hrs. revert k fn Hfn. induction Hrs as [|r rs Hr _ IH]; intros k fn Hfn; [by exists fn|].
  cbn [as_datagrams map length List.seq zip zip_with foreach flat_map].
  destruct r as [[from name]|]; cbn [option_map fst snd].
  - destruct (Hr from name eq_refl) as [Hn Hl]. destruct (serve_one k from name fn Hfn Hn Hl) as (fn1 & E & Hfn1).
    destruct (IH (S k) fn1 Hfn1) as (fn2 & E2). exists fn2. unfold mbind, M_bind. rewrite E.
    fold (as_datagrams rs). by rewrite E2.
  - destruct (IH (S k) fn Hfn) as (fn2 & E2). exists fn2. unfold mbind, M_bind. cbn [mret M_ret].
    fold (as_datagrams rs). by rewrite E2.
Qed.

(** C29: the server answers every request and starts a child with the file it
    names.  In one turn of its loop, for any set of sockets with a request each,
    it sends one acknowledgement from the socket the request came in on, to its
    sender, and forks one child for that client whose file name is the one this
    client sent, although all of them pass through one global array. *)
Theorem requests_served rs fn :
  length fn = Z.to_nat MAXLINE →
  Forall (λ r : option (bytes * bytes), ∀ from name, r = Some (from, name) →
    no_nul name ∧ (length name < Z.to_nat MAXLINE)%nat) rs →
  ∃ fn', server_turn (as_datagrams rs) fn = (flat_map served (zip (List.seq 0 (length rs)) rs), Ret tt fn').
Proof. apply serve_all. Qed.

(** ** Witnesses *)

(** The file client.in of the repository. *)
Definition client_in_text : bytes :=
  client_file (mk_client_config (str "130.245.1.44") 5511 (str "test_file") 10 10 (f32_of_decimal false 1 (-1)) 1000) 0 [1].

Lemma client_in_roundtrip_witness :
  client_in_text = str "130.245.1.44" ++ [x0a] ++ str "5511" ++ [x0a] ++ str "test_file" ++ [x0a] ++ str "10" ++ [x0a] ++
    str "10" ++ [x0a] ++ str "0.1" ++ [x0a] ++ str "1000" ++ [x0a] ∧
  read_client_config client_in_text zero_config =
    Some (mk_client_config (str "130.245.1.44") 5511 (str "test_file") 10 10 (f32_of_decimal false 1 (-1)) 1000).
Proof.
  split; [vm_compute; reflexivity|].
  apply client_in_roundtrip; try (vm_compute; split; congruence); try lia; try reflexivity.
  - split; [repeat constructor|split; [discriminate|reflexivity]].
  - split; [repeat constructor|split; [discriminate|reflexivity]].
  - repeat constructor; lia.
Defined.

Lemma requests_served_witness : ∃ fn',
  server_turn (as_datagrams [None; Some (str "peer1", str "a.txt"); Some (str "peer2", str "b.txt")]) (zeros (Z.to_nat MAXLINE)) =
    ([SentFrom 1 (str "peer1") port_ack; Forked 1 (str "peer1") (str "a.txt");
      SentFrom 2 (str "peer2") port_ack; Forked 2 (str "peer2") (str "b.txt")], Ret tt fn').
Proof.
  apply (requests_served [None; Some (str "peer1", str "a.txt"); Some (str "peer2", str "b.txt")]);
    [apply length_zeros|].
  constructor; [intros ? ? [=]|constructor; [|constructor; [|constructor]]]; intros from name [= <- <-];
    (split; [by apply (bool_decide_unpack _); vm_compute|apply Nat.ltb_lt; vm_compute; reflexivity]).
Defined.
