(* ===== verification/Hw2Sender.v ===== *)
(** * What the server sends (properties of hw2/server.c)

    Every data packet carries the word of its number and every end-of-file
    packet carries the number of words, through retransmissions, reopenings of
    the file and window changes. *)

From S2P Require Import Prelude.
From S2P Require Import CMem.
From S2P Require Import CFloat.
From S2P Require Import Rtt.
From S2P Require Import UdpMsg.
From S2P Require Import Hw2Client.
From S2P Require Import Hw2Server.

Section sender.
Context (words : list bytes) (clock : nat → timeval).
Abbreviation N := (Z.of_nat (length words)).

(** The contract of a packet. *)
Definition pkt_ok (m : udp_msg) : Prop :=
  let h := m_config m in
  (type h = data → 0 <= seq h ∧ words !! Z.to_nat (seq h) = Some (m_buf m)) ∧
  (type h = eof → seq h = Z.of_nat (length words)).

(** The sender's invariant between turns. *)
Record sender_inv (e : Z) (s : server) : Prop := {
  si_eof : isEOF (th s) = e;
  si_last : last_pack_seq_no (th s) = -1 ∧ seq_num s < N ∨ last_pack_seq_no (th s) = N;
  si_seq : -1 <= seq_num s <= N;
  si_fp : fp_pos s = Z.to_nat (Z.min (seq_num s + 1) N);
  si_unacked : last_unacked_seq (th s) = -1 ∨
    0 <= last_unacked_seq (th s) <= N ∧
    (last_pack_seq_no (th s) = -1 → last_unacked_seq (th s) < N)
}.

(** The state after the packet's number is chosen and its word read. *)
Record chosen (e k : Z) (s : server) : Prop := {
  ch_eof : isEOF (th s) = e;
  ch_k : 0 <= k <= N + 1;
  ch_seq : seq_num s = k;
  ch_q : seq (m_config (q_obj s)) = k;
  ch_fp : fp_pos s = Z.to_nat (Z.min (k + 1) N);
  ch_last : last_pack_seq_no (th s) = -1 ∧ k < N ∨ last_pack_seq_no (th s) = N;
  ch_unacked : last_unacked_seq (th s) = -1;
  ch_word : k < N → words !! Z.to_nat k = Some (m_buf (q_obj s))
}.

Abbreviation wps := (wp True pkt_ok).

Lemma wp_fscanf_buf Q s :
  (∀ w, words !! fp_pos s = Some w → Q true (set_fp_pos (S (fp_pos s)) (set_q_buf w s))) →
  (words !! fp_pos s = None → Q false s) →
  wps (fscanf_buf words) Q s.
Proof.
  intros H1 H2. unfold fscanf_buf. wp_steps.
  destruct (words !! fp_pos s) as [w|]; wp_steps; eauto.
Qed.

(** The words skipped only move the position and change the buffer. *)
Lemma wp_skip_words n Q s :
  (fp_pos s ≤ length words)%nat →
  (∀ w, Q tt (set_fp_pos (Nat.min (fp_pos s + n) (length words)) (set_q_buf w s))) →
  wps (skip_words words n) Q s.
Proof.
  revert s. induction n as [|n IH]; intros s Hp H; cbn [skip_words].
  { wp_steps. specialize (H (m_buf (q_obj s))).
    rewrite Nat.add_0_r, Nat.min_l in H by done. by destruct s as [? ? ? [] ?]. }
  wp_steps. apply wp_fscanf_buf.
  - intros w Hw. apply lookup_lt_Some in Hw as Hlt. apply IH; [cbn; lia|].
    intros w'. specialize (H w'). cbn [fp_pos set_fp_pos].
    by replace (S (fp_pos s) + n)%nat with (fp_pos s + S n)%nat by lia.
  - intros Hw%lookup_ge_None. apply IH; [done|]. intros w'. specialize (H w').
    rewrite Nat.min_r in H |- * by lia. done.
Qed.

Hypothesis words_int : N + 1 <= INT_MAX.

Lemma wp_retransmit e s :
  sender_inv e s → last_unacked_seq (th s) ≠ -1 →
  wps (retransmit words) (λ _ s', ∃ k, chosen e k s') s.
Proof.
  intros [Ee Hl Hs Hf Hu] Hne. destruct Hu as [?|[Hu Hu']]; [done|]. unfold INT_MAX in *.
  unfold retransmit. wp_steps. rewrite u32_small by (unfold is_u32; lia).
  apply wp_skip_words; [cbn; lia|]. intros w. cbn [fp_pos set_fp_pos Nat.add].
  rewrite Nat.min_l by lia. wp_steps.
  apply wp_fscanf_buf; cbn [fp_pos set_fp_pos]; intros; wp_steps;
    exists (last_unacked_seq (th s)).
  - apply lookup_lt_Some in H as Hlt. split; cbn; try done; try lia.
  - apply lookup_ge_None in H. split; cbn; try done; try lia.
Qed.

Lemma wp_gettimeofday Q s :
  (∀ n now, Q now (mk_server (th s) (seq_num s) (fp_pos s) (q_obj s) n)) →
  wps (gettimeofday clock) Q s.
Proof. intros H. split; [constructor|apply H]. Qed.

Lemma wp_next_packet e s :
  sender_inv e s → last_unacked_seq (th s) = -1 →
  wps (next_packet words clock) (λ _ s', ∃ k, chosen e k s') s.
Proof.
  intros [Ee Hl Hs Hf _] Hu. unfold INT_MAX in *. unfold next_packet. wp_steps.
  apply wp_gettimeofday. intros n now. wp_steps. cbn [seq_num set_q_ts set_q_obj].
  rewrite i32_small, (u32_small (_ + 1)) by (unfold is_u32, is_i32; lia).
  apply wp_fscanf_buf; cbn [fp_pos set_seq_num set_q_seq set_q_ts set_q_obj]; intros;
    wp_steps; exists (seq_num s + 1).
  - done.
  - apply lookup_lt_Some in H as Hlt. split; cbn; try done; try lia.
    + intros _. replace (Z.to_nat (seq_num s + 1)) with (fp_pos s) by lia. done.
  - apply lookup_ge_None in H. apply Z.eqb_eq in Hb. cbn in Hb.
    split; cbn; try done; lia.
  - apply lookup_ge_None in H. apply Z.eqb_neq in Hb. cbn in Hb.
    split; cbn; try done; lia.
Qed.

Lemma wp_mark_type e k s :
  chosen e k s →
  wps mark_type (λ _ s', sender_inv e s' ∧ last_unacked_seq (th s') = -1 ∧ pkt_ok (q_obj s')) s.
Proof.
  intros [Ee Hk Hs Hq Hf Hl Hu Hw]. unfold mark_type. wp_steps; unfold INT_MAX in *.
  - apply andb_prop in Hb as [Hb1%Z.leb_le Hb2%negb_true_iff%Z.eqb_neq].
    rewrite u32_small by (unfold is_u32; lia).
    split; [split; cbn; try done; try lia|]. split; [done|]. split; cbn; [done|lia].
  - assert (k < N) as HkN.
    { apply andb_false_iff in Hb as [?%Z.leb_gt|?%negb_false_iff%Z.eqb_eq]; lia. }
    split; [split; cbn; try done; try lia|]. split; [done|]. split; cbn; [|done].
    intros _. rewrite Hq. split; [lia|]. by apply Hw.
Qed.

(** What the rest of a turn leaves alone. *)
Lemma sender_inv_frame e s s' :
  sender_inv e s → isEOF (th s') = isEOF (th s) →
  seq_num s' = seq_num s → fp_pos s' = fp_pos s →
  last_pack_seq_no (th s') = last_pack_seq_no (th s) →
  last_unacked_seq (th s') = last_unacked_seq (th s) ∨ last_unacked_seq (th s') = -1 →
  sender_inv e s'.
Proof.
  intros [Ee Hl Hs Hf Hu] E0 E1 E2 E3 E4. split; rewrite ?E0, ?E1, ?E2, ?E3; try done.
  destruct E4 as [-> | ->]; [done|by left].
Qed.

Lemma wp_init_timer e s :
  sender_inv e s → pkt_ok (q_obj s) →
  wps (init_timer clock) (λ _ s', sender_inv e s' ∧ pkt_ok (q_obj s')) s.
Proof.
  intros Hi Hp. unfold init_timer. wp_steps; [|done].
  apply wp_gettimeofday. intros n now. wp_steps. split; [|done].
  apply (sender_inv_frame e s); by cbn; eauto.
Qed.

Lemma wp_choose e s :
  sender_inv e s →
  wps (if negb (last_unacked_seq (th s) =? -1) then retransmit words else next_packet words clock)
    (λ _ s', ∃ k, chosen e k s') s.
Proof.
  intros Hi. destruct (Z.eqb_spec (last_unacked_seq (th s)) (-1)) as [E|E]; cbn [negb].
  - by apply wp_next_packet.
  - by apply wp_retransmit.
Qed.

Lemma wp_send_turn e s :
  sender_inv e s → wps (send_turn words clock) (λ _, sender_inv e) s.
Proof.
  intros Hi. assert (sender_inv e (set_q_obj zero_msg s)) as Hi' by (destruct Hi; by split).
  unfold send_turn. wp_step. wp_step. cbv beta. wp_step. wp_step. cbv beta. wp_step; [by wp_step|].
  wp_step. eapply wp_mono; [by apply (wp_choose e (set_q_obj zero_msg s))|].
  intros ? s1 [k Hk]. cbv beta. wp_step.
  eapply wp_mono; [by eapply wp_mark_type|]. intros ? s2 (Hs2 & _ & Hp). cbv beta. wp_step.
  eapply wp_mono; [by eapply wp_init_timer|]. intros ? s3 [Hs3 Hp3]. cbv beta.
  unfold send. wp_steps; [done|]. apply (sender_inv_frame e s3); by cbn; eauto.
Qed.

Lemma wp_send_loop e n s : sender_inv e s → wps (send_loop words clock n) (λ _, sender_inv e) s.
Proof.
  revert s. induction n as [|n IH]; intros s Hi; cbn [send_loop]; [by wp_step|].
  wp_step. eapply wp_mono; [by apply (wp_send_turn e)|]. intros stop s' Hs'. cbv beta.
  wp_step; [by wp_step|by apply IH].
Qed.

Lemma wp_send_ping e s : sender_inv e s → wps send_ping (λ _, sender_inv e) s.
Proof.
  intros Hi. unfold send_ping, send. wp_steps; [|by destruct Hi|done].
  by split.
Qed.

(** The invariant while [receive_ack] waits. *)
Record waiting_inv (e : Z) (l : ra_locals) (s : server) : Prop := {
  wi_sender : sender_inv e s;
  wi_expected : ra_expected l = seq_num s + 1;
  wi_prev : prev_seq_num l = -1 ∨
    0 <= prev_seq_num l <= N ∧ (last_pack_seq_no (th s) = -1 → prev_seq_num l < N)
}.

Definition status_inv (e : Z) (st : ra_status) (s : server) : Prop :=
  match st with Waiting l => waiting_inv e l s | Returned => sender_inv e s end.

Lemma wp_burst e s :
  sender_inv e s →
  wps (burst words clock) (λ st s', status_inv e st s' ∧ (st = Returned → e = 1)) s.
Proof.
  intros Hi. unfold burst. wp_step. wp_step. cbv beta. wp_step.
  eapply wp_mono; [by apply (wp_send_loop e)|]. intros ? s1 Hs1. cbv beta. wp_step.
  eapply wp_mono; [by apply (wp_send_ping e)|]. intros ? s2 Hs2. cbv beta.
  unfold receive_ack_start. wp_steps.
  - split; [done|]. intros _. apply Z.eqb_eq in Hb. by rewrite (si_eof _ _ Hs2) in Hb.
  - split; [|done]. split; [done| |by left]. cbn. destruct Hs2. unfold INT_MAX in *.
    rewrite i32_small; [done|]. unfold is_i32. lia.
Qed.

(** ** receive_ack *)

Lemma wp_give_up e l s :
  waiting_inv e l s →
  wps (give_up_or_back_off l) (λ _ s', sender_inv e s') s.
Proof.
  intros [Hi He Hp]. unfold give_up_or_back_off. wp_step. wp_step. cbv beta. wp_step.
  - (* the number to go back to is never past the last packet *)
    exfalso. apply andb_prop in Hb as [Hb1%Z.ltb_lt Hb2%negb_true_iff%Z.eqb_neq].
    destruct Hi as [? [[??]|?] ???]; [done|]. lia.
  - destruct (rtt_timeout (rttinfo (th s))) as [p r] eqn:Hr. wp_steps.
    + destruct Hi. apply negb_true_iff, Z.eqb_neq in Hb1. by split.
    + apply (sender_inv_frame e s); by cbn; eauto.
Qed.

Lemma wp_ra_finish e h s :
  sender_inv e s →
  wps (ra_finish clock h) (λ st s', st = Returned ∧ sender_inv e s') s.
Proof.
  intros Hi. unfold ra_finish. wp_step. apply wp_gettimeofday. intros n now. wp_steps.
  split; [done|]. apply (sender_inv_frame e s); by cbn; eauto.
Qed.

(** An acknowledgement that is a whole datagram and does not run ahead of
    the number [receive_ack] waits for. *)
Definition timely (l : ra_locals) (e : ack_event) : Prop :=
  match e with
  | AckMsg n h => Z.of_nat sizeof_udp_data <= n ∧ 0 <= seq h <= ra_expected l
  | Alarm => True
  end.

Definition reports_end (e : ack_event) : Prop :=
  match e with AckMsg _ h => N < seq h | Alarm => False end.

Lemma wp_ra_event e l ev s :
  waiting_inv e l s → timely l ev →
  wps (ra_event clock l ev)
    (λ st s', ∃ e', status_inv e' st s' ∧ (e' = e ∨ reports_end ev)) s.
Proof.
  intros Hw Ht. pose proof Hw as [Hi He Hp]. destruct ev as [n h|]; cbn [ra_event].
  2: { wp_step. eapply wp_mono; [by apply wp_give_up|]. intros ? s' Hs'. cbv beta. wp_step.
       exists e. by split; [|left]. }
  destruct Ht as [Hn Hh]. wp_step. wp_step. cbv beta. wp_step. wp_step. cbv beta. wp_step.
  - apply andb_prop in Hb as [Hb1%Z.ltb_lt Hb2%negb_true_iff%Z.eqb_neq]. cbn in Hb1, Hb2.
    wp_step. wp_step. cbv beta. eapply wp_mono; [apply (wp_ra_finish 1)|].
    + destruct Hi. by split.
    + intros st s' [-> Hs']. exists 1. split; [done|]. right. cbn.
      destruct (si_last _ _ Hi) as [[??]|E]; [done|]. rewrite E, u32_small in Hb1; [done|].
      unfold is_u32, INT_MAX in *. lia.
  - wp_step. wp_step. cbv beta zeta.
    set (s1 := upd_th (set_th_rwnd (rwnd h)) (upd_th _ s)).
    assert (sender_inv e s1) as Hs1.
    { apply (sender_inv_frame e s); [done|reflexivity..|by left]. }
    pose proof (si_seq _ _ Hi) as Hseq. unfold INT_MAX in *.
    set (l' := if _ =? _ then _ else _).
    assert (ra_expected l' = ra_expected l) as El
      by (unfold l'; by destruct (u32 (prev_seq_num l) =? seq h)).
    assert (prev_seq_num l' = seq h ∨ prev_seq_num l' = prev_seq_num l) as Ep.
    { unfold l'. destruct (u32 (prev_seq_num l) =? seq h); cbn; [by right|left].
      apply i32_small. unfold is_i32. lia. }
    rewrite (u32_small (ra_expected l')) by (unfold is_u32; lia). wp_step.
    2: { eapply wp_mono; [by apply (wp_ra_finish e)|]. intros st s' [-> Hs'].
         exists e. by split; [|left]. }
    assert (seq h <> ra_expected l).
    { destruct (Z.ltb_spec n (Z.of_nat sizeof_udp_data)); [lia|]. cbn in Hb0.
      apply negb_true_iff, Z.eqb_neq in Hb0. lia. }
    assert (waiting_inv e l' s1) as Hw'.
    { split; [done|cbn; lia|]. destruct Ep as [-> | ->]; [right|done]. cbn.
      destruct (si_last _ _ Hi) as [[??]|?]; lia. }
    unfold ra_loop_top. wp_step; [wp_step|wp_step; exists e; by split; [|left]].
    eapply wp_mono; [by apply (wp_give_up e)|]. intros ? s' Hs'. cbv beta. wp_step.
    exists e. by split; [|left].
Qed.
End sender.
