(* ===== verification/Hw2System.v ===== *)
(** * The file transfer end to end (hw2/client.c with hw2/server.c)

    The server's loop, the client's two threads and a network between them.
    The network may lose, duplicate, delay and reorder: any datagram ever sent
    may be delivered at any time, any number of times.  The [policy] says which
    acknowledgements may reach the server while it waits for which number. *)

From S2P Require Import Prelude.
From S2P Require Import CMem.
From S2P Require Import CFloat.
From S2P Require Import Rtt.
From S2P Require Import UdpMsg.
From S2P Require Import Hw2Client.
From S2P Require Import Hw2Ring.
From S2P Require Import Hw2Receiver.
From S2P Require Import Hw2Server.
From S2P Require Import Hw2Sender.

(** Where the server is: before a burst, in [receive_ack], or returned. *)
Inductive server_at := AtBurst | AtReceiveAck (l : ra_locals) | AtEnd.
(** Where the client's main thread is: in the receive loop, after its [break],
    or past the last print. *)
Inductive client_at := Receiving | Leaving | Gone.

Record sys := mk_sys {
  srv : server; srv_at : server_at;
  cli : client; cli_at : client_at;
  packets : list udp_msg;      (* every packet the server ever sent *)
  acks : list udp_data;        (* every acknowledgement the client ever sent *)
  shown : list client_out      (* the lines the client has printed *)
}.

Definition sent_acks (os : list client_out) : list udp_data :=
  omap (λ o, match o with AckSent h => Some h | FileData _ _ => None end) os.

Definition after_event (st : ra_status) : server_at :=
  match st with Waiting l => AtReceiveAck l | Returned => AtBurst end.
Definition after_burst (st : ra_status) : server_at :=
  match st with Waiting l => AtReceiveAck l | Returned => AtEnd end.

(** The length of a whole acknowledgement datagram. *)
Definition ack_datagram_len : Z := MAXLINE + Z.of_nat sizeof_udp_data.

Section system.
Context (words : list bytes) (clock : nat → timeval).
Context (policy : ra_locals → udp_data → Prop).

Inductive step : sys → sys → Prop :=
| step_burst x st s' o :
    srv_at x = AtBurst → burst words clock (srv x) = (o, Ret st s') →
    step x (mk_sys s' (after_burst st) (cli x) (cli_at x) (packets x ++ o) (acks x) (shown x))
| step_ack x l h st s' o :
    srv_at x = AtReceiveAck l → h ∈ acks x → policy l h →
    ra_event clock l (AckMsg ack_datagram_len h) (srv x) = (o, Ret st s') →
    step x (mk_sys s' (after_event st) (cli x) (cli_at x) (packets x ++ o) (acks x) (shown x))
| step_alarm x l st s' o :
    srv_at x = AtReceiveAck l → ra_event clock l Alarm (srv x) = (o, Ret st s') →
    step x (mk_sys s' (after_event st) (cli x) (cli_at x) (packets x ++ o) (acks x) (shown x))
| step_receive x m rand2 junk_type brk c' o :
    cli_at x = Receiving → mutex_held (cli x) = false → m ∈ packets x →
    receive_turn rand2 junk_type m (cli x) = (o, Ret brk c') →
    step x (mk_sys (srv x) (srv_at x) c' (if brk then Leaving else Receiving)
              (packets x) (acks x ++ sent_acks o) (shown x))
| step_read x brk c' o :
    mutex_held (cli x) = false → reader_turn (cli x) = (o, Ret brk c') →
    step x (mk_sys (srv x) (srv_at x) c' (cli_at x) (packets x) (acks x) (shown x ++ o))
| step_final x c' o :
    cli_at x = Leaving → final_print (cli x) = (o, Ret tt c') →
    step x (mk_sys (srv x) (srv_at x) c' Gone (packets x) (acks x) (shown x ++ o)).

Inductive reachable (x0 : sys) : sys → Prop :=
| reach_start : reachable x0 x0
| reach_step x y : reachable x0 x → step x y → reachable x0 y.
End system.

(** ** Runs

    The steps as a function of who moves, to evaluate whole transfers. *)
Inductive move :=
| Burst
| Ack (i : nat)                     (* deliver the [i]-th acknowledgement ever sent *)
| Expire                            (* the alarm *)
| Receive (i : nat) (rand2 : Z)     (* deliver the [i]-th packet ever sent *)
| Read                              (* a turn of the reader thread *)
| Final.                            (* the end of the client's main *)

Section runs.
Context (words : list bytes) (clock : nat → timeval) (policy : ra_locals → udp_data → bool).

Definition exec (x : sys) (a : move) : option sys :=
  match a with
  | Burst =>
      match srv_at x, burst words clock (srv x) with
      | AtBurst, (o, Ret st s') =>
          Some (mk_sys s' (after_burst st) (cli x) (cli_at x) (packets x ++ o) (acks x) (shown x))
      | _, _ => None
      end
  | Ack i =>
      match srv_at x, acks x !! i with
      | AtReceiveAck l, Some h =>
          match policy l h, ra_event clock l (AckMsg ack_datagram_len h) (srv x) with
          | true, (o, Ret st s') =>
              Some (mk_sys s' (after_event st) (cli x) (cli_at x) (packets x ++ o) (acks x) (shown x))
          | _, _ => None
          end
      | _, _ => None
      end
  | Expire =>
      match srv_at x with
      | AtReceiveAck l =>
          match ra_event clock l Alarm (srv x) with
          | (o, Ret st s') =>
              Some (mk_sys s' (after_event st) (cli x) (cli_at x) (packets x ++ o) (acks x) (shown x))
          | _ => None
          end
      | _ => None
      end
  | Receive i r =>
      match cli_at x, mutex_held (cli x), packets x !! i with
      | Receiving, false, Some m =>
          match receive_turn r 0 m (cli x) with
          | (o, Ret brk c') =>
              Some (mk_sys (srv x) (srv_at x) c' (if brk then Leaving else Receiving)
                      (packets x) (acks x ++ sent_acks o) (shown x))
          | _ => None
          end
      | _, _, _ => None
      end
  | Read =>
      match mutex_held (cli x), reader_turn (cli x) with
      | false, (o, Ret _ c') =>
          Some (mk_sys (srv x) (srv_at x) c' (cli_at x) (packets x) (acks x) (shown x ++ o))
      | _, _ => None
      end
  | Final =>
      match cli_at x, final_print (cli x) with
      | Leaving, (o, Ret _ c') =>
          Some (mk_sys (srv x) (srv_at x) c' Gone (packets x) (acks x) (shown x ++ o))
      | _, _ => None
      end
  end.

Fixpoint run (x : sys) (l : list move) : option sys :=
  match l with
  | [] => Some x
  | a :: l => y ← exec x a; run y l
  end.

Lemma exec_step x a y :
  exec x a = Some y → step words clock (λ l h, policy l h = true) x y.
Proof.
  destruct a as [|i| |i r| |]; cbn [exec].
  - destruct (srv_at x) eqn:E; [|done|done].
    destruct (burst words clock (srv x)) as [o [st s'| |]] eqn:B; [|done|done].
    intros [= <-]. by apply step_burst.
  - destruct (srv_at x) as [|l|] eqn:E; [done| |done].
    destruct (acks x !! i) as [h|] eqn:Hh; [|done].
    destruct (policy l h) eqn:Hp; [|done].
    destruct (ra_event clock l _ (srv x)) as [o [st s'| |]] eqn:B; [|done|done].
    intros [= <-]. eapply step_ack; eauto. by eapply list_elem_of_lookup_2.
  - destruct (srv_at x) as [|l|] eqn:E; [done| |done].
    destruct (ra_event clock l _ (srv x)) as [o [st s'| |]] eqn:B; [|done|done].
    intros [= <-]. by eapply step_alarm.
  - destruct (cli_at x) eqn:E; [|done|done]. destruct (mutex_held (cli x)) eqn:Hm; [done|].
    destruct (packets x !! i) as [m|] eqn:Hh; [|done].
    destruct (receive_turn r 0 m (cli x)) as [o [brk c'| |]] eqn:B; [|done|done].
    intros [= <-]. eapply step_receive; eauto. by eapply list_elem_of_lookup_2.
  - destruct (mutex_held (cli x)) eqn:Hm; [done|].
    destruct (reader_turn (cli x)) as [o [brk c'| |]] eqn:B; [|done|done].
    intros [= <-]. by eapply step_read.
  - destruct (cli_at x) eqn:E; [done| |done].
    destruct (final_print (cli x)) as [o [[] c'| |]] eqn:B; [|done|done].
    intros [= <-]. by eapply step_final.
Qed.

Lemma run_reachable x0 x l y :
  reachable words clock (λ l h, policy l h = true) x0 x → run x l = Some y →
  reachable words clock (λ l h, policy l h = true) x0 y.
Proof.
  revert x. induction l as [|a l IH]; intros x Hx; cbn [run]; [by intros [= <-]|].
  destruct (exec x a) as [x'|] eqn:He; cbn; [|done]. apply IH.
  eapply reach_step; [done|by eapply exec_step].
Qed.
End runs.

(** The state when both programs enter their loops: [serv_rwnd] and the
    client's configuration are read from server.in and client.in, the rest of
    the memory is arbitrary. *)
Definition start (serv_rwnd : Z) (t0 : th_config) (q0 : udp_msg) (cfg : client_config)
    (junk : list buffer) : sys :=
  mk_sys (send_file_data_init serv_rwnd t0 q0) AtBurst
    (mk_client cfg (init_text_buffer junk) 0 false 0) Receiving [] [] [].

(** A ring just set up is the empty queue. *)
Lemma client_repr_start cfg junk :
  cfg_rwnd cfg = Z.of_nat (length junk) → 0 < cfg_rwnd cfg <= INT_MAX →
  client_repr (mk_client cfg (init_text_buffer junk) 0 false 0) (RecvQueue.mk [] 0).
Proof.
  intros Hr Hpos. split; cbn; [|done|by unfold init_text_buffer; rewrite length_map|lia].
  split; unfold init_text_buffer; rewrite ?length_map; cbn; [lia|lia|done|].
  intros i b Hi. apply list_lookup_fmap_Some_1 in Hi as (b0 & -> & _).
  right. split; [done|]. cbn. lia.
Qed.

(** ** The invariant *)

Section invariant.
Context (words : list bytes) (clock : nat → timeval).

(** What the client is meant to print: the words, then a last line. *)
Definition transcript : list bytes := words ++ [eof_text].

Definition server_inv (x : sys) : Prop :=
  match srv_at x with
  | AtReceiveAck l => waiting_inv words (isEOF (th (srv x))) l (srv x)
  | _ => sender_inv words (isEOF (th (srv x))) (srv x)
  end.

Record sys_inv (x : sys) : Prop := {
  inv_srv : server_inv x;
  inv_packets : Forall (pkt_ok words) (packets x);
  inv_queue : ∃ q,
    client_repr (cli x) q ∧
    RecvQueue.accepted q `prefix_of` transcript ∧
    Forall (λ h, 0 <= seq h <= Z.of_nat (length (RecvQueue.accepted q))) (acks x) ∧
    shown x = file_lines 0 (take (RecvQueue.printed q) (RecvQueue.accepted q)) ∧
    (isEOF (th (srv x)) = 1 ∨ srv_at x = AtEnd → RecvQueue.accepted q = transcript) ∧
    (cli_at x ≠ Receiving → RecvQueue.accepted q = transcript)
}.

(** Delivering a packet of the server's keeps the accepted data a prefix. *)
Lemma accept_msg_prefix n m q :
  pkt_ok words m → RecvQueue.accepted q `prefix_of` transcript →
  RecvQueue.accepted (accept_msg n m q) `prefix_of` transcript.
Proof.
  intros [Hd He] Hp. unfold accept_msg, offer, RecvQueue.accept.
  assert (∀ d k, transcript !! k = Some d → k = length (RecvQueue.accepted q) →
            RecvQueue.accepted q ++ [d] `prefix_of` transcript) as Hext.
  { intros d k Hk ->. destruct Hp as [r Hr]. rewrite Hr in Hk |- *.
    rewrite lookup_app_r, Nat.sub_diag in Hk by lia.
    destruct r as [|d' r]; [done|]. injection Hk as ->. by exists r; rewrite <- app_assoc. }
  destruct (Z.eqb_spec (type (m_config m)) data) as [E|_].
  { destruct (Hd E) as [Hs Hw]. case_decide as Hacc; [|done]. destruct Hacc as [Hn _]. simpl.
    apply (Hext _ (Z.to_nat (seq (m_config m)))); [|lia]. by apply lookup_app_l_Some. }
  destruct (Z.eqb_spec (type (m_config m)) ping) as [E|_]; [done|].
  destruct (Z.eqb_spec (type (m_config m)) eof) as [E|_]; [|done].
  specialize (He E). case_decide as Hacc; [|done]. destruct Hacc as [Hn _]. simpl.
  apply (Hext _ (length words)); [|lia]. unfold transcript.
  by rewrite lookup_app_r, Nat.sub_diag by lia.
Qed.

Lemma prefix_full q :
  RecvQueue.accepted q `prefix_of` transcript →
  (length words < length (RecvQueue.accepted q))%nat → RecvQueue.accepted q = transcript.
Proof.
  intros Hp Hl. apply prefix_length_eq; [done|]. unfold transcript. rewrite length_app. simpl. lia.
Qed.

Lemma take_printed_between q n :
  (RecvQueue.printed q ≤ RecvQueue.printed (print_pass n q))%nat →
  file_lines 0 (take (RecvQueue.printed q) (RecvQueue.accepted q)) ++
    printed_between q (print_pass n q) =
  file_lines 0 (take (RecvQueue.printed (print_pass n q)) (RecvQueue.accepted q)).
Proof.
  intros Hle. unfold printed_between.
  set (p := RecvQueue.printed q) in *. set (p' := RecvQueue.printed (print_pass n q)) in *.
  set (h := RecvQueue.accepted q) in *.
  destruct (decide (p ≤ length h)%nat) as [Hp|Hp].
  - replace p with (0 + length (take p h))%nat at 2 by (rewrite length_take; lia).
    rewrite <- file_lines_app. f_equal. rewrite <- (take_drop p (take p' h)).
    rewrite take_take, Nat.min_l by lia. f_equal. rewrite skipn_firstn_comm. done.
  - rewrite !take_ge by (rewrite ?length_drop; lia). rewrite drop_ge by lia.
    simpl. by rewrite app_nil_r.
Qed.

Hypothesis words_int : Z.of_nat (length words) + 2 <= INT_MAX.

(** An acknowledgement does not run ahead of what the server waits for. *)
Definition no_stale_ack (l : ra_locals) (h : udp_data) : Prop := seq h <= ra_expected l.

Lemma status_server_inv e st s x (at_ : ra_status → server_at) :
  (at_ = after_event ∨ at_ = after_burst) →
  srv x = s → srv_at x = at_ st → status_inv words e st s → server_inv x.
Proof.
  intros Hat Hs Ha Hst. unfold server_inv. rewrite Ha, Hs.
  assert (isEOF (th s) = e) as -> by (destruct st as [l|]; [apply Hst|apply Hst]).
  destruct Hat as [-> | ->]; by destruct st.
Qed.

Lemma inv_step_burst x st s' o :
  sys_inv x → srv_at x = AtBurst → burst words clock (srv x) = (o, Ret st s') →
  sys_inv (mk_sys s' (after_burst st) (cli x) (cli_at x) (packets x ++ o) (acks x) (shown x)).
Proof.
  intros [Hs Hp (q & Hc & Hpre & Hak & Hsh & He & Hl)] Hat Hb.
  unfold server_inv in Hs. rewrite Hat in Hs.
  edestruct (wp_returns _ _ _ _ _ _ _ _ (wp_burst words clock ltac:(lia) _ _ Hs) Hb)
    as [[Hst Hret] Ho].
  split; cbn.
  - by eapply (status_server_inv _ st s' _ after_burst); eauto.
  - by apply Forall_app.
  - exists q. split_and!; [done..| |done].
    assert (isEOF (th s') = isEOF (th (srv x))) as Ee by (destruct st as [l|]; apply Hst).
    intros [E|E]; apply He; left; [by rewrite <- Ee|].
    destruct st; [done|]. by apply Hret.
Qed.

Lemma inv_step_event x l ev st s' o :
  sys_inv x → srv_at x = AtReceiveAck l → timely l ev →
  (reports_end words ev → ∃ h, h ∈ acks x ∧ Z.of_nat (length words) < seq h) →
  ra_event clock l ev (srv x) = (o, Ret st s') →
  sys_inv (mk_sys s' (after_event st) (cli x) (cli_at x) (packets x ++ o) (acks x) (shown x)).
Proof.
  intros [Hs Hp (q & Hc & Hpre & Hak & Hsh & He & Hl)] Hat Ht Hend Hb.
  unfold server_inv in Hs. rewrite Hat in Hs.
  edestruct (wp_returns _ _ _ _ _ _ _ _ (wp_ra_event words clock ltac:(lia) _ l ev _ Hs Ht) Hb)
    as [(e' & Hst & Hret) Ho].
  split; cbn.
  - by eapply (status_server_inv _ st s' _ after_event); eauto.
  - by apply Forall_app.
  - exists q. split_and!; [done..| |done].
    assert (isEOF (th s') = e') as Ee by (destruct st as [l'|]; apply Hst).
    intros [E|E]; [|by destruct st]. destruct Hret as [Hret|Hret].
    + apply He. left. congruence.
    + destruct (Hend Hret) as (h & Hh & Hlt). rewrite Forall_forall in Hak.
      specialize (Hak h Hh). simpl in Hak. apply prefix_full; [done|lia].
Qed.

Lemma receive_turn_dropped c rand2 j m o brk c' :
  receive_turn rand2 j m c = (o, Ret brk c') →
  drop_packet (cfg_probability (cli_config c)) (cfg_seed (cli_config c)) rand2 = Some false ∨
  o = [] ∧ brk = false ∧ c' = c.
Proof.
  unfold receive_turn, mbind, M_bind. cbn [gets].
  destruct (drop_packet _ _ _) as [[|]|]; cbn; [|by left|done].
  intros [= <- <- <-]. by right.
Qed.

Lemma pkt_ok_offer m :
  pkt_ok words m → is_Some (offer m) → 0 <= seq (m_config m) < 2 ^ 31 - 1.
Proof.
  intros [Hd He] Ho. unfold offer, INT_MAX in *.
  destruct (Z.eqb_spec (type (m_config m)) data) as [E|_].
  { destruct (Hd E) as [Hs Hw]. apply lookup_lt_Some in Hw. lia. }
  destruct (Z.eqb_spec (type (m_config m)) ping) as [E|_]; [by destruct Ho|].
  destruct (Z.eqb_spec (type (m_config m)) eof) as [E|_]; [|by destruct Ho].
  specialize (He E). lia.
Qed.

Lemma inv_step_receive x m rand2 j brk c' o :
  sys_inv x → cli_at x = Receiving → m ∈ packets x →
  receive_turn rand2 j m (cli x) = (o, Ret brk c') →
  sys_inv (mk_sys (srv x) (srv_at x) c' (if brk then Leaving else Receiving)
             (packets x) (acks x ++ sent_acks o) (shown x)).
Proof.
  intros [Hs Hp (q & Hc & Hpre & Hak & Hsh & He & Hl)] Hat Hm Hr.
  destruct (receive_turn_dropped _ _ _ _ _ _ _ Hr) as [Hd|(-> & -> & ->)].
  2: { split; cbn; [done..|]. exists q. rewrite app_nil_r. by split_and!. }
  rewrite Forall_forall in Hp. pose proof (Hp m Hm) as Hok. rewrite <- Forall_forall in Hp.
  assert (length (RecvQueue.accepted q) ≤ S (length words))%nat as Hlen.
  { apply prefix_length in Hpre. unfold transcript in Hpre. rewrite length_app in Hpre. cbn in Hpre. lia. }
  destruct (receive_turn_refines (cli x) q m rand2 j) as (c2 & Hr' & Hc2 & _);
    [done|by apply pkt_ok_offer|unfold INT_MAX in *; lia|done|].
  rewrite Hr in Hr'. injection Hr' as -> -> ->.
  set (q' := accept_msg (length (text_buffer (cli x))) m q) in *.
  destruct (accept_msg_accepted (length (text_buffer (cli x))) m q) as [Hacc Hpr].
  fold q' in Hacc, Hpr.
  pose proof (accept_msg_prefix (length (text_buffer (cli x))) m q Hok Hpre) as Hpre'.
  fold q' in Hpre'.
  assert (RecvQueue.accepted q = transcript → RecvQueue.accepted q' = transcript) as Hkeep.
  { intros E. apply prefix_full; [done|]. apply (f_equal length) in E.
    unfold transcript in E. rewrite length_app in E. cbn in E. lia. }
  split; cbn; [done..|]. exists q'. split_and!; [done..| | |by eauto|].
  - apply Forall_app. split.
    + eapply Forall_impl; [exact Hak|]. cbn. lia.
    + repeat constructor; cbn; lia.
  - rewrite Hsh, Hpr. f_equal.
    pose proof (repr_lo _ _ _ (cr_ring _ _ Hc)) as Hlo.
    unfold q', accept_msg. destruct (offer m); [|done]. unfold RecvQueue.accept.
    case_decide; [|done]. cbn. by rewrite take_app_le by lia.
  - intros Hleave. destruct (ends_transfer m q') eqn:Hends; [|done].
    unfold ends_transfer in Hends. apply andb_prop in Hends as [Ht%Z.eqb_eq Hn%Z.eqb_eq].
    apply prefix_full; [done|]. destruct Hok as [_ Hok]. specialize (Hok Ht). lia.
Qed.

(** A pass of a printing loop, whichever thread runs it. *)
Lemma inv_step_print x c' at' o :
  sys_inv x →
  (∀ q0, client_repr (cli x) q0 → RecvQueue.accepted q0 `prefix_of` transcript →
     o = printed_between q0 (print_pass (length (text_buffer (cli x))) q0) ∧
     client_repr c' (print_pass (length (text_buffer (cli x))) q0)) →
  (at' ≠ Receiving → cli_at x ≠ Receiving) →
  sys_inv (mk_sys (srv x) (srv_at x) c' at' (packets x) (acks x) (shown x ++ o)).
Proof.
  intros [Hs Hp (q0 & Hc & Hpre & Hak & Hsh & He & Hl)] Hprint Hat.
  destruct (Hprint q0 Hc Hpre) as [-> Hc'].
  split; cbn; [done..|]. exists (print_pass (length (text_buffer (cli x))) q0).
  split_and!; [done..| |done|by eauto]. rewrite Hsh.
  apply (take_printed_between q0 (length (text_buffer (cli x)))).
  pose proof (repr_lo _ _ _ (cr_ring _ _ Hc)). cbn. lia.
Qed.

Lemma inv_step x y : sys_inv x → step words clock no_stale_ack x y → sys_inv y.
Proof.
  intros Hi Hstep. pose proof (inv_queue _ Hi) as (q & Hc & _ & Hak & _).
  destruct Hstep as [x st s' o Hat Hb|x l h st s' o Hat Hh Hpol Hb|x l st s' o Hat Hb
                    |x m rand2 j brk c' o Hat _ Hm Hr|x brk c' o _ Hr|x c' o Hat Hr].
  - by apply inv_step_burst.
  - rewrite Forall_forall in Hak. specialize (Hak h Hh). simpl in Hak.
    apply (inv_step_event x l (AckMsg ack_datagram_len h)); [done|done| |by exists h|done].
    split; [|unfold no_stale_ack in Hpol; lia]. unfold ack_datagram_len, MAXLINE. lia.
  - by apply (inv_step_event x l Alarm).
  - by eapply inv_step_receive.
  - eapply inv_step_print; eauto. intros q0 Hc0 _.
    destruct (reader_turn_refines (cli x) q0 Hc0) as (c2 & Hr' & Hc2 & _).
    rewrite Hr in Hr'. by injection Hr' as -> _ ->.
  - eapply inv_step_print; eauto; [|by rewrite Hat]. intros q0 Hc0 _.
    destruct (final_print_refines (cli x) q0 Hc0) as (c2 & Hr' & Hc2).
    rewrite Hr in Hr'. by injection Hr' as -> ->.
Qed.

Lemma inv_start serv_rwnd t0 q0 cfg junk :
  isEOF t0 ≠ 1 → cfg_rwnd cfg = Z.of_nat (length junk) → 0 < cfg_rwnd cfg <= INT_MAX →
  sys_inv (start serv_rwnd t0 q0 cfg junk).
Proof.
  intros He Hr Hpos. split; cbn.
  - split; cbn; try done; lia.
  - constructor.
  - exists (RecvQueue.mk [] 0). cbn. split_and!; [|apply prefix_nil|done..|by intros [?|?]|done].
    by apply client_repr_start.
Qed.

Lemma inv_reachable serv_rwnd t0 q0 cfg junk x :
  isEOF t0 ≠ 1 → cfg_rwnd cfg = Z.of_nat (length junk) → 0 < cfg_rwnd cfg <= INT_MAX →
  reachable words clock no_stale_ack (start serv_rwnd t0 q0 cfg junk) x → sys_inv x.
Proof.
  intros He Hr Hpos. induction 1 as [|x y _ IH Hstep]; [by apply inv_start|by eapply inv_step].
Qed.
End invariant.

(** ** Concrete transfers *)
Module Demo.
Definition abc : list bytes := [str "A"; str "B"; str "C"].
Definition clock (n : nat) : timeval := mk_timeval 100 (Z.of_nat n * 1000).
Definition cfg (n : Z) : client_config := mk_client_config (str "130.245.1.44") 5511 (str "test_file") n 10 (f32_of_Z 0) 1000.
Definition t0 : th_config :=
  mk_th_config 0 0 (mk_rtt_info 0 (f32_of_Z 0) (f32_of_Z 0) 0 0 0) 0 0 0 0 0.
Definition ring (n : nat) : list buffer := replicate n (mk_buffer [] 0 0).
Definition begin (n : nat) : sys := start 10 t0 zero_msg (cfg (Z.of_nat n)) (ring n).
Definition any (l : ra_locals) (h : udp_data) : bool := true.
Definition timely_only (l : ra_locals) (h : udp_data) : bool := seq h <=? ra_expected l.

(** A transfer to its end, one packet lost on the way. *)
Definition good_run : list move :=
  [Burst; Receive 0 0; Ack 0; Read; Burst; Receive 2 0; Ack 1; Expire;
   Burst; Receive 3 0; Ack 2; Burst; Receive 4 0; Receive 5 0; Ack 3; Ack 4;
   Burst; Final].
(** Packet 0 is delivered twice; its second acknowledgement and that of
    packet 2 arrive late, after a timeout each. *)
Definition stale_run : list move :=
  [Burst; Receive 0 0; Receive 0 0; Ack 0; Burst; Receive 1 0; Receive 2 0;
   Ack 1; Expire; Burst; Ack 3; Expire; Burst; Receive 4 0; Read].
End Demo.

Lemma reachable_mono words clock (p p' : ra_locals → udp_data → Prop) x0 x :
  (∀ l h, p l h → p' l h) → reachable words clock p x0 x → reachable words clock p' x0 x.
Proof.
  intros Hp. induction 1 as [|x y _ IH Hstep]; [constructor|].
  eapply reach_step; [done|]. destruct Hstep;
    [by eapply step_burst|by eapply step_ack; eauto|by eapply step_alarm
    |by eapply step_receive|by eapply step_read|by eapply step_final].
Qed.

Lemma timely_only_policy l h : Demo.timely_only l h = true ↔ no_stale_ack l h.
Proof. apply Z.leb_le. Qed.

(** ** The theorems *)

(** C1: whatever the network loses, duplicates, delays or reorders (short of
    delivering an acknowledgement beyond the number the server is waiting for),
    at every moment the lines the client has printed are the words of the file
    in order from the first one, each exactly once, followed at most by the
    end-of-file line. *)
Theorem transfer_in_order words clock serv_rwnd t0 q0 cfg junk x :
  Z.of_nat (length words) + 2 <= INT_MAX → isEOF t0 ≠ 1 →
  cfg_rwnd cfg = Z.of_nat (length junk) → 0 < cfg_rwnd cfg <= INT_MAX →
  reachable words clock no_stale_ack (start serv_rwnd t0 q0 cfg junk) x →
  ∃ k, shown x = file_lines 0 (take k (words ++ [eof_text])).
Proof.
  intros Hw He Hr Hpos Hx.
  destruct (inv_queue _ _ (inv_reachable words clock Hw _ _ _ _ _ _ He Hr Hpos Hx))
    as (q & Hc & [r Hpre] & _ & Hsh & _).
  exists (RecvQueue.printed q). rewrite Hsh. f_equal. fold (transcript words). rewrite Hpre.
  pose proof (repr_lo _ _ _ (cr_ring _ _ Hc)). by rewrite take_app_le by lia.
Qed.

(** C2: when the server's [send_file_data] has returned (it did not give up with
    [exit]), the client has accepted every word of the file and the end-of-file
    mark: the number it expects next is past both.  This is for runs over any
    losses, repetitions and delays in which the server reads no acknowledgement
    with a number beyond the one it waits for ([no_stale_ack], as in C1), and whose
    uninitialised field [isEOF] (server.c:193) does not happen to hold 1, with
    which the server returns at once. *)
Theorem server_end_means_delivered words clock serv_rwnd t0 q0 cfg junk x :
  Z.of_nat (length words) + 2 <= INT_MAX → isEOF t0 ≠ 1 →
  cfg_rwnd cfg = Z.of_nat (length junk) → 0 < cfg_rwnd cfg <= INT_MAX →
  reachable words clock no_stale_ack (start serv_rwnd t0 q0 cfg junk) x →
  srv_at x = AtEnd → expected_seq_num (cli x) = Z.of_nat (length words) + 1.
Proof.
  intros Hw He Hr Hpos Hx Hat.
  destruct (inv_queue _ _ (inv_reachable words clock Hw _ _ _ _ _ _ He Hr Hpos Hx))
    as (q & Hc & _ & _ & _ & Hend & _).
  rewrite (cr_expected _ _ Hc), Hend by by right. unfold transcript. rewrite length_app. cbn. lia.
Qed.


Lemma transfer_in_order_witness :
  ∃ x, run Demo.abc Demo.clock Demo.timely_only (Demo.begin 3) Demo.good_run = Some x ∧
       ∃ k, shown x = file_lines 0 (take k (Demo.abc ++ [eof_text])).
Proof.
  assert (is_Some (run Demo.abc Demo.clock Demo.timely_only (Demo.begin 3) Demo.good_run)) as [x E]
    by (vm_compute; eauto).
  exists x. split; [done|].
  apply (transfer_in_order Demo.abc Demo.clock 10 Demo.t0 zero_msg (Demo.cfg 3) (Demo.ring 3));
    [by vm_compute|by vm_compute|by vm_compute|by split; vm_compute|].
  apply (reachable_mono _ _ (λ l h, Demo.timely_only l h = true));
    [apply timely_only_policy|]. by eapply run_reachable; [constructor|].
Defined.

Lemma server_end_means_delivered_witness :
  ∃ x, run Demo.abc Demo.clock Demo.timely_only (Demo.begin 3) Demo.good_run = Some x ∧
       srv_at x = AtEnd ∧ expected_seq_num (cli x) = Z.of_nat (length Demo.abc) + 1.
Proof.
  assert (is_Some (run Demo.abc Demo.clock Demo.timely_only (Demo.begin 3) Demo.good_run)) as [x E]
    by (vm_compute; eauto).
  assert (srv_at x = AtEnd) as Hat by (vm_compute in E; by injection E as <-).
  exists x. split; [done|]. split; [done|].
  apply (server_end_means_delivered Demo.abc Demo.clock 10 Demo.t0 zero_msg (Demo.cfg 3) (Demo.ring 3));
    [by vm_compute|by vm_compute|by vm_compute|by split; vm_compute| |done].
  apply (reachable_mono _ _ (λ l h, Demo.timely_only l h = true));
    [apply timely_only_policy|]. by eapply run_reachable; [constructor|].
Defined.

(** C40: with an acknowledgement delayed past a timeout the server can resume
    at the number of words without having met the end of the file; it then
    sends the last word again as data under that number, and the client prints
    it twice. *)
Theorem stale_ack_duplicates_last_word :
  ∃ x, reachable Demo.abc Demo.clock (λ _ _, True) (Demo.begin 5) x ∧
       shown x = file_lines 0 [str "A"; str "B"; str "C"; str "C"].
Proof.
  assert (is_Some (run Demo.abc Demo.clock Demo.any (Demo.begin 5) Demo.stale_run)) as [x E]
    by (vm_compute; eauto).
  exists x. split.
  - apply (reachable_mono _ _ (λ l h, Demo.any l h = true)); [done|].
    by eapply run_reachable; [constructor|].
  - vm_compute in E. by injection E as <-.
Qed.
