(* ===== verification/Hw2Congestion.v ===== *)
(** * Windows, timeouts and silent peers (properties of hw2/server.c)

    How many packets a burst sends, how the congestion window moves, and what
    the server does when no acknowledgement ever comes. *)

From S2P Require Import Prelude.
From S2P Require Import CMem.
From S2P Require Import CFloat.
From S2P Require Import Rtt.
From S2P Require Import UdpMsg.
From S2P Require Import Hw2Client.
From S2P Require Import Hw2Server.
From S2P Require Import Hw2System.

(** ** The congestion window

    The rule of the README's paragraphs on slow start and congestion control: the
    window doubles with each acknowledgement up to the threshold and grows by one
    from there on; a loss sets the threshold to half the window and the window to
    one packet. *)
Module Aimd.
Record t := mk { window : Z; threshold : option Z }.
Definition on_ack (a : t) : t :=
  match threshold a with
  | Some k => mk (if k <=? window a then window a + 1 else window a * 2) (Some k)
  | None => mk (window a * 2) None
  end.
Definition on_loss (a : t) : t := mk 1 (Some (Z.quot (window a) 2)).
End Aimd.

(** The window the server's fields stand for: [ssthresh == -1] is no threshold. *)
Definition aimd (t : th_config) : Aimd.t :=
  Aimd.mk (cwnd t) (if ssthresh t =? -1 then None else Some (ssthresh t)).

(** What counts as a loss, from the events of one call of [receive_ack], the
    latest first: the alarm, or a fourth acknowledgement in a row with the same
    number, unless it is the one (and a whole one) that was waited for. *)
Definition ack_number (e : ack_event) : option Z :=
  match e with AckMsg _ h => Some (seq h) | Alarm => None end.
Definition four_equal (l : list Z) : bool :=
  match l with a :: b :: c :: d :: _ => (a =? b) && (b =? c) && (c =? d) | _ => false end.
Definition goes_back (expected : Z) (past : list ack_event) : bool :=
  match past with
  | [] => false
  | Alarm :: _ => true
  | AckMsg n h :: r =>
      four_equal (seq h :: omap ack_number r) &&
      ((n <? Z.of_nat sizeof_udp_data) || negb (seq h =? u32 expected))
  end.

Lemma omap_ack n h past : omap ack_number (AckMsg n h :: past) = seq h :: omap ack_number past.
Proof. reflexivity. Qed.

Section congestion.
Context (words : list bytes) (clock : nat → timeval).

Lemma grow_cwnd_aimd t :
  0 <= cwnd t < 2 ^ 30 → aimd (set_cwnd (grow_cwnd t) t) = Aimd.on_ack (aimd t).
Proof.
  intros H. unfold grow_cwnd, aimd, Aimd.on_ack. cbn.
  destruct (ssthresh t =? -1) eqn:E; cbn; rewrite ?E.
  - by rewrite i32_small by (unfold is_i32; lia).
  - destruct (ssthresh t <=? cwnd t); by rewrite i32_small by (unfold is_i32; lia).
Qed.

Lemma grow_cwnd_nonneg t : 0 <= cwnd t < 2 ^ 30 → 0 <= grow_cwnd t.
Proof.
  intros H. unfold grow_cwnd.
  destruct (negb _ && _); rewrite i32_small by (unfold is_i32; lia); lia.
Qed.

(** A timeout or a third duplicate: the transfer is over, or the window is
    halved. *)
Lemma give_up_aimd l s :
  0 <= cwnd (th s) →
  wpo True (give_up_or_back_off l) (λ o _ s',
    o = [] ∧ (isEOF (th s') = 1 ∨ aimd (th s') = Aimd.on_loss (aimd (th s)))) s.
Proof.
  intros Hc. unfold give_up_or_back_off. wpo_steps; [by split; [|left]|].
  destruct (rtt_timeout (rttinfo (th s))) as [p r]. wpo_steps; split; try done; right;
    unfold aimd, Aimd.on_loss; cbn;
    destruct (Z.eqb_spec (Z.quot (cwnd (th s)) 2) (-1)) as [E|E]; try done;
    pose proof (Z.quot_pos (cwnd (th s)) 2); lia.
Qed.

(** The locals after an acknowledgement that is not the last packet's. *)
Definition next_locals (l : ra_locals) (h : udp_data) : ra_locals :=
  if u32 (prev_seq_num l) =? seq h
  then mk_ra (ra_expected l) (prev_seq_num l) (fast_retransmit l + 1)
  else mk_ra (ra_expected l) (i32 (seq h)) 0.

Lemma next_expected l h : ra_expected (next_locals l h) = ra_expected l.
Proof. unfold next_locals. by destruct (u32 (prev_seq_num l) =? seq h). Qed.

Lemma ra_finish_aimd h s :
  wpo True (ra_finish clock h) (λ o st s', o = [] ∧ st = Returned ∧ aimd (th s') = aimd (th s)) s.
Proof. unfold ra_finish. wpo_step. unfold gettimeofday, wpo at 1. cbn. wpo_steps. by split_and!. Qed.

(** One event: it is waited for the next, or the call returns. *)
Lemma ra_event_moves l e s :
  0 <= cwnd (th s) < 2 ^ 30 →
  wpo True (ra_event clock l e) (λ _ st s',
    match e with
    | Alarm => st = Returned ∧ (isEOF (th s') = 1 ∨ aimd (th s') = Aimd.on_loss (aimd (th s)))
    | AckMsg n h =>
        let waits := (n <? Z.of_nat sizeof_udp_data) || negb (seq h =? u32 (ra_expected l)) in
        let third := fast_retransmit (next_locals l h) =? 3 in
        st = Returned ∧ isEOF (th s') = 1 ∨
        st = (if waits && negb third then Waiting (next_locals l h) else Returned) ∧
        aimd (th s') = (if waits && third then Aimd.on_loss else id) (Aimd.on_ack (aimd (th s)))
    end) s.
Proof.
  intros Hc. destruct e as [n h|]; cbn [ra_event].
  2: { wpo_step. eapply wpo_mono; [by apply give_up_aimd; lia|]. cbv beta. intros o ? s' [_ H]. wpo_steps. by split. }
  rewrite <- (grow_cwnd_aimd (th s)) by done. wpo_steps.
  - unfold ra_finish. wpo_step. unfold gettimeofday, wpo at 1. cbn. wpo_steps. left. by split.
  - fold (next_locals l h) in Hb0 |- *.
    rewrite next_expected in Hb0.
    rewrite Hb0. unfold ra_loop_top. wpo_step.
    + wpo_step. eapply wpo_mono; [apply give_up_aimd; cbn|].
      { by apply grow_cwnd_nonneg. }
      cbv beta. intros o ? s' [-> [H|H]]; wpo_steps; [left; by split|right]. split; [by rewrite Hb1|]. by rewrite Hb1.
    + wpo_steps. right. by rewrite Hb1.
  - fold (next_locals l h) in Hb0.
    rewrite next_expected in Hb0.
    eapply wpo_mono; [apply ra_finish_aimd|]. intros o st s' (_ & -> & H). right. by rewrite Hb0, H.
Qed.

(** The locals count the equal acknowledgements at the end of those received. *)
Record counts (past : list ack_event) (l : ra_locals) : Prop := {
  ct_fast : 0 <= fast_retransmit l <= 2;
  ct_numbers : match omap ack_number past with
    | [] => prev_seq_num l = -1 ∧ fast_retransmit l = 0
    | _ => 0 <= prev_seq_num l < 2 ^ 31 ∧ ∃ r,
        omap ack_number past = replicate (S (Z.to_nat (fast_retransmit l))) (prev_seq_num l) ++ r ∧
        head r ≠ Some (prev_seq_num l)
    end
}.

Lemma counts_ack past l n h :
  counts past l → 0 <= seq h < 2 ^ 31 →
  (fast_retransmit (next_locals l h) =? 3) = four_equal (seq h :: omap ack_number past) ∧
  (fast_retransmit (next_locals l h) ≠ 3 → counts (AckMsg n h :: past) (next_locals l h)).
Proof.
  intros [Hf Hn] Hh. unfold next_locals.
  rewrite (i32_small (seq h)) by (unfold is_i32; lia).
  destruct (omap ack_number past) as [|a t] eqn:Ep.
  { destruct Hn as [Hp Hz]. rewrite Hp. change (u32 (-1)) with (2 ^ 32 - 1).
    rewrite (proj2 (Z.eqb_neq (2 ^ 32 - 1) (seq h))) by lia. split; [done|]. intros _. split; [cbn; lia|].
    rewrite omap_ack.
    rewrite Ep. cbn. split; [lia|]. by exists []. }
  destruct Hn as (Hp & r & Er & Hr). rewrite u32_small by (unfold is_u32; lia).
  destruct (Z.eqb_spec (prev_seq_num l) (seq h)) as [E|E]; cbn [fast_retransmit].
  - split.
    + rewrite Er, <- E. destruct (decide (fast_retransmit l = 2)) as [->|Hne].
      { change (S (Z.to_nat 2)) with 3%nat. cbn. by rewrite !Z.eqb_refl. }
      rewrite (proj2 (Z.eqb_neq _ 3)) by lia. symmetry.
      assert (fast_retransmit l = 0 ∨ fast_retransmit l = 1) as [->| ->] by lia.
      * change (S (Z.to_nat 0)) with 1%nat. cbn. destruct r as [|x [|y r]]; [done|done|].
        cbn in Hr. rewrite (proj2 (Z.eqb_neq (prev_seq_num l) x)) by congruence. by rewrite andb_false_r.
      * change (S (Z.to_nat 1)) with 2%nat. cbn. destruct r as [|x r]; [done|].
        cbn in Hr. rewrite (proj2 (Z.eqb_neq (prev_seq_num l) x)) by congruence. by rewrite andb_false_r.
    + intros H3. split; [cbn; lia|]. rewrite omap_ack. cbn [prev_seq_num fast_retransmit].
      split; [done|]. exists r. split; [|done]. rewrite Ep, Er, <- E.
      replace (Z.to_nat (fast_retransmit l + 1)) with (S (Z.to_nat (fast_retransmit l))) by lia. done.
  - split.
    + injection Er as -> _. destruct t as [|x [|y q]]; [reflexivity..|]. cbn [four_equal].
      by rewrite (proj2 (Z.eqb_neq (seq h) (prev_seq_num l))).
    + intros _. split; [cbn; lia|]. rewrite omap_ack. cbn [prev_seq_num fast_retransmit].
      split; [lia|]. exists (omap ack_number past). split; [done|]. rewrite Ep. injection Er as -> _. cbn. congruence.
Qed.

(** What the acknowledgements and a loss at the end make of a window. *)
Definition moved (expected : Z) (used past : list ack_event) (a : Aimd.t) : Aimd.t :=
  (if goes_back expected (reverse used ++ past) then Aimd.on_loss else id)
    (Nat.iter (length (omap ack_number used)) Aimd.on_ack a).

Lemma on_ack_bound a n :
  1 <= Aimd.window a → Aimd.window a * 2 ^ Z.of_nat (S n) <= 2 ^ 30 →
  1 <= Aimd.window (Aimd.on_ack a) ∧ Aimd.window (Aimd.on_ack a) * 2 ^ Z.of_nat n <= 2 ^ 30.
Proof.
  intros H1 H2. rewrite Nat2Z.inj_succ, Z.pow_succ_r in H2 by lia.
  assert (0 < 2 ^ Z.of_nat n) by (apply Z.pow_pos_nonneg; lia).
  assert (Aimd.window a + 1 <= Aimd.window (Aimd.on_ack a) <= Aimd.window a * 2 ∨
          Aimd.window (Aimd.on_ack a) = Aimd.window a * 2) as H3.
  { unfold Aimd.on_ack. destruct (Aimd.threshold a) as [k|]; [destruct (k <=? _)|]; cbn; lia. }
  split; [lia|]. nia.
Qed.

Lemma receive_ack_moves es past l s o st rest s' :
  counts past l → goes_back (ra_expected l) past = false →
  Forall (λ e, match e with AckMsg _ h => 0 <= seq h < 2 ^ 31 | Alarm => True end) es →
  1 <= cwnd (th s) → cwnd (th s) * 2 ^ Z.of_nat (length es) <= 2 ^ 30 →
  receive_ack_loop clock l es s = (o, Ret (st, rest) s') →
  isEOF (th s') = 1 ∨
  ∃ used, es = used ++ rest ∧ aimd (th s') = moved (ra_expected l) used past (aimd (th s)).
Proof.
  revert past l s o. induction es as [|e es IH]; intros past l s o Hct Hback Hes Hw1 Hw2; cbn [receive_ack_loop].
  { intros [= <- <- <- <-]. right. exists []. split; [done|]. unfold moved. cbn. by rewrite Hback. }
  apply Forall_cons in Hes as [He Hes]. unfold mbind, M_bind.
  assert (cwnd (th s) < 2 ^ 30) as Hlt.
  { cbn [length] in Hw2. rewrite Nat2Z.inj_succ, Z.pow_succ_r in Hw2 by lia.
    assert (0 < 2 ^ Z.of_nat (length es)) by (apply Z.pow_pos_nonneg; lia). nia. }
  destruct (ra_event clock l e s) as [o1 [st1 s1| |]] eqn:E1; try done.
  pose proof (wpo_returns _ _ _ _ _ _ _ (ra_event_moves l e s ltac:(lia)) E1) as H1. cbv beta in H1.
  destruct e as [n h|].
  2: { destruct H1 as [-> [H|H]]; intros [= _ <- <- <-]; [by left|right]. exists [Alarm]. by split. }
  cbv zeta in H1. destruct (counts_ack past l n h Hct He) as [Hfour Hnext].
  destruct H1 as [[-> H]|[Est H]]; [intros [= _ <- <- <-]; by left|].
  set (waits := _ || _) in Est, H. set (third := _ =? 3) in Est, H, Hfour.
  assert (goes_back (ra_expected l) (AckMsg n h :: past) = waits && third) as Hg.
  { cbn [goes_back]. rewrite <- Hfour. apply andb_comm. }
  destruct (waits && negb third) eqn:Ew; subst st1.
  - apply andb_true_iff in Ew as [Ew Et]. apply negb_true_iff in Et. rewrite Ew, Et in H, Hg. cbn [andb id] in H, Hg.
    pose proof (next_expected l h) as Eexp.
    assert (cwnd (th s1) = Aimd.window (Aimd.on_ack (aimd (th s)))) as Ecw by (by rewrite <- H).
    pose proof (on_ack_bound (aimd (th s)) (length es) Hw1 Hw2) as [Hb1 Hb2]. rewrite <- Ecw in Hb1, Hb2.
    destruct (receive_ack_loop clock (next_locals l h) es s1) as [o2 r2] eqn:E2. intros [= <- ->].
    destruct (IH (AckMsg n h :: past) (next_locals l h) s1 o2) as [Hi|(used & -> & Hu)];
      [by apply Hnext, Z.eqb_neq|by rewrite Eexp|done|done|done|done|by left|right].
    exists (AckMsg n h :: used). split; [done|]. rewrite Hu, H, Eexp. unfold moved.
    rewrite reverse_cons, <- app_assoc. rewrite omap_ack. cbn [app length]. by rewrite Nat.iter_succ_r.
  - intros [= _ <- <- <-]. right. exists [AckMsg n h]. split; [done|]. rewrite H. unfold moved. cbn [reverse rev_append app].
    change (reverse [AckMsg n h] ++ past) with (AckMsg n h :: past). by rewrite Hg.
Qed.

(** ** Bursts *)

(** A turn of the burst loop before the end of the transfer sends one packet,
    no ping, and leaves the windows alone. *)
Definition same_windows (t t' : th_config) : Prop :=
  isEOF t' = isEOF t ∧ th_rwnd t' = th_rwnd t ∧ cwnd t' = cwnd t ∧ ssthresh t' = ssthresh t.

Lemma same_windows_trans t1 t2 t3 :
  same_windows t1 t2 → same_windows t2 t3 → same_windows t1 t3.
Proof. unfold same_windows. intuition congruence. Qed.

(** The pieces of a turn that are silent and leave the windows alone. *)
Definition quiet {A} (m : M server udp_msg A) : Prop :=
  ∀ s, wpo True m (λ o _ s', o = [] ∧ same_windows (th s) (th s')) s.

Lemma quiet_bind {A B} (m : M server udp_msg A) (k : A → M server udp_msg B) :
  quiet m → (∀ a, quiet (k a)) → quiet (m ≫= k).
Proof.
  intros Hm Hk s. apply wpo_bind. eapply wpo_mono; [apply Hm|]. cbv beta.
  intros o a s' [-> H]. eapply wpo_mono; [apply Hk|]. cbv beta.
  intros o' b s'' [-> H']. split; [done|]. by eapply same_windows_trans.
Qed.

Lemma quiet_fscanf : quiet (fscanf_buf words).
Proof. intros s. unfold fscanf_buf. wpo_steps. destruct (words !! fp_pos s); wpo_steps; by split. Qed.

Lemma quiet_modify f : (∀ s, same_windows (th s) (th (f s))) → quiet (modify f).
Proof. intros H s. wpo_steps. by split. Qed.

Lemma quiet_gets {A} (f : server → A) : quiet (gets f).
Proof. intros s. wpo_steps. by split. Qed.

Lemma quiet_skip n : quiet (skip_words words n).
Proof.
  induction n as [|n IH]; [intros s; cbn; wpo_steps; by split|].
  apply quiet_bind; [apply quiet_fscanf|done].
Qed.

Lemma quiet_retransmit : quiet (retransmit words).
Proof.
  repeat (apply quiet_bind; [apply quiet_gets || apply quiet_modify || apply quiet_skip
    || apply quiet_fscanf; done|intros ?]). by apply quiet_modify.
Qed.

Lemma quiet_next : quiet (next_packet words clock).
Proof.
  apply quiet_bind; [intros s; split; [reflexivity|split_and!; reflexivity]|intros now].
  repeat (apply quiet_bind; [apply quiet_gets || apply quiet_modify || apply quiet_fscanf; done|intros ?]).
  destruct (_ && _); [by apply quiet_modify|]. intros s. wpo_steps. by split.
Qed.

Lemma mark_type_marks s :
  wpo True mark_type (λ o _ s',
    o = [] ∧ same_windows (th s) (th s') ∧ type (m_config (q_obj s')) ≠ ping) s.
Proof. unfold mark_type. wpo_steps; by split_and!. Qed.

Lemma init_timer_keeps s :
  wpo True (init_timer clock) (λ o _ s',
    o = [] ∧ same_windows (th s) (th s') ∧ q_obj s' = q_obj s) s.
Proof.
  unfold init_timer. wpo_step. wpo_step. cbv beta. wpo_step; [|wpo_step; by split_and!].
  wpo_step. unfold gettimeofday, wpo at 1. cbn [fst snd]. wpo_step.
  apply wpo_required; [intros p _|done]. wpo_step. by split_and!.
Qed.

Lemma send_turn_one s :
  isEOF (th s) ≠ 1 →
  wpo True (send_turn words clock) (λ o stop s',
    stop = false ∧ same_windows (th s) (th s') ∧ ∃ m, o = [m] ∧ type (m_config m) ≠ ping) s.
Proof.
  intros He. unfold send_turn. wpo_step. wpo_step. cbv beta. wpo_step. wpo_step. cbv beta.
  wpo_step; [by apply Z.eqb_eq in Hb|]. wpo_step.
  set (choice := if negb _ then _ else _).
  assert (quiet choice) as Hch
    by (unfold choice; destruct (negb _); [apply quiet_retransmit|apply quiet_next]).
  eapply wpo_mono; [apply Hch|]. cbv beta. intros o _ s1 [-> H1]. wpo_step.
  eapply wpo_mono; [apply mark_type_marks|]. cbv beta. intros o _ s2 (-> & H2 & Hty). wpo_step.
  eapply wpo_mono; [apply init_timer_keeps|]. cbv beta. intros o _ s3 (-> & H3 & Hq).
  unfold send. wpo_steps. split; [done|]. split.
  - eapply same_windows_trans; [exact H1|]. by eapply same_windows_trans.
  - exists (q_obj s3). split; [done|]. by rewrite Hq.
Qed.

Lemma send_loop_count n s :
  isEOF (th s) ≠ 1 →
  wpo True (send_loop words clock n) (λ o _ s', same_windows (th s) (th s') ∧
    length o = n ∧ Forall (λ m, type (m_config m) ≠ ping) o) s.
Proof.
  revert s. induction n as [|n IH]; intros s He; cbn [send_loop].
  { wpo_step. by split_and!. }
  wpo_step. eapply wpo_mono; [by apply send_turn_one|]. cbv beta.
  intros o stop s1 (-> & H1 & m & -> & Hm). eapply wpo_mono; [apply IH; by rewrite (proj1 H1)|].
  cbv beta. intros o' _ s2 (H2 & Hl & Hf). split; [by eapply same_windows_trans|].
  cbn. split; [by f_equal|by constructor].
Qed.

(** The packets of one turn of [send_file_data] while the transfer lasts. *)
Lemma burst_count s :
  isEOF (th s) ≠ 1 →
  wpo True (burst words clock) (λ o st s', same_windows (th s) (th s') ∧ ∃ ps,
    o = ps ++ (if th_rwnd (th s) =? 0 then [q_obj s'] else []) ∧
    (th_rwnd (th s) = 0 → type (m_config (q_obj s')) = ping) ∧
    Forall (λ m, type (m_config m) ≠ ping) ps ∧
    Z.of_nat (length ps) = Z.max 0 (Z.min (cwnd (th s)) (i32 (th_rwnd (th s))))) s.
Proof.
  intros He. unfold burst. wpo_step. wpo_step. cbv beta. wpo_step.
  eapply wpo_mono; [by apply send_loop_count|]. cbv beta. intros ps _ s1 (H1 & Hl & Hf).
  destruct H1 as (E1 & R1 & C1 & T1). unfold send_ping, send, receive_ack_start.
  wpo_steps; cbn in *; try (apply Z.eqb_eq in Hb0; congruence).
  all: rewrite ?R1, E1, (proj2 (Z.eqb_neq _ _) He), ?andb_true_r in Hb; cbn in Hb.
  all: split; [done|]; exists ps; rewrite Hb; cbn; rewrite ?app_nil_r.
  all: split_and!; [done| |done|lia]; try done.
  intros E. by rewrite E in Hb.
Qed.
End congestion.

(** ** A peer that never answers *)

Section silent.
Context (words : list bytes) (clock : nat → timeval).
Abbreviation N := (Z.of_nat (length words)).

(** [n] turns of [send_file_data] in each of which the only event is the alarm. *)
Fixpoint silent_turns (n : nat) : M server udp_msg unit :=
  match n with
  | O => mret tt
  | S n =>
      st ← burst words clock;
      match st with
      | Waiting l => ra_event clock l Alarm ≫= λ _, silent_turns n
      | Returned => mret tt
      end
  end.

(** The [i]-th packet of the walk through the file. *)
Definition silent_pkt (i : nat) (m : udp_msg) : Prop :=
  seq (m_config m) = Z.min (Z.of_nat i) N ∧
  if decide (i < length words)%nat
  then type (m_config m) = data ∧ words !! i = Some (m_buf m)
  else type (m_config m) = eof.

(** The clock's reading that is the base of the timer of packet [i], and the
    time stamp of that packet: it is taken before the timer is set up, from the
    base of the packet before. *)
Definition turn_base (i : nat) : Z := u32 (tv_sec (clock (S (2 * i)))).
Definition turn_stamp (i : nat) : Z :=
  u32 ((tv_sec (clock (2 * i)) - turn_base (pred i)) * 1000 + Z.quot (tv_usec (clock (2 * i))) 1000).

Record silent_inv (i : nat) (s : server) : Prop := {
  sl_eof : isEOF (th s) ≠ 1;
  sl_unacked : last_unacked_seq (th s) = -1;
  sl_cwnd : cwnd (th s) = 1;
  sl_rwnd : 1 <= th_rwnd (th s) <= INT_MAX;
  sl_init : rttinit (th s) = 0;
  sl_seq : seq_num s = Z.min (Z.of_nat i) (N + 1) - 1;
  sl_fp : fp_pos s = Nat.min i (length words);
  sl_last : last_pack_seq_no (th s) = (if decide (i ≤ length words)%nat then -1 else N);
  sl_ticks : ticks s = (2 * i)%nat;
  sl_base : (0 < i)%nat → rtt_base (rttinfo (th s)) = turn_base (pred i)
}.

Hypothesis words_int : N + 1 <= INT_MAX.
Hypothesis words_short : Forall (λ w, Z.of_nat (length w) < MAXLINE) words.

Lemma fscanf_total s Q :
  (∀ w, words !! fp_pos s = Some w → Q [] true (set_fp_pos (S (fp_pos s)) (set_q_buf w s))) →
  (words !! fp_pos s = None → Q [] false s) →
  wpo False (fscanf_buf words) Q s.
Proof.
  intros H1 H2. unfold fscanf_buf. wpo_steps.
  destruct (words !! fp_pos s) as [w|] eqn:E; wpo_steps; [by apply H1| |by apply H2].
  pose proof (proj1 (Forall_lookup _ _) words_short _ _ E) as Hw. cbv beta in Hw. zbool.
Qed.

(** The number the next packet is given and the word read for it. *)
Lemma next_packet_silent i s :
  silent_inv i s →
  wpo False (next_packet words clock) (λ o _ s',
    o = [] ∧ seq_num s' = Z.min (Z.of_nat i) (N + 1) ∧ seq (m_config (q_obj s')) = seq_num s' ∧
    fp_pos s' = Nat.min (S i) (length words) ∧
    last_pack_seq_no (th s') = (if decide (i < length words)%nat then -1 else N) ∧
    ((i < length words)%nat → words !! i = Some (m_buf (q_obj s'))) ∧
    same_windows (th s) (th s') ∧ last_unacked_seq (th s') = -1 ∧ rttinit (th s') = 0 ∧
    ticks s' = S (2 * i) ∧ ((0 < i)%nat → ts (m_config (q_obj s')) = turn_stamp i)) s.
Proof.
  intros [He Hu Hc Hr Hi Hs Hf Hl Ht Hba]. unfold INT_MAX in *.
  assert ((0 < i)%nat → rtt_ts (rttinfo (th s)) (clock (ticks s)) = turn_stamp i) as Hts
    by (intros H; unfold rtt_ts, turn_stamp; by rewrite Hba, Ht).
  unfold next_packet. wpo_step.
  unfold gettimeofday, wpo at 1. cbn [fst snd].
  wpo_steps. cbn [seq_num set_q_ts set_q_obj]. rewrite Hs, Z.sub_add.
  rewrite i32_small, u32_small by (unfold is_i32, is_u32; lia).
  apply fscanf_total; cbn [fp_pos set_seq_num set_q_seq set_q_ts set_q_obj]; rewrite Hf;
    [intros w Hw; apply lookup_lt_Some in Hw as Hlt
    |intros Hge%lookup_ge_None; cbn [th]; rewrite Hl]; cbn [negb andb].
  - wpo_step. rewrite Nat.min_l in * by lia.
    rewrite decide_True by lia. cbn -[Nat.min Nat.mul].
    split_and!; try done; try lia. by rewrite Hl, decide_True by lia.
  - rewrite (decide_False (P := (i < _)%nat)) by lia.
    wpo_step; wpo_step; cbn -[Nat.min Nat.mul]; split_and!; try done; try lia; case_decide; zbool.
Qed.

Lemma mark_type_silent i s :
  seq_num s = Z.min (Z.of_nat i) (N + 1) → seq (m_config (q_obj s)) = seq_num s →
  last_pack_seq_no (th s) = (if decide (i < length words)%nat then -1 else N) →
  ((i < length words)%nat → words !! i = Some (m_buf (q_obj s))) →
  wpo False mark_type (λ o _ s', o = [] ∧ silent_pkt i (q_obj s') ∧
    seq_num s' = Z.min (Z.of_nat i) N ∧ th s' = th s ∧ fp_pos s' = fp_pos s ∧ ticks s' = ticks s ∧
    ts (m_config (q_obj s')) = ts (m_config (q_obj s))) s.
Proof.
  intros Hs Hq Hl Hw. unfold INT_MAX, silent_pkt in *. unfold mark_type. wpo_step. wpo_step.
  cbv beta. wpo_step. wpo_step. cbv beta.
  rewrite Hl. case_decide as Hd.
  - rewrite (proj2 (Z.eqb_eq (-1) (-1))), andb_false_r by done. wpo_step. cbn.
    rewrite Hq, Hs. split_and!; try done; try lia. by apply Hw.
  - rewrite (proj2 (Z.leb_le _ _)), (proj2 (Z.eqb_neq N (-1))) by lia. cbn [andb negb].
    wpo_step. cbn. rewrite u32_small by (unfold is_u32; lia). split_and!; try done; lia.
Qed.

Lemma init_timer_total s :
  rttinit (th s) = 0 →
  wpo False (init_timer clock) (λ o _ s', o = [] ∧ same_windows (th s) (th s') ∧
    q_obj s' = q_obj s ∧ seq_num s' = seq_num s ∧ fp_pos s' = fp_pos s ∧
    last_unacked_seq (th s') = last_unacked_seq (th s) ∧
    last_pack_seq_no (th s') = last_pack_seq_no (th s) ∧
    ticks s' = S (ticks s) ∧ rtt_base (rttinfo (th s')) = u32 (tv_sec (clock (ticks s))) ∧
    rtt_srtt (rttinfo (th s')) = f32_of_Z 0 ∧ rtt_rttvar (rttinfo (th s')) = three_quarters ∧
    rtt_rto (rttinfo (th s')) = RTT_RXTMIN) s.
Proof.
  intros Hi. unfold init_timer. wpo_step. wpo_step. cbv beta. rewrite Hi.
  cbn [Z.eqb]. wpo_step. unfold gettimeofday, wpo at 1. cbn [fst snd]. wpo_step.
  rewrite rtt_init_eq. apply wpo_required; [intros p [= <-]|done]. wpo_step. by split_and!.
Qed.

(** What a burst leaves behind for [receive_ack]. *)
Record silent_wait (i : nat) (st : ra_status) (s : server) : Prop := {
  sw_st : st = Waiting (mk_ra (i32 (seq_num s + 1)) (-1) 0);
  sw_eof : isEOF (th s) ≠ 1;
  sw_unacked : last_unacked_seq (th s) = -1;
  sw_rwnd : 1 <= th_rwnd (th s) <= INT_MAX;
  sw_seq : seq_num s = Z.min (Z.of_nat i) N;
  sw_fp : fp_pos s = Nat.min (S i) (length words);
  sw_last : last_pack_seq_no (th s) = if decide (i < length words)%nat then -1 else N;
  sw_rto : rtt_rto (rttinfo (th s)) = RTT_RXTMIN;
  sw_nrexmt : rtt_nrexmt (rttinfo (th s)) = 0;
  sw_ticks : ticks s = (2 * S i)%nat;
  sw_base : rtt_base (rttinfo (th s)) = turn_base i;
  sw_srtt : rtt_srtt (rttinfo (th s)) = f32_of_Z 0;
  sw_rttvar : rtt_rttvar (rttinfo (th s)) = three_quarters
}.

Lemma send_turn_silent i s :
  silent_inv i s →
  wpo False (send_turn words clock) (λ o stop s', stop = false ∧
    (∃ m, o = [m] ∧ silent_pkt i m ∧ ((0 < i)%nat → ts (m_config m) = turn_stamp i)) ∧
    silent_wait i (Waiting (mk_ra (i32 (seq_num s' + 1)) (-1) 0)) s') s.
Proof.
  intros Hi. assert (silent_inv i (set_q_obj zero_msg s)) as Hi' by (destruct Hi; by split).
  unfold send_turn. wpo_step. wpo_step. cbv beta. wpo_step. wpo_step. cbv beta.
  wpo_step; [by destruct Hi; apply Z.eqb_eq in Hb|].
  rewrite (proj2 (Z.eqb_eq _ _) (sl_unacked _ _ Hi')). cbn [negb]. wpo_step.
  eapply wpo_mono; [by apply next_packet_silent|]. cbv beta.
  intros o _ s1 (-> & Hs1 & Hq1 & Hf1 & Hl1 & Hw1 & Hwin1 & Hu1 & Hr1 & Ht1 & Hm1). wpo_step.
  eapply wpo_mono; [by apply mark_type_silent|]. cbv beta.
  intros o _ s2 (-> & Hp2 & Hs2 & Ht2 & Hf2 & Hk2 & Hm2). wpo_step.
  eapply wpo_mono; [apply init_timer_total; by rewrite Ht2|]. cbv beta.
  intros o _ s3 (-> & Hwin3 & Hq3 & Hs3 & Hf3 & Hu3 & Hl3 & Hk3 & Hb3 & Hsr3 & Hv3 & Hrto). rewrite Ht2 in *.
  unfold send. wpo_steps. split; [done|].
  split.
  { exists (q_obj s3). split; [done|]. rewrite Hq3. split; [done|]. intros H. by rewrite Hm2, Hm1. }
  destruct Hwin1 as (E1 & R1 & _). destruct Hwin3 as (E3 & R3 & _). destruct Hi.
  cbn in E1, R1.
  split; cbn -[Nat.min Nat.mul]; [done|congruence|congruence|by rewrite R3, R1|congruence..|done|done|lia| |done|done].
  by rewrite Hb3, Hk2, Ht1.
Qed.

Lemma burst_silent i s :
  silent_inv i s →
  wpo False (burst words clock) (λ o st s',
    (∃ m, o = [m] ∧ silent_pkt i m ∧ ((0 < i)%nat → ts (m_config m) = turn_stamp i)) ∧
    silent_wait i st s') s.
Proof.
  intros Hi. unfold burst. wpo_step. wpo_step. cbv beta.
  assert (Z.to_nat (Z.min (cwnd (th s)) (i32 (th_rwnd (th s)))) = 1%nat) as ->.
  { destruct Hi. unfold INT_MAX in *. rewrite i32_small by (unfold is_i32; lia). lia. }
  cbn [send_loop]. wpo_step. wpo_step. eapply wpo_mono; [by apply send_turn_silent|]. cbv beta.
  intros o stop s1 (-> & (m & -> & Hm) & Hw). pose proof Hw as Hw0. destruct Hw0.
  wpo_step. unfold send_ping. wpo_step. wpo_step. wpo_step. cbv beta.
  rewrite (proj2 (Z.eqb_neq (th_rwnd (th s1)) 0)) by (unfold INT_MAX in *; lia). cbn [when andb].
  wpo_step. wpo_step. wpo_step. cbv beta. rewrite (proj2 (Z.eqb_neq (isEOF (th s1)) 1)) by done.
  unfold receive_ack_start. wpo_step. wpo_step. cbv beta. wpo_step.
  rewrite rtt_start_exact by (unfold rto_ok; cbn [id]; rewrite sw_rto0; by vm_compute).
  wpo_step. wpo_step. split; [by exists m|]. exact Hw.
Qed.

Lemma alarm_silent i st s :
  silent_wait i st s → ∃ l, st = Waiting l ∧
  wpo False (ra_event clock l Alarm) (λ o _ s', o = [] ∧ silent_inv (S i) s') s.
Proof.
  intros [-> ? ? ? ? ? Hl Hr Hn ? ? ? ?]. eexists. split; [done|].
  unfold ra_event, give_up_or_back_off. wpo_step. wpo_step. wpo_step. cbv beta.
  cbn [prev_seq_num]. rewrite Hl.
  rewrite (proj2 (Z.ltb_ge _ _)) by (case_decide; lia). cbn [andb].
  unfold rtt_timeout. rewrite Hn. change (RTT_MAXNREXMT <? i32 (0 + 1)) with false.
  cbn [Z.ltb Z.compare]. wpo_steps; [done|].
  split; [done|]. split; cbn -[Nat.min Z.of_nat]; try done; try lia.
Qed.

Lemma silent_inv_start serv_rwnd t0 q0 :
  1 <= serv_rwnd <= INT_MAX → isEOF t0 ≠ 1 → rttinit t0 = 0 →
  silent_inv 0 (send_file_data_init serv_rwnd t0 q0).
Proof.
  intros Hr He Hi. unfold INT_MAX in *. split; cbn; try done; try lia.
  rewrite u32_small by (unfold is_u32; lia). unfold INT_MAX. lia.
Qed.

Lemma silent_turns_run n i s :
  silent_inv i s →
  wpo False (silent_turns n) (λ o _ s', length o = n ∧
    (∀ j m, o !! j = Some m → silent_pkt (i + j) m) ∧ silent_inv (i + n) s') s.
Proof.
  revert i s. induction n as [|n IH]; intros i s Hi; cbn [silent_turns].
  { wpo_step. rewrite Nat.add_0_r. split_and!; [done|by intros j m|done]. }
  wpo_step. eapply wpo_mono; [by apply burst_silent|]. cbv beta.
  intros o st s1 [(m & -> & Hm & _) Hw]. destruct (alarm_silent i st s1 Hw) as (l & -> & Ha).
  wpo_step. eapply wpo_mono; [exact Ha|]. cbv beta. intros o _ s2 [-> Hi2].
  eapply wpo_mono; [by apply IH|]. cbv beta. intros o _ s3 (Hlen & Hall & Hi3). cbn.
  rewrite <- Nat.add_succ_comm. split_and!; [by f_equal| |done].
  intros [|j] m'; cbn; [intros [= ->]; by rewrite Nat.add_0_r|].
  rewrite <- Nat.add_succ_comm. apply Hall.
Qed.
End silent.

(** *** A closed window *)

Section closed.
Context (words : list bytes) (clock : nat → timeval).

Record closed_inv (k : Z) (s : server) : Prop := {
  cl_eof : isEOF (th s) ≠ 1;
  cl_rwnd : th_rwnd (th s) = 0;
  cl_last : -1 <= last_pack_seq_no (th s);
  cl_nrexmt : rtt_nrexmt (rttinfo (th s)) = k;
  cl_rto : rto_ok (rttinfo (th s))
}.

(** With no room at the receiver a burst is one ping. *)
Lemma burst_closed k s :
  closed_inv k s → ∃ m e s',
    burst words clock s = ([m], Ret (Waiting (mk_ra e (-1) 0)) s') ∧
    type (m_config m) = ping ∧ closed_inv k s'.
Proof.
  intros [He Hr Hl Hn Ho].
  assert (wpo False (burst words clock) (λ o st s', ∃ m e, o = [m] ∧
    st = Waiting (mk_ra e (-1) 0) ∧ type (m_config m) = ping ∧ closed_inv k s') s) as H.
  { unfold burst. wpo_step. wpo_step. cbv beta. rewrite Hr.
    replace (Z.to_nat _) with O by (change (i32 0) with 0; lia).
    cbn [send_loop]. unfold send_ping. wpo_step. wpo_step. wpo_step. wpo_step. wpo_step. cbv beta.
    rewrite Hr, (proj2 (Z.eqb_neq (isEOF (th s)) 1)) by done. cbn [Z.eqb negb andb when].
    unfold send. wpo_steps; [by apply Z.eqb_eq in Hb|]. unfold receive_ack_start. wpo_step.
    wpo_step. cbv beta. wpo_step. rewrite rtt_start_exact by done. wpo_step. wpo_step.
    do 2 eexists. by split_and!. }
  apply wpo_total in H as (o & st & s' & E & m & e & -> & -> & Hm & Hc); [|tauto].
  by exists m, e, s'.
Qed.

Lemma alarm_closed k e s :
  closed_inv k s → 0 <= k <= RTT_MAXNREXMT →
  ∃ s', ra_event clock (mk_ra e (-1) 0) Alarm s =
    ([], if k <? RTT_MAXNREXMT then Ret Returned s' else Exit 0 s') ∧ closed_inv (k + 1) s'.
Proof.
  intros [He Hr Hl Hn Ho] Hk.
  assert (i32 (k + 1) = k + 1) as Ek
    by (rewrite i32_small; unfold is_i32, RTT_MAXNREXMT in *; lia).
  set (s1 := upd_th (set_rttinfo (rtt_timeout (rttinfo (th s))).1) s).
  assert (∀ t, isEOF t = isEOF (th s) → th_rwnd t = 0 → last_pack_seq_no t = last_pack_seq_no (th s) →
    rttinfo t = (rtt_timeout (rttinfo (th s))).1 → closed_inv (k + 1) (upd_th (λ _, t) s)) as Hinv.
  { intros t E1 E2 E3 E4. split; cbn; rewrite ?E1, ?E2, ?E3, ?E4; try done.
    - cbn. by rewrite Hn, Ek.
    - apply rtt_timeout_rto_ok. }
  unfold ra_event, give_up_or_back_off, mbind, M_bind, gets, modify, when. cbn [prev_seq_num].
  rewrite (proj2 (Z.ltb_ge (last_pack_seq_no (th s)) (-1))) by lia. cbn [andb].
  unfold rtt_timeout at 1. rewrite Hn, Ek.
  destruct (Z.ltb_spec k RTT_MAXNREXMT) as [Hlt|Hge].
  - rewrite (proj2 (Z.ltb_ge RTT_MAXNREXMT (k + 1))) by lia. cbn [Z.ltb Z.compare].
    eexists. split; [reflexivity|]. apply Hinv; cbn; try done. by rewrite Hn, Ek.
  - rewrite (proj2 (Z.ltb_lt RTT_MAXNREXMT (k + 1))) by lia. cbn [Z.ltb Z.compare].
    eexists. split; [reflexivity|]. apply Hinv; cbn; try done. by rewrite Hn, Ek.
Qed.

Lemma closed_turns n k s :
  closed_inv k s → 0 <= k <= RTT_MAXNREXMT →
  ∃ o s', silent_turns words clock n s =
    (o, if Z.of_nat n <=? RTT_MAXNREXMT - k then Ret tt s' else Exit 0 s') ∧
    Forall (λ m, type (m_config m) = ping) o ∧
    Z.of_nat (length o) = Z.min (Z.of_nat n) (RTT_MAXNREXMT + 1 - k).
Proof.
  revert k s. induction n as [|n IH]; intros k s Hc Hk; cbn [silent_turns].
  { exists [], s. rewrite (proj2 (Z.leb_le _ _)) by lia. split_and!; [done|constructor|cbn; lia]. }
  destruct (burst_closed k s Hc) as (m & e & s1 & E1 & Hm & Hc1).
  destruct (alarm_closed k e s1 Hc1 Hk) as (s2 & E2 & Hc2).
  unfold mbind, M_bind. rewrite E1, E2. destruct (Z.ltb_spec k RTT_MAXNREXMT) as [Hlt|Hge].
  - destruct (IH (k + 1) s2 Hc2) as (o & s3 & E3 & Ho & Hl); [lia|].
    exists (m :: o), s3. rewrite E3.
    replace (Z.of_nat (S n) <=? _) with (Z.of_nat n <=? RTT_MAXNREXMT - (k + 1))
      by (apply eq_true_iff_eq; rewrite !Z.leb_le; lia).
    split_and!; [done|by constructor|cbn [length]; lia].
  - exists [m], s2. rewrite (proj2 (Z.leb_gt _ _)) by lia.
    split_and!; [done|by repeat constructor|cbn [length]; lia].
Qed.
End closed.

(** ** The theorems *)

(** C14: before the transfer is over, one turn of [send_file_data] sends exactly
    as many packets as the smaller of the congestion window and the receiver's
    window allows, none of them a ping; one ping follows if, and only if, the
    receiver's window is closed. *)
Theorem burst_respects_windows words clock s o st s' :
  isEOF (th s) ≠ 1 → burst words clock s = (o, Ret st s') →
  ∃ ps, o = ps ++ (if th_rwnd (th s) =? 0 then [q_obj s'] else []) ∧
    (th_rwnd (th s) = 0 → type (m_config (q_obj s')) = ping) ∧
    Forall (λ m, type (m_config m) ≠ ping) ps ∧
    Z.of_nat (length ps) = Z.max 0 (Z.min (cwnd (th s)) (i32 (th_rwnd (th s)))).
Proof. intros He E. by destruct (wpo_returns _ _ _ _ _ _ _ (burst_count words clock s He) E). Qed.

(** C13: the congestion window over a whole call of [receive_ack], whatever
    events it is given.  Unless the call ended the transfer, the window and the
    threshold after it are what the rule makes of them: one step of growth
    (doubling up to the threshold, then one more) for each acknowledgement read,
    duplicates included, and a loss (threshold half the window, window one) at the
    end if the call went back, which it does exactly at the alarm and at a fourth
    acknowledgement in a row with one number that is not the number waited for.
    The acknowledgements read number fewer than would let the doubling overflow,
    and their numbers are below 2^31. *)
Theorem cwnd_follows_aimd clock expected es s o st rest s' :
  1 <= cwnd (th s) → cwnd (th s) * 2 ^ Z.of_nat (length es) <= 2 ^ 30 →
  Forall (λ e, match e with AckMsg _ h => 0 <= seq h < 2 ^ 31 | Alarm => True end) es →
  receive_ack_loop clock (mk_ra expected (-1) 0) es s = (o, Ret (st, rest) s') →
  isEOF (th s') = 1 ∨
  ∃ used, es = used ++ rest ∧
    let grown := Nat.iter (length (omap ack_number used)) Aimd.on_ack (aimd (th s)) in
    aimd (th s') = if goes_back expected (reverse used) then Aimd.on_loss grown else grown.
Proof.
  intros H1 H2 He E.
  destruct (receive_ack_moves clock es [] (mk_ra expected (-1) 0) s o st rest s') as [H|(used & Hu & H)];
    [by split|done..|by left|right].
  exists used. split; [done|]. cbv zeta. rewrite H. unfold moved. rewrite app_nil_r. by destruct (goes_back _ _).
Qed.

(** A peer with an open window that never answers is never given up: turn
    after turn, each ended by a timeout, the server sends the next word of the
    file, then the end-of-file packet over and over, and no packet twice
    before it; its timer is set up afresh for each. *)
Theorem silent_peer_walks_file words clock serv_rwnd t0 q0 n :
  Z.of_nat (length words) + 1 <= INT_MAX →
  Forall (λ w, Z.of_nat (length w) < MAXLINE) words →
  1 <= serv_rwnd <= INT_MAX → isEOF t0 ≠ 1 → rttinit t0 = 0 →
  ∃ o s', silent_turns words clock n (send_file_data_init serv_rwnd t0 q0) = (o, Ret tt s') ∧
    length o = n ∧ ∀ i m, o !! i = Some m → silent_pkt words i m.
Proof.
  intros Hw Hs Hr He Hi.
  pose proof (silent_inv_start words clock serv_rwnd t0 q0 Hr He Hi) as H0.
  destruct (wpo_total _ _ _ _ (λ x, x) (silent_turns_run words clock Hw Hs n 0 _ H0))
    as (o & [] & s' & E & Hl & Hp & _).
  by exists o, s'.
Qed.

(** A peer that announced a closed window and then falls silent is sent one
    ping per timeout and given up, with [exit(0)], at the thirteenth. *)
Theorem closed_window_gives_up words clock n s :
  isEOF (th s) ≠ 1 → th_rwnd (th s) = 0 → -1 <= last_pack_seq_no (th s) →
  rtt_nrexmt (rttinfo (th s)) = 0 → rto_ok (rttinfo (th s)) →
  ∃ o s', silent_turns words clock n s =
    (o, if Z.of_nat n <=? RTT_MAXNREXMT then Ret tt s' else Exit 0 s') ∧
    Forall (λ m, type (m_config m) = ping) o ∧
    Z.of_nat (length o) = Z.min (Z.of_nat n) (RTT_MAXNREXMT + 1).
Proof.
  intros. pose proof (closed_turns words clock n 0 s) as H'. rewrite !Z.sub_0_r in H'.
  apply H'; [by split|by vm_compute].
Qed.

(** A transfer to a receiver with two buffers that prints each word at once. *)
Definition many : list bytes := replicate 40 (str "A").
Definition steady_run (n : nat) : list move :=
  flat_map (λ i, [Burst; Receive i 0; Ack i; Read]) (List.seq 0 n).

(** Thirty-one acknowledgements in slow start overflow the congestion
    window: in a transfer in which nothing is lost the server then sends
    nothing at all, though the receiver has room, until its timer expires. *)
Theorem slow_start_overflow :
  ∃ x, reachable many Demo.clock no_stale_ack (Demo.begin 2) x ∧
    srv_at x = AtBurst ∧ th_rwnd (th (srv x)) = 1 ∧ cwnd (th (srv x)) = - 2 ^ 31 ∧
    ∃ l s', burst many Demo.clock (srv x) = ([], Ret (Waiting l) s').
Proof.
  assert (is_Some (run many Demo.clock Demo.timely_only (Demo.begin 2) (steady_run 31)))
    as [x E] by (vm_compute; eauto).
  exists x. split.
  - apply (reachable_mono _ _ (λ l h, Demo.timely_only l h = true)); [apply timely_only_policy|].
    by eapply run_reachable; [constructor|].
  - vm_compute in E. injection E as <-. split_and!; [by vm_compute..|].
    eexists _, _. vm_compute. reflexivity.
Qed.

(** ** The hypotheses hold *)

Definition fresh_server : server := send_file_data_init 10 Demo.t0 zero_msg.
(** The receiver has just announced a closed window. *)
Definition closed_server : server :=
  upd_th (λ t, set_th_rwnd 0 (set_rttinfo (mk_rtt_info 0 (f32_of_Z 0) three_quarters 1000 0 100) t))
    fresh_server.

Lemma burst_respects_windows_witness :
  ∃ o st s', burst Demo.abc Demo.clock fresh_server = (o, Ret st s') ∧ length o = 1%nat.
Proof.
  destruct (burst Demo.abc Demo.clock fresh_server) as [o [st s'|c s'|f]] eqn:E;
    [|exfalso; vm_compute in E; discriminate..].
  exists o, st, s'. split; [done|].
  destruct (burst_respects_windows Demo.abc Demo.clock fresh_server o st s')
    as (ps & -> & _ & _ & Hl); [by vm_compute|exact E|].
  change (Z.of_nat (length ps) = 1) in Hl. change (th_rwnd (th fresh_server) =? 0) with false.
  rewrite app_nil_r. lia.
Defined.

(** Four acknowledgements for packet 1 while 4 is waited for. *)
Lemma cwnd_follows_aimd_witness :
  let dup := AckMsg 16 (mk_udp_data 1 0 0 ack) in
  ∃ o s', receive_ack_loop Demo.clock (mk_ra 4 (-1) 0) [dup; dup; dup; dup; dup] closed_server
      = (o, Ret (Returned, [dup]) s') ∧
    aimd (th s') = Aimd.mk 1 (Some (Z.quot (cwnd (th closed_server) * 16) 2)).
Proof.
  intros dup. set (m := receive_ack_loop Demo.clock (mk_ra 4 (-1) 0) [dup; dup; dup; dup; dup] closed_server).
  assert (match m with (_, Ret (Returned, [e]) s') => isEOF (th s') ≠ 1 ∧ e = dup | _ => False end) as Hm
    by (vm_compute; split; congruence).
  destruct m as [o [[[|] [|e [|]]] s'| |]] eqn:E; try by destruct Hm.
  destruct Hm as [Hi ->]. exists o, s'. split; [done|].
  destruct (cwnd_follows_aimd Demo.clock 4 [dup; dup; dup; dup; dup] closed_server o Returned [dup] s')
    as [H|(used & Hu & H)]; [by vm_compute|by vm_compute|by repeat constructor|exact E|done|].
  assert (used = [dup; dup; dup; dup]) as -> by (by apply (app_inj_2 used [dup; dup; dup; dup] [dup] [dup])).
  rewrite H. by vm_compute.
Defined.

Lemma silent_peer_walks_file_witness :
  ∃ o s', silent_turns Demo.abc Demo.clock 20 fresh_server = (o, Ret tt s') ∧
    length o = 20%nat ∧ ∀ i m, o !! i = Some m → silent_pkt Demo.abc i m.
Proof.
  apply (silent_peer_walks_file Demo.abc Demo.clock 10 Demo.t0 zero_msg 20);
    [by vm_compute|by repeat constructor|by vm_compute|by vm_compute|by vm_compute].
Defined.

Lemma closed_window_gives_up_witness :
  ∃ o s', silent_turns Demo.abc Demo.clock 13 closed_server = (o, Exit 0 s') ∧
    Forall (λ m, type (m_config m) = ping) o ∧ Z.of_nat (length o) = 13.
Proof.
  apply (closed_window_gives_up Demo.abc Demo.clock 13 closed_server);
    [by vm_compute|by vm_compute|by vm_compute|by vm_compute|by vm_compute].
Defined.
