(* ===== verification/Hw2Complete.v ===== *)
(** * The file transfer can be completed (hw2/client.c with hw2/server.c)

    A schedule under which every file is transferred to its end: every packet
    reaches the client, but of the acknowledgements only the last one reaches
    the server, which gets through its time-outs to the end of the file. *)

From S2P Require Import Prelude.
From S2P Require Import CMem.
From S2P Require Import CFloat.
From S2P Require Import Rtt.
From S2P Require Import UdpMsg.
From S2P Require Import Hw2Client.
From S2P Require Import Hw2Ring.
From S2P Require Import Hw2Receiver.
From S2P Require Import Hw2Server.
From S2P Require Import Hw2System.
From S2P Require Import Hw2Congestion.

(** ** The schedule *)

(** A packet is sent, received and printed; its acknowledgement is lost. *)
Definition lost_ack_turn (rands : nat → Z) (i : nat) : list move :=
  [Burst; Receive i (rands i); Read; Expire].

(** The end-of-file packet, its acknowledgement, and both programs' ends. *)
Definition last_turn (rands : nat → Z) (i : nat) : list move :=
  [Burst; Receive i (rands i); Ack i; Burst; Final].

Definition lossy_run (rands : nat → Z) (n : nat) : list move :=
  flat_map (lost_ack_turn rands) (List.seq 0 n) ++ last_turn rands n.

(** A clock whose successive readings are at most two seconds apart. *)
Definition steady (clock : nat → timeval) (k : nat) : Prop :=
  0 <= tv_usec (clock k) < 1000000 ∧ 0 <= tv_sec (clock k) < 2 ^ 32 ∧
  tv_sec (clock k) <= tv_sec (clock (S k)) <= tv_sec (clock k) + 2.

Lemma run_app words clock policy x l1 l2 :
  run words clock policy x (l1 ++ l2) = y ← run words clock policy x l1; run words clock policy y l2.
Proof.
  revert x. induction l1 as [|a l1 IH]; intros x; cbn; [done|].
  destruct (exec words clock policy x a); cbn; [apply IH|done].
Qed.

(** ** The measured round trip *)

(** A timer just set up takes any round trip of up to three seconds, also a
    negative one. *)
Lemma rtt_stop_fresh_all :
  forallb (λ r, match rtt_stop (mk_rtt_info 0 (f32_of_Z 0) three_quarters RTT_RXTMIN 0 0) r with
                | Some _ => true | None => false end) (seqZ (-3000) 6001) = true.
Proof. vm_compute. reflexivity. Qed.

Lemma rtt_stop_fresh p ms :
  rtt_srtt p = f32_of_Z 0 → rtt_rttvar p = three_quarters → -3000 <= i32 ms <= 3000 →
  is_Some (rtt_stop p ms).
Proof.
  intros Hs Hv Hr. pose proof rtt_stop_fresh_all as H. rewrite forallb_forall in H.
  assert (In (i32 ms) (seqZ (-3000) 6001)) as Hin by (apply list_elem_of_In, elem_of_seqZ; lia).
  specialize (H _ Hin). cbv beta in H. revert H.
  unfold rtt_stop, RTT_RTOCALC. rewrite Hs, Hv. cbn [rtt_srtt rtt_rttvar].
  rewrite (i32_small (i32 ms)) by (unfold is_i32; lia).
  destruct (int_of_float (f32_sub _ _)) as [d|]; cbn [mbind option_bind rtt_srtt rtt_rttvar]; [|done].
  destruct (int_of_float _); cbn [mbind option_bind]; [by eexists|done].
Qed.

Section complete.
Context (words : list bytes) (clock : nat → timeval) (rands : nat → Z) (cfg : client_config).
Abbreviation N := (length words).

Hypothesis words_int : Z.of_nat N + 2 <= INT_MAX.
Hypothesis words_short : Forall (λ w, Z.of_nat (length w) < MAXLINE) words.
Hypothesis kept : ∀ i, (i ≤ N)%nat → drop_packet (cfg_probability cfg) (cfg_seed cfg) (rands i) = Some false.

Definition millis (t : timeval) : Z := tv_sec t * 1000 + Z.quot (tv_usec t) 1000.

(** What the server passes to [rtt_stop] for packet [i], answered at once. *)
Definition measured (i : nat) : Z :=
  u32 (u32 ((tv_sec (clock (2 * S i)) - turn_base clock i) * 1000 +
    Z.quot (tv_usec (clock (2 * S i))) 1000) - turn_stamp clock i).

(** The round trip measured for the first packet after a time-out falls short of
    the time that passed by the distance of the two bases: the packet is stamped
    on the old base, before the timer is set up again. *)
Lemma measured_exact i :
  (0 < i)%nat → (∀ k, (k ≤ 2 * i + 1)%nat → steady clock k) →
  0 <= tv_usec (clock (2 * S i)) < 1000000 →
  i32 (measured i) = millis (clock (2 * S i)) - millis (clock (2 * i)) -
    (tv_sec (clock (S (2 * i))) - tv_sec (clock (S (2 * pred i)))) * 1000 ∧
  -3000 <= i32 (measured i) <= 3000.
Proof.
  intros Hi Hk Hu. unfold measured, turn_stamp, turn_base, millis.
  destruct (Hk (S (2 * pred i))) as (_ & S1 & D1); [lia|].
  destruct (Hk (2 * i)%nat) as (U2 & S2 & _); [lia|].
  destruct (Hk (S (2 * i))) as (_ & S3 & D3); [lia|].
  replace (S (S (2 * pred i))) with (2 * i)%nat in D1 by lia.
  replace (S (S (2 * i))) with (2 * S i)%nat in D3 by lia.
  rewrite !(u32_small (tv_sec _)) by done.
  pose proof (Z.quot_pos (tv_usec (clock (2 * i))) 1000).
  pose proof (Z.quot_pos (tv_usec (clock (2 * S i))) 1000).
  pose proof (Z.quot_lt_upper_bound (tv_usec (clock (2 * i))) 1000 1000).
  pose proof (Z.quot_lt_upper_bound (tv_usec (clock (2 * S i))) 1000 1000).
  rewrite !(u32_small (_ * _ + _)) by (unfold is_u32; lia).
  rewrite i32_u32, i32_small by (unfold is_i32; lia). lia.
Qed.

Abbreviation T := (transcript words).
Abbreviation queue := RecvQueue.mk.

Lemma length_transcript : length T = S N.
Proof. unfold transcript. rewrite length_app. cbn. lia. Qed.

(** The [i]-th packet offers the [i]-th line of the transcript. *)
Lemma silent_offer i m :
  (i ≤ N)%nat → silent_pkt words i m →
  ∃ d, offer m = Some d ∧ T !! i = Some d ∧ seq (m_config m) = Z.of_nat i ∧
    (type (m_config m) =? eof) = bool_decide (i = N).
Proof.
  intros Hi [Hs Hm]. unfold offer. rewrite Z.min_l in Hs by lia. case_decide as Hd.
  - destruct Hm as [-> Hw]. exists (m_buf m). split_and!; [done|by apply lookup_app_l_Some|done|].
    by rewrite bool_decide_eq_false_2 by lia.
  - rewrite Hm. assert (i = N) as -> by lia. exists eof_text.
    split_and!; [done| |done|by rewrite bool_decide_eq_true_2].
    unfold transcript. by rewrite lookup_app_r, Nat.sub_diag by lia.
Qed.

(** Everything up to [i] is printed and packet [i] arrives. *)
Lemma receive_next i m c :
  (i ≤ N)%nat → silent_pkt words i m → client_repr c (queue (take i T) i) → cli_config c = cfg →
  ∃ h c', receive_turn (rands i) 0 m c = ([AckSent h], Ret (bool_decide (i = N)) c') ∧
    seq h = Z.of_nat (S i) ∧ ts h = ts (m_config m) ∧
    client_repr c' (queue (take (S i) T) i) ∧ mutex_held c' = bool_decide (i = N) ∧
    cli_config c' = cfg ∧ is_EOF c' = is_EOF c.
Proof.
  intros Hi Hm Hc Hcfg. destruct (silent_offer i m Hi Hm) as (d & Ho & Hd & Hs & Ht).
  unfold INT_MAX in *. pose proof length_transcript as HT.
  destruct (receive_turn_refines c (queue (take i T) i) m (rands i) 0) as (c' & E & Hc' & Hm' & Hf & He & _);
    [done|rewrite Hs; lia|cbn; rewrite length_take; unfold INT_MAX; lia|rewrite Hcfg; by apply kept|].
  assert (0 < length (text_buffer c))%nat as Hn by apply (repr_pos _ _ _ (cr_ring _ _ Hc)).
  assert (accept_msg (length (text_buffer c)) m (queue (take i T) i) = queue (take (S i) T) i) as Eq.
  { unfold accept_msg. rewrite Ho, Hs. unfold RecvQueue.accept, RecvQueue.window. cbn.
    rewrite length_take, decide_True by lia. by rewrite (take_S_r T i d). }
  rewrite Eq in E, Hc', Hm'.
  assert (ends_transfer m (queue (take (S i) T) i) = bool_decide (i = N)) as Ee.
  { unfold ends_transfer. rewrite Ht, Hs. cbn [RecvQueue.accepted]. rewrite length_take.
    case_bool_decide; [|done]. cbn [andb]. apply Z.eqb_eq. lia. }
  rewrite Ee in E, Hm'. eexists _, c'. split; [exact E|]. cbn [seq ts ack_of RecvQueue.accepted].
  rewrite length_take. split_and!; [lia|congruence..].
Qed.

(** The one line that is pending is printed, wherever in the ring it is. *)
Lemma print_next i d n :
  T !! i = Some d → (0 < n)%nat →
  let q := queue (take (S i) T) i in
  print_pass n q = queue (take (S i) T) (S i) ∧ printed_between q (print_pass n q) = file_lines i [d].
Proof.
  intros Hd Hn q. apply lookup_lt_Some in Hd as Hlt.
  assert (print_pass n q = queue (take (S i) T) (S i)) as E.
  { unfold print_pass. cbn. rewrite length_take.
    pose proof (Nat.mod_upper_bound i n). f_equal. lia. }
  split; [done|]. rewrite E. unfold printed_between. cbn [RecvQueue.printed RecvQueue.accepted q].
  replace (S i - i)%nat with 1%nat by lia. rewrite (take_S_r T i d), drop_app_length' by
    (done || (rewrite length_take; lia)). done.
Qed.

Lemma shown_next i d :
  T !! i = Some d → file_lines 0 (take i T) ++ file_lines i [d] = file_lines 0 (take (S i) T).
Proof.
  intros Hd. apply lookup_lt_Some in Hd as Hlt. rewrite (take_S_r T i d), file_lines_app by done.
  rewrite length_take. do 2 f_equal. lia.
Qed.

(** The state after [i] turns. *)
Record at_turn (i : nat) (x : sys) : Prop := {
  tu_srv : silent_inv words clock i (srv x);
  tu_at : srv_at x = AtBurst;
  tu_cli : client_repr (cli x) (queue (take i T) i);
  tu_mutex : mutex_held (cli x) = false;
  tu_eof : is_EOF (cli x) ≠ 1;
  tu_cfg : cli_config (cli x) = cfg;
  tu_cli_at : cli_at x = Receiving;
  tu_packets : length (packets x) = i;
  tu_acks : length (acks x) = i;
  tu_shown : shown x = file_lines 0 (take i T)
}.

Abbreviation runs := (run words clock Demo.timely_only).

Lemma turn_completes i x :
  (i < N)%nat → at_turn i x → ∃ y, runs x (lost_ack_turn rands i) = Some y ∧ at_turn (S i) y.
Proof.
  intros Hi [Hsrv Hat Hcli Hmx Heof Hcfg Hcat Hpk Hak Hsh].
  destruct (wpo_total _ _ _ _ (λ x, x) (burst_silent words clock ltac:(lia) words_short i _ Hsrv))
    as (o & st & s1 & Eb & (m & -> & Hm & _) & Hw).
  destruct (alarm_silent words clock i st s1 Hw) as (l & -> & Ha).
  destruct (wpo_total _ _ _ _ (λ x, x) Ha) as (o & st & s2 & Ea & -> & Hs2).
  assert (st = Returned) as ->.
  { unfold ra_event, mbind, M_bind in Ea. by destruct (give_up_or_back_off l s1) as [? []]; inversion Ea. }
  destruct (silent_offer i m ltac:(lia) Hm) as (d & _ & Hd & _).
  destruct (receive_next i m (cli x) ltac:(lia) Hm Hcli Hcfg) as (h & c1 & Er & Hh & _ & Hc1 & Hm1 & Hf1 & He1).
  rewrite bool_decide_eq_false_2 in Er, Hm1 by lia.
  destruct (reader_turn_refines c1 _ Hc1) as (c2 & Ep & Hc2 & Hm2 & Hf2 & He2 & Hl2).
  destruct (print_next i d (length (text_buffer c1)) Hd (repr_pos _ _ _ (cr_ring _ _ Hc1))) as [Pq Pp].
  rewrite Pp in Ep. rewrite Pq in Hc2.
  eexists. unfold lost_ack_turn. cbn [run exec]. rewrite Hat, Eb.
  cbn [mbind option_bind run exec srv srv_at cli cli_at packets acks shown after_burst].
  rewrite Hcat, Hmx, lookup_app_r, Hpk, Nat.sub_diag by lia. cbn [lookup list_lookup].
  rewrite Er. cbn [mbind option_bind run exec srv srv_at cli cli_at packets acks shown].
  rewrite Hm1, Ep. cbn [mbind option_bind run exec srv srv_at cli cli_at packets acks shown].
  rewrite Ea. cbn [mbind option_bind run]. split; [reflexivity|].
  split; cbn [srv srv_at cli cli_at packets acks shown after_event sent_acks omap list_omap];
    rewrite ?length_app, ?Hpk, ?Hak; try done; try (cbn; lia).
  - rewrite Hm2, He1. by apply Z.eqb_neq.
  - congruence.
  - rewrite Hsh. by apply shown_next.
Qed.

Lemma turns_complete i x :
  (i ≤ N)%nat → at_turn 0 x →
  ∃ y, runs x (flat_map (lost_ack_turn rands) (List.seq 0 i)) = Some y ∧ at_turn i y.
Proof.
  intros Hi H0. induction i as [|i IH]; [by exists x|].
  destruct IH as (y & Ey & Hy); [lia|]. destruct (turn_completes i y) as (z & Ez & Hz); [lia|done|].
  exists z. split; [|done]. rewrite List.seq_S, flat_map_app, run_app, Ey. cbn [mbind option_bind Nat.add].
  cbn [flat_map]. by rewrite app_nil_r.
Qed.

(** After the acknowledgement of the end-of-file packet the next burst is
    empty and the server returns. *)
Lemma burst_at_end s :
  isEOF (th s) = 1 → ∃ s', burst words clock s = ([], Ret Returned s').
Proof.
  intros He.
  assert (∀ n, ∃ s', send_loop words clock n s = ([], Ret tt s') ∧ th s' = th s) as Hl.
  { intros [|n]; [by exists s|]. exists (set_q_obj zero_msg s). split; [|done].
    cbn [send_loop]. unfold send_turn, mbind, M_bind, modify, gets. cbn. by rewrite He. }
  unfold burst, mbind, M_bind, gets.
  destruct (Hl (Z.to_nat (Z.min (cwnd (th s)) (i32 (th_rwnd (th s)))))) as (s' & -> & Ht).
  exists s'. unfold send_ping, mbind, M_bind, gets, when. rewrite Ht, He. cbn [Z.eqb negb].
  rewrite andb_false_r. cbn. by rewrite Ht, He.
Qed.

(** The acknowledgement of the end-of-file packet. *)
Lemma last_ack_ends l h s :
  last_pack_seq_no (th s) = Z.of_nat N → seq h = Z.of_nat (S N) →
  is_Some (rtt_stop (rttinfo (th s)) (u32 (rtt_ts (rttinfo (th s)) (clock (ticks s)) - ts h))) →
  ∃ s', ra_event clock l (AckMsg ack_datagram_len h) s = ([], Ret Returned s') ∧ isEOF (th s') = 1.
Proof.
  intros Hl Hh [p Hp]. unfold INT_MAX in *.
  unfold ra_event, mbind, M_bind, modify, gets. cbn [th upd_th set_cwnd last_pack_seq_no].
  rewrite Hl, Hh, u32_small by (unfold is_u32; lia).
  rewrite (proj2 (Z.ltb_lt _ _)), (proj2 (Z.eqb_neq (Z.of_nat N) (-1))) by lia. cbn [andb negb].
  unfold ra_finish, gettimeofday, mbind, M_bind, modify, gets.
  cbn [th upd_th set_cwnd set_isEOF rttinfo ticks]. rewrite Hp. cbn. by eexists.
Qed.

Hypothesis nonempty : (0 < N)%nat.
Hypothesis clock_steady : ∀ k, (k ≤ 2 * N + 1)%nat → steady clock k.
Hypothesis last_reading : 0 <= tv_usec (clock (2 * S N)) < 1000000.

Lemma last_turn_completes x :
  at_turn N x → ∃ y, runs x (last_turn rands N) = Some y ∧
    srv_at y = AtEnd ∧ cli_at y = Gone ∧ shown y = file_lines 0 T.
Proof.
  intros [Hsrv Hat Hcli Hmx Heof Hcfg Hcat Hpk Hak Hsh].
  destruct (wpo_total _ _ _ _ (λ x, x) (burst_silent words clock ltac:(lia) words_short N _ Hsrv))
    as (o & st & s1 & Eb & (m & -> & Hm & Hts) & [-> _ _ _ Hseq _ Hlast _ _ Htk Hba Hsr Hva]).
  destruct (silent_offer N m ltac:(lia) Hm) as (d & _ & Hd & _).
  destruct (receive_next N m (cli x) ltac:(lia) Hm Hcli Hcfg)
    as (h & c1 & Er & Hh & Hth & Hc1 & _ & Hf1 & He1).
  rewrite bool_decide_eq_true_2 in Er by done.
  rewrite decide_False in Hlast by lia.
  destruct (last_ack_ends (mk_ra (i32 (seq_num s1 + 1)) (-1) 0) h s1 Hlast Hh) as (s2 & Ea & Hs2).
  { apply rtt_stop_fresh; [done|done|]. rewrite Hth, Hts by lia. unfold rtt_ts. rewrite Hba, Htk.
    by apply measured_exact. }
  destruct (burst_at_end s2 Hs2) as (s3 & Eb3).
  destruct (final_print_refines c1 _ Hc1) as (c2 & Ep & _).
  destruct (print_next N d (length (text_buffer c1)) Hd (repr_pos _ _ _ (cr_ring _ _ Hc1))) as [_ Pp].
  rewrite Pp in Ep. unfold INT_MAX in *.
  eexists. unfold last_turn. cbn [run exec]. rewrite Hat, Eb.
  cbn [mbind option_bind run exec srv srv_at cli cli_at packets acks shown after_burst].
  rewrite Hcat, Hmx, lookup_app_r, Hpk, Nat.sub_diag by lia. cbn [lookup list_lookup].
  rewrite Er. cbn [mbind option_bind run exec srv srv_at cli cli_at packets acks shown].
  rewrite lookup_app_r, Hak, Nat.sub_diag by lia. cbn [sent_acks omap list_omap lookup list_lookup].
  unfold Demo.timely_only. cbn [ra_expected]. rewrite Hseq, i32_small, (proj2 (Z.leb_le _ _)) by
    (unfold is_i32; lia).
  rewrite Hseq, i32_small in Ea by (unfold is_i32; lia).
  rewrite Ea. cbn [mbind option_bind run exec srv srv_at cli cli_at packets acks shown after_event].
  rewrite Eb3. cbn [mbind option_bind run exec srv srv_at cli cli_at packets acks shown after_burst].
  rewrite Ep. cbn [mbind option_bind run]. split; [reflexivity|]. cbn [srv_at cli_at shown].
  split_and!; [done..|]. rewrite Hsh, shown_next by done.
  by rewrite take_ge by (rewrite length_transcript; lia).
Qed.
End complete.

(** ** The theorem *)

(** Every file can be transferred to its end.  When every packet reaches
    the client (and is not among those the client drops on purpose), although
    of the acknowledgements only that of the end-of-file packet reaches the
    server, both programs come to their ends: the server returns from
    [send_file_data] and the client has printed the whole file and the
    end-of-file line.  The run takes as many time-outs as the file has words;
    the clock's readings are at most two seconds apart. *)
Theorem transfer_completes words clock rands serv_rwnd t0 q0 cfg junk :
  words ≠ [] → Z.of_nat (length words) + 2 <= INT_MAX →
  Forall (λ w, Z.of_nat (length w) < MAXLINE) words →
  1 <= serv_rwnd <= INT_MAX → isEOF t0 ≠ 1 → rttinit t0 = 0 →
  cfg_rwnd cfg = Z.of_nat (length junk) → 0 < cfg_rwnd cfg <= INT_MAX →
  (∀ i, (i ≤ length words)%nat →
     drop_packet (cfg_probability cfg) (cfg_seed cfg) (rands i) = Some false) →
  (∀ k, (k ≤ 2 * length words + 2)%nat → steady clock k) →
  ∃ x, run words clock Demo.timely_only (start serv_rwnd t0 q0 cfg junk)
         (lossy_run rands (length words)) = Some x ∧
    srv_at x = AtEnd ∧ cli_at x = Gone ∧ shown x = file_lines 0 (words ++ [eof_text]).
Proof.
  intros Hne Hw Hs Hr He Hi Hj Hpos Hd Hk.
  assert (0 < length words)%nat by (destruct words; [done|cbn; lia]).
  assert (at_turn words clock cfg 0 (start serv_rwnd t0 q0 cfg junk)) as H0.
  { split; try done; [by apply silent_inv_start|]. by apply client_repr_start. }
  destruct (turns_complete words clock rands cfg Hw Hs Hd (length words) _ ltac:(lia) H0) as (x & Ex & Hx).
  destruct (last_turn_completes words clock rands cfg Hw Hs Hd ltac:(lia)
    ltac:(intros; apply Hk; lia) ltac:(apply Hk; lia) x Hx) as (y & Ey & Hy).
  exists y. split; [|done]. unfold lossy_run. by rewrite run_app, Ex.
Qed.

Lemma transfer_completes_witness :
  ∃ x, run Demo.abc Demo.clock Demo.timely_only (Demo.begin 1) (lossy_run (λ _, 0) 3) = Some x ∧
    srv_at x = AtEnd ∧ cli_at x = Gone ∧ shown x = file_lines 0 (Demo.abc ++ [eof_text]).
Proof.
  apply (transfer_completes Demo.abc Demo.clock (λ _, 0) 10 Demo.t0 zero_msg (Demo.cfg 1) (Demo.ring 1));
    [done|by vm_compute|by repeat constructor|by vm_compute|by vm_compute|by vm_compute|by vm_compute
    |by split; vm_compute| |].
  - intros i _. by vm_compute.
  - intros k Hk. unfold steady, Demo.clock. cbn [tv_sec tv_usec Demo.abc length] in *. lia.
Defined.
