(* ===== verification/Hw2Timer.v ===== *)
(** * The sender's timer in real time (hw2/server.c)

    [receive_ack] arms a timer when it starts to wait and leaves it armed when
    the acknowledgement it wants arrives.  When the timer expires the handler
    jumps to the [jmpbuf] that [receive_ack] set: back into its loop while it
    runs, and into a frame that is gone after it has returned.  Here the turns of
    [Hw2Server] are put on a clock of microseconds: a burst takes some time, a
    wait ends with an acknowledgement or with the timer. *)

From S2P Require Import Prelude.
From S2P Require Import CMem.
From S2P Require Import CFloat.
From S2P Require Import Rtt.
From S2P Require Import UdpMsg.
From S2P Require Import Hw2Client.
From S2P Require Import Hw2Server.
From S2P Require Import Hw2System.
From S2P Require Import Hw2Congestion.

Definition second : Z := 1000000.

(** The sender, where it is, when it began to wait, when the timer expires, and
    the time. *)
Record timed := mk_timed {
  t_srv : server;
  t_at : server_at;
  t_since : Z;
  t_due : option Z;
  t_now : Z
}.

(** [Wild] is the jump into a function that has returned. *)
Inductive tstate := Running (x : timed) | Wild.

(** A burst that takes [d], an acknowledgement at time [t], the timer. *)
Inductive tevent := TBurst (d : Z) | TAck (t n : Z) (h : udp_data) | TAlarm.

(** [sig_alrm], by where the sender is. *)
Definition sig_alrm (at_ : server_at) : option ra_locals :=
  match at_ with AtReceiveAck l => Some l | _ => None end.

(** [setitimer] with whole seconds: zero disarms, a negative number is refused. *)
Definition setitimer (secs now : Z) (due : option Z) : option Z :=
  if secs =? 0 then None else if secs <? 0 then due else Some (now + secs * second).

(** [alarm_mili_secs / 1000] *)
Definition alarm_secs (s : server) : option Z :=
  a ← rtt_start (rttinfo (th s)); Some (Z.quot a 1000).

Definition expires (due : option Z) (from upto : Z) : bool :=
  match due with Some t => (from <=? t) && (t <=? upto) | None => false end.

Section timed.
Context (words : list bytes) (clock : nat → timeval).

Definition timed_step (x : timed) (e : tevent) : option tstate :=
  match e, t_at x with
  | TBurst d, AtBurst =>
      if d <? 0 then None
      else if expires (t_due x) (t_now x) (t_now x + d) then
        match sig_alrm (t_at x) with None => Some Wild | Some _ => None end
      else
        match burst words clock (t_srv x) with
        | (_, Ret (Waiting l) s') =>
            secs ← alarm_secs s';
            Some (Running (mk_timed s' (AtReceiveAck l) (t_now x + d)
                             (setitimer secs (t_now x + d) (t_due x)) (t_now x + d)))
        | (_, Ret Returned s') => Some (Running (mk_timed s' AtEnd (t_since x) (t_due x) (t_now x + d)))
        | _ => None
        end
  | TAck t n h, AtReceiveAck l =>
      if (t <? t_now x) || expires (t_due x) (t_now x) t then None
      else
        match ra_event clock l (AckMsg n h) (t_srv x) with
        | (_, Ret st s') => Some (Running (mk_timed s' (after_event st) (t_since x) (t_due x) t))
        | _ => None
        end
  | TAlarm, _ =>
      t ← t_due x;
      match sig_alrm (t_at x) with
      | None => Some Wild
      | Some l =>
          match ra_event clock l Alarm (t_srv x) with
          | (_, Ret st s') => Some (Running (mk_timed s' (after_event st) (t_since x) None t))
          | _ => None
          end
      end
  | _, _ => None
  end.

Fixpoint timed_run (x : timed) (es : list tevent) : option tstate :=
  match es with
  | [] => Some (Running x)
  | e :: es =>
      y ← timed_step x e;
      match y with Running x => timed_run x es | Wild => Some Wild end
  end.

(** ** The time-out stays within its limits *)

(** The timer's structure is usable, or will be made so before it is used. *)
Definition rtt_usable (s : server) : Prop := rttinit (th s) = 0 ∨ rto_ok (rttinfo (th s)).
Definition same_rtt (s s' : server) : Prop := rttinit (th s') = rttinit (th s) ∧ rttinfo (th s') = rttinfo (th s).

Definition leaves_rtt {A} (m : M server udp_msg A) : Prop := ∀ s, wpo True m (λ _ _ s', same_rtt s s') s.

Lemma leaves_bind {A B} (m : M server udp_msg A) (k : A → M server udp_msg B) :
  leaves_rtt m → (∀ a, leaves_rtt (k a)) → leaves_rtt (m ≫= k).
Proof.
  intros Hm Hk s. apply wpo_bind. eapply wpo_mono; [apply Hm|]. cbv beta. intros o a s1 [E1 E2].
  eapply wpo_mono; [apply Hk|]. cbv beta. intros o' b s2 [E3 E4]. split; congruence.
Qed.
Lemma leaves_modify f : (∀ s, same_rtt s (f s)) → leaves_rtt (modify f).
Proof. intros H s. wpo_step. apply H. Qed.
Lemma leaves_gets {A} (f : server → A) : leaves_rtt (gets f).
Proof. intros s. by wpo_step. Qed.
Lemma leaves_ret {A} (a : A) : leaves_rtt (mret a).
Proof. by intros s. Qed.
Lemma leaves_clock : leaves_rtt (gettimeofday clock).
Proof. by intros s. Qed.
Lemma leaves_fscanf : leaves_rtt (fscanf_buf words).
Proof. intros s. unfold fscanf_buf. wpo_steps. destruct (words !! fp_pos s); wpo_steps; done. Qed.
Lemma leaves_skip n : leaves_rtt (skip_words words n).
Proof. induction n; [apply leaves_ret|]. by apply leaves_bind; [apply leaves_fscanf|]. Qed.
End timed.

Create HintDb leaves discriminated.
#[local] Hint Resolve leaves_bind leaves_gets leaves_ret leaves_clock leaves_fscanf leaves_skip : leaves.
#[local] Hint Extern 1 (leaves_rtt (modify _)) => by apply leaves_modify : leaves.

Section rto.
Context (words : list bytes) (clock : nat → timeval).

Lemma leaves_retransmit : leaves_rtt (retransmit words).
Proof. unfold retransmit. auto 12 with leaves. Qed.
Lemma leaves_next : leaves_rtt (next_packet words clock).
Proof.
  unfold next_packet. do 6 (apply leaves_bind; [auto with leaves|intros ?]). destruct (_ && _); auto with leaves.
Qed.
Lemma leaves_mark : leaves_rtt mark_type.
Proof. unfold mark_type. do 2 (apply leaves_bind; [auto with leaves|intros ?]). destruct (_ && _); auto with leaves. Qed.
Lemma leaves_ping : leaves_rtt send_ping.
Proof.
  unfold send_ping, send. apply leaves_bind; [auto with leaves|intros t]. destruct (_ && _); cbn [when]; [|auto with leaves].
  do 2 (apply leaves_bind; [auto with leaves|intros ?]). by intros s.
Qed.

Definition rto_in (s : server) : Prop := rto_ok (rttinfo (th s)).

Lemma init_timer_in s : rtt_usable s → wpo True (init_timer clock) (λ _ _ s', rto_in s') s.
Proof.
  intros Hs. unfold init_timer. wpo_step. wpo_step. cbv beta. wpo_step.
  - wpo_step. unfold gettimeofday, wpo at 1. wpo_step. rewrite rtt_init_eq.
    apply wpo_required; [intros p E|done]. injection E as <-. wpo_step. by vm_compute.
  - wpo_step. destruct Hs as [Hs|Hs]; [by apply Z.eqb_neq in Hb|done].
Qed.

(** A turn that sends a packet leaves a usable time-out. *)
Lemma send_turn_in s :
  rtt_usable s → wpo True (send_turn words clock) (λ _ stop s', (stop = true ∧ same_rtt s s') ∨ rto_in s') s.
Proof.
  intros Hs. unfold send_turn. wpo_step. wpo_step. cbv beta. wpo_step. wpo_step. cbv beta.
  wpo_step; [wpo_step; by left|]. wpo_step. set (choice := if negb _ then _ else _).
  assert (leaves_rtt choice) as Hch
    by (unfold choice; destruct (negb _); [apply leaves_retransmit|apply leaves_next]).
  eapply wpo_mono; [apply Hch|]. cbv beta. intros o _ s1 [E1 E2]. wpo_step.
  eapply wpo_mono; [apply leaves_mark|]. cbv beta. intros o' _ s2 [E3 E4]. wpo_step.
  eapply wpo_mono; [apply init_timer_in|].
  { unfold rtt_usable. rewrite E3, E1, E4, E2. exact Hs. }
  cbv beta. intros o2 _ s3 H3. unfold send. wpo_steps. right. exact H3.
Qed.

Lemma send_loop_in n s : rto_in s → wpo True (send_loop words clock n) (λ _ _ s', rto_in s') s.
Proof.
  revert s. induction n as [|n IH]; intros s Hs; cbn [send_loop]; [by wpo_step|]. wpo_step.
  eapply wpo_mono; [apply send_turn_in; by right|]. cbv beta. intros o stop s1 H1.
  assert (rto_in s1) as H1' by (destruct H1 as [[_ [_ E]]|?]; [by unfold rto_in; rewrite E|done]).
  destruct stop; [by wpo_step|by apply IH].
Qed.

(** Before a burst: the time-out is usable, or the burst will send a packet. *)
Definition burst_ready (s : server) : Prop :=
  rto_in s ∨ (rttinit (th s) = 0 ∧ isEOF (th s) ≠ 1 ∧ 0 < Z.min (cwnd (th s)) (i32 (th_rwnd (th s)))).

Lemma send_loop_ready s :
  burst_ready s →
  wpo True (send_loop words clock (Z.to_nat (Z.min (cwnd (th s)) (i32 (th_rwnd (th s)))))) (λ _ _ s', rto_in s') s.
Proof.
  intros [Hs|(H0 & He & Hn)]; [by apply send_loop_in|].
  destruct (Z.to_nat _) as [|n] eqn:En; [lia|]. cbn [send_loop]. wpo_step.
  pose proof (send_turn_one words clock s He) as H1. pose proof (send_turn_in s (or_introl H0)) as H2.
  unfold wpo in *. destruct (send_turn words clock s) as [o [stop s1|c s1|f]]; [|done..].
  destruct H1 as (-> & _). destruct H2 as [[? _]|H2]; [done|].
  pose proof (send_loop_in n s1 H2) as H3. unfold wpo in H3.
  by destruct (send_loop words clock n s1) as [? []].
Qed.

Lemma burst_in s : burst_ready s → wpo True (burst words clock) (λ _ _ s', rto_in s') s.
Proof.
  intros Hs. unfold burst. wpo_step. wpo_step. cbv beta. wpo_step.
  eapply wpo_mono; [by apply send_loop_ready|]. cbv beta. intros o _ s1 H1. wpo_step.
  eapply wpo_mono; [apply leaves_ping|]. cbv beta. intros o1 _ s2 [_ E2].
  assert (rto_in s2) as H2 by by unfold rto_in; rewrite E2.
  wpo_step. wpo_step. cbv beta. wpo_step; [by wpo_step|]. unfold receive_ack_start. wpo_steps. done.
Qed.

Lemma ra_event_in l e s : rto_in s → wpo True (ra_event clock l e) (λ _ _ s', rto_in s') s.
Proof.
  intros Hs.
  assert (∀ l s, rto_in s → wpo True (give_up_or_back_off l) (λ _ _ s', rto_in s') s) as Hback.
  { clear. intros l s Hs. unfold give_up_or_back_off. wpo_step. wpo_step. cbv beta. wpo_step; [by wpo_step|].
    pose proof (rtt_timeout_rto_ok (rttinfo (th s))) as Hr. destruct (rtt_timeout (rttinfo (th s))) as [p r].
    wpo_steps; exact Hr. }
  assert (∀ h s, rto_in s → wpo True (ra_finish clock h) (λ _ _ s', rto_in s') s) as Hfin.
  { clear. intros h s Hs. unfold ra_finish. wpo_step. unfold gettimeofday, wpo at 1. wpo_step. wpo_step. cbv beta.
    wpo_step. apply wpo_required; [intros p E|done]. wpo_steps. by eapply rtt_stop_rto_ok. }
  destruct e as [n h|]; cbn [ra_event].
  - wpo_step. wpo_step. cbv beta. wpo_step. wpo_step. cbv beta. wpo_step.
    + wpo_step. wpo_step. by apply Hfin.
    + wpo_step. wpo_step. cbv beta zeta. wpo_step; [|by apply Hfin].
      unfold ra_loop_top. wpo_step; [|by wpo_step]. wpo_step. eapply wpo_mono; [by apply Hback|]. by intros; wpo_step.
  - wpo_step. eapply wpo_mono; [by apply Hback|]. by intros; wpo_step.
Qed.
End rto.

(** ** Waits are bounded *)

Section waits.
Context (words : list bytes) (clock : nat → timeval).

(** The timer of a sender that waits: armed for the whole seconds of the
    time-out, and not expired. *)
Record wait_ok (x : timed) : Prop := {
  wo_rto : rto_in (t_srv x);
  wo_due : ∃ k, t_due x = Some (t_since x + k * second) ∧ t_since x <= t_now x < t_since x + k * second ∧
           k * 1000 <= rtt_rto (rttinfo (th (t_srv x))) < (k + 1) * 1000
}.

Definition timed_inv (x : timed) : Prop :=
  match t_at x with
  | AtBurst => burst_ready (t_srv x)
  | AtReceiveAck _ => wait_ok x
  | AtEnd => True
  end.

(** While it goes on waiting, nothing is done to the time-out. *)
Lemma ra_event_waits l n h s :
  wpo True (ra_event clock l (AckMsg n h))
    (λ _ st s', match st with Waiting _ => rttinfo (th s') = rttinfo (th s) | Returned => True end) s.
Proof.
  cbn [ra_event]. wpo_step. wpo_step. cbv beta. wpo_step. wpo_step. cbv beta.
  assert (∀ h s P, wpo True (ra_finish clock h) (λ _ st s', match st with Waiting _ => P s' | Returned => True end) s)
    as Hfin.
  { clear. intros h s P. unfold ra_finish. wpo_step. unfold gettimeofday, wpo at 1. wpo_steps. done. }
  wpo_step.
  - wpo_step. wpo_step. apply Hfin.
  - wpo_step. wpo_step. cbv beta zeta. wpo_step; [|apply Hfin]. unfold ra_loop_top. wpo_step; [|by wpo_step].
    wpo_step. unfold wpo. by destruct (give_up_or_back_off _ _) as [? []].
Qed.

Lemma setitimer_armed s now due :
  rto_in s → ∃ k, alarm_secs s = Some k ∧ 0 < k ∧ setitimer k now due = Some (now + k * second) ∧
    k * 1000 <= rtt_rto (rttinfo (th s)) < (k + 1) * 1000.
Proof.
  intros Hs. unfold alarm_secs. rewrite rtt_start_exact by done. cbn [mbind option_bind].
  set (r := rtt_rto (rttinfo (th s))). assert (1000 <= r) as Hr by apply Hs.
  assert (Z.quot r 1000 * 1000 <= r < (Z.quot r 1000 + 1) * 1000 ∧ 0 < Z.quot r 1000) as [Hq Hp].
  { rewrite Z.quot_div_nonneg by lia. pose proof (Z.div_mod r 1000 ltac:(lia)).
    pose proof (Z.mod_pos_bound r 1000 ltac:(lia)). lia. }
  exists (Z.quot r 1000). split_and!; try done; try lia. unfold setitimer.
  by rewrite (proj2 (Z.eqb_neq _ _)), (proj2 (Z.ltb_ge _ _)) by lia.
Qed.

Lemma timed_step_inv x e y :
  timed_inv x → timed_step words clock x e = Some (Running y) → timed_inv y.
Proof.
  unfold timed_inv at 1. intros Hx. unfold timed_step.
  destruct e as [d|t n h|], (t_at x) as [|l|] eqn:Eat; try done.
  - destruct (d <? 0); [done|]. destruct (expires _ _ _); [done|].
    pose proof (burst_in words clock (t_srv x) Hx) as H. unfold wpo in H.
    destruct (burst words clock (t_srv x)) as [o [[l|] s'|c s'|f]]; [| |done..].
    + destruct (setitimer_armed s' (t_now x + d) (t_due x) H) as (k & Ek & Hk & Eset & Hr).
      rewrite Ek. cbn [mbind option_bind]. rewrite Eset. intros [= <-]. cbn [timed_inv t_at]. split; [done|].
      exists k. unfold second in *. cbn. split_and!; try done; lia.
    + by intros [= <-].
  - destruct (_ || _) eqn:Eb; [done|]. apply orb_false_elim in Eb as [Hlt Hexp]. apply Z.ltb_ge in Hlt.
    destruct Hx as [Hrto (k & Hdue & Hnow & Hk)].
    pose proof (ra_event_in clock l (AckMsg n h) (t_srv x) Hrto) as H1.
    pose proof (ra_event_waits l n h (t_srv x)) as H2. unfold wpo in H1, H2.
    destruct (ra_event clock l (AckMsg n h) (t_srv x)) as [o [st s'|c s'|f]]; [|done..].
    intros [= <-]. destruct st as [l'|]; cbn [timed_inv after_event t_at t_srv]; [|by left].
    split; [done|]. exists k. cbn [t_srv t_since t_due t_now]. rewrite H2.
    rewrite Hdue in Hexp. cbn [expires] in Hexp. split_and!; try done; try lia.
  - destruct (t_due x); [|done]. cbn. done.
  - destruct (t_due x) as [u|]; [|done]. cbn [mbind option_bind sig_alrm]. destruct Hx as [Hrto _].
    pose proof (ra_event_in clock l Alarm (t_srv x) Hrto) as H1. unfold wpo in H1.
    destruct (ra_event clock l Alarm (t_srv x)) as [o [st s'|c s'|f]] eqn:E; [|done..]. intros [= <-].
    cbn [ra_event] in E. unfold mbind, M_bind in E.
    destruct (give_up_or_back_off l (t_srv x)) as [? [? ?|? ?|?]]; [|done..]. injection E as _ <- <-. by left.
  - destruct (t_due x); [|done]. cbn. done.
Qed.

Lemma timed_run_inv es x y : timed_inv x → timed_run words clock x es = Some (Running y) → timed_inv y.
Proof.
  revert x. induction es as [|e es IH]; intros x Hx; cbn [timed_run]; [by intros [= <-]|].
  destruct (timed_step words clock x e) as [[x'|]|] eqn:E; [|done..]. cbn [mbind option_bind].
  apply IH. by eapply timed_step_inv.
Qed.
End waits.

(** ** The theorems *)

(** [send_file_data] before its loop, at time 0, with no timer armed. *)
Definition timed_start (serv_rwnd : Z) (t0 : th_config) (q0 : udp_msg) : timed :=
  mk_timed (send_file_data_init serv_rwnd t0 q0) AtBurst 0 None 0.

(** C15: whatever acknowledgements arrive and whenever, and however long the
    bursts take, a sender that waits has its timer armed, and it expires between
    one and three seconds after the wait began: no wait is longer than that.  The
    timer is set to the whole seconds of the time-out, so it may expire up to a
    second too early. *)
Theorem alarm_always_due words clock serv_rwnd t0 q0 es x l :
  0 < serv_rwnd < 2 ^ 31 → isEOF t0 ≠ 1 → rttinit t0 = 0 →
  timed_run words clock (timed_start serv_rwnd t0 q0) es = Some (Running x) → t_at x = AtReceiveAck l →
  ∃ k, t_due x = Some (t_since x + k * second) ∧ 1 <= k <= 3 ∧
    t_since x <= t_now x < t_since x + k * second ∧
    k * 1000 <= rtt_rto (rttinfo (th (t_srv x))) < (k + 1) * 1000.
Proof.
  intros Hw He Hi E Hat. apply timed_run_inv in E.
  - unfold timed_inv in E. rewrite Hat in E. destruct E as [Hr (k & Hd & Hn & Hk)]. exists k.
    unfold rto_in, rto_ok, RTT_RXTMIN, RTT_RXTMAX in Hr. split_and!; try done; try lia.
  - right. cbn. split_and!; [done|done|]. rewrite u32_small by (unfold is_u32; lia).
    rewrite i32_small by (unfold is_i32; lia). lia.
Qed.

(** An acknowledgement that ends the wait leaves the timer armed: if it comes
    shortly before the timer expires, the handler jumps into [receive_ack] after
    it has returned, in the middle of the next burst. *)
Theorem late_ack_jumps_astray words clock x l t n h y d u :
  t_at x = AtReceiveAck l → t_due x = Some u → timed_step words clock x (TAck t n h) = Some (Running y) →
  t_at y = AtBurst → t <= u <= t + d →
  timed_run words clock x [TAck t n h; TBurst d] = Some Wild.
Proof.
  intros Hat Hu E Hy Hd. cbn [timed_run]. rewrite E. cbn [mbind option_bind].
  assert (t_due y = Some u ∧ t_now y = t) as [Hdue Hnow].
  { unfold timed_step in E. rewrite Hat in E. destruct (_ || _); [done|].
    destruct (ra_event _ _ _ _) as [o [st s'|c s'|f]]; [|done..]. injection E as <-. by cbn. }
  unfold timed_step. rewrite Hy, Hdue, Hnow. rewrite (proj2 (Z.ltb_ge d 0)) by lia. cbn [expires sig_alrm].
  by rewrite !(proj2 (Z.leb_le _ _)) by lia.
Qed.

Definition ack_for (n : Z) : tevent := TAck (900000 * n) ack_datagram_len (mk_udp_data n 0 10 ack).
Definition demo_events : list tevent := [TBurst 50; ack_for 1; TBurst 50; TAlarm; TBurst 50].

Lemma alarm_always_due_witness :
  ∃ x k, timed_run Demo.abc Demo.clock (timed_start 10 Demo.t0 zero_msg) demo_events = Some (Running x) ∧
    t_due x = Some (t_since x + k * second) ∧ 1 <= k <= 3.
Proof.
  destruct (timed_run Demo.abc Demo.clock (timed_start 10 Demo.t0 zero_msg) demo_events)
    as [[x|]|] eqn:E; [|exfalso; vm_compute in E; discriminate..].
  assert (∃ l, t_at x = AtReceiveAck l) as [l Hat].
  { revert E. vm_compute. intros E. injection E as <-. by eexists. }
  destruct (alarm_always_due Demo.abc Demo.clock 10 Demo.t0 zero_msg demo_events x l) as (k & Hd & Hk & _);
    [split; reflexivity|discriminate|reflexivity|exact E|exact Hat|].
  exists x, k. split; [reflexivity|]. split; [exact Hd|exact Hk].
Defined.

(** The acknowledgement comes a tenth of a second before the timer expires and
    the next burst takes two tenths. *)
Lemma late_ack_jumps_astray_example :
  timed_run Demo.abc Demo.clock (timed_start 10 Demo.t0 zero_msg) [TBurst 50; ack_for 1; TBurst 200000] = Some Wild.
Proof. by vm_compute. Qed.
