(* ===== verification/Hw2Live.v ===== *)
(** * What keeps a transfer alive (hw2/client.c with hw2/server.c)

    The invariant behind [Hw2Recover]: while the client is still receiving, the
    server's timer is in order, every number up to the last one sent is among the
    packets, and some acknowledgement that may still be delivered opens the
    window whenever the server has gone back behind the client.  The server's
    operations are shown to return from such states. *)

From S2P Require Import Prelude.
From S2P Require Import CMem.
From S2P Require Import CFloat.
From S2P Require Import CRound.
From S2P Require Import Rtt.
From S2P Require Import UdpMsg.
From S2P Require Import Hw2Client.
From S2P Require Import Hw2Ring.
From S2P Require Import Hw2Receiver.
From S2P Require Import Hw2Server.
From S2P Require Import Hw2Sender.
From S2P Require Import Hw2System.
From S2P Require Import Hw2Congestion.

(** What a partial and a total specification say together. *)
Lemma wpo_and_wp {S O A} (F : Prop) (E : O → Prop) (m : M S O A) (Q : A → S → Prop)
    (Q' : list O → A → S → Prop) s :
  wp True E m Q s → wpo F m Q' s →
  wpo F m (λ o a s', (Forall E o ∧ Q a s') ∧ Q' o a s') s.
Proof. unfold wp, wpo. destruct (m s) as [o [a s'|c s'|f]]; simpl; [tauto|done..]. Qed.

Section live.
Context (words : list bytes) (clock : nat → timeval) (origin : Z).
Abbreviation N := (Z.of_nat (length words)).

Hypothesis words_int : N + 2 <= INT_MAX.
Hypothesis words_short : Forall (λ w, Z.of_nat (length w) < MAXLINE) words.

(** The clock's readings lie within [2 ^ 14] seconds, four and a half hours. *)
Definition hours : Z := 2 ^ 14.
Definition within_hours (sec : Z) : Prop := origin <= sec < origin + hours.
Definition clock_ok : Prop :=
  0 <= origin ∧ origin + hours <= 2 ^ 32 ∧
  ∀ k, within_hours (tv_sec (clock k)) ∧ 0 <= tv_usec (clock k) < 1000000.
Hypothesis clock_window : clock_ok.

(** ** Time stamps *)

Definition stamp_span : Z := (hours + 1) * 1000.
Definition stamp_ok (t : Z) : Prop := ∃ v, Z.abs v <= stamp_span ∧ t = u32 v.

Lemma stamp_ok_zero : stamp_ok 0.
Proof. exists 0. by vm_compute. Qed.

Lemma rtt_ts_ok p k : within_hours (rtt_base p) → stamp_ok (rtt_ts p (clock k)).
Proof.
  intros Hb. destruct clock_window as (_ & _ & Hc). destruct (Hc k) as [Hs Hu].
  eexists. split; [|reflexivity]. pose proof (Z.quot_pos (tv_usec (clock k)) 1000).
  pose proof (Z.quot_lt_upper_bound (tv_usec (clock k)) 1000 1000).
  unfold within_hours, stamp_span, hours in Hb, Hs |- *. lia.
Qed.

(** Two such stamps are less than 18 hours apart. *)
Lemma stamps_apart a b : stamp_ok a → stamp_ok b → Z.abs (i32 (u32 (a - b))) <= 2 ^ rtt_exp.
Proof.
  intros (v & Hv & ->) (w & Hw & ->). rewrite i32_u32.
  unfold stamp_span, hours, rtt_exp in Hv, Hw |- *. clear words_int words_short.
  replace (i32 (u32 v - u32 w)) with (i32 (v - w)).
  - rewrite i32_small; [lia|]. unfold is_i32. lia.
  - rewrite <- (i32_u32 (v - w)), <- (i32_u32 (u32 v - u32 w)). f_equal. unfold u32.
    by rewrite <- Zminus_mod.
Qed.

(** ** The timer *)

Record timer_good (p : rtt_info) : Prop := {
  tg_rto : rto_ok p;
  tg_est : estimators_in rtt_exp p;
  tg_base : within_hours (rtt_base p)
}.

Lemma init_good p k p' : rtt_init p (clock k) = Some p' → timer_good p'.
Proof.
  rewrite rtt_init_eq. intros [= <-]. destruct clock_window as (H0 & H1 & Hc).
  destruct (Hc k) as [Hs _]. split.
  - by vm_compute.
  - apply init_estimators. by vm_compute.
  - cbn. rewrite u32_small; [done|]. unfold within_hours, is_u32, hours in *. lia.
Qed.

Lemma newpack_good p : timer_good p → timer_good (rtt_newpack p).
Proof. by intros []. Qed.

Lemma timeout_good p : timer_good p → timer_good (rtt_timeout p).1.
Proof. intros []. split; [apply rtt_timeout_rto_ok|done|done]. Qed.

Lemma stop_good p ms :
  timer_good p → Z.abs (i32 ms) <= 2 ^ rtt_exp →
  ∃ p', rtt_stop p ms = Some p' ∧ timer_good p' ∧ rtt_nrexmt p' = rtt_nrexmt p.
Proof.
  intros [Hr He Hb] Hms.
  destruct (rtt_stop_defined p ms rtt_exp) as (p' & E & He'); [by vm_compute|done|done|].
  exists p'. split; [done|]. assert (rtt_nrexmt p' = rtt_nrexmt p ∧ rtt_base p' = rtt_base p) as [En Eb].
  { unfold rtt_stop in E. destruct (int_of_float (f32_sub _ _)); [cbn in E|done].
    destruct (int_of_float (RTT_RTOCALC _)); [cbn in E|done]. by injection E as <-. }
  split; [|done]. split; [by eapply rtt_stop_rto_ok|done|by rewrite Eb].
Qed.

(** ** Sending a packet *)

Definition same_timer (t t' : th_config) : Prop := rttinit t' = rttinit t ∧ rttinfo t' = rttinfo t.

Lemma skip_total n s :
  wpo False (skip_words words n) (λ o _ s', o = [] ∧ ∃ p w, s' = set_fp_pos p (set_q_buf w s)) s.
Proof.
  revert s. induction n as [|n IH]; intros s; cbn [skip_words].
  { wpo_step. split; [done|]. exists (fp_pos s), (m_buf (q_obj s)). by destruct s as [? ? ? [] ?]. }
  wpo_step. apply (fscanf_total words words_short).
  - intros w _. eapply wpo_mono; [apply IH|]. cbv beta. intros o _ s' (-> & p & w' & ->).
    split; [done|]. by exists p, w'.
  - intros _. eapply wpo_mono; [apply IH|]. cbv beta. intros o _ s' (-> & p & w' & ->).
    split; [done|]. by exists p, w'.
Qed.

(** The number of the next packet. *)
Definition next_num (s : server) : Z :=
  if last_unacked_seq (th s) =? -1 then seq_num s + 1 else last_unacked_seq (th s).

Definition choice (s : server) : M server udp_msg unit :=
  if negb (last_unacked_seq (th s) =? -1) then retransmit words else next_packet words clock.

Lemma choose_total s :
  -1 <= seq_num s <= N → ts (m_config (q_obj s)) = 0 → within_hours (rtt_base (rttinfo (th s))) →
  wpo False (choice s) (λ o _ s', o = [] ∧ seq_num s' = next_num s ∧
    stamp_ok (ts (m_config (q_obj s'))) ∧ same_windows (th s) (th s') ∧
    same_timer (th s) (th s')) s.
Proof.
  intros Hs Hq Hb. unfold choice, next_num. destruct (Z.eqb_spec (last_unacked_seq (th s)) (-1)) as [E|E]; cbn [negb].
  - unfold next_packet. wpo_step. unfold gettimeofday, wpo at 1. cbn [fst snd]. wpo_steps.
    cbn [seq_num set_q_ts set_q_obj].
    unfold INT_MAX in *. rewrite (i32_small (seq_num s + 1)) by (unfold is_i32; lia).
    apply (fscanf_total words words_short); intros; wpo_steps; cbn;
      (split_and!; [done|done|by apply rtt_ts_ok|done|done]).
  - unfold retransmit. wpo_steps.
    eapply wpo_mono; [apply skip_total|]. cbv beta. intros o _ s1 (-> & p & w & ->). wpo_steps.
    apply (fscanf_total words words_short); intros; wpo_steps; cbn; rewrite Hq;
      (split_and!; [done|done|apply stamp_ok_zero|done|done]).
Qed.

(** The packet's number and kind. *)
Definition offers (m : udp_msg) (k : Z) : Prop := seq (m_config m) = k ∧ is_Some (offer m).

Lemma mark_total e k s :
  chosen words e k s →
  wpo False mark_type (λ o _ s', o = [] ∧ offers (q_obj s') (Z.min k N) ∧ seq_num s' = Z.min k N ∧
    ts (m_config (q_obj s')) = ts (m_config (q_obj s)) ∧ th s' = th s) s.
Proof.
  intros [_ Hk Hs Hq _ Hl _ _]. unfold INT_MAX in *. unfold mark_type. wpo_steps; cbn.
  - apply andb_prop in Hb as [Hb1%Z.leb_le Hb2%negb_true_iff%Z.eqb_neq].
    assert (last_pack_seq_no (th s) = N) as E by lia. rewrite E, u32_small by (unfold is_u32; lia).
    split_and!; [done| |lia|done|done]. split; [cbn; lia|by eexists].
  - assert (k < N) by (apply andb_false_iff in Hb as [?%Z.leb_gt|?%negb_false_iff%Z.eqb_eq]; lia).
    split_and!; [done| |lia|done|done]. split; [cbn; lia|by eexists].
Qed.

Lemma init_total s :
  rttinit (th s) = 0 ∨ timer_good (rttinfo (th s)) →
  wpo False (init_timer clock) (λ o _ s', o = [] ∧ timer_good (rttinfo (th s')) ∧
    same_windows (th s) (th s') ∧ q_obj s' = q_obj s ∧ seq_num s' = seq_num s ∧
    last_unacked_seq (th s') = last_unacked_seq (th s)) s.
Proof.
  intros Ht. unfold init_timer. wpo_step. wpo_step. cbv beta. wpo_step.
  - wpo_step. unfold gettimeofday, wpo at 1. cbn [fst snd]. wpo_step.
    apply wpo_required; [|by rewrite rtt_init_eq]. intros p Hp. wpo_step. cbn.
    apply init_good in Hp. by split_and!.
  - wpo_step. destruct Ht as [Ht|Ht]; [by apply Z.eqb_neq in Hb|]. by split_and!.
Qed.

(** One turn of the burst's loop. *)
Lemma send_turn_total s :
  sender_inv words (isEOF (th s)) s → isEOF (th s) ≠ 1 → within_hours (rtt_base (rttinfo (th s))) →
  rttinit (th s) = 0 ∨ timer_good (rttinfo (th s)) →
  wpo False (send_turn words clock) (λ o stop s', stop = false ∧ ∃ m, o = [m] ∧
    offers m (Z.min (next_num s) N) ∧ stamp_ok (ts (m_config m)) ∧ q_obj s' = m ∧
    seq_num s' = Z.min (next_num s) N ∧ timer_good (rttinfo (th s')) ∧
    rtt_nrexmt (rttinfo (th s')) = 0 ∧ last_unacked_seq (th s') = -1 ∧
    same_windows (th s) (th s')) s.
Proof.
  intros Hi He Hb Ht.
  assert (sender_inv words (isEOF (th s)) (set_q_obj zero_msg s)) as Hi' by (destruct Hi; by split).
  unfold send_turn. wpo_step. wpo_step. cbv beta. wpo_step. wpo_step. cbv beta.
  wpo_step; [by apply Z.eqb_eq in Hb0|]. wpo_step.
  pose proof (wp_choose words clock ltac:(unfold INT_MAX in *; lia) _ _ Hi') as W1.
  pose proof (choose_total (set_q_obj zero_msg s) (si_seq _ _ _ Hi') eq_refl Hb) as T1.
  eapply wpo_mono; [exact (wpo_and_wp _ _ _ _ _ _ W1 T1)|]. cbv beta. clear W1 T1.
  intros o _ s1 ([_ (k & Hk)] & -> & Hn & Hst & Hw1 & Ht1).
  assert (k = next_num s) as -> by (rewrite <- (ch_seq _ _ _ _ Hk), Hn; done). wpo_step.
  pose proof (wp_mark_type words ltac:(unfold INT_MAX in *; lia) _ _ _ Hk) as W2.
  eapply wpo_mono; [exact (wpo_and_wp _ _ _ _ _ _ W2 (mark_total _ _ _ Hk))|]. cbv beta. clear W2.
  intros o _ s2 ([_ (_ & Hlu & _)] & -> & Hoff & Hsq & Hts & Eth). wpo_step.
  destruct Ht1 as [Ei Er].
  eapply wpo_mono; [apply init_total; rewrite Eth, Ei, Er; exact Ht|]. cbv beta.
  intros o _ s3 (-> & Htg & Hw3 & Eq & Es & El). unfold send. wpo_steps. cbn -[Z.min].
  split; [done|]. exists (q_obj s3). rewrite Eq, Es, Hts, El, Hlu. rewrite Eth in Hw3.
  split_and!; try done; [by apply newpack_good|]. by eapply same_windows_trans.
Qed.

(** ** The invariant

    [P] is every packet sent, [A] every acknowledgement. *)

Record good (P : list udp_msg) (A : list udp_data) (s : server) : Prop := {
  g_inv : sender_inv words (isEOF (th s)) s;
  g_running : isEOF (th s) ≠ 1;
  g_timer : timer_good (rttinfo (th s));
  g_nrexmt : 0 <= rtt_nrexmt (rttinfo (th s)) <= RTT_MAXNREXMT;
  g_seq : 0 <= seq_num s;
  g_rwnd : 0 <= th_rwnd (th s) <= INT_MAX;
  g_stamp : stamp_ok (ts (m_config (q_obj s)));
  g_pstamps : Forall (λ m, stamp_ok (ts (m_config m))) P;
  g_astamps : Forall (λ h, stamp_ok (ts h) ∧ 0 <= rwnd h <= INT_MAX) A;
  (** the last number sent, and all below any number sent, are among the packets *)
  g_top : ∃ m, m ∈ P ∧ offers m (seq_num s);
  g_cover : ∀ m k j, m ∈ P → offers m k → 0 <= j <= k → ∃ m', m' ∈ P ∧ offers m' j;
  (** having gone back, the server can be given a window again *)
  g_back : (∀ m k, m ∈ P → offers m k → k <= seq_num s) ∨
    ∃ h, h ∈ A ∧ 0 < rwnd h ∧ seq h <= seq_num s + 1
}.

(** The number to resume at was acknowledged last, with the present window. *)
Definition pending (A : list udp_data) (k : Z) (s : server) : Prop :=
  k ≠ -1 → k <= seq_num s + 1 ∧ ∃ h, h ∈ A ∧ seq h = k ∧ rwnd h = th_rwnd (th s).

(** The number an event leaves to resume at. *)
Definition resume (l : ra_locals) (s : server) : Z :=
  if prev_seq_num l =? -1 then last_unacked_seq (th s) else prev_seq_num l.

Definition live_srv (P : list udp_msg) (A : list udp_data) (at_ : server_at) (s : server) : Prop :=
  good P A s ∧
  match at_ with
  | AtBurst => pending A (last_unacked_seq (th s)) s
  | AtReceiveAck l => waiting_inv words (isEOF (th s)) l s ∧ pending A (resume l s) s
  | AtEnd => False
  end.

Lemma next_num_range s :
  sender_inv words (isEOF (th s)) s → 0 <= next_num s <= N + 1.
Proof.
  intros [_ _ Hs _ Hu]. unfold next_num. destruct (Z.eqb_spec (last_unacked_seq (th s)) (-1)); lia.
Qed.

Lemma next_num_step P A s :
  good P A s → pending A (last_unacked_seq (th s)) s → next_num s <= seq_num s + 1.
Proof.
  intros Hg Hp. unfold next_num. destruct (Z.eqb_spec (last_unacked_seq (th s)) (-1)) as [|E]; [lia|].
  by apply Hp.
Qed.

(** The packet just sent joins the others. *)
Lemma send_turn_good P A s :
  good P A s → pending A (last_unacked_seq (th s)) s → 0 < th_rwnd (th s) →
  wpo False (send_turn words clock) (λ o stop s', stop = false ∧ ∃ m, o = [m] ∧
    good (P ++ [m]) A s' ∧ seq_num s' = Z.min (next_num s) N ∧
    rtt_nrexmt (rttinfo (th s')) = 0 ∧ last_unacked_seq (th s') = -1 ∧
    same_windows (th s) (th s')) s.
Proof.
  intros Hg Hp Hr. pose proof (next_num_step _ _ _ Hg Hp) as Hns.
  pose proof (next_num_range _ (g_inv _ _ _ Hg)) as Hnr.
  pose proof (wp_send_turn words clock ltac:(unfold INT_MAX in *; lia) _ _ (g_inv _ _ _ Hg)) as W.
  pose proof (send_turn_total s (g_inv _ _ _ Hg) (g_running _ _ _ Hg) (tg_base _ (g_timer _ _ _ Hg))
    (or_intror (g_timer _ _ _ Hg))) as T.
  eapply wpo_mono; [exact (wpo_and_wp _ _ _ _ _ _ W T)|]. cbv beta. clear W T.
  intros o stop s' ([_ Hi'] & -> & m & -> & Hoff & Hst & Eq & Es & Ht & Hn & Hu & Hw).
  split; [done|]. exists m. split_and!; try done. destruct Hw as (Ee & Er & _).
  destruct Hg as [Gi Ge Gt Gn Gs Gr Gst Gp Ga Gtop Gcov Gback].
  split; rewrite ?Ee, ?Er, ?Eq, ?Hn; try done.
  - lia.
  - by apply Forall_app; split; [|repeat constructor].
  - exists m. split; [set_solver|]. by rewrite Es.
  - intros m' k j Hm' Hk Hj. destruct (decide (j = Z.min (next_num s) N)) as [->|Hne].
    { exists m. split; [set_solver|done]. }
    assert (∃ m2, m2 ∈ P ∧ offers m2 j) as (m2 & H2 & Ho2); [|exists m2; split; [set_solver|done]].
    apply elem_of_app in Hm' as [Hm'|Hm'%list_elem_of_singleton]; [by eapply Gcov|].
    subst m'. destruct Hoff as [Eo _], Hk as [Ek _]. destruct Gtop as (mt & Hmt & Hot).
    apply (Gcov mt (seq_num s)); [done|done|lia].
  - unfold next_num in *. destruct (Z.eqb_spec (last_unacked_seq (th s)) (-1)) as [E|E].
    + destruct Gi as [_ _ Hsq _ _]. destruct Gback as [Gb|(h & Hh & Hw & Hle)]; [left|right].
      * intros m' k [Hm'|Hm'%list_elem_of_singleton]%elem_of_app Hk; [specialize (Gb m' k Hm' Hk); lia|].
        subst m'. destruct Hoff as [Eo _], Hk as [Ek _]. lia.
      * exists h. split_and!; [done|done|lia].
    + right. destruct (Hp E) as (_ & h & Hh & Eh & Ew). exists h.
      destruct Gi as [_ _ _ _ [?|[Hlu _]]]; [done|]. split_and!; [done|lia|lia].
Qed.

Lemma send_loop_good n P A s :
  good P A s → pending A (last_unacked_seq (th s)) s → ((0 < n)%nat → 0 < th_rwnd (th s)) →
  wpo False (send_loop words clock n) (λ o _ s',
    good (P ++ o) A s' ∧ pending A (last_unacked_seq (th s')) s' ∧ same_windows (th s) (th s') ∧
    ((0 < n)%nat → rtt_nrexmt (rttinfo (th s')) = 0 ∧ last_unacked_seq (th s') = -1) ∧
    (n = 0%nat → s' = s) ∧ (n = 1%nat → seq_num s' = Z.min (next_num s) N)) s.
Proof.
  revert P s. induction n as [|n IH]; intros P s Hg Hp Hr; cbn [send_loop].
  { wpo_step. rewrite app_nil_r. split_and!; try done; lia. }
  wpo_step. eapply wpo_mono; [eapply send_turn_good; [done|done|apply Hr; lia]|]. cbv beta.
  intros o stop s1 (-> & m & -> & Hg1 & Es & Hn1 & Hu1 & Hw1).
  assert (pending A (last_unacked_seq (th s1)) s1) as Hp1 by (intros E; by rewrite Hu1 in E).
  eapply wpo_mono; [apply (IH (P ++ [m])); [done|done|]|].
  { intros _. rewrite (proj1 (proj2 Hw1)). apply Hr. lia. }
  cbv beta. intros o' _ s2 (Hg2 & Hp2 & Hw2 & Hpos & H0 & H1). rewrite <- app_assoc in Hg2.
  split_and!; [done|done|by eapply same_windows_trans| |done|].
  - intros _. destruct n; [by rewrite H0|]. apply Hpos. lia.
  - intros [= ->]. by rewrite (H0 eq_refl).
Qed.

(** What the invariant asks of the server itself. *)
Lemma good_frame P A s s' :
  good P A s → sender_inv words (isEOF (th s')) s' → isEOF (th s') = isEOF (th s) →
  timer_good (rttinfo (th s')) → 0 <= rtt_nrexmt (rttinfo (th s')) <= RTT_MAXNREXMT →
  0 <= th_rwnd (th s') <= INT_MAX → seq_num s' = seq_num s →
  ts (m_config (q_obj s')) = ts (m_config (q_obj s)) → good P A s'.
Proof.
  intros [Gi Ge Gt Gn Gs Gr Gst Gp Ga Gtop Gcov Gback] Hi Ee Ht Hn Hr Es Eq.
  split; rewrite ?Es, ?Eq; try done. by rewrite Ee.
Qed.

(** A ping offers nothing. *)
Lemma good_ping P A m s :
  good P A s → offer m = None → stamp_ok (ts (m_config m)) → good (P ++ [m]) A s.
Proof.
  intros [Gi Ge Gt Gn Gs Gr Gst Gp Ga Gtop Gcov Gback] Ho Hm.
  assert (∀ m' k, m' ∈ P ++ [m] → offers m' k → m' ∈ P) as Hin.
  { intros m' k [?|E%list_elem_of_singleton]%elem_of_app [_ Hk]; [done|].
    rewrite E, Ho in Hk. by destruct Hk. }
  split; try done.
  - by apply Forall_app; split; [|repeat constructor].
  - destruct Gtop as (mt & ? & ?). exists mt. split; [set_solver|done].
  - intros m' k j Hm' Hk Hj. destruct (Gcov m' k j) as (m2 & ? & ?); [by eapply Hin|done|done|].
    exists m2. split; [set_solver|done].
  - destruct Gback as [Gb|?]; [left|by right]. intros m' k Hm' Hk. apply (Gb m' k); [by eapply Hin|done].
Qed.

(** More acknowledgements may only help. *)
Lemma live_srv_acks P A B at_ s :
  live_srv P A at_ s → Forall (λ h, stamp_ok (ts h) ∧ 0 <= rwnd h <= INT_MAX) B →
  live_srv P (A ++ B) at_ s.
Proof.
  intros [Hg Hat] HB.
  assert (∀ k, pending A k s → pending (A ++ B) k s) as Hp.
  { intros k Hk Hne. destruct (Hk Hne) as (? & h & ? & ?). split; [done|]. exists h. set_solver. }
  split; [|destruct at_ as [|l|]; [by apply Hp|by destruct Hat; split; [|apply Hp]|done]].
  destruct Hg as [Gi Ge Gt Gn Gs Gr Gst Gp Ga Gtop Gcov Gback]. split; try done.
  - by apply Forall_app.
  - destruct Gback as [Gb|(h & ? & ?)]; [by left|right]. exists h. set_solver.
Qed.

(** ** A burst *)

Lemma send_ping_good P A s :
  good P A s →
  wpo False send_ping (λ o _ s', good (P ++ o) A s' ∧ th s' = th s ∧ seq_num s' = seq_num s) s.
Proof.
  intros Hg. unfold send_ping, send. wpo_steps; cbn; [|by rewrite app_nil_r].
  split; [|done]. apply good_ping; [|done|apply Hg].
  apply (good_frame P A s); try apply Hg; try done. apply (sender_inv_frame words _ s); [apply Hg|done..|by left].
Qed.

(** [receive_ack] is entered: nothing acknowledged yet, the timer armed. *)
Lemma receive_ack_start_good P A s :
  good P A s → pending A (last_unacked_seq (th s)) s →
  wpo False receive_ack_start (λ o st s', o = [] ∧ s' = s ∧
    st = Waiting (mk_ra (seq_num s + 1) (-1) 0) ∧ live_srv P A (after_burst st) s) s.
Proof.
  intros Hg Hp. unfold receive_ack_start. wpo_step. wpo_step. cbv beta. wpo_step.
  rewrite rtt_start_exact by apply (g_timer _ _ _ Hg). wpo_steps. cbn [id].
  pose proof (si_seq _ _ _ (g_inv _ _ _ Hg)) as Hs. unfold INT_MAX in *.
  rewrite i32_small by (unfold is_i32; lia). split_and!; [done..|]. split; [done|].
  split; [|done]. split; [apply Hg|done|by left].
Qed.

(** What a burst does after its loop. *)
Definition burst_rest : M server udp_msg ra_status :=
  send_ping ≫= λ _,
  t ← gets th;
  if isEOF t =? 1 then mret Returned else receive_ack_start.

Lemma burst_rest_good P A s :
  good P A s → pending A (last_unacked_seq (th s)) s →
  wpo False burst_rest (λ o st s', st = Waiting (mk_ra (seq_num s' + 1) (-1) 0) ∧
    live_srv (P ++ o) A (after_burst st) s' ∧ th s' = th s ∧ seq_num s' = seq_num s) s.
Proof.
  intros Hg Hp. unfold burst_rest. wpo_step.
  eapply wpo_mono; [apply send_ping_good, Hg|]. cbv beta. intros o _ s1 (Hg1 & Et & Es). wpo_step.
  wpo_step. cbv beta. rewrite (proj2 (Z.eqb_neq _ _) (g_running _ _ _ Hg1)).
  eapply wpo_mono; [apply (receive_ack_start_good _ _ _ Hg1)|].
  { unfold pending. by rewrite Et, Es. }
  cbv beta. intros o' st s2 (-> & -> & -> & Hl). rewrite app_nil_r, Et, Es in *. done.
Qed.

(** A burst returns and the server waits again; with a window of one it sends
    the next packet. *)
Lemma burst_good P A s :
  live_srv P A AtBurst s →
  wpo False (burst words clock) (λ o st s',
    st = Waiting (mk_ra (seq_num s' + 1) (-1) 0) ∧ live_srv (P ++ o) A (after_burst st) s' ∧
    th_rwnd (th s') = th_rwnd (th s) ∧
    rtt_nrexmt (rttinfo (th s')) <= rtt_nrexmt (rttinfo (th s)) ∧
    (cwnd (th s) = 1 → 0 < th_rwnd (th s) → rtt_nrexmt (rttinfo (th s')) = 0 ∧
       last_unacked_seq (th s') = -1 ∧ seq_num s' = Z.min (next_num s) N)) s.
Proof.
  intros [Hg Hp]. pose proof (g_rwnd _ _ _ Hg) as Hr. pose proof (g_nrexmt _ _ _ Hg) as Hn.
  unfold burst. wpo_step. wpo_step. cbv beta. unfold INT_MAX in Hr.
  rewrite (i32_small (th_rwnd (th s))) by (unfold is_i32; lia).
  set (n := Z.to_nat (Z.min (cwnd (th s)) (th_rwnd (th s)))). wpo_step.
  eapply wpo_mono; [apply (send_loop_good n); [exact Hg|exact Hp|lia]|]. cbv beta.
  intros o _ s1 (Hg1 & Hp1 & (Ee & Er & _) & Hpos & H0 & H1).
  eapply wpo_mono; [apply (burst_rest_good _ _ _ Hg1 Hp1)|]. cbv beta.
  intros o1 st s2 (-> & Hl & Et & Es). rewrite app_nil_l, app_assoc. rewrite Et, Es in *.
  split_and!; [done|done|done| |].
  - destruct (decide (n = 0)%nat) as [E|E]; [by rewrite (H0 E)|]. destruct Hpos as [-> _]; lia.
  - intros Ec Ew. destruct Hpos as [? ?]; [lia|]. split_and!; [done|done|]. apply H1. lia.
Qed.

(** ** The first burst *)

Record starting_srv (s : server) : Prop := {
  st_inv : sender_inv words (isEOF (th s)) s;
  st_running : isEOF (th s) ≠ 1;
  st_base : within_hours (rtt_base (rttinfo (th s)));
  st_init : rttinit (th s) = 0;
  st_seq : seq_num s = -1;
  st_unacked : last_unacked_seq (th s) = -1;
  st_cwnd : cwnd (th s) = 1;
  st_rwnd : 1 <= th_rwnd (th s) <= INT_MAX
}.

Lemma first_burst_good s :
  starting_srv s →
  wpo False (burst words clock) (λ o st s',
    (∃ l, st = Waiting l) ∧ live_srv o [] (after_burst st) s' ∧ rtt_nrexmt (rttinfo (th s')) = 0) s.
Proof.
  intros [Hi He Hb Ht Hs Hu Hc Hr]. unfold INT_MAX in Hr. unfold burst. wpo_step. wpo_step. cbv beta.
  rewrite Hc, i32_small, Z.min_l by (unfold is_i32; lia). wpo_step. cbn [send_loop].
  change (Z.to_nat 1) with 1%nat. cbn [send_loop]. wpo_step.
  pose proof (wp_send_turn words clock ltac:(unfold INT_MAX in *; lia) _ _ Hi) as W.
  eapply wpo_mono; [exact (wpo_and_wp _ _ _ _ _ _ W (send_turn_total s Hi He Hb (or_introl Ht)))|].
  cbv beta. clear W.
  intros o stop s1 ([_ Hi1] & -> & m & -> & Hoff & Hst & Eq & Es & Htm & Hn & Hu1 & Ee & Er & _).
  assert (next_num s = 0) as En by (unfold next_num; rewrite Hu; cbn; lia).
  rewrite En, Z.min_l in * by lia. wpo_step.
  assert (good [m] [] s1) as Hg1.
  { split; rewrite ?Ee, ?Er, ?Es, ?Eq, ?Hn; unfold INT_MAX; try done; try lia.
    - by repeat constructor.
    - exists m. by split; [apply list_elem_of_singleton|].
    - intros m' k j ->%list_elem_of_singleton [Ek _] Hj. exists m. split; [by apply list_elem_of_singleton|].
      destruct Hoff as [Eo ?]. replace j with 0 by lia. done.
    - left. intros m' k ->%list_elem_of_singleton [Ek _]. destruct Hoff as [Eo _]. lia. }
  eapply wpo_mono; [apply (burst_rest_good [m] [] s1 Hg1); by rewrite Hu1|]. cbv beta.
  intros o st s2 (-> & Hl & Et & Es2). rewrite Et. split; [by eexists|]. by cbn [app].
Qed.

(** ** Events

    Under [F] the server may give up. *)
Section events.
Context (F : Prop) (P : list udp_msg) (A : list udp_data).
Definition may_retry (s : server) : Prop := F ∨ rtt_nrexmt (rttinfo (th s)) < RTT_MAXNREXMT.

Lemma give_up_good l s :
  good P A s → waiting_inv words (isEOF (th s)) l s → pending A (resume l s) s → may_retry s →
  wpo F (give_up_or_back_off l) (λ o _ s', o = [] ∧ live_srv P A AtBurst s' ∧
    last_unacked_seq (th s') = resume l s ∧ cwnd (th s') = 1 ∧
    th_rwnd (th s') = th_rwnd (th s) ∧ seq_num s' = seq_num s) s.
Proof.
  intros Hg Hw Hp Hm. pose proof (g_nrexmt _ _ _ Hg) as Hn.
  pose proof (wp_give_up words _ _ _ Hw) as W.
  eapply wpo_mono; [apply (wpo_and_wp F _ _ _ (λ o _ s', o = [] ∧
    isEOF (th s') = isEOF (th s) ∧ timer_good (rttinfo (th s')) ∧
    0 <= rtt_nrexmt (rttinfo (th s')) <= RTT_MAXNREXMT ∧ q_obj s' = q_obj s ∧
    last_unacked_seq (th s') = resume l s ∧ cwnd (th s') = 1 ∧
    th_rwnd (th s') = th_rwnd (th s) ∧ seq_num s' = seq_num s) _ W)|].
  - clear W. destruct Hw as [Hi He Hpr]. unfold give_up_or_back_off. wpo_step. wpo_step. cbv beta. wpo_step.
    { exfalso. apply andb_prop in Hb as [Hb1%Z.ltb_lt Hb2%negb_true_iff%Z.eqb_neq].
      destruct (si_last _ _ _ Hi) as [[??]|?]; lia. }
    pose proof (timeout_good _ (g_timer _ _ _ Hg)) as Ht. unfold rtt_timeout in *. cbn [fst] in Ht.
    unfold resume, may_retry, RTT_MAXNREXMT in *.
    rewrite (i32_small (rtt_nrexmt (rttinfo (th s)) + 1)) in * by (unfold is_i32; lia).
    destruct (Z.ltb_spec 12 (rtt_nrexmt (rttinfo (th s)) + 1)) as [Hlt|Hge].
    { cbn [Z.ltb Z.compare]. wpo_steps. destruct Hm; [done|lia]. }
    destruct (prev_seq_num l =? -1); cbn [negb when Z.ltb Z.compare]; wpo_steps; cbn;
      split_and!; try done; lia.
  - cbv beta. intros o _ s' ([_ Hi'] & -> & Ee & Ht & Hn' & Eq & Elu & Ec & Er & Es).
    split; [done|]. split; [|done]. split.
    + apply (good_frame P A s); rewrite ?Ee, ?Er, ?Eq; try done; apply Hg.
    + rewrite Elu. unfold pending in *. by rewrite Es, Er.
Qed.

Lemma alarm_good l s :
  live_srv P A (AtReceiveAck l) s → may_retry s →
  wpo F (ra_event clock l Alarm) (λ o st s', o = [] ∧ st = Returned ∧ live_srv P A AtBurst s' ∧
    last_unacked_seq (th s') = resume l s ∧ cwnd (th s') = 1 ∧
    th_rwnd (th s') = th_rwnd (th s) ∧ seq_num s' = seq_num s) s.
Proof.
  intros (Hg & Hw & Hp) Hm. cbn [ra_event]. wpo_step. eapply wpo_mono; [by apply give_up_good|].
  cbv beta. intros o _ s' (-> & H). by wpo_step.
Qed.

Lemma ra_finish_good h s :
  good P A s → stamp_ok (ts h) →
  wpo F (ra_finish clock h) (λ o st s', o = [] ∧ st = Returned ∧ live_srv P A AtBurst s' ∧
    rtt_nrexmt (rttinfo (th s')) = rtt_nrexmt (rttinfo (th s)) ∧
    th_rwnd (th s') = th_rwnd (th s) ∧ seq_num s' = seq_num s) s.
Proof.
  intros Hg Hh. unfold ra_finish. wpo_step. unfold gettimeofday, wpo at 1. cbn [fst snd].
  wpo_step. wpo_step. cbv beta. cbn [th].
  destruct (stop_good (rttinfo (th s)) (u32 (rtt_ts (rttinfo (th s)) (clock (ticks s)) - ts h)))
    as (p & Ep & Hp & Hn); [apply Hg|apply stamps_apart; [apply rtt_ts_ok, Hg|done]|].
  rewrite Ep. clear Ep. wpo_step. apply wpo_required; [intros ? [= <-]|done]. wpo_steps. cbn.
  split_and!; try done. split; [|done].
  apply (good_frame P A s); cbn; try done; try apply Hg; [|rewrite Hn; apply Hg].
  apply (sender_inv_frame words _ s); [apply Hg|done..|by right].
Qed.

Lemma ack_good l h s :
  live_srv P A (AtReceiveAck l) s → h ∈ A → 0 <= seq h <= ra_expected l → seq h <= N → may_retry s →
  wpo F (ra_event clock l (AckMsg ack_datagram_len h)) (λ o st s', o = [] ∧
    live_srv P A (after_event st) s' ∧ th_rwnd (th s') = rwnd h ∧ seq_num s' = seq_num s ∧
    (rtt_nrexmt (rttinfo (th s')) = rtt_nrexmt (rttinfo (th s)) ∨
     st = Returned ∧ cwnd (th s') = 1)) s.
Proof.
  intros (Hg & Hw & Hp) HA Hh HN Hm. pose proof Hw as [Hi He Hpr].
  pose proof (proj1 (Forall_forall _ _) (g_astamps _ _ _ Hg) h HA) as [Hst Hr]. cbn in Hst, Hr.
  unfold INT_MAX in words_int. cbn [ra_event]. wpo_step. wpo_step. cbv beta. wpo_step. wpo_step. cbv beta.
  wpo_step.
  { exfalso. apply andb_prop in Hb as [Hb1%Z.ltb_lt Hb2%negb_true_iff%Z.eqb_neq]. cbn in Hb1, Hb2.
    destruct (si_last _ _ _ Hi) as [[??]|E]; [done|]. rewrite E, u32_small in Hb1; [lia|unfold is_u32; lia]. }
  wpo_step. wpo_step. cbv beta zeta. clear Hb.
  set (s1 := upd_th (set_th_rwnd (rwnd h)) (upd_th _ s)).
  assert (good P A s1) as Hg1.
  { apply (good_frame P A s); cbn; try done; try apply Hg.
    apply (sender_inv_frame words _ s); [done|done..|by left]. }
  set (l' := if _ =? _ then _ else _).
  assert (ra_expected l' = ra_expected l) as El
    by (unfold l'; by destruct (u32 (prev_seq_num l) =? seq h)).
  assert (prev_seq_num l' = seq h) as Ep.
  { unfold l'. destruct (Z.eqb_spec (u32 (prev_seq_num l)) (seq h)) as [E|E]; cbn.
    - destruct Hpr as [Hpr|[Hpr _]]; [rewrite Hpr in E; change (u32 (-1)) with (2 ^ 32 - 1) in E; lia|].
      rewrite u32_small in E by (unfold is_u32; lia). done.
    - apply i32_small. unfold is_i32. lia. }
  pose proof (si_seq _ _ _ Hi) as Hs.
  rewrite (u32_small (ra_expected l')) by (unfold is_u32; lia).
  change (ack_datagram_len <? Z.of_nat sizeof_udp_data) with false. cbn [orb]. rewrite El.
  destruct (Z.eqb_spec (seq h) (ra_expected l)) as [E|E]; cbn [negb].
  { eapply wpo_mono; [by apply ra_finish_good|]. cbv beta.
    intros o st s' (-> & -> & Hl & Hn & Er & Es). split_and!; try done. by left. }
  assert (waiting_inv words (isEOF (th s1)) l' s1) as Hw1.
  { split; [apply Hg1|cbn; lia|]. right. rewrite Ep. cbn.
    destruct (si_last _ _ _ Hi) as [[??]|?]; lia. }
  assert (resume l' s1 = seq h) as Eres.
  { unfold resume. rewrite Ep. destruct (Z.eqb_spec (seq h) (-1)); [lia|done]. }
  assert (pending A (resume l' s1) s1) as Hp1.
  { rewrite Eres. intros _. split; [cbn; lia|]. by exists h. }
  unfold ra_loop_top. wpo_step.
  - wpo_step. eapply wpo_mono; [by apply give_up_good|]. cbv beta.
    intros o _ s' (-> & Hl & Elu & Ec & Er & Es). wpo_step. split_and!; try done. by right.
  - wpo_step. split_and!; try done. by left.
Qed.
End events.
End live.
