(* ===== verification/Hw2Recover.v ===== *)
(** * A transfer can always be brought to its end (hw2/client.c with hw2/server.c)

    From every state the system can get into while the client is receiving and
    the server has not used up its retransmissions, there is a continuation after
    which both programs have ended and the client has printed the whole file:
    losses, repetitions, closed windows and going back never leave the two
    programs stuck. *)

From S2P Require Import Prelude.
From S2P Require Import CMem.
From S2P Require Import CFloat.
From S2P Require Import CRound.
From S2P Require Import Rtt.
From S2P Require Import UdpMsg.
From S2P Require Import Hw2Client.
From S2P Require Import Hw2Ring.
From S2P Require Import Hw2Receiver.
From S2P Require Import Hw2Server.
From S2P Require Import Hw2Sender.
From S2P Require Import Hw2System.
From S2P Require Import Hw2Congestion.
From S2P Require Import Hw2Complete.
From S2P Require Import Hw2Live.

Lemma reachable_trans words clock policy x y z :
  reachable words clock policy x y → reachable words clock policy y z →
  reachable words clock policy x z.
Proof. intros Hxy. induction 1 as [|y' z _ IH Hs]; [done|by eapply reach_step]. Qed.

(** The client never takes up receiving again. *)
Lemma step_receiving words clock policy x y :
  step words clock policy x y → cli_at y = Receiving → cli_at x = Receiving.
Proof. by destruct 1 as [| | |? ? ? ? [] ? ? H| |]; cbn. Qed.

(** The client only ever accepts the number it expects. *)
Lemma accept_msg_grows n m q :
  let q' := accept_msg n m q in
  q' = q ∨ length (RecvQueue.accepted q') = S (length (RecvQueue.accepted q)) ∧
    offers m (Z.of_nat (length (RecvQueue.accepted q))).
Proof.
  unfold accept_msg, offers. destruct (offer m) as [d|]; [|by left]. unfold RecvQueue.accept.
  case_decide as Hd; [right|by left]. destruct Hd as [Hd _]. cbn. rewrite length_app. cbn.
  split; [lia|]. split; [lia|by eexists].
Qed.

Section recover.
Context (words : list bytes) (clock : nat → timeval) (origin : Z) (cfg : client_config) (r0 : Z).
Abbreviation N := (Z.of_nat (length words)).
Abbreviation T := (transcript words).
Abbreviation steps := (reachable words clock no_stale_ack).
Abbreviation expects x := (expected_seq_num (cli x)).

Hypothesis words_int : N + 2 <= INT_MAX.
Hypothesis words_short : Forall (λ w, Z.of_nat (length w) < MAXLINE) words.
Hypothesis clock_window : clock_ok clock origin.
Hypothesis kept : drop_packet (cfg_probability cfg) (cfg_seed cfg) r0 = Some false.

(** ** The invariant *)

Record client_ok (x : sys) : Prop := {
  co_at : cli_at x = Receiving;
  co_mutex : mutex_held (cli x) = false;
  co_eof : is_EOF (cli x) ≠ 1;
  co_cfg : cli_config (cli x) = cfg;
  co_expects : expects x <= N;
  co_offered : 0 < expects x → ∃ m, m ∈ packets x ∧ offers m (expects x - 1)
}.

Record live (x : sys) : Prop := {
  lv_sys : sys_inv words x;
  lv_cli : client_ok x;
  lv_srv : live_srv words origin (packets x) (acks x) (srv_at x) (srv x)
}.

(** Before the first burst. *)
Record starting (x : sys) : Prop := {
  sg_sys : sys_inv words x;
  sg_cli : client_ok x;
  sg_at : srv_at x = AtBurst;
  sg_packets : packets x = [];
  sg_acks : acks x = [];
  sg_srv : starting_srv words origin (srv x)
}.

Lemma client_ok_frame x y :
  client_ok x → cli y = cli x → cli_at y = cli_at x → (∃ o, packets y = packets x ++ o) → client_ok y.
Proof.
  intros [Ha Hm He Hc Hx Ho] E1 E2 [o E3]. split; rewrite ?E1, ?E2; try done.
  intros H. destruct (Ho H) as (m & ? & ?). exists m. rewrite E3. set_solver.
Qed.

(** An acknowledgement names a number the client has come to. *)
Lemma ack_range x h : sys_inv words x → client_ok x → h ∈ acks x → 0 <= seq h <= N.
Proof.
  intros [_ _ (q & Hc & _ & Hak & _)] Hk Hh. rewrite Forall_forall in Hak.
  specialize (Hak h Hh). cbn in Hak. pose proof (cr_expected _ _ Hc). pose proof (co_expects _ Hk). lia.
Qed.

(** The client's side of a turn of the receive loop. *)
Lemma receive_client_ok x m rand2 j c' o :
  sys_inv words x → client_ok x → m ∈ packets x →
  receive_turn rand2 j m (cli x) = (o, Ret false c') →
  client_ok (mk_sys (srv x) (srv_at x) c' Receiving (packets x) (acks x ++ sent_acks o) (shown x)) ∧
  Forall (λ h, ts h = ts (m_config m) ∧ 0 <= rwnd h <= INT_MAX) (sent_acks o).
Proof.
  intros Hi Hk Hm Hr.
  destruct (receive_turn_dropped _ _ _ _ _ _ _ Hr) as [Hd|(-> & _ & ->)].
  2: { split; [|constructor]. apply (client_ok_frame x); try done; [by rewrite (co_at _ Hk)|].
       exists []. symmetry. apply app_nil_r. }
  destruct Hi as [_ Hp (q & Hc & Hpre & _)].
  pose proof (proj1 (Forall_forall _ _) Hp m Hm) as Hok. destruct Hk as [Ha Hmx He Hcf Hx Ho].
  pose proof (cr_expected _ _ Hc) as Eq. pose proof (cr_int _ _ Hc) as Hint.
  destruct (receive_turn_refines (cli x) q m rand2 j) as (c2 & Hr' & Hc2 & Hm2 & Hf2 & He2 & Hl2);
    [done|intros; by apply (pkt_ok_offer words words_int)|unfold INT_MAX in *; lia|done|].
  rewrite Hr in Hr'. injection Hr' as -> Hends ->. rewrite <- Hends in Hm2.
  pose proof (accept_msg_grows (length (text_buffer (cli x))) m q) as Hg. cbv zeta in Hg.
  set (q' := accept_msg (length (text_buffer (cli x))) m q) in *.
  pose proof (cr_expected _ _ Hc2) as Eq2.
  split.
  - split; cbn [cli cli_at packets]; try congruence.
    + destruct Hg as [Hg|[Hg [Hs Hof]]]; [rewrite Eq2, Hg; lia|].
      rewrite Eq2, Hg. enough (Z.of_nat (length (RecvQueue.accepted q)) ≠ N) by lia. intros E.
      destruct Hok as [Hd1 _]. unfold ends_transfer, offer in *.
      destruct (Z.eqb_spec (type (m_config m)) data) as [Et|Et].
      * destruct (Hd1 Et) as [_ Hw]. apply lookup_lt_Some in Hw. lia.
      * destruct (type (m_config m) =? ping); [by destruct Hof|].
        destruct (type (m_config m) =? eof); [|by destruct Hof]. cbn [andb] in Hends.
        symmetry in Hends. apply Z.eqb_neq in Hends. lia.
    + intros Hpos. destruct Hg as [Hg|[Hg Hof]].
      * rewrite Eq2, Hg, <- Eq in *. by apply Ho.
      * exists m. split; [done|]. rewrite Eq2, Hg. by replace (_ - 1) with (Z.of_nat (length (RecvQueue.accepted q))) by lia.
  - cbn. repeat constructor; cbn; [lia|]. pose proof (cr_rwnd _ _ Hc).
    unfold RecvQueue.window. lia.
Qed.

Lemma read_client_ok x brk c' o :
  sys_inv words x → client_ok x → reader_turn (cli x) = (o, Ret brk c') →
  client_ok (mk_sys (srv x) (srv_at x) c' Receiving (packets x) (acks x) (shown x ++ o)).
Proof.
  intros [_ _ (q & Hc & _)] [Ha Hm He Hcf Hx Ho] Hr.
  destruct (reader_turn_refines (cli x) q Hc) as (c2 & Hr' & Hc2 & Hm2 & Hf2 & He2 & _).
  rewrite Hr in Hr'. injection Hr' as -> -> ->.
  assert (expected_seq_num c2 = expects x) as E by (by rewrite (cr_expected _ _ Hc2), (cr_expected _ _ Hc)).
  split; cbn [cli cli_at packets]; rewrite ?E; try done; try congruence.
  rewrite Hm2. by apply Z.eqb_neq.
Qed.

Lemma live_step x y :
  live x → step words clock no_stale_ack x y → cli_at y = Receiving → live y.
Proof.
  intros [Hi Hk Hs] Hst Hy. pose proof (inv_step words clock words_int x y Hi Hst) as Hi'.
  split; [done|..]; clear Hi'.
  - destruct Hst as [x st s' o Hat Hb|x l h st s' o Hat Hh Hpol Hb|x l st s' o Hat Hb
                    |x m rand2 j brk c' o Hat _ Hm Hr|x brk c' o _ Hr|x c' o Hat Hr]; cbn in Hy.
    1-3: by apply (client_ok_frame x); [done..|by exists o].
    + destruct brk; [done|]. by eapply receive_client_ok.
    + rewrite Hy. by eapply read_client_ok.
    + done.
  - destruct Hst as [x st s' o Hat Hb|x l h st s' o Hat Hh Hpol Hb|x l st s' o Hat Hb
                    |x m rand2 j brk c' o Hat _ Hm Hr|x brk c' o _ Hr|x c' o Hat Hr]; cbn in *; try done;
      try rewrite Hat in Hs.
    + by apply (wpo_returns _ _ _ _ _ _ _ (burst_good words clock origin words_int words_short clock_window _ _ _ Hs) Hb).
    + pose proof (ack_range _ _ Hi Hk Hh) as Hr.
      destruct (wpo_returns _ _ _ _ _ _ _ (ack_good words clock origin words_int clock_window True _ _ _ _ _
        Hs Hh (conj (proj1 Hr) Hpol) (proj2 Hr) (or_introl I)) Hb) as (-> & Hl & _).
      by rewrite app_nil_r.
    + destruct (wpo_returns _ _ _ _ _ _ _ (alarm_good words clock origin True _ _ _ _ Hs (or_introl I)) Hb)
        as (-> & -> & Hl & _).
      by rewrite app_nil_r.
    + destruct brk; [done|]. destruct (receive_client_ok _ _ _ _ _ _ Hi Hk Hm Hr) as [_ Ha].
      apply (live_srv_acks words clock origin words_int words_short clock_window); [done|]. eapply Forall_impl; [exact Ha|]. cbv beta. intros h [-> ?].
      split; [|done]. apply (proj1 (Forall_forall _ _) (g_pstamps _ _ _ _ _ (proj1 Hs)) m Hm).
Qed.

Lemma starting_step x y :
  starting x → step words clock no_stale_ack x y → cli_at y = Receiving → starting y ∨ live y.
Proof.
  intros [Hi Hk Ha Hp Hq Hs] Hst Hy. pose proof (inv_step words clock words_int x y Hi Hst) as Hi'.
  destruct Hst as [x st s' o Hat Hb|x l h st s' o Hat Hh Hpol Hb|x l st s' o Hat Hb
                  |x m rand2 j brk c' o Hat _ Hm Hr|x brk c' o _ Hr|x c' o Hat Hr]; cbn in Hy;
    try congruence.
  - right. split; [done|by apply (client_ok_frame x); [done..|by exists o]|]. cbn. rewrite Hp, Hq. cbn.
    by apply (proj2 (wpo_returns _ _ _ _ _ _ _ (first_burst_good words clock origin words_int words_short clock_window _ Hs) Hb)).
  - rewrite Hp in Hm. by apply not_elem_of_nil in Hm.
  - left. rewrite Hy in *. split; try done. by eapply read_client_ok.
Qed.

Lemma reachable_live x0 x :
  starting x0 → steps x0 x → cli_at x = Receiving → starting x ∨ live x.
Proof.
  intros H0. induction 1 as [|x y _ IH Hst]; intros Hx; [by left|].
  destruct IH as [IH|IH]; [by eapply step_receiving|by eapply starting_step|].
  right. by eapply live_step.
Qed.

(** ** Moves of the server *)

Abbreviation sent x := (seq_num (srv x)).
Abbreviation window x := (th_rwnd (th (srv x))).
Abbreviation retries x := (rtt_nrexmt (rttinfo (th (srv x)))).

Lemma live_move x y :
  live x → step words clock no_stale_ack x y → cli_at y = cli_at x → steps x y ∧ live y.
Proof.
  intros Hx Hs Hc. split; [by eapply reach_step; [constructor|]|].
  eapply live_step; [done|done|]. rewrite Hc. apply Hx.
Qed.

Lemma do_burst x :
  live x → srv_at x = AtBurst →
  ∃ y, steps x y ∧ live y ∧ srv_at y = AtReceiveAck (mk_ra (sent y + 1) (-1) 0) ∧
    window y = window x ∧ retries y <= retries x ∧
    (cwnd (th (srv x)) = 1 → 0 < window x → retries y = 0 ∧
       last_unacked_seq (th (srv y)) = -1 ∧ sent y = Z.min (next_num (srv x)) N).
Proof.
  intros Hx Hat. pose proof (lv_srv _ Hx) as Hs. rewrite Hat in Hs.
  destruct (wpo_total _ _ _ _ (λ x, x) (burst_good words clock origin words_int words_short clock_window
    _ _ _ Hs)) as (o & st & s' & Eb & -> & _ & H).
  pose proof (step_burst words clock no_stale_ack x _ _ _ Hat Eb) as Hst.
  destruct (live_move _ _ Hx Hst) as [? ?]; [done|]. by eexists.
Qed.

Lemma do_alarm x l :
  live x → srv_at x = AtReceiveAck l → retries x < RTT_MAXNREXMT →
  ∃ y, steps x y ∧ live y ∧ srv_at y = AtBurst ∧
    last_unacked_seq (th (srv y)) = resume l (srv x) ∧ cwnd (th (srv y)) = 1 ∧
    window y = window x ∧ sent y = sent x.
Proof.
  intros Hx Hat Hn. pose proof (lv_srv _ Hx) as Hs. rewrite Hat in Hs.
  destruct (wpo_total _ _ _ _ (λ x, x) (alarm_good words clock origin False _ _ _ _ Hs (or_intror Hn)))
    as (o & st & s' & Eb & -> & -> & _ & H).
  pose proof (step_alarm words clock no_stale_ack x l _ _ _ Hat Eb) as Hst.
  destruct (live_move _ _ Hx Hst) as [? ?]; [done|]. by eexists.
Qed.

Lemma do_ack x l h :
  live x → srv_at x = AtReceiveAck l → h ∈ acks x → seq h <= sent x + 1 → retries x < RTT_MAXNREXMT →
  ∃ y, steps x y ∧ live y ∧ window y = rwnd h ∧
    ((∃ l', srv_at y = AtReceiveAck l') ∧ retries y = retries x ∨
     srv_at y = AtBurst ∧ (retries y = retries x ∨ cwnd (th (srv y)) = 1)).
Proof.
  intros Hx Hat Hh Hle Hn. pose proof (lv_srv _ Hx) as Hs. rewrite Hat in Hs.
  pose proof (ack_range _ _ (lv_sys _ Hx) (lv_cli _ Hx) Hh) as Hr.
  assert (seq h <= ra_expected l) as Hp by (rewrite (wi_expected _ _ _ _ (proj1 (proj2 Hs))); lia).
  destruct (wpo_total _ _ _ _ (λ x, x) (ack_good words clock origin words_int clock_window False _ _ _ _ _
    Hs Hh (conj (proj1 Hr) Hp) (proj2 Hr) (or_intror Hn))) as (o & st & s' & Eb & -> & _ & Hw & _ & H).
  pose proof (step_ack words clock no_stale_ack x l h _ _ _ Hat Hh Hp Eb) as Hst.
  destruct (live_move _ _ Hx Hst) as [? ?]; [done|]. eexists. split_and!; [done..|]. cbn.
  destruct st as [l'|]; cbn; [left|right].
  - split; [by eexists|]. by destruct H as [?|[? _]].
  - split; [done|]. destruct H as [?|[_ ?]]; [by left|by right].
Qed.

(** ** Walking through the file

    With an open window the server gets from time-out to time-out through the
    whole file. *)

Record walking (x : sys) : Prop := {
  wk_live : live x;
  wk_at : srv_at x = AtReceiveAck (mk_ra (sent x + 1) (-1) 0);
  wk_unacked : last_unacked_seq (th (srv x)) = -1;
  wk_window : 0 < window x;
  wk_retries : retries x = 0
}.

Lemma walk_from_burst x :
  live x → srv_at x = AtBurst → cwnd (th (srv x)) = 1 → 0 < window x →
  ∃ y, steps x y ∧ walking y ∧ sent y = Z.min (next_num (srv x)) N.
Proof.
  intros Hx Hat Hc Hw. destruct (do_burst x Hx Hat) as (y & Hxy & Hy & Haty & Ew & _ & H).
  destruct (H Hc Hw) as (Hn & Hu & Hs). exists y. split; [done|]. split; [|done]. split; try done. lia.
Qed.

Lemma walk_from_wait x l :
  live x → srv_at x = AtReceiveAck l → 0 < window x → retries x < RTT_MAXNREXMT →
  ∃ y, steps x y ∧ walking y ∧ (resume l (srv x) = -1 → sent y = Z.min (sent x + 1) N).
Proof.
  intros Hx Hat Hw Hn. destruct (do_alarm x l Hx Hat Hn) as (y & Hxy & Hy & Haty & Hu & Hc & Ew & Es).
  destruct (walk_from_burst y Hy Haty Hc ltac:(lia)) as (z & Hyz & Hz & Esz). exists z.
  split; [by eapply reachable_trans|]. split; [done|]. intros E. rewrite Esz. unfold next_num.
  rewrite Hu, E. cbn. by rewrite Es.
Qed.

Lemma sent_range x : live x → 0 <= sent x <= N.
Proof.
  intros Hx. destruct (lv_srv _ Hx) as [Hg _]. split; [apply Hg|]. apply (si_seq _ _ _ (g_inv _ _ _ _ _ Hg)).
Qed.

Lemma walk_to_end x : walking x → ∃ y, steps x y ∧ walking y ∧ sent y = N.
Proof.
  intros Hx. remember (Z.to_nat (N - sent x)) as k eqn:Ek. revert x Hx Ek.
  induction k as [|k IH]; intros x Hx Ek; pose proof (sent_range _ (wk_live _ Hx)) as Hr.
  { exists x. split_and!; [constructor|done|lia]. }
  destruct (walk_from_wait x _ (wk_live _ Hx) (wk_at _ Hx) (wk_window _ Hx)) as (y & Hxy & Hy & Es).
  { rewrite (wk_retries _ Hx). by vm_compute. }
  rewrite Z.min_l in Es by lia. specialize (Es (wk_unacked _ Hx)).
  destruct (IH y Hy ltac:(lia)) as (z & Hyz & Hz & Ez). exists z.
  split_and!; [by eapply reachable_trans|done|done].
Qed.

(** ** Moves of the client *)

Abbreviation queue := RecvQueue.mk.

(** The queue the client's ring stands for, and what has been printed of it. *)
Record sees (x : sys) (q : RecvQueue.t) : Prop := {
  se_repr : client_repr (cli x) q;
  se_prefix : RecvQueue.accepted q `prefix_of` T;
  se_shown : shown x = file_lines 0 (take (RecvQueue.printed q) (RecvQueue.accepted q))
}.

(** The server, and what has been sent to the client, are as before. *)
Definition same_server (x y : sys) : Prop :=
  srv y = srv x ∧ srv_at y = srv_at x ∧ packets y = packets x.

Lemma same_server_trans x y z : same_server x y → same_server y z → same_server x z.
Proof. unfold same_server. intuition congruence. Qed.

Lemma do_read x q :
  live x → sees x q →
  ∃ y, steps x y ∧ live y ∧ same_server x y ∧ acks y = acks x ∧
    sees y (print_pass (length (text_buffer (cli x))) q) ∧
    length (text_buffer (cli y)) = length (text_buffer (cli x)).
Proof.
  intros Hx [Hc Hp Hsh]. destruct (reader_turn_refines (cli x) q Hc) as (c' & Er & Hc' & _ & _ & _ & Hl).
  pose proof (step_read words clock no_stale_ack x _ _ _ (co_mutex _ (lv_cli _ Hx)) Er) as Hst.
  destruct (live_move _ _ Hx Hst) as [? ?]; [done|]. eexists. split_and!; [done..| |done].
  split; cbn; [done|done|]. rewrite Hsh. apply (take_printed_between q).
  pose proof (repr_lo _ _ _ (cr_ring _ _ Hc)). cbn. lia.
Qed.

(** Two passes print everything that is pending. *)
Lemma two_passes n q :
  (0 < n)%nat → (RecvQueue.printed q <= length (RecvQueue.accepted q) <= RecvQueue.printed q + n)%nat →
  print_pass n (print_pass n q) = queue (RecvQueue.accepted q) (length (RecvQueue.accepted q)).
Proof.
  intros Hn Hq. unfold print_pass. cbn. f_equal.
  set (lo := RecvQueue.printed q) in *. set (a := length (RecvQueue.accepted q)) in *.
  pose proof (Nat.mod_upper_bound lo n ltac:(lia)).
  destruct (Nat.le_gt_cases a (lo + (n - lo mod n))) as [Hle|Hgt]; [rewrite (Nat.min_l a (lo + (n - lo mod n))) by lia; lia|].
  rewrite (Nat.min_r a (lo + (n - lo mod n))) by lia.
  assert ((lo + (n - lo mod n)) mod n = 0)%nat as ->.
  { pose proof (Nat.div_mod_eq lo n).
    replace (lo + (n - lo mod n))%nat with (S (lo / n) * n)%nat by nia. apply Nat.Div0.mod_mul. }
  lia.
Qed.

(** Everything accepted is printed. *)
Definition drained (x : sys) : Prop :=
  let a := Z.to_nat (expects x) in
  sees x (queue (take a T) a) ∧ 0 <= expects x.

Lemma do_drain x :
  live x → ∃ y, steps x y ∧ live y ∧ same_server x y ∧ acks y = acks x ∧ expects y = expects x ∧ drained y.
Proof.
  intros Hx. destruct (lv_sys _ Hx) as [_ _ (q & Hc & Hp & _ & Hsh & _)].
  destruct (do_read x q Hx) as (y & Hxy & Hy & Sy & Ay & Qy & Ly); [by split|].
  destruct (do_read y _ Hy Qy) as (z & Hyz & Hz & Sz & Az & Qz & _). rewrite Ly in Qz.
  pose proof (cr_ring _ _ Hc) as R.
  rewrite two_passes in Qz by (apply (repr_pos _ _ _ R) || (pose proof (repr_lo _ _ _ R); lia)).
  pose proof (cr_expected _ _ Hc) as E. pose proof (cr_expected _ _ (se_repr _ _ Qz)) as Ez. cbn in Ez.
  exists z. split_and!; [by eapply reachable_trans|done|by eapply same_server_trans|congruence|congruence|].
  unfold drained. rewrite Ez, Nat2Z.id. split; [|lia]. destruct Hp as [r Hp].
  rewrite Hp, take_app_length. done.
Qed.

Lemma do_receive x q m :
  live x → sees x q → m ∈ packets x →
  let n := length (text_buffer (cli x)) in
  let q' := accept_msg n m q in
  ends_transfer m q' = false →
  ∃ y, steps x y ∧ live y ∧ same_server x y ∧ sees y q' ∧
    acks y = acks x ++ [ack_of n 0 (ts (m_config m)) q'].
Proof.
  intros Hx [Hc Hp Hsh] Hm n q' He. destruct (lv_cli _ Hx) as [Ha Hmx _ Hcf Hle _].
  destruct (lv_sys _ Hx) as [_ Hpk _]. pose proof (proj1 (Forall_forall _ _) Hpk m Hm) as Hok.
  pose proof (cr_expected _ _ Hc) as Eq.
  destruct (receive_turn_refines (cli x) q m r0 0) as (c' & Er & Hc' & _);
    [done|intros; by apply (pkt_ok_offer words words_int)|unfold INT_MAX in *; lia|by rewrite Hcf|].
  fold n in Er, Hc'. fold q' in Er, Hc'. rewrite He in Er.
  pose proof (step_receive words clock no_stale_ack x m r0 0 _ _ _ Ha Hmx Hm Er) as Hst. cbn in Hst.
  destruct (live_move _ _ Hx Hst) as [? ?]; [done|]. eexists. split_and!; [done..| |done].
  split; cbn; [done|by apply accept_msg_prefix|]. rewrite Hsh.
  pose proof (repr_lo _ _ _ (cr_ring _ _ Hc)) as Hlo.
  unfold q', accept_msg. destruct (offer m); [|done]. unfold RecvQueue.accept.
  case_decide; [|done]. cbn. by rewrite take_app_le by lia.
Qed.

(** A packet before the last one does not end the transfer. *)
Lemma not_last x m k q :
  live x → m ∈ packets x → offers m k → k < N → ends_transfer m q = false.
Proof.
  intros Hx Hm [Hs _] Hk. destruct (lv_sys _ Hx) as [_ Hpk _].
  destruct (proj1 (Forall_forall _ _) Hpk m Hm) as [_ He]. unfold ends_transfer.
  destruct (Z.eqb_spec (type (m_config m)) eof) as [E|_]; [|done]. specialize (He E). lia.
Qed.

(** The packet the client expects is accepted once it has printed the rest. *)
Lemma take_one x m :
  live x → m ∈ packets x → offers m (expects x) → expects x < N →
  ∃ y, steps x y ∧ live y ∧ same_server x y ∧ expects y = expects x + 1.
Proof.
  intros Hx Hm Hof Hlt.
  destruct (do_drain x Hx) as (y & Hxy & Hy & Sy & _ & Ey & [Qy H0]).
  pose proof Sy as (_ & _ & Epk). rewrite <- Ey, <- Epk in *.
  destruct (do_receive y _ m Hy Qy Hm) as (z & Hyz & Hz & Sz & Qz & _); [by eapply not_last|].
  exists z. split_and!; [by eapply reachable_trans|done|by eapply same_server_trans|].
  rewrite (cr_expected _ _ (se_repr _ _ Qz)).
  pose proof (repr_pos _ _ _ (cr_ring _ _ (se_repr _ _ Qy))) as Hn.
  pose proof (cr_expected _ _ (se_repr _ _ Qy)) as Eq. cbn [RecvQueue.accepted] in *.
  destruct Hof as [Es [d Ho]]. unfold accept_msg. rewrite Ho. unfold RecvQueue.accept, RecvQueue.window.
  cbn [RecvQueue.accepted RecvQueue.printed].
  rewrite decide_True by lia. cbn. rewrite length_app. cbn. lia.
Qed.

(** A packet the client does not expect makes it report its whole window. *)
Lemma window_ack x m k :
  live x → m ∈ packets x → offers m k → k < N → expects x ≠ k →
  ∃ y h, steps x y ∧ live y ∧ same_server x y ∧ h ∈ acks y ∧ seq h = expects x ∧ 0 < rwnd h.
Proof.
  intros Hx Hm Hof Hlt Hne.
  destruct (do_drain x Hx) as (y & Hxy & Hy & Sy & _ & Ey & [Qy H0]).
  pose proof Sy as (_ & _ & Epk). rewrite <- Ey, <- Epk in *.
  destruct (do_receive y _ m Hy Qy Hm) as (z & Hyz & Hz & Sz & Qz & Ez); [by eapply not_last|].
  pose proof (repr_pos _ _ _ (cr_ring _ _ (se_repr _ _ Qy))) as Hn.
  pose proof (cr_expected _ _ (se_repr _ _ Qy)) as Eq. cbn [RecvQueue.accepted] in *.
  destruct (accept_msg_grows (length (text_buffer (cli y))) m
    (queue (take (Z.to_nat (expects y)) T) (Z.to_nat (expects y)))) as [E|[_ [E _]]].
  2: { destruct Hof as [E2 _]. cbn [RecvQueue.accepted] in E. lia. }
  rewrite E in Ez. eexists z, _.
  split_and!; [by eapply reachable_trans|done|by eapply same_server_trans
    |rewrite Ez; apply elem_of_app; right; by apply list_elem_of_singleton|..].
  - cbn. lia.
  - cbn. unfold RecvQueue.window. cbn. lia.
Qed.

(** ** Opening the window *)

Lemma open_window x l :
  live x → srv_at x = AtReceiveAck l → sent x < N →
  ∃ y h, steps x y ∧ live y ∧ same_server x y ∧ h ∈ acks y ∧ seq h <= sent x + 1 ∧ 0 < rwnd h.
Proof.
  intros Hx Hat Hlt. pose proof (sent_range _ Hx) as Hr. pose proof (lv_cli _ Hx) as Hk.
  destruct (lv_srv _ Hx) as [Hg _]. destruct (g_top _ _ _ _ _ Hg) as (m & Hm & Hof).
  destruct (Z.lt_trichotomy (expects x) (sent x)) as [H|[H|H]].
  - destruct (window_ack x m _ Hx Hm Hof Hlt ltac:(lia)) as (y & h & ? & ? & ? & ? & ? & ?).
    exists y, h. split_and!; try done. lia.
  - rewrite <- H in Hof, Hlt. destruct (take_one x m Hx Hm Hof Hlt) as (y & Hxy & Hy & Sy & Ey).
    destruct (window_ack y m (expects x) Hy) as (z & h & Hyz & Hz & Sz & Hh & Eh & Hw);
      [by rewrite (proj2 (proj2 Sy))|done|done|lia|].
    exists z, h. split_and!; [by eapply reachable_trans|done|by eapply same_server_trans|done|lia|done].
  - destruct (decide (expects x = sent x + 1)) as [E|Hne].
    + destruct (window_ack x m _ Hx Hm Hof Hlt ltac:(lia)) as (y & h & ? & ? & ? & ? & ? & ?).
      exists y, h. split_and!; try done. lia.
    + destruct (co_offered _ Hk ltac:(lia)) as (m' & Hm' & Hof').
      destruct (g_back _ _ _ _ _ Hg) as [Hb|(h & Hh & Hw & Hs)].
      * specialize (Hb m' _ Hm' Hof'). lia.
      * exists x, h. split_and!; [constructor|done|by split_and!|done|done|done].
Qed.

(** The server can be brought to its last packet. *)
Definition can_reach_last (x : sys) : Prop :=
  ∃ y l, steps x y ∧ live y ∧ srv_at y = AtReceiveAck l ∧ sent y = N.

Lemma can_reach_last_before x y : steps x y → can_reach_last y → can_reach_last x.
Proof. intros Hxy (z & l & Hyz & H). exists z, l. split; [by eapply reachable_trans|done]. Qed.

Lemma reach_last_walking x : walking x → can_reach_last x.
Proof. intros Hx. destruct (walk_to_end x Hx) as (y & Hxy & [Hy Hat _ _ _] & Es). by eexists y, _. Qed.

Lemma reach_last_open x l :
  live x → srv_at x = AtReceiveAck l → 0 < window x → retries x < RTT_MAXNREXMT → can_reach_last x.
Proof.
  intros Hx Hat Hw Hn. destruct (walk_from_wait x l Hx Hat Hw Hn) as (y & Hxy & Hy & _).
  by apply (can_reach_last_before x y); [|apply reach_last_walking].
Qed.

Lemma reach_last_wait x l :
  live x → srv_at x = AtReceiveAck l → retries x < RTT_MAXNREXMT → can_reach_last x.
Proof.
  intros Hx Hat Hn. pose proof (sent_range _ Hx) as Hr.
  destruct (decide (sent x = N)) as [E|Hne]; [by exists x, l; split; [constructor|]|].
  destruct (decide (0 < window x)) as [Hw|Hw]; [by eapply reach_last_open|].
  destruct (open_window x l Hx Hat ltac:(lia)) as (y & h & Hxy & Hy & (Es & Eat & _) & Hh & Hle & Hpos).
  rewrite <- Es in *. rewrite Hat in Eat. apply (can_reach_last_before _ _ Hxy).
  destruct (do_ack y l h Hy Eat Hh Hle Hn) as (z & Hyz & Hz & Ew & Hcase).
  apply (can_reach_last_before _ _ Hyz). destruct Hcase as [[[l' Hatz] Hnz]|[Hatz [Hnz|Hc]]].
  - apply (reach_last_open z l'); [done|done|lia|lia].
  - destruct (do_burst z Hz Hatz) as (u & Hzu & Hu & Hatu & Ewu & Hnu & _).
    apply (can_reach_last_before _ _ Hzu). apply (reach_last_open u _ Hu Hatu); lia.
  - destruct (walk_from_burst z Hz Hatz Hc ltac:(lia)) as (u & Hzu & Hu & _).
    by apply (can_reach_last_before _ _ Hzu), reach_last_walking.
Qed.

Lemma reach_last x : live x → retries x < RTT_MAXNREXMT → can_reach_last x.
Proof.
  intros Hx Hn. destruct (srv_at x) as [|l|] eqn:Hat; [|by eapply reach_last_wait|].
  - destruct (do_burst x Hx Hat) as (y & Hxy & Hy & Haty & _ & ? & _).
    apply (can_reach_last_before _ _ Hxy). apply (reach_last_wait y _ Hy Haty). lia.
  - pose proof (lv_srv _ Hx) as [_ Hs]. by rewrite Hat in Hs.
Qed.

(** ** The end *)

(** The client can take every packet before the last one. *)
Lemma take_all x :
  live x → sent x = N → ∃ y, steps x y ∧ live y ∧ same_server x y ∧ expects y = N ∧ drained y.
Proof.
  intros Hx Hs. remember (Z.to_nat (N - expects x)) as k eqn:Ek. revert x Hx Hs Ek.
  induction k as [|k IH]; intros x Hx Hs Ek; pose proof (co_expects _ (lv_cli _ Hx)) as Hle.
  { destruct (do_drain x Hx) as (y & ? & ? & ? & _ & ? & ?). exists y. split_and!; try done. lia. }
  destruct (lv_srv _ Hx) as [Hg _]. destruct (g_top _ _ _ _ _ Hg) as (m & Hm & Hof).
  destruct (lv_sys _ Hx) as [_ _ (q & Hc & _)]. pose proof (cr_expected _ _ Hc) as Eq.
  destruct (g_cover _ _ _ _ _ Hg m _ (expects x) Hm Hof) as (m' & Hm' & Hof'); [lia|].
  destruct (take_one x m' Hx Hm' Hof') as (y & Hxy & Hy & Sy & Ey); [lia|].
  destruct (IH y Hy) as (z & Hyz & Hz & Sz & Ez & Dz); [by rewrite (proj1 Sy)|lia|].
  exists z. split_and!; [by eapply reachable_trans|done|by eapply same_server_trans|done|done].
Qed.

(** The packet with the number of words is the end-of-file packet. *)
Lemma last_packet m : pkt_ok words m → offers m N → silent_pkt words (length words) m.
Proof.
  intros [Hd _] [Hs Ho]. split; [rewrite Hs; lia|]. rewrite decide_False by lia. unfold offer in Ho.
  destruct (Z.eqb_spec (type (m_config m)) data) as [E|_].
  { destruct (Hd E) as [_ Hw]. apply lookup_lt_Some in Hw. lia. }
  destruct (type (m_config m) =? ping); [by destruct Ho|].
  by destruct (Z.eqb_spec (type (m_config m)) eof) as [|]; [|destruct Ho].
Qed.

Definition finished (x : sys) : Prop :=
  srv_at x = AtEnd ∧ cli_at x = Gone ∧ shown x = file_lines 0 T.

(** The end-of-file packet, its acknowledgement, the last burst, the last print. *)
Lemma last_exchange x l :
  live x → srv_at x = AtReceiveAck l → sent x = N → expects x = N → drained x →
  ∃ y, steps x y ∧ finished y.
Proof.
  intros Hx Hat Hs He [[Qc _ Qs] _]. rewrite He, Nat2Z.id in Qc, Qs. pose proof (lv_srv _ Hx) as [Hg Hw].
  rewrite Hat in Hw. destruct (g_top _ _ _ _ _ Hg) as (m & Hm & Hof). rewrite Hs in Hof.
  destruct (lv_sys _ Hx) as [_ Hpk _]. pose proof (proj1 (Forall_forall _ _) Hpk m Hm) as Hok.
  pose proof (last_packet m Hok Hof) as Hlast. destruct (lv_cli _ Hx) as [Ha Hmx _ Hcf _ _].
  destruct (silent_offer words (length words) m ltac:(lia) Hlast) as (d & _ & Hd & _).
  destruct (receive_next words (λ _, r0) cfg words_int (λ _ _, kept) (length words) m (cli x)
    ltac:(lia) Hlast Qc Hcf) as (h & c1 & Er & Hh & Hts & Hc1 & _).
  rewrite bool_decide_eq_true_2 in Er by done.
  pose proof (proj1 (Forall_forall _ _) (g_pstamps _ _ _ _ _ Hg) m Hm) as Hst. cbn in Hst.
  destruct (last_ack_ends words clock words_int l h (srv x)) as (s2 & Ea & Hs2); [|done|..].
  { destruct (si_last _ _ _ (g_inv _ _ _ _ _ Hg)) as [[_ ?]|?]; [lia|done]. }
  { destruct (stop_good origin (rttinfo (th (srv x)))
      (u32 (rtt_ts (rttinfo (th (srv x))) (clock (ticks (srv x))) - ts h))) as (p & -> & _); [apply Hg| |by eexists].
    rewrite Hts. apply stamps_apart; [|done].
    apply (rtt_ts_ok words clock origin clock_window), Hg. }
  destruct (burst_at_end words clock s2 Hs2) as (s3 & Eb).
  destruct (final_print_refines c1 _ Hc1) as (c2 & Ef & _).
  destruct (print_next words (length words) d (length (text_buffer c1)) Hd
    (repr_pos _ _ _ (cr_ring _ _ Hc1))) as [_ Pp].
  rewrite Pp in Ef. eexists. split.
  - eapply reach_step; [eapply reach_step; [eapply reach_step; [eapply reach_step;
      [apply reach_start|exact (step_receive words clock no_stale_ack x m r0 0 _ _ _ Ha Hmx Hm Er)]|]|]|].
    + eapply step_ack; [exact Hat| | |exact Ea]; cbn.
      * apply elem_of_app. right. by apply list_elem_of_singleton.
      * unfold no_stale_ack. rewrite (wi_expected _ _ _ _ (proj1 Hw)). lia.
    + eapply step_burst; [reflexivity|exact Eb].
    + eapply step_final; [reflexivity|exact Ef].
  - split_and!; [done|done|]. cbn [shown]. rewrite Qs. cbn [RecvQueue.printed RecvQueue.accepted].
    rewrite take_take, Nat.min_id, shown_next by done.
    by rewrite take_ge by (rewrite length_transcript; lia).
Qed.

Lemma recover x : live x → retries x < RTT_MAXNREXMT → ∃ y, steps x y ∧ finished y.
Proof.
  intros Hx Hn. destruct (reach_last x Hx Hn) as (y & l & Hxy & Hy & Hat & Es).
  destruct (take_all y Hy Es) as (z & Hyz & Hz & (Ez & Eat & _) & Ee & Hd).
  rewrite <- Eat in Hat. rewrite <- Ez in Es.
  destruct (last_exchange z l Hz Hat Es Ee Hd) as (u & Hzu & Hu).
  exists u. split; [|done]. eapply reachable_trans; [done|]. by eapply reachable_trans.
Qed.

Lemma recover_starting x : starting x → ∃ y, steps x y ∧ finished y.
Proof.
  intros Hx. destruct Hx as [Hi Hk Ha Hp Hq Hs].
  destruct (wpo_total _ _ _ _ (λ x, x) (first_burst_good words clock origin words_int words_short clock_window
    _ Hs)) as (o & st & s' & Eb & [l ->] & _ & Hn).
  pose proof (step_burst words clock no_stale_ack x _ _ _ Ha Eb) as Hst.
  destruct (starting_step x _ (Build_starting _ Hi Hk Ha Hp Hq Hs) Hst) as [Hy|Hy]; [apply Hk|..].
  - by destruct Hy.
  - destruct (recover _ Hy) as (z & Hyz & Hz); [cbn; rewrite Hn; by vm_compute|].
    exists z. split; [|done]. eapply reachable_trans; [|exact Hyz]. eapply reach_step; [constructor|done].
Qed.
End recover.

(** ** The theorem *)

Lemma starting_start words origin serv_rwnd t0 q0 cfg junk :
  1 <= serv_rwnd <= INT_MAX → isEOF t0 ≠ 1 → rttinit t0 = 0 →
  within_hours origin (rtt_base (rttinfo t0)) →
  cfg_rwnd cfg = Z.of_nat (length junk) → 0 < cfg_rwnd cfg <= INT_MAX →
  starting words origin cfg (start serv_rwnd t0 q0 cfg junk).
Proof.
  intros Hr He Ht Hb Hj Hc.
  assert (sys_inv words (start serv_rwnd t0 q0 cfg junk)) as Hi by by apply inv_start.
  unfold INT_MAX in *. split; try done.
  - split; cbn; try done. lia.
  - split; try done; [apply Hi|]. cbn. rewrite u32_small by (unfold is_u32; lia). done.
Qed.

(** C3: a transfer is never stuck.  Whatever the network has lost, repeated,
    delayed or reordered, as long as the server has read no acknowledgement with a
    number beyond the one it waits for ([no_stale_ack], as in C1), the client is
    receiving and the server has not used up its retransmissions, there is a
    continuation of the run after which the server has returned from
    [send_file_data], the client's main thread has come to its end and the client
    has printed the whole file and the end-of-file line: closed windows, going back
    and duplicate acknowledgements leave no dead end.  The words are shorter than
    MAXLINE, [isEOF] (uninitialised, server.c:193) is not 1, [rttinit] is 0 as the
    server sets it, the clock's readings and the timer's uninitialised base lie
    within four and a half hours, and the client keeps a packet for some value of
    [rand]. *)
Theorem transfer_never_stuck words clock origin r0 serv_rwnd t0 q0 cfg junk x :
  Z.of_nat (length words) + 2 <= INT_MAX →
  Forall (λ w, Z.of_nat (length w) < MAXLINE) words → clock_ok clock origin →
  1 <= serv_rwnd <= INT_MAX → isEOF t0 ≠ 1 → rttinit t0 = 0 →
  within_hours origin (rtt_base (rttinfo t0)) →
  cfg_rwnd cfg = Z.of_nat (length junk) → 0 < cfg_rwnd cfg <= INT_MAX →
  drop_packet (cfg_probability cfg) (cfg_seed cfg) r0 = Some false →
  reachable words clock no_stale_ack (start serv_rwnd t0 q0 cfg junk) x →
  cli_at x = Receiving → rtt_nrexmt (rttinfo (th (srv x))) < RTT_MAXNREXMT →
  ∃ y, reachable words clock no_stale_ack x y ∧
    srv_at y = AtEnd ∧ cli_at y = Gone ∧ shown y = file_lines 0 (words ++ [eof_text]).
Proof.
  intros Hw Hs Hc Hr He Ht Hb Hj Hp Hd Hx Hat Hn.
  pose proof (starting_start words origin serv_rwnd t0 q0 cfg junk Hr He Ht Hb Hj Hp) as H0.
  destruct (reachable_live words clock origin cfg r0 Hw Hs Hc Hd _ _ H0 Hx Hat) as [H|H].
  - by apply (recover_starting words clock origin cfg r0).
  - by apply (recover words clock origin cfg r0).
Qed.

(** A packet is lost, and the server has just gone back to it. *)
Lemma transfer_never_stuck_witness :
  let clock := λ _ : nat, mk_timeval 100 0 in
  ∃ x, run Demo.abc clock Demo.timely_only (Demo.begin 3)
         [Burst; Receive 0 0; Ack 0; Read; Burst; Receive 2 0; Ack 1; Expire] = Some x ∧
  ∃ y, reachable Demo.abc clock no_stale_ack x y ∧
    srv_at y = AtEnd ∧ cli_at y = Gone ∧ shown y = file_lines 0 (Demo.abc ++ [eof_text]).
Proof.
  set (clock := λ _ : nat, mk_timeval 100 0). cbv zeta.
  set (l := [Burst; Receive 0 0; Ack 0; Read; Burst; Receive 2 0; Ack 1; Expire]).
  assert (∀ x, reachable Demo.abc clock no_stale_ack (Demo.begin 3) x → cli_at x = Receiving →
    rtt_nrexmt (rttinfo (th (srv x))) < RTT_MAXNREXMT →
    ∃ y, reachable Demo.abc clock no_stale_ack x y ∧
      srv_at y = AtEnd ∧ cli_at y = Gone ∧ shown y = file_lines 0 (Demo.abc ++ [eof_text])) as H.
  { intros x. apply (transfer_never_stuck Demo.abc clock 0 0 10 Demo.t0 zero_msg (Demo.cfg 3) (Demo.ring 3));
      [by vm_compute|by repeat constructor| |by vm_compute..].
    split; [done|]. split; [by vm_compute|]. intros k. by vm_compute. }
  assert (match run Demo.abc clock Demo.timely_only (Demo.begin 3) l with
          | Some x => cli_at x = Receiving ∧ rtt_nrexmt (rttinfo (th (srv x))) < RTT_MAXNREXMT
          | None => False end) as Hx by (clear H; by vm_compute).
  destruct (run Demo.abc clock Demo.timely_only (Demo.begin 3) l) as [x|] eqn:E; [|by destruct Hx].
  exists x. split; [reflexivity|]. destruct Hx as [Hat Hn]. apply H; [|exact Hat|exact Hn].
  apply (reachable_mono _ _ (λ l h, Demo.timely_only l h = true)); [apply timely_only_policy|].
  eapply run_reachable; [constructor|exact E].
Defined.
