(* ===== verification/OdrMsg.v ===== *)
(** * Messages of the on-demand router (hw3/common.h, hw3/common.c)

    Two kinds of messages: Ethernet frames between routers, each carrying a
    packed [frame_header], and packed [peer_info] structures on local sockets
    between a router and the client and server of its host.  A [char] array
    member is the [bytes] of its declared size. *)

From Stdlib Require Import Strings.Byte.
From S2P Require Import Prelude.
From S2P Require Import CMem.
From S2P Require Import CText.

Definition ETH_FRAME_LEN : nat := 1518.
Definition IP_LEN : nat := 20.
Definition IF_HADDR : nat := 6.
Definition MAX_MSG_LEN : nat := 50.
Definition MAX_VM_NAME_LEN : nat := 10.
Definition INET_ADDRSTRLEN : nat := 16.
Definition PORT_LEN : nat := 100.
Definition HDR_MSG_LEN : nat := 100.

Definition DOMAIN_SOCK_PATH : bytes := str "/tmp/deva_kau".
Definition RAW_SERVER_PROTO : bytes := str "_test0910".

(** [data_type], an enum stored as an [int]. *)
Definition rrep : Z := 0.
Definition rreq : Z := 1.
Definition payload_req : Z := 2.
Definition payload_resp : Z := 3.

Record peer_info := mk_peer_info {
  dest_port : bytes;   (* char[100] *)
  pi_dest_ip : bytes;  (* char[INET_ADDRSTRLEN] *)
  src_port : bytes;    (* char[100] *)
  pi_src_ip : bytes;   (* char[INET_ADDRSTRLEN] *)
  pi_msg : bytes;      (* char[MAX_MSG_LEN] *)
  source_vm : bytes;   (* char[MAX_VM_NAME_LEN] *)
  flag : Z             (* int *)
}.

Record frame_head := mk_frame_head {
  src_ip : bytes;      (* char[IP_LEN] *)
  dest_ip : bytes;     (* char[IP_LEN] *)
  hop_count : Z;       (* int *)
  bc_id : Z;           (* int *)
  msg : bytes;         (* char[100] *)
  force_flag : Z;      (* int *)
  type : Z             (* data_type *)
}.

(** ** The structures in memory *)

Definition sizeof_frame_head : nat := 156.
Definition sizeof_peer_info : nat := 296.

Definition encode_head (h : frame_head) : bytes :=
  src_ip h ++ dest_ip h ++ put_i32 (hop_count h) ++ put_i32 (bc_id h) ++ msg h ++
  put_i32 (force_flag h) ++ put_i32 (type h).

Definition decode_head (a : bytes) : frame_head :=
  mk_frame_head (slice 0 20 a) (slice 20 20 a) (get_i32 (slice 40 4 a)) (get_i32 (slice 44 4 a))
    (slice 48 100 a) (get_i32 (slice 148 4 a)) (get_i32 (slice 152 4 a)).

Definition encode_peer_info (p : peer_info) : bytes :=
  dest_port p ++ pi_dest_ip p ++ src_port p ++ pi_src_ip p ++ pi_msg p ++ source_vm p ++
  put_i32 (flag p).

Definition decode_peer_info (a : bytes) : peer_info :=
  mk_peer_info (slice 0 100 a) (slice 100 16 a) (slice 116 100 a) (slice 216 16 a)
    (slice 232 50 a) (slice 282 10 a) (get_i32 (slice 292 4 a)).

(** [bzero] of either. *)
Definition zero_head : frame_head :=
  mk_frame_head (zeros IP_LEN) (zeros IP_LEN) 0 0 (zeros HDR_MSG_LEN) 0 0.
Definition zero_peer_info : peer_info :=
  mk_peer_info (zeros PORT_LEN) (zeros INET_ADDRSTRLEN) (zeros PORT_LEN) (zeros INET_ADDRSTRLEN)
    (zeros MAX_MSG_LEN) (zeros MAX_VM_NAME_LEN) 0.

(** A string in a [char] array; [None] is an array without a terminator, past
    whose end the reader would run on. *)
Definition text_of (a : bytes) : option bytes := if decide (NUL ∈ a) then Some a else None.

(** [memcpy(&pinfo, a, sizeof(struct peer_info))] *)
Definition peer_info_in (a : bytes) : option peer_info :=
  if decide (sizeof_peer_info ≤ length a)%nat then Some (decode_peer_info a) else None.

(** ** Building them; [None] is a copy that does not fit *)

(** The strings come from arrays of [IP_LEN] bytes, an unterminated one of which
    does not fit, or were found terminated. *)
Definition populate_frame_header (src dest : bytes) (hops b_id ty force : Z)
    : option frame_head :=
  s ← strcpy (src_ip zero_head) src;
  d ← strcpy (dest_ip zero_head) dest;
  Some (mk_frame_head s d hops b_id (msg zero_head) force ty).

(** [strcpy(&header.msg, m)] *)
Definition set_msg (h : frame_head) (m : bytes) : option frame_head :=
  m ← strcpy (msg h) m;
  Some (mk_frame_head (src_ip h) (dest_ip h) (hop_count h) (bc_id h) m (force_flag h) (type h)).

(** [msg_send]: the datagram it hands to [sendto]; [hostname] is the result of
    [gethostname]. *)
Definition msg_send (hostname dip dport sip sport m : bytes) (fl : Z) : option bytes :=
  dp ← strcpy (dest_port zero_peer_info) dport;
  di ← strncpy (pi_dest_ip zero_peer_info) dip INET_ADDRSTRLEN;
  sp ← strcpy (src_port zero_peer_info) sport;
  si ← strcpy (pi_src_ip zero_peer_info) sip;
  vm ← strncpy (source_vm zero_peer_info) hostname MAX_VM_NAME_LEN;
  mm ← strcpy (pi_msg zero_peer_info) m;
  Some (encode_peer_info (mk_peer_info dp di sp si mm vm fl)).

(** [msg_recv]: the strings copied out of a received datagram, padded with the
    zeros of [recvline]. *)
Definition msg_recv (m sip sport d : bytes) : option (bytes * bytes * bytes) :=
  let p := decode_peer_info (take sizeof_peer_info d ++ zeros sizeof_peer_info) in
  t ← text_of (pi_msg p);
  m ← strcpy m t;
  t ← text_of (pi_src_ip p);
  sip ← strcpy sip t;
  t ← text_of (src_port p);
  sport ← strcpy sport t;
  Some (m, sip, sport).

(** ** Host names and addresses *)

(** [ip_to_vm] into a [char] array; the text from the twelfth character of
    the address on names the host. *)
Definition ip_to_vm (ip vm : bytes) : option bytes :=
  vm ← strcpy vm (str "vm");
  strcat vm (drop 11 ip).

Definition ipmap : list bytes :=
  [str "dontcare"; str "192.168.10.1"; str "192.168.10.2"; str "192.168.10.3";
   str "192.168.11.4"; str "192.168.11.5"; str "192.168.11.6"; str "192.168.12.7";
   str "192.168.12.8"; str "192.168.13.9"; str "192.168.13.10"; []].

(** [atoi]: [strtol] converted to [int]. *)
Definition atoi (s : bytes) : Z := i32 (strtol10 s).

(** [set_ip]: the address of a host named like [vm3], or the fault of an index
    outside the table or of a copy that does not fit. *)
Definition set_ip (host ip : bytes) : fault + bytes :=
  let index := atoi (drop 2 host) in
  if index <? 0 then inl BadIndex else
  match ipmap !! Z.to_nat index with
  | None => inl BadIndex
  | Some a => match strcpy ip a with Some ip => inr ip | None => inl BadCopy end
  end.

(** ** Round trips *)

Record head_ok (h : frame_head) : Prop := {
  ho_src : length (src_ip h) = IP_LEN;
  ho_dest : length (dest_ip h) = IP_LEN;
  ho_msg : length (msg h) = HDR_MSG_LEN;
  ho_hops : is_i32 (hop_count h);
  ho_bc : is_i32 (bc_id h);
  ho_force : is_i32 (force_flag h);
  ho_type : is_i32 (type h)
}.

Record peer_info_ok (p : peer_info) : Prop := {
  po_dport : length (dest_port p) = PORT_LEN;
  po_dip : length (pi_dest_ip p) = INET_ADDRSTRLEN;
  po_sport : length (src_port p) = PORT_LEN;
  po_sip : length (pi_src_ip p) = INET_ADDRSTRLEN;
  po_msg : length (pi_msg p) = MAX_MSG_LEN;
  po_vm : length (source_vm p) = MAX_VM_NAME_LEN;
  po_flag : is_i32 (flag p)
}.

Ltac field_slices :=
  repeat first
    [ rewrite slice_here by (done || apply put_i32_length)
    | rewrite (slice_all 4) by apply put_i32_length
    | erewrite slice_later by
        (first [eassumption | apply put_i32_length] || (vm_compute; lia));
      cbn [Nat.sub] ].

Lemma length_encode_head h : head_ok h → length (encode_head h) = sizeof_frame_head.
Proof.
  intros []. unfold encode_head. rewrite !length_app, !put_i32_length, ho_src0, ho_dest0, ho_msg0.
  done.
Qed.

Lemma decode_encode_head h r : head_ok h → decode_head (encode_head h ++ r) = h.
Proof.
  intros []. destruct h as [s d hc bc m f t]. cbn in *. unfold IP_LEN, HDR_MSG_LEN in *.
  unfold decode_head, encode_head. cbn [src_ip dest_ip hop_count bc_id msg force_flag type].
  rewrite <- !app_assoc. field_slices. by rewrite !get_put_i32.
Qed.

Lemma length_encode_peer_info p : peer_info_ok p → length (encode_peer_info p) = sizeof_peer_info.
Proof.
  intros []. unfold encode_peer_info. rewrite !length_app, put_i32_length,
    po_dport0, po_dip0, po_sport0, po_sip0, po_msg0, po_vm0. done.
Qed.

Lemma decode_encode_peer_info p r :
  peer_info_ok p → decode_peer_info (encode_peer_info p ++ r) = p.
Proof.
  intros []. destruct p as [dp di sp si m vm f]. cbn in *.
  unfold PORT_LEN, INET_ADDRSTRLEN, MAX_MSG_LEN, MAX_VM_NAME_LEN in *.
  unfold decode_peer_info, encode_peer_info.
  cbn [dest_port pi_dest_ip src_port pi_src_ip pi_msg source_vm flag].
  rewrite <- !app_assoc. field_slices. by rewrite get_put_i32.
Qed.

Lemma cstr_short a : (length (cstr a) < length a)%nat → NUL ∈ a.
Proof. intros H. destruct (decide (NUL ∈ a)) as [|Hn]; [done|]. rewrite (cstr_id a Hn) in H. lia. Qed.

Lemma text_of_fits n a : length a = n → fits n a → text_of a = Some a.
Proof. intros Hl Hf. unfold text_of. apply decide_True, cstr_short. unfold fits in Hf. lia. Qed.

Lemma peer_info_in_long a : (sizeof_peer_info ≤ length a)%nat → peer_info_in a = Some (decode_peer_info a).
Proof. intros H. by apply decide_True. Qed.

Lemma strncpy_zeros n s :
  ∃ d, strncpy (zeros n) s n = Some d ∧ length d = n ∧ (fits n s → cstr d = cstr s).
Proof.
  unfold strncpy. set (t := take n (cstr s ++ zeros n)).
  assert (length t = n) as Ht by (unfold t; rewrite length_take, length_app, length_zeros; lia).
  exists t. rewrite memcpy_all by (rewrite length_zeros; lia). split_and!; [done..|].
  intros Hf. unfold fits in Hf. unfold t. rewrite take_app_ge by lia.
  unfold zeros. rewrite take_replicate.
  destruct (n - length (cstr s))%nat as [|k] eqn:E; [lia|].
  rewrite Nat.min_l by lia. cbn [replicate]. apply cstr_app_nul, cstr_no_nul.
Qed.

Lemma populate_ok src dest hops b_id ty force :
  fits IP_LEN src → fits IP_LEN dest → is_i32 hops → is_i32 b_id → is_i32 ty → is_i32 force →
  ∃ h, populate_frame_header src dest hops b_id ty force = Some h ∧ head_ok h ∧
    cstr (src_ip h) = cstr src ∧ cstr (dest_ip h) = cstr dest ∧ hop_count h = hops ∧
    bc_id h = b_id ∧ type h = ty ∧ force_flag h = force ∧ msg h = zeros HDR_MSG_LEN.
Proof.
  intros Hs Hd ? ? ? ?. unfold populate_frame_header.
  destruct (strcpy_zeros IP_LEN src Hs) as (s & Es & Hsl & Hsc).
  destruct (strcpy_zeros IP_LEN dest Hd) as (d & Ed & Hdl & Hdc).
  change (src_ip zero_head) with (zeros IP_LEN). change (dest_ip zero_head) with (zeros IP_LEN).
  rewrite Es. cbn [mbind option_bind]. rewrite Ed. cbn [mbind option_bind].
  eexists. split; [reflexivity|]. split; [by split|by split_and!].
Qed.

Lemma set_msg_ok h m :
  head_ok h → fits HDR_MSG_LEN m →
  ∃ h', set_msg h m = Some h' ∧ head_ok h' ∧ cstr (msg h') = cstr m ∧
    src_ip h' = src_ip h ∧ dest_ip h' = dest_ip h ∧ hop_count h' = hop_count h ∧
    bc_id h' = bc_id h ∧ type h' = type h ∧ force_flag h' = force_flag h.
Proof.
  intros Hh Hm. unfold set_msg. destruct (strcpy (msg h) m) as [m'|] eqn:E.
  - eexists. split; [reflexivity|]. cbn. pose proof (strcpy_length _ _ _ E).
    split; [|by rewrite (strcpy_cstr _ _ _ E)]. destruct Hh. split; cbn; try done. congruence.
  - destruct Hh. rewrite strcpy_Some in E; [done|]. by rewrite ho_msg0.
Qed.

(** The datagram of [msg_send], as its receiver decodes it. *)
Lemma msg_send_ok hostname dip dport sip sport m fl :
  fits PORT_LEN dport → fits PORT_LEN sport → fits INET_ADDRSTRLEN sip → fits MAX_MSG_LEN m →
  is_i32 fl →
  ∃ d, msg_send hostname dip dport sip sport m fl = Some d ∧ length d = sizeof_peer_info ∧
    ∀ r, let p := decode_peer_info (d ++ r) in
    peer_info_ok p ∧ cstr (pi_msg p) = cstr m ∧ cstr (dest_port p) = cstr dport ∧
    cstr (src_port p) = cstr sport ∧ cstr (pi_src_ip p) = cstr sip ∧ flag p = fl ∧
    (fits INET_ADDRSTRLEN dip → cstr (pi_dest_ip p) = cstr dip) ∧
    (fits MAX_VM_NAME_LEN hostname → cstr (source_vm p) = cstr hostname).
Proof.
  intros Hdp Hsp Hsi Hm Hfl. unfold msg_send.
  destruct (strcpy_zeros _ _ Hdp) as (dp & Edp & Ldp & Cdp).
  destruct (strncpy_zeros INET_ADDRSTRLEN dip) as (di & Edi & Ldi & Cdi).
  destruct (strcpy_zeros _ _ Hsp) as (sp & Esp & Lsp & Csp).
  destruct (strcpy_zeros _ _ Hsi) as (si & Esi & Lsi & Csi).
  destruct (strncpy_zeros MAX_VM_NAME_LEN hostname) as (vm & Evm & Lvm & Cvm).
  destruct (strcpy_zeros _ _ Hm) as (mm & Emm & Lmm & Cmm).
  cbn [zero_peer_info dest_port pi_dest_ip src_port pi_src_ip pi_msg source_vm].
  rewrite Edp. cbn [mbind option_bind]. rewrite Edi. cbn [mbind option_bind]. rewrite Esp.
  cbn [mbind option_bind]. rewrite Esi. cbn [mbind option_bind]. rewrite Evm.
  cbn [mbind option_bind]. rewrite Emm. cbn [mbind option_bind].
  set (p := mk_peer_info dp di sp si mm vm fl). assert (peer_info_ok p) as Hp by by split.
  eexists. split; [reflexivity|]. split; [by apply length_encode_peer_info|].
  intros r. rewrite decode_encode_peer_info by done. by split_and!.
Qed.

Lemma msg_roundtrip hostname dip dport sip sport m fl m0 s0 p0 :
  fits PORT_LEN dport → fits PORT_LEN sport → fits INET_ADDRSTRLEN sip → fits MAX_MSG_LEN m →
  is_i32 fl → fits (length m0) m → fits (length s0) sip → fits (length p0) sport →
  ∃ d m' s' p', msg_send hostname dip dport sip sport m fl = Some d ∧
    msg_recv m0 s0 p0 d = Some (m', s', p') ∧
    cstr m' = cstr m ∧ cstr s' = cstr sip ∧ cstr p' = cstr sport.
Proof.
  intros Hdp Hsp Hsi Hm Hfl Fm Fs Fp.
  destruct (msg_send_ok hostname dip dport sip sport m fl) as (d & E & Hl & H); [done..|].
  exists d. specialize (H (zeros sizeof_peer_info)). cbv zeta in H.
  destruct H as (Hok & Cm & _ & Csp & Csi & _). unfold msg_recv.
  rewrite firstn_all2 by lia. cbv zeta.
  rewrite (text_of_fits _ _ (po_msg _ Hok)) by (unfold fits in *; by rewrite Cm).
  rewrite (text_of_fits _ _ (po_sip _ Hok)) by (unfold fits in *; by rewrite Csi).
  rewrite (text_of_fits _ _ (po_sport _ Hok)) by (unfold fits in *; by rewrite Csp). unfold fits in *.
  destruct (strcpy_room m0 (pi_msg (decode_peer_info (d ++ zeros sizeof_peer_info)))) as (m' & Em & _ & Cm');
    [by rewrite Cm|].
  destruct (strcpy_room s0 (pi_src_ip (decode_peer_info (d ++ zeros sizeof_peer_info)))) as (s' & Es & _ & Cs');
    [by rewrite Csi|].
  destruct (strcpy_room p0 (src_port (decode_peer_info (d ++ zeros sizeof_peer_info)))) as (p' & Ep & _ & Cp');
    [by rewrite Csp|].
  exists m', s', p'. cbn [mbind option_bind]. rewrite Em. cbn [mbind option_bind]. rewrite Es. cbn [mbind option_bind]. rewrite Ep.
  split_and!; [exact E|reflexivity|congruence..].
Qed.

(** ** The theorems *)

(** A message handed to [msg_send] with strings that fit their fields
    comes out of [msg_recv] with the same text, source address and source
    port. *)
Theorem msg_send_recv hostname dip dport sip sport m fl m0 s0 p0 :
  fits PORT_LEN dport → fits PORT_LEN sport → fits INET_ADDRSTRLEN sip → fits MAX_MSG_LEN m →
  is_i32 fl → fits (length m0) m → fits (length s0) sip → fits (length p0) sport →
  ∃ d m' s' p', msg_send hostname dip dport sip sport m fl = Some d ∧
    msg_recv m0 s0 p0 d = Some (m', s', p') ∧
    cstr m' = cstr m ∧ cstr s' = cstr sip ∧ cstr p' = cstr sport.
Proof. apply msg_roundtrip. Qed.

Lemma msg_send_recv_witness :
  ∃ d m' s' p', msg_send (str "vm1") (str "192.168.11.5") DOMAIN_SOCK_PATH (str "192.168.10.1")
      (str "/tmp/dk_a") (str "GetMeTime") 0 = Some d ∧
    msg_recv (zeros 1000) (zeros 100) (zeros 100) d = Some (m', s', p') ∧
    cstr m' = str "GetMeTime" ∧ cstr s' = str "192.168.10.1" ∧ cstr p' = str "/tmp/dk_a".
Proof.
  apply (msg_send_recv (str "vm1") (str "192.168.11.5") DOMAIN_SOCK_PATH (str "192.168.10.1")
    (str "/tmp/dk_a") (str "GetMeTime") 0 (zeros 1000) (zeros 100) (zeros 100));
    first [unfold fits; apply Nat.ltb_lt; by vm_compute | by vm_compute].
Defined.

Definition vm_ip_check (k : Z) : bool :=
  match set_ip (str "vm" ++ dec_u k ++ [NUL]) (zeros 16) with
  | inr ip =>
      match ip_to_vm ip (zeros 10) with
      | Some vm => bool_decide (cstr vm = str "vm" ++ dec_u k)
      | None => false
      end
  | inl _ => false
  end.

(** For the ten hosts [vm1] to [vm10], [ip_to_vm] recovers the name from
    the address [set_ip] assigns. *)
Theorem vm_ip_roundtrip k :
  1 <= k <= 10 →
  ∃ ip vm, set_ip (str "vm" ++ dec_u k ++ [NUL]) (zeros 16) = inr ip ∧
    ip_to_vm ip (zeros 10) = Some vm ∧ cstr vm = str "vm" ++ dec_u k.
Proof.
  intros Hk. assert (k ∈ seqZ 1 10) as Hin by (apply elem_of_seqZ; lia).
  assert (forallb vm_ip_check (seqZ 1 10) = true) as H by (vm_compute; reflexivity).
  rewrite forallb_forall in H. specialize (H k (proj1 (list_elem_of_In _ _) Hin)).
  unfold vm_ip_check in H. destruct (set_ip _ _) as [|ip]; [done|].
  destruct (ip_to_vm ip (zeros 10)) as [vm|] eqn:E; [|done].
  exists ip, vm. by apply bool_decide_eq_true in H.
Qed.

Lemma vm_ip_roundtrip_witness :
  ∃ ip vm, set_ip (str "vm10" ++ [NUL]) (zeros 16) = inr ip ∧
    ip_to_vm ip (zeros 10) = Some vm ∧ cstr vm = str "vm10".
Proof. apply (vm_ip_roundtrip 10). lia. Defined.
