(* ===== verification/OdrTable.v ===== *)
(** * The routing table (hw3/common.c) *)

From Stdlib Require Import Strings.Byte.
From S2P Require Import Prelude.
From S2P Require Import CMem.
From S2P Require Import OdrMsg.

Definition ROUTING_TABLE_SIZE : nat := 100.

Record routing_table_row := mk_row {
  row_dest_ip : bytes;      (* char[IP_LEN] *)
  next_hop_mac : bytes;     (* char[6] *)
  outgoing_index : Z;
  row_hop_count : Z;
  row_ts : Z;               (* long *)
  row_broadcast_id : Z;
  rrep_sent : Z;
  is_filled : Z
}.

Abbreviation routing_table := (list routing_table_row).

Definition zero_row : routing_table_row :=
  mk_row (zeros IP_LEN) (zeros IF_HADDR) 0 0 0 0 0 0.

Definition init_routing_table : routing_table := replicate ROUTING_TABLE_SIZE zero_row.

(** The index of the first free row, or the size of the table. *)
Definition get_empty_row (t : routing_table) : nat := find_index (λ r, is_filled r =? 0) t.

(** The index of the first row with this address, filled or not, or -1. *)
Definition get_row_entry (t : routing_table) (ip : bytes) : Z :=
  let i := find_index (λ r, streq (row_dest_ip r) ip) t in
  if (i <? length t)%nat then Z.of_nat i else -1.

Definition delete_table_entry (t : routing_table) (index : nat) : option routing_table :=
  if decide (index < length t)%nat then Some (<[index := zero_row]> t) else None.

(** 1 when the frame tells something new about its source, else -1. *)
Definition should_update_rt (t : routing_table) (h : frame_head) : Z :=
  let i := get_row_entry t (src_ip h) in
  if i =? -1 then 1 else
  match t !! Z.to_nat i with
  | None => -1
  | Some r =>
      if row_broadcast_id r <? bc_id h then 1
      else if hop_count h <? row_hop_count r then 1 else -1
  end.

(** The row made for a new source. *)
Definition new_row (h : frame_head) (mac : bytes) (now : Z) (r : routing_table_row)
    : routing_table_row :=
  mk_row (src_ip h) mac (outgoing_index r) (hop_count h) now (bc_id h) 0 1.

Definition set_bid (b : Z) (r : routing_table_row) : routing_table_row :=
  mk_row (row_dest_ip r) (next_hop_mac r) (outgoing_index r) (row_hop_count r) (row_ts r) b
    (rrep_sent r) (is_filled r).
Definition set_hops (n : Z) (r : routing_table_row) : routing_table_row :=
  mk_row (row_dest_ip r) (next_hop_mac r) (outgoing_index r) n (row_ts r) (row_broadcast_id r)
    (rrep_sent r) (is_filled r).

(** What becomes of the row of a source already known: the next hop stays. *)
Definition refresh_row (h : frame_head) (r : routing_table_row) : routing_table_row :=
  if row_broadcast_id r <? bc_id h then set_bid (bc_id h) r
  else if hop_count h <? row_hop_count r then set_hops (hop_count h) r else r.

(** [update_routing_table]; [None] is a write outside a full table. *)
Definition update_routing_table (t : routing_table) (h : frame_head) (mac : bytes) (now : Z)
    : option routing_table :=
  let i := get_row_entry t (src_ip h) in
  if i =? -1 then
    let index := get_empty_row t in
    r ← t !! index;
    Some (<[index := new_row h mac now r]> t)
  else
    r ← t !! Z.to_nat i;
    Some (<[Z.to_nat i := refresh_row h r]> t).

(** ** The table as a map from addresses to routes *)

Definition route (t : routing_table) (ip : bytes) : option routing_table_row :=
  if get_row_entry t ip =? -1 then None else t !! Z.to_nat (get_row_entry t ip).

(** Filled rows come first and have distinct, non-empty addresses; the others
    are zero. *)
Record table_ok (t : routing_table) : Prop := {
  tk_size : length t = ROUTING_TABLE_SIZE;
  tk_free : ∀ i r, t !! i = Some r → (get_empty_row t ≤ i)%nat → r = zero_row;
  tk_named : ∀ i r, t !! i = Some r → (i < get_empty_row t)%nat → cstr (row_dest_ip r) ≠ [];
  tk_distinct : ∀ i j r r', t !! i = Some r → t !! j = Some r' →
    (i < get_empty_row t)%nat → (j < get_empty_row t)%nat →
    cstr (row_dest_ip r) = cstr (row_dest_ip r') → i = j
}.

(** How many sources the table knows. *)
Definition entries (t : routing_table) : nat := get_empty_row t.

Lemma get_row_entry_range t ip :
  get_row_entry t ip = -1 ∨ 0 <= get_row_entry t ip < Z.of_nat (length t).
Proof.
  unfold get_row_entry. destruct (Nat.ltb_spec (find_index (λ r, streq (row_dest_ip r) ip) t) (length t));
    [right; lia|by left].
Qed.

Lemma get_row_entry_Some t ip i :
  get_row_entry t ip = i → i ≠ -1 →
  ∃ r, t !! Z.to_nat i = Some r ∧ cstr (row_dest_ip r) = cstr ip.
Proof.
  unfold get_row_entry. intros Hi Hne.
  destruct (Nat.ltb_spec (find_index (λ r, streq (row_dest_ip r) ip) t) (length t)) as [H|]; [|by subst i].
  destruct (find_index_lt _ _ H) as (r & Hr & Hp%streq_true). exists r.
  subst i. by rewrite Nat2Z.id.
Qed.

Lemma get_row_entry_None t ip :
  get_row_entry t ip = -1 ↔ ∀ i r, t !! i = Some r → cstr (row_dest_ip r) ≠ cstr ip.
Proof.
  unfold get_row_entry. split.
  - destruct (Nat.ltb_spec (find_index (λ r, streq (row_dest_ip r) ip) t) (length t)) as [|H]; [lia|].
    intros _ i r Hr E. pose proof (lookup_lt_Some _ _ _ Hr).
    pose proof (find_index_first (λ r, streq (row_dest_ip r) ip) t i r Hr
      (proj2 (streq_true _ _) E)). lia.
  - intros H. rewrite find_index_none.
    + by rewrite (proj2 (Nat.ltb_ge _ _)).
    + intros i r Hr. apply streq_false. by eapply H.
Qed.

(** [n] is the number of entries when exactly the rows before it are filled. *)
Lemma get_empty_row_char t n :
  (n ≤ length t)%nat → (∀ i r, t !! i = Some r → is_filled r = 0 ↔ (n ≤ i)%nat) →
  get_empty_row t = n.
Proof.
  intros Hn H. unfold get_empty_row. destruct (decide (n = length t)) as [->|Hne].
  - apply find_index_none. intros i r Hr. apply Z.eqb_neq. rewrite H by done.
    apply lookup_lt_Some in Hr. lia.
  - destruct (lookup_lt_is_Some_2 t n) as [r Hr]; [lia|].
    apply (find_index_unique _ t n r Hr); [apply Z.eqb_eq, (H n r Hr); lia|].
    intros j y Hj Hy. apply Z.eqb_neq. rewrite H by done. lia.
Qed.

Lemma filled_before t i r : t !! i = Some r → (i < get_empty_row t)%nat → is_filled r ≠ 0.
Proof. intros Hr Hi. apply Z.eqb_neq. by apply (find_index_before (λ r, is_filled r =? 0) t i r). Qed.

Lemma table_filled t i r :
  table_ok t → t !! i = Some r → is_filled r = 0 ↔ (entries t ≤ i)%nat.
Proof.
  intros Ht Hr. unfold entries. split.
  - intros H0. destruct (decide (get_empty_row t ≤ i)%nat); [done|].
    exfalso. apply (filled_before t i r Hr); [lia|done].
  - intros Hi. by rewrite (tk_free t Ht i r Hr Hi).
Qed.

Lemma route_Some t ip r :
  table_ok t → cstr ip ≠ [] →
  route t ip = Some r ↔
  ∃ i, t !! i = Some r ∧ (i < entries t)%nat ∧ cstr (row_dest_ip r) = cstr ip.
Proof.
  intros Ht Hne. unfold route. destruct (Z.eqb_spec (get_row_entry t ip) (-1)) as [E|E].
  - split; [done|]. intros (i & Hr & _ & Hc). rewrite get_row_entry_None in E. by destruct (E i r Hr).
  - destruct (get_row_entry_Some t ip _ eq_refl E) as (r0 & Hr0 & Hc0). rewrite Hr0.
    assert (Z.to_nat (get_row_entry t ip) < entries t)%nat as Hlt.
    { destruct (decide (entries t ≤ Z.to_nat (get_row_entry t ip))%nat) as [Hge|]; [|lia].
      rewrite (tk_free t Ht _ _ Hr0 Hge) in Hc0. cbn in Hc0. by rewrite <- Hc0 in Hne. }
    split.
    + intros [= <-]. by eexists.
    + intros (i & Hr & Hi & Hc). f_equal.
      assert (i = Z.to_nat (get_row_entry t ip)) as -> by (eapply (tk_distinct t Ht); eauto; congruence).
      congruence.
Qed.

Lemma route_None t ip :
  table_ok t → cstr ip ≠ [] → route t ip = None ↔ get_row_entry t ip = -1.
Proof.
  intros Ht Hne. unfold route. destruct (Z.eqb_spec (get_row_entry t ip) (-1)) as [E|E]; [done|].
  destruct (get_row_entry_Some t ip _ eq_refl E) as (r0 & Hr0 & _). by rewrite Hr0.
Qed.

Lemma init_table_ok : table_ok init_routing_table.
Proof.
  assert (get_empty_row init_routing_table = O) as E by reflexivity.
  split; rewrite ?E; try done; try lia. intros i r Hr _.
  by apply lookup_replicate_1 in Hr as [-> _].
Qed.

(** A row is replaced by one with the same address. *)
Lemma insert_row_ok t i r r' :
  table_ok t → t !! i = Some r → (i < entries t)%nat →
  row_dest_ip r' = row_dest_ip r → is_filled r' = is_filled r →
  table_ok (<[i := r']> t) ∧ entries (<[i := r']> t) = entries t.
Proof.
  intros Ht Hr Hi Hd Hf. pose proof (lookup_lt_Some _ _ _ Hr) as Hlen.
  assert (entries (<[i := r']> t) = entries t) as E.
  { apply get_empty_row_char; [rewrite length_insert; apply find_index_le|].
    intros j q Hq. apply list_lookup_insert_Some in Hq as [(-> & <- & _)|[_ Hq]].
    - rewrite Hf. by apply table_filled.
    - by apply table_filled. }
  split; [|done]. unfold entries in *. destruct Ht as [Hs Hfree Hn Hdis]. split; rewrite ?E.
  - by rewrite length_insert.
  - intros j q Hq Hj. apply list_lookup_insert_Some in Hq as [(-> & <- & _)|[_ Hq]]; [lia|]. by eapply Hfree.
  - intros j q Hq Hj. apply list_lookup_insert_Some in Hq as [(-> & <- & _)|[_ Hq]].
    + rewrite Hd. by eapply Hn.
    + by eapply Hn.
  - intros j k q q' Hq Hq' Hj Hk.
    apply list_lookup_insert_Some in Hq as [(-> & <- & _)|[? Hq]];
    apply list_lookup_insert_Some in Hq' as [(-> & <- & _)|[? Hq']]; rewrite ?Hd; intros; try done; eauto.
Qed.

(** The first free row is filled. *)
Lemma append_row_ok t r' :
  table_ok t → (entries t < ROUTING_TABLE_SIZE)%nat → is_filled r' ≠ 0 → cstr (row_dest_ip r') ≠ [] →
  route t (row_dest_ip r') = None →
  table_ok (<[entries t := r']> t) ∧ entries (<[entries t := r']> t) = S (entries t).
Proof.
  intros Ht He Hf Hne Hnew. pose proof (tk_size t Ht) as Hs.
  assert (entries (<[entries t := r']> t) = S (entries t)) as E.
  { apply get_empty_row_char; [rewrite length_insert; lia|].
    intros j q Hq. apply list_lookup_insert_Some in Hq as [(<- & <- & _)|[Hj Hq]].
    - split; [done|lia].
    - pose proof (table_filled t j q Ht Hq). lia. }
  split; [|done]. unfold entries in E at 1.
  split; rewrite ?E.
  - by rewrite length_insert.
  - intros j q Hq Hj. apply list_lookup_insert_Some in Hq as [(<- & <- & _)|[_ Hq]]; [lia|].
    eapply (tk_free t Ht); [done|]. unfold entries in *. lia.
  - intros j q Hq Hj. apply list_lookup_insert_Some in Hq as [(<- & <- & _)|[? Hq]]; [done|].
    eapply (tk_named t Ht); [done|]. unfold entries in *. lia.
  - apply route_None in Hnew; [|done..]. rewrite get_row_entry_None in Hnew.
    intros j k q q' Hq Hq' Hj Hk.
    apply list_lookup_insert_Some in Hq as [(<- & <- & _)|[? Hq]];
    apply list_lookup_insert_Some in Hq' as [(<- & <- & _)|[? Hq']]; intros Hc; try done.
    + by destruct (Hnew k q').
    + by destruct (Hnew j q).
    + eapply (tk_distinct t Ht); eauto; unfold entries in *; lia.
Qed.

(** Looking up an address after row [i] was written. *)
Lemma route_insert t i r' ip :
  table_ok t → table_ok (<[i := r']> t) → (i < length t)%nat →
  (i < entries (<[i := r']> t))%nat → (entries t ≤ entries (<[i := r']> t))%nat →
  (∀ j, j ≠ i → j < entries (<[i := r']> t) → j < entries t)%nat →
  (∀ r, t !! i = Some r → (i < entries t)%nat → row_dest_ip r' = row_dest_ip r) → cstr ip ≠ [] →
  route (<[i := r']> t) ip =
    if decide (cstr ip = cstr (row_dest_ip r')) then Some r' else route t ip.
Proof.
  intros Ht Ht' Hi He Hle Hback Hsame Hne. case_decide as Hc.
  { apply route_Some; [done..|]. exists i. by rewrite list_lookup_insert_eq. }
  destruct (route t ip) as [q|] eqn:Hq.
  - apply route_Some in Hq as (j & Hj & Hje & Hjc); [|done..]. apply route_Some; [done..|].
    exists j. rewrite list_lookup_insert_ne; [split_and!; [done|lia|done]|].
    intros <-. apply Hc. by rewrite (Hsame q).
  - destruct (route (<[i := r']> t) ip) as [q|] eqn:Hq'; [|done]. exfalso.
    apply route_Some in Hq' as (j & Hj & Hje & Hjc); [|done..].
    apply list_lookup_insert_Some in Hj as [(<- & <- & _)|[Hij Hj]]; [by apply Hc|].
    assert (route t ip = Some q) as E; [|by rewrite E in Hq].
    apply route_Some; [done..|]. exists j. split_and!; [done|by apply Hback|done].
Qed.

(** What the table says about the source of a frame after an update. *)
Definition learn (h : frame_head) (mac : bytes) (now : Z) (o : option routing_table_row)
    : routing_table_row :=
  match o with
  | None => new_row h mac now zero_row
  | Some r => refresh_row h r
  end.

Lemma refresh_row_same h r :
  row_dest_ip (refresh_row h r) = row_dest_ip r ∧ is_filled (refresh_row h r) = is_filled r ∧
  next_hop_mac (refresh_row h r) = next_hop_mac r.
Proof. unfold refresh_row. by destruct (row_broadcast_id r <? bc_id h), (hop_count h <? row_hop_count r). Qed.

Lemma update_spec t h mac now :
  table_ok t → cstr (src_ip h) ≠ [] →
  (route t (src_ip h) = None → (entries t < ROUTING_TABLE_SIZE)%nat) →
  ∃ t', update_routing_table t h mac now = Some t' ∧ table_ok t' ∧
    (∀ ip, cstr ip ≠ [] → route t' ip =
      if decide (cstr ip = cstr (src_ip h)) then Some (learn h mac now (route t (src_ip h)))
      else route t ip) ∧
    entries t' = match route t (src_ip h) with None => S (entries t) | Some _ => entries t end.
Proof.
  intros Ht Hne Hroom. unfold update_routing_table.
  destruct (route t (src_ip h)) as [r|] eqn:Hr.
  - assert (get_row_entry t (src_ip h) ≠ -1) as E
      by (rewrite <- (route_None t) by done; by rewrite Hr).
    pose proof Hr as Hr0. unfold route in Hr0. rewrite (proj2 (Z.eqb_neq _ _) E) in Hr0 |- *.
    rewrite Hr0. cbn [mbind option_bind]. set (i := Z.to_nat (get_row_entry t (src_ip h))) in *.
    apply route_Some in Hr as (j & Hj & Hje & Hjc); [|done..].
    assert (i < entries t)%nat as Hi.
    { destruct (decide (entries t ≤ i)%nat) as [Hge|]; [|lia].
      rewrite (tk_free t Ht _ _ Hr0 Hge) in Hjc. cbn in Hjc. by rewrite <- Hjc in Hne. }
    destruct (refresh_row_same h r) as (Hd & Hf & _).
    destruct (insert_row_ok t i r (refresh_row h r) Ht Hr0 Hi Hd Hf) as [Ht' He].
    eexists. split; [reflexivity|]. split_and!; [done| |done]. intros ip Hip.
    rewrite route_insert; rewrite ?He; try done; try (apply lookup_lt_Some in Hr0; lia).
    + rewrite Hd, Hjc. done.
    + intros r0 Hr1 _. rewrite Hr0 in Hr1. injection Hr1 as <-. exact Hd.
  - specialize (Hroom eq_refl). pose proof Hr as E. apply route_None in E; [|done..].
    rewrite (proj2 (Z.eqb_eq _ _) E). fold (entries t).
    destruct (lookup_lt_is_Some_2 t (entries t)) as [r0 Hr0]; [by rewrite (tk_size t Ht)|].
    rewrite Hr0. cbn [mbind option_bind].
    rewrite (tk_free t Ht _ _ Hr0) by done.
    destruct (append_row_ok t (new_row h mac now zero_row) Ht Hroom) as [Ht' He]; [done|done|done|].
    eexists. split; [reflexivity|]. split_and!; [done| |done]. intros ip Hip.
    rewrite route_insert; rewrite ?He; try done; try lia.
    by rewrite (tk_size t Ht).
Qed.

Lemma update_full t h mac now :
  table_ok t → cstr (src_ip h) ≠ [] → route t (src_ip h) = None →
  entries t = ROUTING_TABLE_SIZE → update_routing_table t h mac now = None.
Proof.
  intros Ht Hne Hr He. unfold update_routing_table. apply route_None in Hr; [|done..].
  rewrite (proj2 (Z.eqb_eq _ _) Hr). fold (entries t).
  by rewrite lookup_ge_None_2 by (rewrite (tk_size t Ht), He; done).
Qed.

Lemma should_update_iff t h :
  table_ok t → cstr (src_ip h) ≠ [] →
  should_update_rt t h = 1 ↔
  match route t (src_ip h) with
  | None => True
  | Some r => row_broadcast_id r < bc_id h ∨ hop_count h < row_hop_count r
  end.
Proof.
  intros Ht Hne. unfold should_update_rt, route.
  destruct (Z.eqb_spec (get_row_entry t (src_ip h)) (-1)) as [E|E]; [done|].
  destruct (get_row_entry_Some t _ _ eq_refl E) as (r & Hr & _). rewrite Hr.
  destruct (Z.ltb_spec (row_broadcast_id r) (bc_id h)), (Z.ltb_spec (hop_count h) (row_hop_count r));
    split; try lia; done.
Qed.

(** ** The theorems *)

(** What the row of a frame's source has to hold after the frame, given the row
    before it, if any. *)
Definition learnt (h : frame_head) (mac : bytes) (now : Z) (old : option routing_table_row)
    (r : routing_table_row) : Prop :=
  match old with
  | None => r = mk_row (src_ip h) mac 0 (hop_count h) now (bc_id h) 0 1
  | Some r0 =>
      r = mk_row (row_dest_ip r0) (next_hop_mac r0) (outgoing_index r0) (row_hop_count r) (row_ts r0)
            (row_broadcast_id r) (rrep_sent r0) (is_filled r0) ∧
      row_broadcast_id r = Z.max (row_broadcast_id r0) (bc_id h) ∧
      row_hop_count r = if decide (row_broadcast_id r0 < bc_id h) then row_hop_count r0
                        else Z.min (row_hop_count r0) (hop_count h)
  end.

Lemma learn_learnt h mac now old : learnt h mac now old (learn h mac now old).
Proof.
  destruct old as [r|]; [|done]. cbn [learnt learn]. unfold refresh_row.
  destruct (Z.ltb_spec (row_broadcast_id r) (bc_id h)); [|destruct (Z.ltb_spec (hop_count h) (row_hop_count r))];
    destruct r; cbn in *; rewrite ?decide_True, ?decide_False by lia; split_and!; done || lia.
Qed.

(** C8: seen as a map from addresses to routes, [update_routing_table] changes
    the route of the frame's source alone.  A source not known yet gets a row
    with its address, the sender's hardware address, the frame's hop count and
    broadcast number and the time; in the row of a known one the broadcast number
    becomes the larger of the two and, where the frame's is not newer, the hop
    count the smaller of the two, all else (the next hop too) staying as it is.
    The table, in which there is room if the source is new, stays well formed and
    grows by one row exactly for a new source. *)
Theorem update_routing_table_refines t h mac now :
  table_ok t → cstr (src_ip h) ≠ [] →
  (route t (src_ip h) = None → (entries t < ROUTING_TABLE_SIZE)%nat) →
  ∃ t' r, update_routing_table t h mac now = Some t' ∧ table_ok t' ∧
    learnt h mac now (route t (src_ip h)) r ∧
    (∀ ip, cstr ip ≠ [] → route t' ip =
      if decide (cstr ip = cstr (src_ip h)) then Some r else route t ip) ∧
    entries t' = match route t (src_ip h) with None => S (entries t) | Some _ => entries t end.
Proof.
  intros Ht Hne Hroom. destruct (update_spec t h mac now Ht Hne Hroom) as (t' & E & Ht' & Hr & He).
  exists t', (learn h mac now (route t (src_ip h))). split_and!; try done. apply learn_learnt.
Qed.

Definition demo_head (hops b_id : Z) : frame_head :=
  mk_frame_head (str "192.168.10.1" ++ zeros 8) (str "192.168.13.9" ++ zeros 8) hops b_id
    (zeros HDR_MSG_LEN) 0 rreq.

(** A new source, and then a newer request of the same source. *)
Lemma update_routing_table_refines_witness : ∃ t1 t2 r1 r2,
  update_routing_table init_routing_table (demo_head 1 2) (replicate 6 x01) 5 = Some t1 ∧
  update_routing_table t1 (demo_head 4 3) (replicate 6 x02) 9 = Some t2 ∧
  route t1 (str "192.168.10.1") = Some r1 ∧ next_hop_mac r1 = replicate 6 x01 ∧ row_hop_count r1 = 1 ∧
  route t2 (str "192.168.10.1") = Some r2 ∧ next_hop_mac r2 = replicate 6 x01 ∧ row_broadcast_id r2 = 3 ∧
  row_hop_count r2 = 1 ∧ entries t2 = 1%nat.
Proof.
  destruct (update_routing_table_refines init_routing_table (demo_head 1 2) (replicate 6 x01) 5)
    as (t1 & r1 & E1 & Ht1 & L1 & Hr1 & He1);
    [apply init_table_ok|by vm_compute|intros _; apply Nat.ltb_lt; by vm_compute|].
  assert (route init_routing_table (src_ip (demo_head 1 2)) = None) as H0 by (by vm_compute).
  rewrite H0 in L1, He1. cbn [learnt] in L1.
  assert (route t1 (src_ip (demo_head 4 3)) = Some r1) as H1 by (rewrite Hr1 by (by vm_compute); by apply decide_True).
  destruct (update_routing_table_refines t1 (demo_head 4 3) (replicate 6 x02) 9 Ht1)
    as (t2 & r2 & E2 & Ht2 & L2 & Hr2 & He2); [by vm_compute|by rewrite H1|].
  rewrite H1 in L2, He2. destruct L2 as (L2 & Lb & Lh). rewrite He1 in He2.
  exists t1, t2, r1, r2. split_and!; [done|done|..]; rewrite ?L1; try reflexivity.
  - rewrite Hr1 by (by vm_compute). rewrite decide_True by (by vm_compute). by rewrite L1.
  - rewrite Hr2 by (by vm_compute). by rewrite decide_True by (by vm_compute).
  - rewrite L2, L1. reflexivity.
  - rewrite Lb, L1. reflexivity.
  - rewrite Lh, L1. reflexivity.
  - rewrite He2. reflexivity.
Defined.

(** A frame that shows a shorter way to a known source updates the hop
    count only: the route keeps sending to the next hop of the longer way. *)
Theorem shorter_route_keeps_next_hop t h mac now r t' :
  table_ok t → cstr (src_ip h) ≠ [] → route t (src_ip h) = Some r →
  bc_id h <= row_broadcast_id r → hop_count h < row_hop_count r →
  update_routing_table t h mac now = Some t' →
  ∃ r', route t' (src_ip h) = Some r' ∧ row_hop_count r' = hop_count h ∧
    next_hop_mac r' = next_hop_mac r.
Proof.
  intros Ht Hne Hr Hb Hh E.
  destruct (update_spec t h mac now Ht Hne) as (t2 & E2 & _ & Hroute & _); [by rewrite Hr|].
  rewrite E in E2. injection E2 as <-. rewrite Hroute by done. rewrite decide_True, Hr by done.
  eexists. split; [reflexivity|]. cbn [learn]. split; [|apply refresh_row_same].
  unfold refresh_row. by rewrite (proj2 (Z.ltb_ge _ _)), (proj2 (Z.ltb_lt _ _)) by lia.
Qed.

Lemma shorter_route_keeps_next_hop_witness :
  ∃ t t' r', update_routing_table init_routing_table (demo_head 5 2) (zeros 6) 5 = Some t ∧
    update_routing_table t (demo_head 3 2) (replicate 6 x01) 6 = Some t' ∧
    route t' (str "192.168.10.1" ++ zeros 8) = Some r' ∧ row_hop_count r' = 3 ∧
    next_hop_mac r' = zeros 6.
Proof.
  destruct (update_routing_table init_routing_table (demo_head 5 2) (zeros 6) 5) as [t|] eqn:E;
    [|exfalso; vm_compute in E; discriminate].
  destruct (update_spec init_routing_table (demo_head 5 2) (zeros 6) 5)
    as (t0 & E0 & Ht & Hroute & _);
    [apply init_table_ok|by vm_compute|intros _; apply Nat.ltb_lt; by vm_compute|].
  rewrite E in E0. injection E0 as <-.
  assert (route t (src_ip (demo_head 3 2)) = Some (new_row (demo_head 5 2) (zeros 6) 5 zero_row)) as Hr
    by (rewrite Hroute by (by vm_compute); reflexivity).
  destruct (update_routing_table t (demo_head 3 2) (replicate 6 x01) 6) as [t'|] eqn:E';
    [|exfalso; vm_compute in E; injection E as <-; vm_compute in E'; discriminate].
  destruct (shorter_route_keeps_next_hop t (demo_head 3 2) (replicate 6 x01) 6
    (new_row (demo_head 5 2) (zeros 6) 5 zero_row) t' Ht)
    as (r' & H1 & H2 & H3); [by vm_compute|exact Hr|by vm_compute|by vm_compute|exact E'|].
  exists t, t', r'. split_and!; [done|exact E'|exact H1|exact H2|exact H3].
Defined.
