(* ===== verification/Odr.v ===== *)
(** * The on-demand router (hw3/odr.c)

    A router reacts to three events: a frame on its raw socket, a request on
    its local socket, and the staleness timeout of its [Select].  The model is
    one function per C function, over the router's globals; frames and local
    datagrams sent are its outputs. *)

From Stdlib Require Import Strings.Byte.
From S2P Require Import Prelude.
From S2P Require Import CMem.
From S2P Require Import CText.
From S2P Require Import Inet.
From S2P Require Import Interfaces.
From S2P Require Import OdrMsg.
From S2P Require Import OdrTable.

Record server_details := mk_server_details {
  sd_ip : bytes;    (* char[IP_LEN] *)
  sd_mac : bytes;   (* char[IF_HADDR] *)
  sd_index : Z
}.

(** A request waiting for its answer; [sb_count] is 0 in a free element. *)
Record server_buf := mk_server_buf { sb_peer_info : peer_info; sb_count : Z }.

Record odr := mk_odr {
  serv : list server_details;    (* its length is number_of_interfaces *)
  table : routing_table;
  broadcast_id : Z;
  packet_counter : Z;
  buffer : list server_buf
}.

Inductive odr_out :=
| SendFrame (if_index : Z) (frame : bytes)
| SendLocal (path : bytes) (d : bytes).

Definition set_table (t : routing_table) (s : odr) : odr :=
  mk_odr (serv s) t (broadcast_id s) (packet_counter s) (buffer s).
Definition set_buffer (b : list server_buf) (s : odr) : odr :=
  mk_odr (serv s) (table s) (broadcast_id s) (packet_counter s) b.

(** ** Helpers of hw3/common.c *)

(** The index of the last interface with this address, or -1. *)
Fixpoint source_ip_loop (ip : bytes) (l : list server_details) (i found : Z) : Z :=
  match l with
  | [] => found
  | d :: l => source_ip_loop ip l (i + 1) (if streq (sd_ip d) ip then i else found)
  end.
Definition source_ip_cmp (ip : bytes) (l : list server_details) : Z := source_ip_loop ip l 0 (-1).

Fixpoint source_mac_loop (mac : bytes) (l : list server_details) (i found : Z) : Z :=
  match l with
  | [] => found
  | d :: l => source_mac_loop mac l (i + 1) (if streq (sd_mac d) mac then i else found)
  end.
Definition source_mac_cmp (mac : bytes) (l : list server_details) : Z := source_mac_loop mac l 0 (-1).

Definition BUFFER_SIZE : nat := 100.
Definition zero_buf : server_buf := mk_server_buf zero_peer_info 0.
Definition init_buffer : list server_buf := replicate BUFFER_SIZE zero_buf.

(** [push_data_to_buf] into the first free element; [None] is a write past the
    end of a full buffer. *)
Definition push_data_to_buf (b : list server_buf) (p : peer_info) : option (list server_buf) :=
  let i := find_index (λ e, sb_count e =? 0) b in
  if decide (i < length b)%nat then Some (<[i := mk_server_buf p 1]> b) else None.

(** [populate_server_details]: the interfaces other than [lo] and [eth0] with a
    hardware address, into an array of [n] elements. *)
Definition usable (h : hwa_info) : bool :=
  negb (streq (if_name h) (str "lo")) && negb (streq (if_name h) (str "eth0")) &&
  existsb (λ b, negb (bool_decide (b = NUL))) (if_haddr h).

Fixpoint populate_server_details (n : nat) (hwas : list hwa_info) : option (list server_details) :=
  match hwas with
  | [] => Some []
  | h :: hwas =>
      if usable h then
        match n with
        | O => None
        | S n =>
            ip ← strcpy (zeros IP_LEN) (quad_text (slice 4 4 (hwa_ip_addr h)));
            rest ← populate_server_details n hwas;
            Some (mk_server_details ip (if_haddr h) (if_index h) :: rest)
        end
      else populate_server_details n hwas
  end.

(** [currhostname]'s host, the protocol number (the address of a string
    literal, converted) and the bytes [malloc] returned after the header of a
    frame are inputs of the model. *)
Section odr.
Context (hostname : bytes) (proto : Z) (heap : bytes).

Abbreviation Odr := (M odr odr_out).

Definition b_mac : bytes := replicate 6 xff.

(** The frame [send_packet] hands to [sendto]: the two addresses, the protocol
    and the header. *)
Definition frame_of (dest_mac src_mac : bytes) (h : frame_head) : bytes :=
  take 6 dest_mac ++ take 6 src_mac ++ put_u16 proto ++ encode_head h ++ heap.

Definition send_packet (dest_mac src_mac : bytes) (if_index : Z) (h : frame_head) : Odr unit :=
  emit (SendFrame if_index (frame_of dest_mac src_mac h)).

Definition send_rreq (b_id h_count : Z) (src dest : bytes) (force : Z) : Odr unit :=
  l ← gets serv;
  foreach l (λ d,
    h ← required BadCopy (populate_frame_header src dest h_count b_id rreq force);
    send_packet b_mac (sd_mac d) (sd_index d) h).

(** The row [table.row[i]]. *)
Definition table_row (i : Z) : Odr routing_table_row :=
  t ← gets table;
  if i <? 0 then fail BadIndex else required BadIndex (t !! Z.to_nat i).

(** [send_rrep]; the route back is looked up without checking that it exists. *)
Definition send_rrep (b_id h_count : Z) (dest src : bytes) : Odr unit :=
  t ← gets table;
  let t_i := get_row_entry t dest in
  l ← gets serv;
  foreach l (λ d,
    h ← required BadCopy (populate_frame_header src dest h_count b_id rrep 0);
    r ← table_row t_i;
    send_packet (next_hop_mac r) (sd_mac d) (sd_index d) h).

Definition send_payload (src dest : bytes) (payload : Z) (m : bytes) (force : Z) : Odr unit :=
  t ← gets table;
  let t_i := get_row_entry t dest in
  l ← gets serv;
  bid ← gets broadcast_id;
  if t_i =? -1 then
    foreach l (λ d, send_rreq bid 1 (sd_ip d) dest force)
  else
    foreach l (λ d,
      r ← table_row t_i;
      h ← required BadCopy (populate_frame_header src dest (row_hop_count r) bid payload force);
      h ← required BadCopy (set_msg h m);
      send_packet (next_hop_mac r) (sd_mac d) (sd_index d) h).

Definition send_to_client (m : bytes) (p : peer_info) : Odr unit :=
  port ← required BadCopy (text_of (src_port p));
  path ← required BadCopy (strcpy (zeros 108) port);
  d ← required BadCopy (msg_send hostname (str "dst_ip") (str "dst_port") (str "srcip")
                          (str "srcport") m 0);
  emit (SendLocal (cstr path) d).

(** [get_data_from_server]: ask the local server and wait for a datagram, whose
    text becomes the header's message; [reply] is what the array [recvline] holds
    then: the datagram and, behind a short one, what was there before. *)
Definition get_data_from_server (h : frame_head) (vm reply : bytes) : Odr frame_head :=
  b ← required BadCopy (strcpy (zeros 50) (dec_d (bc_id h)));
  b ← required BadCopy (strcat b (str "#"));
  b ← required BadCopy (strcat b vm);
  d ← required BadCopy (msg_send hostname (str "dst_ip") (str "dst_port") (str "srcip")
                          (str "srcport") b 0);
  emit (SendLocal DOMAIN_SOCK_PATH d) ≫= λ _,
  pinfo ← required BadIndex (peer_info_in reply);
  m ← required BadCopy (text_of (pi_msg pinfo));
  required BadCopy (set_msg h m).

(** The loop over the waiting requests when a response arrives: the first one
    for the sender's address is answered and its element freed. *)
Definition answer_client (h : frame_head) : Odr unit :=
  b ← gets buffer;
  let i := find_index (λ e, streq (src_ip h) (pi_dest_ip (sb_peer_info e)) &&
                            negb (sb_count e =? 0)) b in
  match b !! i with
  | None => mret tt
  | Some e =>
      send_to_client (msg h) (sb_peer_info e) ≫= λ _,
      modify (set_buffer (<[i := mk_server_buf (sb_peer_info e) 0]> b))
  end.

(** The part of [process_frame] that learns the route back to the source;
    [true] when the table was updated. *)
Definition learn_route (h : frame_head) (src_mac : bytes) (now : Z) : Odr bool :=
  s ← gets id;
  if negb (type h =? payload_req) && negb (type h =? payload_resp) &&
     (should_update_rt (table s) h =? 1) && (source_ip_cmp (src_ip h) (serv s) =? -1) then
    t ← required BadIndex (update_routing_table (table s) h src_mac now);
    modify (set_table t) ≫= λ _, mret true
  else mret false.

Definition process_rreq (h : frame_head) (update : bool) : Odr unit :=
  s ← gets id;
  let index := source_ip_cmp (dest_ip h) (serv s) in
  let row_entry := get_row_entry (table s) (dest_ip h) in
  when ((index =? -1) && (row_entry =? -1) && update)
    (send_rreq (bc_id h) (i32 (hop_count h + 1)) (src_ip h) (dest_ip h) (force_flag h)) ≫= λ _,
  when (negb (index =? -1) || negb (row_entry =? -1))
    (send_rrep (bc_id h) 1 (src_ip h) (dest_ip h)).

Definition process_rrep (h : frame_head) : Odr unit :=
  s ← gets id;
  if negb (source_ip_cmp (dest_ip h) (serv s) =? -1)
  then send_payload (dest_ip h) (src_ip h) payload_req (str " ") 0
  else send_rrep (bc_id h) (i32 (hop_count h + 1)) (dest_ip h) (src_ip h).

Definition process_payload (h : frame_head) (reply : bytes) : Odr unit :=
  s ← gets id;
  let t_i := get_row_entry (table s) (dest_ip h) in
  if negb (source_ip_cmp (dest_ip h) (serv s) =? -1) then
    if type h =? payload_req then
      vm ← required BadCopy (ip_to_vm (src_ip h) (zeros 10));
      h ← get_data_from_server h vm reply;
      send_payload (dest_ip h) (src_ip h) payload_resp (msg h) 0
    else answer_client h
  else if negb (t_i =? -1) then send_payload (src_ip h) (dest_ip h) (type h) (msg h) 0
  else mret tt.

(** [process_frame] on a frame, with the time and the local server's reply. *)
Definition process_frame (frame : bytes) (now : Z) (reply : bytes) : Odr unit :=
  let src_mac := slice 6 6 frame in
  let h := decode_head (slice 14 sizeof_frame_head frame) in
  update ← learn_route h src_mac now;
  if type h =? rreq then process_rreq h update
  else if type h =? rrep then process_rrep h
  else if (type h =? payload_req) || (type h =? payload_resp) then process_payload h reply
  else mret tt.

(** A request of a local client, in the array [output_client]; its address is
    read as a string for the first time by the [printf]. *)
Definition client_request (output_client : bytes) : Odr unit :=
  modify (λ s, mk_odr (serv s) (table s) (i32 (broadcast_id s + 1))
                 (i32 (packet_counter s + 1)) (buffer s)) ≫= λ _,
  p ← required BadIndex (peer_info_in output_client);
  dest ← required BadCopy (text_of (pi_dest_ip p));
  b ← gets buffer;
  b ← required BadIndex (push_data_to_buf b p);
  modify (set_buffer b) ≫= λ _,
  l ← gets serv;
  foreach l (λ d,
    when (flag p =? 1) (modify (set_table init_routing_table)) ≫= λ _,
    send_payload (sd_ip d) dest payload_req (str " ") (flag p)).

(** The [output] array after [bzero] and [Recvfrom]. *)
Definition recv_frame (frame : bytes) : bytes :=
  take ETH_FRAME_LEN (frame ++ zeros ETH_FRAME_LEN).

(** What ends a [Select]: a frame, with the time and what [recvline] holds if the
    local server is asked; a datagram of a client, given by what the array
    [output_client] holds after [Recvfrom], which behind a short datagram is
    whatever the stack held; or the time-out. *)
Inductive odr_event :=
| RawFrame (frame : bytes) (now : Z) (reply : bytes)
| LocalDgram (output_client : bytes)
| Stale.

(** One turn of [main]'s loop. *)
Definition odr_turn (e : odr_event) : Odr unit :=
  match e with
  | RawFrame frame now reply => process_frame (recv_frame frame) now reply
  | LocalDgram d => client_request d
  | Stale => modify (set_table init_routing_table)
  end.
End odr.

(** [main] before its loop. *)
Definition odr_start (serv : list server_details) : odr :=
  mk_odr serv init_routing_table 1 0 init_buffer.
