(* ===== verification/OdrProps.v ===== *)
(** * What a router does with a frame (properties of hw3/odr.c) *)

From Stdlib Require Import Strings.Byte.
From S2P Require Import Prelude.
From S2P Require Import CMem.
From S2P Require Import CText.
From S2P Require Import OdrMsg.
From S2P Require Import OdrTable.
From S2P Require Import Odr.

Section frames.
Context (hostname : bytes) (proto : Z) (heap : bytes).

(** ** Frames *)

Lemma frame_header d s h :
  length d = 6%nat → length s = 6%nat → head_ok h →
  slice 6 6 (frame_of proto heap d s h) = s ∧
  decode_head (slice 14 sizeof_frame_head (frame_of proto heap d s h)) = h.
Proof.
  intros Hd Hs Hh. unfold frame_of. rewrite !firstn_all2 by lia.
  rewrite (slice_later 6 6) by (done || lia). cbn [Nat.sub].
  rewrite slice_here by done. split; [done|].
  rewrite (slice_later 6 14) by (done || lia). cbn [Nat.sub].
  rewrite (slice_later 6 8) by (done || lia). cbn [Nat.sub].
  rewrite (slice_later 2 2) by (apply put_u16_length || lia). cbn [Nat.sub].
  rewrite slice_here by by apply length_encode_head.
  rewrite <- (app_nil_r (encode_head h)). by apply decode_encode_head.
Qed.

Lemma length_frame_of d s h :
  length d = 6%nat → length s = 6%nat → head_ok h → (length heap = ETH_FRAME_LEN - 170)%nat →
  length (frame_of proto heap d s h) = ETH_FRAME_LEN.
Proof.
  intros Hd Hs Hh Hp. unfold frame_of. rewrite !firstn_all2 by lia.
  rewrite !length_app, length_encode_head, put_u16_length, Hd, Hs, Hp by done. done.
Qed.

Lemma recv_frame_full f : length f = ETH_FRAME_LEN → recv_frame f = f.
Proof. intros H. unfold recv_frame. rewrite <- H. apply take_app_length. Qed.

(** ** Addresses *)

(** Whether an address is one of the router's own. *)
Definition own (ip : bytes) (l : list server_details) : bool :=
  existsb (λ d, streq (sd_ip d) ip) l.

Lemma source_ip_loop_found ip l i found :
  0 <= i → 0 <= found → 0 <= source_ip_loop ip l i found.
Proof.
  revert i found. induction l as [|d l IH]; intros i found Hi Hf; cbn; [done|].
  apply IH; [lia|]. by destruct (streq (sd_ip d) ip).
Qed.

Lemma source_ip_loop_own ip l i :
  0 <= i → (source_ip_loop ip l i (-1) =? -1) = negb (own ip l).
Proof.
  revert i. induction l as [|d l IH]; intros i Hi; cbn; [done|].
  destruct (streq (sd_ip d) ip); cbn; [|apply IH; lia].
  pose proof (source_ip_loop_found ip l (i + 1) i). apply Z.eqb_neq. lia.
Qed.

Lemma source_ip_cmp_own ip l : (source_ip_cmp ip l =? -1) = negb (own ip l).
Proof. by apply source_ip_loop_own. Qed.

(** ** Sending *)

(** The same header on every interface. *)
Definition flood (mac : bytes) (h : frame_head) (l : list server_details) : list odr_out :=
  map (λ d, SendFrame (sd_index d) (frame_of proto heap mac (sd_mac d) h)) l.

Lemma send_rreq_eq b_id hc src dest force h st :
  populate_frame_header src dest hc b_id rreq force = Some h →
  send_rreq proto heap b_id hc src dest force st = (flood b_mac h (serv st), Ret tt st).
Proof.
  intros E. unfold send_rreq, flood. unfold mbind at 1, M_bind at 1, gets at 1.
  rewrite (foreach_map _ _ (λ d, SendFrame (sd_index d) (frame_of proto heap b_mac (sd_mac d) h)));
    [done|]. intros d _. by rewrite E.
Qed.

Lemma table_row_route ip r st :
  route (table st) ip = Some r → table_row (get_row_entry (table st) ip) st = ([], Ret r st).
Proof.
  unfold route. destruct (Z.eqb_spec (get_row_entry (table st) ip) (-1)) as [E|E]; [done|]. intros Hr.
  unfold table_row, mbind, M_bind, gets.
  destruct (get_row_entry_range (table st) ip) as [?|?]; [done|].
  rewrite (proj2 (Z.ltb_ge _ _)) by lia. by rewrite Hr.
Qed.

Lemma send_rrep_eq b_id hc dest src h r st :
  populate_frame_header src dest hc b_id rrep 0 = Some h → route (table st) dest = Some r →
  send_rrep proto heap b_id hc dest src st = (flood (next_hop_mac r) h (serv st), Ret tt st).
Proof.
  intros E Hr. unfold send_rrep, flood.
  unfold mbind at 1, M_bind at 1, gets at 1. unfold mbind at 1, M_bind at 1, gets at 1.
  rewrite (foreach_map _ _ (λ d, SendFrame (sd_index d) (frame_of proto heap (next_hop_mac r) (sd_mac d) h)));
    [done|]. intros d _. rewrite E. unfold mbind at 1, M_bind at 1. cbn [required mret M_ret].
  unfold mbind, M_bind. by rewrite (table_row_route dest r st Hr).
Qed.

(** Without a route back the table is read outside its bounds. *)
Lemma send_rrep_faults b_id hc dest src h st :
  populate_frame_header src dest hc b_id rrep 0 = Some h → get_row_entry (table st) dest = -1 →
  serv st ≠ [] → send_rrep proto heap b_id hc dest src st = ([], Fault BadIndex).
Proof.
  intros E Hr Hs. unfold send_rrep.
  unfold mbind at 1, M_bind at 1, gets at 1. unfold mbind at 1, M_bind at 1, gets at 1.
  destruct (serv st) as [|d l]; [done|]. cbn [foreach]. rewrite E, Hr. done.
Qed.

Lemma send_payload_eq src dest ty m force r h h' st :
  route (table st) dest = Some r →
  populate_frame_header src dest (row_hop_count r) (broadcast_id st) ty force = Some h →
  set_msg h m = Some h' →
  send_payload proto heap src dest ty m force st = (flood (next_hop_mac r) h' (serv st), Ret tt st).
Proof.
  intros Hr E Em. unfold send_payload, flood.
  do 3 (unfold mbind at 1, M_bind at 1, gets at 1).
  assert (get_row_entry (table st) dest ≠ -1) as Hne
    by (unfold route in Hr; by destruct (Z.eqb_spec (get_row_entry (table st) dest) (-1))).
  rewrite (proj2 (Z.eqb_neq _ _) Hne).
  rewrite (foreach_map _ _ (λ d, SendFrame (sd_index d) (frame_of proto heap (next_hop_mac r) (sd_mac d) h')));
    [done|]. intros d _. unfold mbind at 1, M_bind at 1. rewrite (table_row_route dest r st Hr).
  rewrite E. unfold mbind at 1, M_bind at 1. cbn [required mret M_ret]. by rewrite Em.
Qed.

(** ** Receiving *)

(** A header whose strings are terminated and whose source has a name. *)
Record hdr_ok (h : frame_head) : Prop := {
  hd_head : head_ok h;
  hd_src : fits IP_LEN (src_ip h);
  hd_dest : fits IP_LEN (dest_ip h);
  hd_msg : fits HDR_MSG_LEN (msg h);
  hd_named : cstr (src_ip h) ≠ []
}.

Definition control (h : frame_head) : Prop := type h = rreq ∨ type h = rrep.
Definition improves (t : routing_table) (h : frame_head) : bool := should_update_rt t h =? 1.

Definition room (t : routing_table) (h : frame_head) : Prop :=
  route t (src_ip h) = None → (entries t < ROUTING_TABLE_SIZE)%nat.

Lemma set_table_id st : set_table (table st) st = st.
Proof. by destruct st. Qed.

Lemma learn_route_spec h mac now st :
  table_ok (table st) → cstr (src_ip h) ≠ [] → control h → own (src_ip h) (serv st) = false →
  room (table st) h →
  ∃ t' r, learn_route h mac now st = ([], Ret (improves (table st) h) (set_table t' st)) ∧
    table_ok t' ∧ route t' (src_ip h) = Some r ∧
    (if improves (table st) h
     then update_routing_table (table st) h mac now = Some t' else t' = table st).
Proof.
  intros Ht Hn Hc Ho Hroom. unfold learn_route.
  unfold mbind at 1, M_bind at 1, gets at 1. cbn [id].
  rewrite source_ip_cmp_own, Ho, andb_true_r. fold (improves (table st) h).
  rewrite (proj2 (Z.eqb_neq (type h) payload_req)), (proj2 (Z.eqb_neq (type h) payload_resp))
    by (destruct Hc as [-> | ->]; done). cbn [negb andb].
  destruct (improves (table st) h) eqn:Ei.
  - destruct (update_spec (table st) h mac now Ht Hn Hroom) as (t' & E & Ht' & Hr & _).
    exists t'. eexists. rewrite E. split; [reflexivity|]. split; [done|]. split; [|done].
    rewrite Hr by done. by rewrite decide_True.
  - assert (is_Some (route (table st) (src_ip h))) as [r Hr].
    { destruct (route (table st) (src_ip h)) eqn:Er; [done|]. exfalso.
      apply Z.eqb_neq in Ei. apply Ei, should_update_iff; [done..|]. by rewrite Er. }
    exists (table st), r. rewrite set_table_id. by split_and!.
Qed.

(** What a router sends for a route request, from the table after learning:
    a reply along the way back when the destination is its own or known, the
    request itself one hop further when it was news, else nothing. *)
Definition rreq_output (t' : routing_table) (l : list server_details) (news : bool) (h hrep hreq : frame_head)
    (r : routing_table_row) : list odr_out :=
  if own (dest_ip h) l || negb (get_row_entry t' (dest_ip h) =? -1) then flood (next_hop_mac r) hrep l
  else if news then flood b_mac hreq l else [].

Lemma process_rreq_eq h st news hrep hreq r :
  populate_frame_header (dest_ip h) (src_ip h) 1 (bc_id h) rrep 0 = Some hrep →
  populate_frame_header (src_ip h) (dest_ip h) (i32 (hop_count h + 1)) (bc_id h) rreq (force_flag h)
    = Some hreq →
  route (table st) (src_ip h) = Some r →
  process_rreq proto heap h news st = (rreq_output (table st) (serv st) news h hrep hreq r, Ret tt st).
Proof.
  intros Erep Ereq Hr. unfold process_rreq, rreq_output.
  unfold mbind at 1, M_bind at 1, gets at 1. cbn [id].
  rewrite source_ip_cmp_own, !negb_involutive.
  destruct (own (dest_ip h) (serv st)); cbn [negb andb orb when];
    [|destruct (get_row_entry (table st) (dest_ip h) =? -1); cbn [negb andb orb when]].
  - unfold mbind, M_bind, mret, M_ret. by rewrite (send_rrep_eq _ _ _ _ _ _ _ Erep Hr).
  - destruct news; cbn [when]; unfold mbind, M_bind, mret, M_ret; [|done].
    rewrite (send_rreq_eq _ _ _ _ _ _ _ Ereq). by rewrite app_nil_r.
  - unfold mbind, M_bind, mret, M_ret. by rewrite (send_rrep_eq _ _ _ _ _ _ _ Erep Hr).
Qed.

Lemma populate_from_frame h hops b ty f :
  hdr_ok h → is_i32 hops → is_i32 b → is_i32 ty → is_i32 f →
  (∃ h', populate_frame_header (dest_ip h) (src_ip h) hops b ty f = Some h') ∧
  (∃ h', populate_frame_header (src_ip h) (dest_ip h) hops b ty f = Some h').
Proof.
  intros [_ Hs Hd _ _] ? ? ? ?. split.
  - destruct (populate_ok (dest_ip h) (src_ip h) hops b ty f) as (h' & E & _); eauto.
  - destruct (populate_ok (src_ip h) (dest_ip h) hops b ty f) as (h' & E & _); eauto.
Qed.

Lemma process_frame_head d mac h now reply st :
  length d = 6%nat → length mac = 6%nat → head_ok h →
  process_frame hostname proto heap (frame_of proto heap d mac h) now reply st =
  (update ← learn_route h mac now;
   if type h =? rreq then process_rreq proto heap h update
   else if type h =? rrep then process_rrep proto heap h
   else if (type h =? payload_req) || (type h =? payload_resp)
   then process_payload hostname proto heap h reply
   else mret tt) st.
Proof.
  intros Hd Hs Hh. unfold process_frame. destruct (frame_header d mac h Hd Hs Hh) as [-> ->]. done.
Qed.

Lemma rreq_run h d mac now reply st :
  hdr_ok h → type h = rreq → length d = 6%nat → length mac = 6%nat → table_ok (table st) →
  own (src_ip h) (serv st) = false → room (table st) h →
  ∃ t' r hrep hreq,
    process_frame hostname proto heap (frame_of proto heap d mac h) now reply st =
      (rreq_output t' (serv st) (improves (table st) h) h hrep hreq r, Ret tt (set_table t' st)) ∧
    table_ok t' ∧ route t' (src_ip h) = Some r ∧
    (if improves (table st) h
     then update_routing_table (table st) h mac now = Some t' else t' = table st) ∧
    populate_frame_header (dest_ip h) (src_ip h) 1 (bc_id h) rrep 0 = Some hrep ∧
    populate_frame_header (src_ip h) (dest_ip h) (i32 (hop_count h + 1)) (bc_id h) rreq (force_flag h)
      = Some hreq.
Proof.
  intros Hh Hty Hd Hm Ht Ho Hroom. pose proof (hd_head _ Hh) as Hhead.
  destruct (learn_route_spec h mac now st Ht (hd_named _ Hh) (or_introl Hty) Ho Hroom)
    as (t' & r & E & Ht' & Hr & Hup).
  destruct (populate_from_frame h 1 (bc_id h) rrep 0 Hh) as [[hrep Erep] _];
    [by vm_compute|apply Hhead|by vm_compute|by vm_compute|].
  destruct (populate_from_frame h (i32 (hop_count h + 1)) (bc_id h) rreq (force_flag h) Hh)
    as [_ [hreq Ereq]]; [apply i32_range|apply Hhead|by vm_compute|apply Hhead|].
  exists t', r, hrep, hreq. split; [|by split_and!].
  rewrite process_frame_head by done. unfold mbind, M_bind. rewrite E, Hty.
  change (rreq =? rreq) with true. cbn [app].
  by rewrite (process_rreq_eq h (set_table t' st) _ hrep hreq r Erep Ereq Hr).
Qed.

(** ** Answers to a route reply *)

Lemma rrep_run h d mac now reply st :
  hdr_ok h → type h = rrep → length d = 6%nat → length mac = 6%nat → table_ok (table st) →
  own (src_ip h) (serv st) = false → room (table st) h → is_i32 (broadcast_id st) →
  (∀ r, route (table st) (src_ip h) = Some r → is_i32 (row_hop_count r)) →
  own (dest_ip h) (serv st) = true →
  ∃ t' r hpay,
    process_frame hostname proto heap (frame_of proto heap d mac h) now reply st =
      (flood (next_hop_mac r) hpay (serv st), Ret tt (set_table t' st)) ∧
    table_ok t' ∧ route t' (src_ip h) = Some r ∧
    (if improves (table st) h
     then update_routing_table (table st) h mac now = Some t' else t' = table st) ∧
    type hpay = payload_req ∧ cstr (src_ip hpay) = cstr (dest_ip h) ∧
    cstr (dest_ip hpay) = cstr (src_ip h).
Proof.
  intros Hh Hty Hd Hm Ht Ho Hroom Hbid Hhops Hown. pose proof (hd_head _ Hh) as Hhead.
  destruct (learn_route_spec h mac now st Ht (hd_named _ Hh) (or_intror Hty) Ho Hroom)
    as (t' & r & E & Ht' & Hr & Hup).
  assert (is_i32 (row_hop_count r)) as Hri.
  { destruct (improves (table st) h); [|subst t'; by apply Hhops].
    destruct (update_spec (table st) h mac now Ht (hd_named _ Hh) Hroom) as (t2 & E2 & _ & Hr2 & _).
    rewrite Hup in E2. injection E2 as <-. rewrite Hr2, decide_True in Hr by (apply Hh || done).
    injection Hr as <-. destruct (route (table st) (src_ip h)) as [r0|] eqn:Er0; cbn [learn].
    - unfold refresh_row. specialize (Hhops r0 eq_refl).
      destruct (row_broadcast_id r0 <? bc_id h), (hop_count h <? row_hop_count r0); cbn;
        try done; apply Hhead.
    - apply Hhead. }
  destruct (populate_ok (dest_ip h) (src_ip h) (row_hop_count r) (broadcast_id st) payload_req 0)
    as (hp & Ep & Hp & Hps & Hpd & _ & _ & Hpt & _); [apply Hh|apply Hh|done|done|by vm_compute|by vm_compute|].
  destruct (set_msg_ok hp (str " ") Hp) as (hp' & Em & _ & _ & Hs' & Hd' & _ & _ & Ht'' & _);
    [by apply Nat.ltb_lt; vm_compute|].
  exists t', r, hp'. split.
  - rewrite process_frame_head by done. unfold mbind at 1, M_bind at 1. rewrite E, Hty.
    change (rrep =? rreq) with false. change (rrep =? rrep) with true. unfold process_rrep.
    unfold mbind, M_bind, gets. cbn [id set_table serv]. rewrite source_ip_cmp_own, Hown. cbn [negb].
    by rewrite (send_payload_eq _ _ _ _ _ r hp hp').
  - rewrite Hs', Hd', Ht''. by split_and!.
Qed.

(** A reply for another router: forwarded if the way to it is known, otherwise
    row -1 of the table is used. *)
Lemma rrep_forward_run h d mac now reply st :
  hdr_ok h → type h = rrep → length d = 6%nat → length mac = 6%nat → table_ok (table st) →
  own (src_ip h) (serv st) = false → room (table st) h →
  own (dest_ip h) (serv st) = false → serv st ≠ [] →
  ∃ t' hfwd, table_ok t' ∧
    (if improves (table st) h
     then update_routing_table (table st) h mac now = Some t' else t' = table st) ∧
    type hfwd = rrep ∧ cstr (src_ip hfwd) = cstr (src_ip h) ∧ cstr (dest_ip hfwd) = cstr (dest_ip h) ∧
    hop_count hfwd = i32 (hop_count h + 1) ∧ bc_id hfwd = bc_id h ∧
    process_frame hostname proto heap (frame_of proto heap d mac h) now reply st =
      match route t' (dest_ip h) with
      | Some rd => (flood (next_hop_mac rd) hfwd (serv st), Ret tt (set_table t' st))
      | None => ([], Fault BadIndex)
      end.
Proof.
  intros Hh Hty Hd Hm Ht Ho Hroom Hown Hserv. pose proof (hd_head _ Hh) as Hhead.
  destruct (learn_route_spec h mac now st Ht (hd_named _ Hh) (or_intror Hty) Ho Hroom)
    as (t' & r & E & Ht' & Hr & Hup).
  destruct (populate_ok (src_ip h) (dest_ip h) (i32 (hop_count h + 1)) (bc_id h) rrep 0)
    as (hp & Ep & Hp & Hps & Hpd & Hph & Hpb & Hpt & _);
    [apply Hh|apply Hh|apply i32_range|apply Hhead|by vm_compute|by vm_compute|].
  exists t', hp. split_and!; try done.
  rewrite process_frame_head by done. unfold mbind at 1, M_bind at 1. rewrite E, Hty.
  change (rrep =? rreq) with false. change (rrep =? rrep) with true. unfold process_rrep.
  unfold mbind, M_bind, gets. cbn [id set_table serv]. rewrite source_ip_cmp_own, Hown. cbn [negb].
  destruct (route t' (dest_ip h)) as [rd|] eqn:Hrd.
  - by rewrite (send_rrep_eq _ _ _ _ hp rd).
  - rewrite (send_rrep_faults _ _ _ _ hp); [done|done| |done].
    unfold route in Hrd. destruct (Z.eqb_spec (get_row_entry t' (dest_ip h)) (-1)) as [?|Hne]; [done|].
    destruct (get_row_entry_Some t' _ _ eq_refl Hne) as (q & Hq & _). by rewrite Hq in Hrd.
Qed.

(** A request that comes back to the router it started from, for a destination
    that is the router's own or in its table. *)
Lemma own_echo_run h d mac now reply st :
  hdr_ok h → type h = rreq → length d = 6%nat → length mac = 6%nat →
  own (src_ip h) (serv st) = true → get_row_entry (table st) (src_ip h) = -1 →
  own (dest_ip h) (serv st) = true ∨ get_row_entry (table st) (dest_ip h) ≠ -1 →
  process_frame hostname proto heap (frame_of proto heap d mac h) now reply st = ([], Fault BadIndex).
Proof.
  intros Hh Hty Hd Hm Ho Hr Hdest. pose proof (hd_head _ Hh) as Hhead.
  destruct (populate_from_frame h 1 (bc_id h) rrep 0 Hh) as [[hrep Erep] _];
    [by vm_compute|apply Hhead|by vm_compute|by vm_compute|].
  rewrite process_frame_head by done. unfold mbind at 1, M_bind at 1, learn_route.
  unfold mbind at 1, M_bind at 1, gets at 1. cbn [id]. rewrite source_ip_cmp_own, Ho, andb_false_r.
  cbn [mret M_ret]. rewrite Hty. change (rreq =? rreq) with true. unfold process_rreq.
  unfold mbind at 1, M_bind at 1, gets at 1. cbn [id]. rewrite source_ip_cmp_own, negb_involutive, andb_false_r.
  cbn [when]. unfold mbind, M_bind. cbn [mret M_ret].
  replace (own (dest_ip h) (serv st) || _) with true.
  - cbn [when]. rewrite (send_rrep_faults _ _ _ _ hrep); [done..|].
    intros Hs. by rewrite Hs in Ho.
  - destruct Hdest as [-> | Hne]; [done|]. rewrite (proj2 (Z.eqb_neq _ _) Hne). by rewrite orb_true_r.
Qed.

(** ** Payloads *)

Lemma learn_route_payload h mac now st :
  type h = payload_req ∨ type h = payload_resp → learn_route h mac now st = ([], Ret false st).
Proof.
  intros Hty. unfold learn_route. unfold mbind at 1, M_bind at 1, gets at 1. cbn [id].
  destruct Hty as [-> | ->]; done.
Qed.

Lemma process_frame_payload d mac h now reply st :
  length d = 6%nat → length mac = 6%nat → head_ok h → type h = payload_req ∨ type h = payload_resp →
  process_frame hostname proto heap (frame_of proto heap d mac h) now reply st =
  process_payload hostname proto heap h reply st.
Proof.
  intros Hd Hm Hh Hty. rewrite process_frame_head by done. unfold mbind, M_bind.
  rewrite learn_route_payload by done.
  destruct Hty as [-> | ->]; cbn; by destruct (process_payload hostname proto heap h reply st).
Qed.

(** A payload for another router goes on to the next hop with its addresses,
    kind and text unchanged. *)
Lemma payload_forward_run h d mac now reply st r :
  hdr_ok h → type h = payload_req ∨ type h = payload_resp → length d = 6%nat → length mac = 6%nat →
  own (dest_ip h) (serv st) = false → route (table st) (dest_ip h) = Some r →
  is_i32 (row_hop_count r) → is_i32 (broadcast_id st) →
  ∃ h', process_frame hostname proto heap (frame_of proto heap d mac h) now reply st =
      (flood (next_hop_mac r) h' (serv st), Ret tt st) ∧
    type h' = type h ∧ cstr (src_ip h') = cstr (src_ip h) ∧ cstr (dest_ip h') = cstr (dest_ip h) ∧
    cstr (msg h') = cstr (msg h).
Proof.
  intros Hh Hty Hd Hm Ho Hr Hri Hbi. pose proof (hd_head _ Hh) as Hhead.
  destruct (populate_ok (src_ip h) (dest_ip h) (row_hop_count r) (broadcast_id st) (type h) 0)
    as (hp & Ep & Hp & Hps & Hpd & _ & _ & Hpt & _); [apply Hh|apply Hh|done|done|apply Hhead|by vm_compute|].
  destruct (set_msg_ok hp (msg h) Hp (hd_msg _ Hh)) as (h' & Em & _ & Hm' & Hs' & Hd' & _ & _ & Ht' & _).
  exists h'. rewrite Hs', Hd', Ht'. split; [|by split_and!].
  rewrite process_frame_payload by done. unfold process_payload.
  unfold mbind, M_bind, gets. cbn [id]. rewrite source_ip_cmp_own, Ho. cbn [negb].
  assert (get_row_entry (table st) (dest_ip h) ≠ -1) as Hne
    by (unfold route in Hr; by destruct (Z.eqb_spec (get_row_entry (table st) (dest_ip h)) (-1))).
  rewrite (proj2 (Z.eqb_neq _ _) Hne). cbn [negb].
  by rewrite (send_payload_eq _ _ _ _ _ r hp h').
Qed.

(** ** Responses *)

(** The path of the client a response goes to is terminated. *)
Definition port_ok (p : peer_info) : Prop :=
  text_of (src_port p) = Some (src_port p) ∧ length (src_port p) = PORT_LEN.

(** The request a response from [ip] answers. *)
Definition waiting_for (ip : bytes) (e : server_buf) : bool :=
  streq ip (pi_dest_ip (sb_peer_info e)) && negb (sb_count e =? 0).

Lemma process_payload_resp h reply st :
  own (dest_ip h) (serv st) = true → type h = payload_resp →
  process_payload hostname proto heap h reply st = answer_client hostname h st.
Proof.
  intros Ho Hty. unfold process_payload, mbind, M_bind, gets. cbn [id].
  rewrite source_ip_cmp_own, Ho, Hty. cbn. by destruct (answer_client hostname h st).
Qed.

Lemma response_run h d mac now reply st :
  hdr_ok h → type h = payload_resp → length d = 6%nat → length mac = 6%nat →
  own (dest_ip h) (serv st) = true → fits MAX_MSG_LEN (msg h) →
  Forall (λ e, port_ok (sb_peer_info e)) (buffer st) →
  match buffer st !! find_index (waiting_for (src_ip h)) (buffer st) with
  | None =>
      process_frame hostname proto heap (frame_of proto heap d mac h) now reply st = ([], Ret tt st)
  | Some e => ∃ dg,
      process_frame hostname proto heap (frame_of proto heap d mac h) now reply st =
        ([SendLocal (cstr (src_port (sb_peer_info e))) dg],
         Ret tt (set_buffer (<[find_index (waiting_for (src_ip h)) (buffer st) :=
                               mk_server_buf (sb_peer_info e) 0]> (buffer st)) st)) ∧
      cstr (pi_msg (decode_peer_info dg)) = cstr (msg h)
  end.
Proof.
  intros Hh Hty Hd Hm Ho Hmsg Hports. pose proof (hd_head _ Hh) as Hhead.
  rewrite process_frame_payload, process_payload_resp by eauto. unfold answer_client.
  unfold mbind at 1 3, M_bind at 1 3, gets. fold (waiting_for (src_ip h)).
  destruct (buffer st !! find_index (waiting_for (src_ip h)) (buffer st)) as [e|] eqn:Ee; [|done].
  destruct (Forall_lookup_1 _ _ _ _ Hports Ee) as [Ht Hp].
  destruct (strcpy_zeros 108 (src_port (sb_peer_info e))) as (path & Epath & _ & Cpath).
  { unfold fits. pose proof (length_cstr (src_port (sb_peer_info e))). unfold PORT_LEN in *. lia. }
  destruct (msg_send_ok hostname (str "dst_ip") (str "dst_port") (str "srcip") (str "srcport") (msg h) 0)
    as (dg & Edg & _ & Hdg);
    [apply Nat.ltb_lt; by vm_compute|apply Nat.ltb_lt; by vm_compute|apply Nat.ltb_lt; by vm_compute|done
    |by vm_compute|].
  exists dg. split.
  - unfold send_to_client, mbind, M_bind. rewrite Ht. cbn [required mret M_ret]. rewrite Epath. cbn [required mret M_ret]. rewrite Edg.
    cbn [required mret M_ret emit]. by rewrite Cpath.
  - specialize (Hdg []). rewrite app_nil_r in Hdg. apply Hdg.
Qed.

(** ** Floods end *)

(** A frame that reaches a router: its header, the addresses it carries, the
    time and the local server's reply. *)
Record arrival := mk_arrival { ar_head : frame_head; ar_dest : bytes; ar_mac : bytes; ar_now : Z; ar_reply : bytes }.

(** Frames handled one after the other. *)
Definition hear_all (fs : list arrival) : M odr odr_out unit :=
  foreach fs (λ f, process_frame hostname proto heap (frame_of proto heap (ar_dest f) (ar_mac f) (ar_head f))
                     (ar_now f) (ar_reply f)).

(** A route request among the outputs. *)
Definition passed_on (o : odr_out) : bool :=
  match o with
  | SendFrame _ f => type (decode_head (slice 14 sizeof_frame_head f)) =? rreq
  | SendLocal _ _ => false
  end.

Lemma passed_on_flood m h l :
  length m = 6%nat → head_ok h → Forall (λ d, length (sd_mac d) = 6%nat) l →
  length (filter passed_on (flood m h l)) = if type h =? rreq then length l else 0%nat.
Proof.
  intros Hm Hh. induction 1 as [|d l Hd _ IH]; cbn [flood map]; [by destruct (_ =? _)|].
  fold (flood m h l). rewrite filter_cons. set (x := SendFrame _ _).
  assert (passed_on x = (type h =? rreq)) as E.
  { unfold x, passed_on. by destruct (frame_header m (sd_mac d) h Hm Hd Hh) as [_ ->]. }
  destruct (type h =? rreq).
  - rewrite decide_True by (rewrite E; exact I). cbn [length]. by rewrite IH.
  - rewrite decide_False by (rewrite E; intros []). exact IH.
Qed.

(** How much can still be learnt from copies of request [b] from [ip] with at
    most [H] hops. *)
Definition news_left (ip : bytes) (b H : Z) (t : routing_table) : Z :=
  match route t ip with
  | None => H + 2
  | Some r =>
      if row_broadcast_id r <? b then H + 2
      else if H <? row_hop_count r then H + 1 else Z.max 0 (row_hop_count r)
  end.

Lemma news_left_range ip b H t : 0 <= H → 0 <= news_left ip b H t <= H + 2.
Proof.
  intros HH. unfold news_left. destruct (route t ip) as [r|]; [|lia].
  destruct (_ <? b); [lia|]. destruct (Z.ltb_spec H (row_hop_count r)); lia.
Qed.

Lemma news_is_progress h mac now t t' H :
  table_ok t → cstr (src_ip h) ≠ [] → room t h → 0 <= hop_count h <= H →
  improves t h = true → update_routing_table t h mac now = Some t' →
  news_left (src_ip h) (bc_id h) H t' < news_left (src_ip h) (bc_id h) H t.
Proof.
  intros Ht Hn Hroom Hh Himp E.
  destruct (update_spec t h mac now Ht Hn Hroom) as (t2 & E2 & _ & Hr & _).
  rewrite E in E2. injection E2 as <-. apply Z.eqb_eq, should_update_iff in Himp; [|done..].
  unfold news_left. rewrite Hr, decide_True by done.
  destruct (route t (src_ip h)) as [r|]; cbn [learn new_row row_broadcast_id row_hop_count].
  - unfold refresh_row. destruct (Z.ltb_spec (row_broadcast_id r) (bc_id h)).
    + cbn. rewrite Z.ltb_irrefl. destruct (Z.ltb_spec H (row_hop_count r)); lia.
    + destruct Himp as [?|Himp]; [lia|]. rewrite (proj2 (Z.ltb_lt _ _) Himp). cbn.
      rewrite (proj2 (Z.ltb_ge (row_broadcast_id r) (bc_id h))) by lia.
      rewrite (proj2 (Z.ltb_ge H (hop_count h))) by lia.
      destruct (Z.ltb_spec H (row_hop_count r)); lia.
  - rewrite Z.ltb_irrefl. rewrite (proj2 (Z.ltb_ge H (hop_count h))) by lia. lia.
Qed.

(** Once the source is known there is always room for it. *)
Lemma room_known t h r : route t (src_ip h) = Some r → room t h.
Proof. intros Hr. unfold room. by rewrite Hr. Qed.

(** A copy of the request: all name one source and number. *)
Record copy_of (src : bytes) (b H : Z) (f : arrival) : Prop := {
  cp_ok : hdr_ok (ar_head f);
  cp_type : type (ar_head f) = rreq;
  cp_src : src_ip (ar_head f) = src;
  cp_bid : bc_id (ar_head f) = b;
  cp_hops : 0 <= hop_count (ar_head f) <= H;
  cp_dest : length (ar_dest f) = 6%nat;
  cp_mac : length (ar_mac f) = 6%nat
}.

Lemma rreq_output_bound t' l news h hrep hreq r :
  Forall (λ d, length (sd_mac d) = 6%nat) l → length (next_hop_mac r) = 6%nat →
  head_ok hrep → type hrep = rrep → head_ok hreq → type hreq = rreq →
  (length (filter passed_on (rreq_output t' l news h hrep hreq r)) ≤ Nat.b2n news * length l)%nat.
Proof.
  intros Hl Hm Hp Tp Hq Tq. unfold rreq_output. destruct (_ || _).
  - rewrite passed_on_flood by done. rewrite Tp. cbn. lia.
  - destruct news; [|cbn; lia]. rewrite passed_on_flood by done. rewrite Tq. cbn. lia.
Qed.

Definition macs_ok (t : routing_table) (src : bytes) : Prop :=
  ∀ r, route t src = Some r → length (next_hop_mac r) = 6%nat.

Lemma macs_ok_update t h mac now t' :
  table_ok t → cstr (src_ip h) ≠ [] → room t h → macs_ok t (src_ip h) → length mac = 6%nat →
  update_routing_table t h mac now = Some t' → macs_ok t' (src_ip h).
Proof.
  intros Ht Hn Hroom Hm Hl E r Hr. destruct (update_spec t h mac now Ht Hn Hroom) as (t2 & E2 & _ & Hroute & _).
  rewrite E in E2. injection E2 as <-. rewrite Hroute, decide_True in Hr by done. injection Hr as <-.
  destruct (route t (src_ip h)) as [r0|] eqn:Er; [|done]. cbn [learn].
  destruct (refresh_row_same h r0) as (_ & _ & ->). by apply Hm.
Qed.

Lemma hear_all_bounded src b H fs st :
  0 <= H → table_ok (table st) → own src (serv st) = false → macs_ok (table st) src →
  Forall (λ d, length (sd_mac d) = 6%nat) (serv st) → Forall (copy_of src b H) fs →
  (route (table st) src = None → (entries (table st) < ROUTING_TABLE_SIZE)%nat) →
  ∃ o t', hear_all fs st = (o, Ret tt (set_table t' st)) ∧
    Z.of_nat (length (filter passed_on o)) <= news_left src b H (table st) * Z.of_nat (length (serv st)).
Proof.
  intros HH Ht Ho Hm Hl Hf. revert st Ht Ho Hm Hl.
  induction Hf as [|f fs [Hok Hty Hs Hb Hh Hd Hmac] Hf IH]; intros st Ht Ho Hm Hl Hroom.
  { exists [], (table st). rewrite set_table_id. split; [done|]. pose proof (news_left_range src b H (table st) HH). cbn. nia. }
  subst src b.
  destruct (rreq_run (ar_head f) (ar_dest f) (ar_mac f) (ar_now f) (ar_reply f) st Hok Hty Hd Hmac Ht Ho Hroom)
    as (t1 & r & hrep & hreq & E & Ht1 & Hr & Hup & Ep & Eq).
  assert (macs_ok t1 (src_ip (ar_head f))) as Hm1.
  { destruct (improves _ _); [|by subst t1]. by eapply macs_ok_update; [..|exact Hup]; try done; apply Hok. }
  destruct (IH (set_table t1 st)) as (o & t' & E' & Hle); [done|done|done|done|cbn; by rewrite Hr|].
  cbn [set_table table serv] in Hle.
  unfold hear_all in *. cbn [foreach]. unfold mbind, M_bind. rewrite E. rewrite E'.
  eexists _, t'. split; [reflexivity|]. rewrite filter_app, length_app.
  destruct (populate_ok (dest_ip (ar_head f)) (src_ip (ar_head f)) 1 (bc_id (ar_head f)) rrep 0)
    as (hp & Ehp & Hhp & _ & _ & _ & _ & Tp & _); [apply Hok|apply Hok|by vm_compute|apply Hok|by vm_compute|by vm_compute|].
  destruct (populate_ok (src_ip (ar_head f)) (dest_ip (ar_head f)) (i32 (hop_count (ar_head f) + 1))
      (bc_id (ar_head f)) rreq (force_flag (ar_head f)))
    as (hq & Ehq & Hhq & _ & _ & _ & _ & Tq & _); [apply Hok|apply Hok|apply i32_range|apply Hok|by vm_compute|apply Hok|].
  rewrite Ep in Ehp. injection Ehp as <-. rewrite Eq in Ehq. injection Ehq as <-.
  pose proof (rreq_output_bound t1 (serv st) (improves (table st) (ar_head f)) (ar_head f) hrep hreq r
    Hl (Hm1 r Hr) Hhp Tp Hhq Tq) as Hout.
  destruct (improves (table st) (ar_head f)) eqn:Hi; cbn [Nat.b2n] in Hout.
  - pose proof (news_is_progress (ar_head f) (ar_mac f) (ar_now f) (table st) t1 H Ht (hd_named _ Hok) Hroom Hh Hi Hup). nia.
  - subst t1. lia.
Qed.
End frames.

(** ** The invariant of a router *)

Record odr_inv (st : odr) : Prop := {
  oi_table : table_ok (table st);
  oi_buffer : length (buffer st) = BUFFER_SIZE
}.

(** A computation that changes nothing. *)
Definition readonly {A} (m : M odr odr_out A) : Prop := ∀ s, wpo True m (λ _ _ s', s' = s) s.

Lemma readonly_bind {A B} (m : M odr odr_out A) (k : A → M odr odr_out B) :
  readonly m → (∀ a, readonly (k a)) → readonly (m ≫= k).
Proof.
  intros Hm Hk s. apply wpo_bind. eapply wpo_mono; [apply Hm|]. cbv beta.
  intros o a s' ->. eapply wpo_mono; [apply Hk|]. by intros.
Qed.

Lemma readonly_gets {A} (f : odr → A) : readonly (gets f).
Proof. by intros s. Qed.
Lemma readonly_emit o : readonly (emit o).
Proof. by intros s. Qed.
Lemma readonly_ret {A} (a : A) : readonly (mret a).
Proof. by intros s. Qed.
Lemma readonly_required {A} f (o : option A) : readonly (required f o).
Proof. intros s. by destruct o. Qed.
Lemma readonly_foreach {A} (l : list A) body :
  (∀ x, readonly (body x)) → readonly (foreach l body).
Proof.
  intros H. induction l as [|x l IH]; cbn [foreach]; [apply readonly_ret|].
  by apply readonly_bind.
Qed.

Create HintDb odr_ro discriminated.
#[local] Hint Resolve readonly_bind readonly_gets readonly_emit readonly_ret readonly_required
  readonly_foreach : odr_ro.

Section invariant.
Context (hostname : bytes) (proto : Z) (heap : bytes).

Lemma readonly_table_row i : readonly (table_row i).
Proof. apply readonly_bind; [auto with odr_ro|]. intros t s. by destruct (i <? 0); [|destruct (t !! _)]. Qed.

Lemma readonly_rreq b hc src dest f : readonly (send_rreq proto heap b hc src dest f).
Proof. unfold send_rreq, send_packet. auto 10 with odr_ro. Qed.

Lemma readonly_rrep b hc dest src : readonly (send_rrep proto heap b hc dest src).
Proof. unfold send_rrep, send_packet. auto 10 using readonly_table_row with odr_ro. Qed.

Lemma readonly_payload src dest ty m f : readonly (send_payload proto heap src dest ty m f).
Proof.
  unfold send_payload, send_packet.
  apply readonly_bind; [auto with odr_ro|intros t]. apply readonly_bind; [auto with odr_ro|intros l].
  apply readonly_bind; [auto with odr_ro|intros bid].
  destruct (_ =? -1); auto 12 using readonly_rreq, readonly_table_row with odr_ro.
Qed.

Lemma readonly_get_data h vm reply : readonly (get_data_from_server hostname h vm reply).
Proof. unfold get_data_from_server. auto 12 with odr_ro. Qed.

Lemma readonly_to_client m p : readonly (send_to_client hostname m p).
Proof. unfold send_to_client. auto 12 with odr_ro. Qed.

Lemma readonly_rreq_part h news : readonly (process_rreq proto heap h news).
Proof.
  unfold process_rreq. apply readonly_bind; [auto with odr_ro|intros s].
  apply readonly_bind; [|intros _]; (destruct (_ && _) || destruct (_ || _)); cbn [when];
    auto using readonly_rreq, readonly_rrep with odr_ro.
Qed.

Lemma readonly_rrep_part h : readonly (process_rrep proto heap h).
Proof.
  unfold process_rrep. apply readonly_bind; [auto with odr_ro|intros s].
  destruct (negb _); auto using readonly_payload, readonly_rrep.
Qed.

Abbreviation keeps m := (preserves odr_inv m).

Lemma readonly_keeps {A} (m : M odr odr_out A) : readonly m → keeps m.
Proof. intros H s Hs. eapply wpo_mono; [apply H|]. by intros ? ? ? ->. Qed.

Lemma keeps_answer h : keeps (answer_client hostname h).
Proof.
  intros s Hs. unfold answer_client. wpo_step. wpo_step. cbv beta.
  destruct (buffer s !! _) as [e|]; [|by wpo_step]. wpo_step.
  eapply wpo_mono; [apply readonly_to_client|]. cbv beta. intros o _ s' ->. wpo_step.
  destruct Hs. split; [done|]. cbn. by rewrite length_insert.
Qed.

Lemma keeps_payload_part h reply : keeps (process_payload hostname proto heap h reply).
Proof.
  unfold process_payload. apply preserves_bind; [apply readonly_keeps; auto with odr_ro|intros s0].
  destruct (negb _).
  - destruct (type h =? payload_req); [|apply keeps_answer]. apply readonly_keeps.
    apply readonly_bind; [auto with odr_ro|intros vm].
    apply readonly_bind; [apply readonly_get_data|intros h']. apply readonly_payload.
  - destruct (negb _); [apply readonly_keeps, readonly_payload|].
    apply readonly_keeps, readonly_ret.
Qed.

(** A row is only written where there is one. *)
Lemma update_Some_room t h mac now t' :
  table_ok t → cstr (src_ip h) ≠ [] → update_routing_table t h mac now = Some t' → room t h.
Proof.
  intros Ht Hn E Hr. destruct (decide (entries t < ROUTING_TABLE_SIZE)%nat); [done|].
  rewrite update_full in E; [done..|]. pose proof (find_index_le (λ r, is_filled r =? 0) t) as Hle.
  rewrite (tk_size t Ht) in Hle. unfold entries, get_empty_row in *. lia.
Qed.

Lemma keeps_learn h mac now : cstr (src_ip h) ≠ [] → keeps (learn_route h mac now).
Proof.
  intros Hn s Hs. unfold learn_route. wpo_step. wpo_step. cbv beta. cbn [id].
  destruct (_ && _); [|by wpo_step]. wpo_step. apply wpo_required; [|done]. intros t' E.
  wpo_steps. destruct Hs as [Ht Hb]. split; [|done]. cbn.
  pose proof (update_Some_room _ _ _ _ _ Ht Hn E) as Hroom.
  destruct (update_spec _ _ mac now Ht Hn Hroom) as (t2 & E2 & Ht2 & _).
  rewrite E in E2. by injection E2 as ->.
Qed.

(** A frame that may be learnt from names its source. *)
Definition named (h : frame_head) : Prop :=
  cstr (src_ip h) ≠ [] ∨ type h = payload_req ∨ type h = payload_resp.

Lemma keeps_learn_named h mac now : named h → keeps (learn_route h mac now).
Proof.
  intros [Hn|Hp]; [by apply keeps_learn|]. intros s Hs.
  by apply (wpo_eq _ _ _ _ _ _ _ (learn_route_payload h mac now s Hp)).
Qed.

Lemma keeps_frame frame now reply :
  named (decode_head (slice 14 sizeof_frame_head frame)) →
  keeps (process_frame hostname proto heap frame now reply).
Proof.
  intros Hn. unfold process_frame. apply preserves_bind; [by apply keeps_learn_named|intros news].
  destruct (_ =? rreq); [apply readonly_keeps, readonly_rreq_part|].
  destruct (_ =? rrep); [apply readonly_keeps, readonly_rrep_part|].
  destruct (_ || _); [apply keeps_payload_part|apply readonly_keeps, readonly_ret].
Qed.

Lemma keeps_request d : keeps (client_request proto heap d).
Proof.
  intros s [Ht Hb]. unfold client_request. wpo_step. wpo_step. cbv beta.
  do 2 (wpo_step; apply wpo_required; [intros ? _|done]). wpo_step. wpo_step. cbv beta.
  wpo_step. apply wpo_required; [|done]. intros b' Eb. wpo_step. wpo_step. wpo_step. wpo_step. cbv beta.
  assert (length b' = BUFFER_SIZE) as Hb'.
  { unfold push_data_to_buf in Eb. case_decide; [|done]. injection Eb as <-. by rewrite length_insert. }
  eapply wpo_mono.
  - apply (preserves_foreach odr_inv); [|by split]. intros x.
    apply (preserves_bind odr_inv); [|intros _; apply readonly_keeps, readonly_payload].
    intros s2 [Ht2 Hb2]. destruct (_ =? 1); cbn [when]; wpo_step; split; try done. apply init_table_ok.
  - done.
Qed.

Definition event_ok (e : odr_event) : Prop :=
  match e with
  | RawFrame frame _ _ => named (decode_head (slice 14 sizeof_frame_head (recv_frame frame)))
  | LocalDgram _ | Stale => True
  end.

Lemma keeps_turn e : event_ok e → keeps (odr_turn hostname proto heap e).
Proof.
  intros He. destruct e as [frame now reply|d|]; cbn [odr_turn].
  - by apply keeps_frame.
  - apply keeps_request.
  - intros s [Ht Hb]. wpo_step. split; [apply init_table_ok|done].
Qed.

(** Events handled one after the other. *)
Fixpoint odr_run (es : list odr_event) : M odr odr_out unit :=
  match es with
  | [] => mret tt
  | e :: es => odr_turn hostname proto heap e ≫= λ _, odr_run es
  end.

Lemma keeps_run es : Forall event_ok es → keeps (odr_run es).
Proof.
  induction 1 as [|e es He _ IH]; cbn [odr_run]; [apply readonly_keeps, readonly_ret|].
  apply preserves_bind; [by apply keeps_turn|done].
Qed.
End invariant.

Lemma odr_start_inv l : odr_inv (odr_start l).
Proof. split; [apply init_table_ok|done]. Qed.
