(* ===== verification/OdrTypes.v ===== *)
(** * What a router sends is well formed (properties of hw3/odr.c)

    Whatever bytes arrive on a router's sockets, every frame it sends is a full
    frame from one of its own interfaces, whose header has one of the four
    types and terminated strings, which is what the handlers of the other
    routers assume; every local datagram is a whole [peer_info]. *)

From Stdlib Require Import Strings.Byte.
From S2P Require Import Prelude.
From S2P Require Import CMem.
From S2P Require Import CText.
From S2P Require Import OdrMsg.
From S2P Require Import OdrTable.
From S2P Require Import Odr.
From S2P Require Import OdrProps.

Definition kinds : list Z := [rrep; rreq; payload_req; payload_resp].

(** A header a router may send. *)
Record sendable (h : frame_head) : Prop := {
  sn_head : head_ok h;
  sn_src : fits IP_LEN (src_ip h);
  sn_dest : fits IP_LEN (dest_ip h);
  sn_msg : fits HDR_MSG_LEN (msg h);
  sn_kind : type h ∈ kinds
}.

Lemma kinds_i32 ty : ty ∈ kinds → is_i32 ty.
Proof.
  unfold kinds. intros H. repeat (apply elem_of_cons in H as [->|H]; [by vm_compute|]). by apply elem_of_nil in H.
Qed.

(** A string that was copied whole is terminated. *)
Lemma strcpy_fits_dst dst src d : strcpy dst src = Some d → fits (length dst) d.
Proof. intros H. unfold fits. rewrite (strcpy_cstr _ _ _ H). by apply strcpy_fits in H as [? _]. Qed.

Lemma populate_sendable src dest hops b ty force h :
  is_i32 hops → is_i32 b → ty ∈ kinds → is_i32 force →
  populate_frame_header src dest hops b ty force = Some h → sendable h.
Proof.
  intros Hh Hb Ht Hf E. unfold populate_frame_header in E.
  apply bind_Some in E as (s & Es & (d & Ed & E)%bind_Some). injection E as <-.
  pose proof (kinds_i32 ty Ht).
  split; cbn [src_ip dest_ip msg type]; [|by apply (strcpy_fits_dst _ _ _ Es)|by apply (strcpy_fits_dst _ _ _ Ed)|
    by vm_compute; lia|done].
  split; cbn; try done; [by apply (strcpy_length _ _ _ Es)|by apply (strcpy_length _ _ _ Ed)].
Qed.

Lemma set_msg_sendable h m h' : sendable h → set_msg h m = Some h' → sendable h'.
Proof.
  intros [[] Hs Hd Hm Hk] E. unfold set_msg in E.
  apply bind_Some in E as (m' & Em & E). injection E as <-.
  pose proof (strcpy_length _ _ _ Em) as Lm. pose proof (strcpy_fits_dst _ _ _ Em) as Fm.
  rewrite ho_msg in *. by split; cbn.
Qed.

Lemma msg_send_length hostname dip dport sip sport m fl d :
  msg_send hostname dip dport sip sport m fl = Some d → length d = sizeof_peer_info.
Proof.
  unfold msg_send. intros E.
  apply bind_Some in E as (dp & E1 & (di & E2 & (sp & E3 & (si & E4 & (vm & E5 & (mm & E6 & E)%bind_Some)
    %bind_Some)%bind_Some)%bind_Some)%bind_Some).
  injection E as <-. unfold encode_peer_info. cbn [dest_port pi_dest_ip src_port pi_src_ip pi_msg source_vm flag].
  rewrite !length_app, put_i32_length, (strcpy_length _ _ _ E1), (strcpy_length _ _ _ E3), (strcpy_length _ _ _ E4),
    (strcpy_length _ _ _ E6), (memcpy_at_length _ _ _ _ E2), (memcpy_at_length _ _ _ _ E5). done.
Qed.

Section typed.
Context (hostname : bytes) (proto : Z) (heap : bytes) (l : list server_details).
Hypothesis heap_size : length heap = (ETH_FRAME_LEN - 170)%nat.
Hypothesis macs : Forall (λ d, length (sd_mac d) = 6%nat) l.

Definition out_typed (o : odr_out) : Prop :=
  match o with
  | SendFrame x f =>
      length f = ETH_FRAME_LEN ∧ (∃ d, d ∈ l ∧ sd_index d = x ∧ slice 6 6 f = sd_mac d) ∧
      sendable (decode_head (slice 14 sizeof_frame_head f))
  | SendLocal _ d => length d = sizeof_peer_info
  end.

Definition row_typed (r : routing_table_row) : Prop := length (next_hop_mac r) = 6%nat ∧ is_i32 (row_hop_count r).

Record state_typed (s : odr) : Prop := {
  st_serv : serv s = l;
  st_table : Forall row_typed (table s);
  st_bid : is_i32 (broadcast_id s)
}.

Abbreviation keeps_types m := (∀ s, state_typed s → wp True out_typed m (λ _, state_typed) s).

Lemma typed_bind {A B} (m : M odr odr_out A) (k : A → M odr odr_out B) :
  keeps_types m → (∀ a, keeps_types (k a)) → keeps_types (m ≫= k).
Proof. intros Hm Hk s Hs. apply wp_bind. eapply wp_mono; [by apply Hm|]. intros a s'. apply Hk. Qed.

Lemma typed_required {A B} f (o : option A) (k : A → M odr odr_out B) :
  (∀ a, o = Some a → keeps_types (k a)) → keeps_types (required f o ≫= k).
Proof. intros Hk s Hs. apply wp_bind, wp_required; [|done]. intros a E. by apply Hk. Qed.

Lemma typed_gets {A B} (f : odr → A) (k : A → M odr odr_out B) :
  (∀ s, state_typed s → keeps_types (k (f s))) → keeps_types (gets f ≫= k).
Proof. intros Hk s Hs. apply wp_bind, wp_gets. by apply Hk. Qed.

Lemma typed_foreach {A} (xs : list A) body :
  (∀ x, x ∈ xs → keeps_types (body x)) → keeps_types (foreach xs body).
Proof. intros H s Hs. apply wp_foreach; [done|]. intros x s' Hx Hs'. by apply H. Qed.

Lemma typed_ret {A} (a : A) : keeps_types (mret a : M odr odr_out A).
Proof. intros s Hs. by apply wp_ret. Qed.

Lemma typed_packet d mac h :
  d ∈ l → length mac = 6%nat → sendable h → keeps_types (send_packet proto heap mac (sd_mac d) (sd_index d) h).
Proof.
  intros Hd Hm Hh s Hs. unfold send_packet. apply wp_emit; [|done].
  pose proof (proj1 (Forall_forall _ _) macs d Hd) as Hsd. cbv beta in Hsd.
  destruct (frame_header proto heap mac (sd_mac d) h Hm Hsd (sn_head h Hh)) as [Es Eh].
  split; [apply length_frame_of; try done; apply Hh|]. split; [by exists d|]. by rewrite Eh.
Qed.

Lemma typed_rreq b hc src dest f :
  is_i32 b → is_i32 hc → is_i32 f → keeps_types (send_rreq proto heap b hc src dest f).
Proof.
  intros Hb Hc Hf. apply typed_gets. intros s0 H0. rewrite (st_serv s0 H0). apply typed_foreach. intros d Hd.
  apply typed_required. intros h E. apply typed_packet; [done..|].
  eapply populate_sendable; [..|exact E]; try done. unfold kinds. set_solver.
Qed.

Lemma typed_row i (k : routing_table_row → M odr odr_out unit) :
  (∀ r, row_typed r → keeps_types (k r)) → keeps_types (table_row i ≫= k).
Proof.
  intros Hk s Hs. apply wp_bind. unfold table_row. apply wp_bind, wp_gets. destruct (i <? 0); [by apply wp_fail|].
  apply wp_required; [|done]. intros r Hr. apply Hk; [|done]. by eapply (Forall_lookup_1 _ _ _ _ (st_table s Hs)).
Qed.

Lemma typed_rrep b hc dest src : is_i32 b → is_i32 hc → keeps_types (send_rrep proto heap b hc dest src).
Proof.
  intros Hb Hc. apply typed_gets. intros s0 H0. apply typed_gets. intros s1 H1. rewrite (st_serv s1 H1).
  apply typed_foreach. intros d Hd. apply typed_required. intros h E. apply typed_row. intros r [Hr _].
  apply typed_packet; [done..|]. eapply populate_sendable; [..|exact E]; try done. unfold kinds. set_solver.
Qed.

Lemma typed_payload src dest ty m f :
  ty ∈ kinds → is_i32 f → keeps_types (send_payload proto heap src dest ty m f).
Proof.
  intros Ht Hf. apply typed_gets. intros s0 H0. apply typed_gets. intros s1 H1. rewrite (st_serv s1 H1).
  apply typed_gets. intros s2 H2. pose proof (st_bid s2 H2) as Hb. destruct (_ =? -1); apply typed_foreach; intros d Hd.
  - by apply typed_rreq.
  - apply typed_row. intros r [Hr Hh]. apply typed_required. intros h E. apply typed_required. intros h' E'.
    apply typed_packet; [done..|]. apply (set_msg_sendable h m); [|done].
    exact (populate_sendable _ _ _ _ _ _ _ Hh Hb Ht Hf E).
Qed.

Lemma typed_local {A} path o (k : bytes → M odr odr_out A) :
  (∀ d, o = Some d → length d = sizeof_peer_info) → (∀ d, keeps_types (k d)) →
  keeps_types (required BadCopy o ≫= λ d, emit (SendLocal path d) ≫= λ _, k d).
Proof.
  intros Ho Hk. apply typed_required. intros d E s Hs. apply wp_bind, wp_emit; [by apply Ho|]. by apply Hk.
Qed.

Lemma typed_to_client m p : keeps_types (send_to_client hostname m p).
Proof.
  apply typed_required. intros port _. apply typed_required. intros path _. apply typed_required. intros d E s Hs.
  apply wp_emit; [|done]. by eapply msg_send_length.
Qed.

Lemma typed_get_data h vm reply : keeps_types (get_data_from_server hostname h vm reply).
Proof.
  do 3 (apply typed_required; intros ? _). apply typed_local; [intros d; apply msg_send_length|].
  intros d. do 2 (apply typed_required; intros ? _). intros s Hs. by apply wp_required.
Qed.

Lemma typed_answer h : keeps_types (answer_client hostname h).
Proof.
  intros s Hs. unfold answer_client. apply wp_bind, wp_gets. destruct (buffer s !! _) as [e|]; [|by apply wp_ret].
  apply wp_bind. eapply wp_mono; [by apply typed_to_client|]. intros _ s' [Hserv Htab Hb].
  apply wp_modify. by split.
Qed.

Lemma typed_learn h mac now :
  is_i32 (hop_count h) → length mac = 6%nat → keeps_types (learn_route h mac now).
Proof.
  intros Hh Hm s Hs. unfold learn_route. apply wp_bind, wp_gets. cbn [id].
  destruct (_ && _); [|by apply wp_ret]. apply wp_bind, wp_required; [|done]. intros t' E.
  apply wp_bind, wp_modify, wp_ret. destruct Hs as [Hserv Htab Hb]. split; [done| |done].
  cbn. unfold update_routing_table in E. destruct (_ =? -1).
  - apply bind_Some in E as (r & _ & E). injection E as <-. by apply Forall_insert.
  - apply bind_Some in E as (r & Hr & E). injection E as <-. apply Forall_insert; [done|].
    destruct (Forall_lookup_1 _ _ _ _ Htab Hr) as [? ?]. unfold refresh_row.
    destruct (_ <? _); [by split|]. by destruct (_ <? _); split.
Qed.

Lemma typed_when b (m : M odr odr_out unit) : keeps_types m → keeps_types (when b m).
Proof. intros Hm. destruct b; [done|]. apply typed_ret. Qed.

Lemma typed_frame frame now reply :
  length frame = ETH_FRAME_LEN → keeps_types (process_frame hostname proto heap frame now reply).
Proof.
  intros Hlen. unfold process_frame. set (h := decode_head _).
  assert (is_i32 (hop_count h) ∧ is_i32 (bc_id h) ∧ is_i32 (force_flag h)) as (Hh & Hb & Hf)
    by (split_and!; apply i32_range).
  apply typed_bind; [apply typed_learn; [done|]; unfold slice; rewrite length_take, length_drop, Hlen; done|]. intros news.
  destruct (type h =? rreq).
  { apply typed_gets. intros s0 _. apply typed_bind; [|intros _]; apply typed_when.
    - apply typed_rreq; [done|apply i32_range|done].
    - by apply typed_rrep. }
  destruct (type h =? rrep).
  { apply typed_gets. intros s0 _. destruct (negb _).
    - apply typed_payload; [unfold kinds; set_solver|done].
    - apply typed_rrep; [done|apply i32_range]. }
  destruct ((type h =? payload_req) || (type h =? payload_resp)) eqn:Ek; [|apply typed_ret].
  assert (type h ∈ kinds) as Hk.
  { apply orb_true_iff in Ek as [->%Z.eqb_eq| ->%Z.eqb_eq]; unfold kinds; set_solver. }
  apply typed_gets. intros s0 _. cbv zeta. destruct (negb _).
  - destruct (_ =? payload_req); [|apply typed_answer]. apply typed_required. intros vm _.
    apply typed_bind; [apply typed_get_data|]. intros h'. apply typed_payload; [unfold kinds; set_solver|done].
  - destruct (negb _); [|apply typed_ret]. by apply typed_payload.
Qed.

Lemma init_table_typed : Forall row_typed init_routing_table.
Proof. apply Forall_replicate. by split. Qed.

Lemma typed_request d : keeps_types (client_request proto heap d).
Proof.
  intros s Hs. unfold client_request. apply wp_bind, wp_modify.
  apply wp_bind, wp_required; [|done]. intros p Ep. apply wp_bind, wp_required; [|done]. intros dest _.
  apply wp_bind, wp_gets, wp_bind, wp_required; [|done]. intros b _. apply wp_bind, wp_modify.
  set (s' := set_buffer _ _). assert (state_typed s') as Hs'.
  { destruct Hs as [Hserv Htab Hb]. split; [done|done|]. apply i32_range. }
  revert s' Hs'. apply typed_gets. intros s0 _. apply typed_foreach. intros x _.
  apply typed_bind.
  - apply typed_when. intros s' [Hserv _ Hb]. apply wp_modify. split; [done|apply init_table_typed|done].
  - intros _. apply typed_payload; [unfold kinds; set_solver|].
    unfold peer_info_in in Ep. case_decide; [|done]. injection Ep as <-. apply i32_range.
Qed.

Lemma typed_turn e : keeps_types (odr_turn hostname proto heap e).
Proof.
  destruct e as [frame now reply|d|]; cbn [odr_turn].
  - apply typed_frame. unfold recv_frame. rewrite length_take, length_app, length_zeros. lia.
  - apply typed_request.
  - intros s [Hserv _ Hb]. apply wp_modify. split; [done|apply init_table_typed|done].
Qed.

Lemma typed_run es : keeps_types (odr_run hostname proto heap es).
Proof.
  induction es as [|e es IH]; cbn [odr_run]; [apply typed_ret|]. by apply typed_bind; [apply typed_turn|].
Qed.

Lemma start_typed : state_typed (odr_start l).
Proof. split; [done|apply init_table_typed|by vm_compute]. Qed.

(** C17: whatever a router receives, what it sends is well typed.  For any
    sequence of frames, local datagrams (with whatever the stack holds behind a
    short one) and timeouts, every frame sent is 1518 bytes long, comes from the
    hardware address of the interface it is sent on, and its header decodes to one
    of the four kinds with terminated addresses and text; every local datagram is
    a whole [peer_info].  This holds of what is sent before a fault as well, such
    as a string without its end, which the code would read past. *)
Theorem odr_output_typed es : Forall out_typed (outputs (odr_run hostname proto heap es) (odr_start l)).
Proof. apply (typed_run es (odr_start l)), start_typed. Qed.
End typed.

(** ** Witness *)

Definition two_interfaces : list server_details :=
  [mk_server_details (str "192.168.10.1" ++ zeros 8) (replicate 6 x11) 3;
   mk_server_details (str "192.168.11.1" ++ zeros 8) (replicate 6 x12) 4].

(** A client's request sends eight route requests, four on each interface; a
    route request for one of the two addresses is answered on both. *)
Definition client_dgram : bytes :=
  default [] (msg_send (str "vm1") (str "192.168.12.7") DOMAIN_SOCK_PATH (str "192.168.10.1")
    (str "/tmp/dk_a1b2c3") (str "GetMeTime") 0).
Definition neighbour_frame : bytes :=
  frame_of 7 (zeros 1348) b_mac (replicate 6 x21)
    (default zero_head (populate_frame_header (str "192.168.12.7") (str "192.168.11.1") 1 4 rreq 0)).
Definition typed_events : list odr_event :=
  [Stale; LocalDgram client_dgram; RawFrame neighbour_frame 5 []].

Lemma odr_output_typed_witness :
  length (outputs (odr_run (str "vm1") 7 (zeros 1348) typed_events) (odr_start two_interfaces)) = 10%nat ∧
  Forall (out_typed two_interfaces)
    (outputs (odr_run (str "vm1") 7 (zeros 1348) typed_events) (odr_start two_interfaces)).
Proof.
  split; [by vm_compute|]. apply odr_output_typed; [reflexivity|repeat constructor].
Defined.
