(* ===== verification/OdrNet.v ===== *)
(** * Routers on a network (hw3 end to end)

    Several routers joined by local networks.  A frame reaches the interfaces
    of its network whose hardware address it carries, or all of them when it is
    a broadcast; frames are delivered in the order they were sent.  The local
    server answers every question with a fixed datagram. *)

From Stdlib Require Import Strings.Byte.
From S2P Require Import Prelude.
From S2P Require Import CMem.
From S2P Require Import CText.
From S2P Require Import OdrMsg.
From S2P Require Import OdrTable.
From S2P Require Import Odr.
From S2P Require Import OdrProps.

Record node := mk_node {
  n_host : bytes;
  n_odr : odr;
  n_lans : list (Z * nat);       (* interface index, network *)
  n_reply : bytes                (* what the local server answers *)
}.

(** Datagrams routers sent to local sockets, in order, with the router. *)
Record net_state := mk_net {
  nodes : list node;
  in_flight : list (nat * nat * bytes);   (* network, sending router, frame *)
  delivered : list (nat * bytes * bytes)
}.

Section net.
Context (proto : Z) (heap : bytes).

Definition lan_of (n : node) (if_index : Z) : option nat :=
  p ← list_find (λ p : Z * nat, p.1 = if_index) (n_lans n); Some p.2.2.

(** Whether router [n] accepts a frame on network [lan]. *)
Definition accepts (n : node) (lan : nat) (frame : bytes) : bool :=
  existsb (λ d, bool_decide (lan_of n (sd_index d) = Some lan) &&
                (bool_decide (take 6 frame = b_mac) || bool_decide (take 6 frame = sd_mac d)))
    (serv (n_odr n)).

(** The effect of the outputs of router [i]. *)
Fixpoint absorb (i : nat) (n : node) (os : list odr_out) (x : net_state) : net_state :=
  match os with
  | [] => x
  | SendFrame k f :: os =>
      let x' := match lan_of n k with
                | Some lan => mk_net (nodes x) (in_flight x ++ [(lan, i, f)]) (delivered x)
                | None => x
                end in
      absorb i n os x'
  | SendLocal p d :: os =>
      absorb i n os (mk_net (nodes x) (in_flight x) (delivered x ++ [(i, p, d)]))
  end.

(** Router [i] handles an event; [None] if it faults. *)
Definition handle (i : nat) (e : odr_event) (x : net_state) : option net_state :=
  n ← nodes x !! i;
  match odr_turn (n_host n) proto heap e (n_odr n) with
  | (os, Ret _ s') =>
      let n' := mk_node (n_host n) s' (n_lans n) (n_reply n) in
      Some (absorb i n os (mk_net (<[i := n']> (nodes x)) (in_flight x) (delivered x)))
  | _ => None
  end.

(** The frame is handled by every other router that accepts it. *)
Fixpoint deliver_to (ids : list nat) (lan from : nat) (f : bytes) (x : net_state) : option net_state :=
  match ids with
  | [] => Some x
  | i :: ids =>
      n ← nodes x !! i;
      if negb (i =? from)%nat && accepts n lan f
      then x ← handle i (RawFrame f 0 (n_reply n)) x; deliver_to ids lan from f x
      else deliver_to ids lan from f x
  end.

(** Deliver frames until none is left; [None] if there are more than [fuel]. *)
Fixpoint settle (fuel : nat) (x : net_state) : option net_state :=
  match in_flight x with
  | [] => Some x
  | (lan, from, f) :: rest =>
      match fuel with
      | O => None
      | S fuel =>
          x ← deliver_to (seq 0 (length (nodes x))) lan from f (mk_net (nodes x) rest (delivered x));
          settle fuel x
      end
  end.
End net.

(** ** Three routers in a line *)

Definition ip20 (s : String.string) : bytes := take 20 (str s ++ zeros 20).
Arguments ip20 s%_string_scope.
Definition mac (b : byte) : bytes := replicate 6 b.

Definition vm1 : list server_details := [mk_server_details (ip20 "192.168.10.1") (mac x01) 2].
Definition vm4 : list server_details :=
  [mk_server_details (ip20 "192.168.10.4") (mac x02) 2;
   mk_server_details (ip20 "192.168.11.4") (mac x03) 3].
Definition vm5 : list server_details := [mk_server_details (ip20 "192.168.11.5") (mac x04) 2].

Definition dgram (o : option bytes) : bytes := match o with Some d => d | None => [] end.

(** The reply of a server and the request of a client on [vm1] for [vm5]. *)
Definition time_reply : bytes :=
  dgram (msg_send (str "vm5") (str "srcip") (str "srcport") (str "192.168.11.5") DOMAIN_SOCK_PATH
    (str "Mon Nov  3 10:00:00 2014") 0).
Definition time_request (fl : Z) : bytes :=
  dgram (msg_send (str "vm1") (str "192.168.11.5") DOMAIN_SOCK_PATH (str "192.168.10.1")
    (str "/tmp/dk_a1b2c3") (str "GetMeTime") fl).

Definition line : net_state :=
  mk_net [mk_node (str "vm1") (odr_start vm1) [(2, 0%nat)] time_reply;
          mk_node (str "vm4") (odr_start vm4) [(2, 0%nat); (3, 1%nat)] time_reply;
          mk_node (str "vm5") (odr_start vm5) [(2, 1%nat)] time_reply] [] [].

(** The texts delivered to local sockets. *)
Definition texts (x : net_state) : list (nat * bytes * bytes) :=
  map (λ t, (t.1.1, t.1.2, cstr (pi_msg (decode_peer_info t.2)))) (delivered x).

Definition ask (fuel : nat) (x : net_state) (fl : Z) : option net_state :=
  x ← handle 0 [] 0 (LocalDgram (time_request fl)) x; settle 0 [] fuel x.

(** ** The theorems *)

(** C9: a route request from another host makes a router learn the way back
    and then do exactly one of three things on every interface: answer along
    that way when the destination is its own or in its table, pass the request
    on one hop further when it was news, or keep silent. *)
Theorem rreq_handled hostname proto heap h d m now reply st :
  hdr_ok h → type h = rreq → length d = 6%nat → length m = 6%nat → table_ok (table st) →
  own (src_ip h) (serv st) = false → room (table st) h →
  ∃ t' r hrep hreq,
    process_frame hostname proto heap (frame_of proto heap d m h) now reply st =
      (rreq_output proto heap t' (serv st) (improves (table st) h) h hrep hreq r,
       Ret tt (set_table t' st)) ∧
    table_ok t' ∧ route t' (src_ip h) = Some r ∧
    (if improves (table st) h
     then update_routing_table (table st) h m now = Some t' else t' = table st) ∧
    populate_frame_header (dest_ip h) (src_ip h) 1 (bc_id h) rrep 0 = Some hrep ∧
    populate_frame_header (src_ip h) (dest_ip h) (i32 (hop_count h + 1)) (bc_id h) rreq (force_flag h)
      = Some hreq.
Proof. apply rreq_run. Qed.


(** A route reply for another host is passed on, one hop further, to the
    next hop towards that host if the table has one; if it has none, as after
    the table was cleared, the router reads row -1 of the table. *)
Theorem rrep_forwarded hostname proto heap h d m now reply st :
  hdr_ok h → type h = rrep → length d = 6%nat → length m = 6%nat → table_ok (table st) →
  own (src_ip h) (serv st) = false → room (table st) h →
  own (dest_ip h) (serv st) = false → serv st ≠ [] →
  ∃ t' hfwd, table_ok t' ∧
    (if improves (table st) h
     then update_routing_table (table st) h m now = Some t' else t' = table st) ∧
    type hfwd = rrep ∧ cstr (src_ip hfwd) = cstr (src_ip h) ∧ cstr (dest_ip hfwd) = cstr (dest_ip h) ∧
    hop_count hfwd = i32 (hop_count h + 1) ∧ bc_id hfwd = bc_id h ∧
    process_frame hostname proto heap (frame_of proto heap d m h) now reply st =
      match route t' (dest_ip h) with
      | Some rd => (flood proto heap (next_hop_mac rd) hfwd (serv st), Ret tt (set_table t' st))
      | None => ([], Fault BadIndex)
      end.
Proof. apply rrep_forward_run. Qed.

(** A router that hears its own request again, for a destination that is
    its own or that it has a route to by then, reads row -1 of its table: it
    has no route to itself. *)
Theorem own_request_echo_faults hostname proto heap h d m now reply st :
  hdr_ok h → type h = rreq → length d = 6%nat → length m = 6%nat →
  own (src_ip h) (serv st) = true → get_row_entry (table st) (src_ip h) = -1 →
  own (dest_ip h) (serv st) = true ∨ get_row_entry (table st) (dest_ip h) ≠ -1 →
  process_frame hostname proto heap (frame_of proto heap d m h) now reply st = ([], Fault BadIndex).
Proof. apply own_echo_run. Qed.

(** A payload for another host with a route goes to the next hop with its
    addresses, kind and text unchanged, and nothing else happens. *)
Theorem payload_forwarded hostname proto heap h d m now reply st r :
  hdr_ok h → type h = payload_req ∨ type h = payload_resp → length d = 6%nat → length m = 6%nat →
  own (dest_ip h) (serv st) = false → route (table st) (dest_ip h) = Some r →
  is_i32 (row_hop_count r) → is_i32 (broadcast_id st) →
  ∃ h', process_frame hostname proto heap (frame_of proto heap d m h) now reply st =
      (flood proto heap (next_hop_mac r) h' (serv st), Ret tt st) ∧
    type h' = type h ∧ cstr (src_ip h') = cstr (src_ip h) ∧ cstr (dest_ip h') = cstr (dest_ip h) ∧
    cstr (msg h') = cstr (msg h).
Proof. apply payload_forward_run. Qed.

(** A response for this host answers the first request waiting for its
    sender, with its text, and frees that request's place; if none is waiting
    nothing happens. *)
Theorem response_answers_one_client hostname proto heap h d m now reply st :
  hdr_ok h → type h = payload_resp → length d = 6%nat → length m = 6%nat →
  own (dest_ip h) (serv st) = true → fits MAX_MSG_LEN (msg h) →
  Forall (λ e, port_ok (sb_peer_info e)) (buffer st) →
  match buffer st !! find_index (waiting_for (src_ip h)) (buffer st) with
  | None =>
      process_frame hostname proto heap (frame_of proto heap d m h) now reply st = ([], Ret tt st)
  | Some e => ∃ dg,
      process_frame hostname proto heap (frame_of proto heap d m h) now reply st =
        ([SendLocal (cstr (src_port (sb_peer_info e))) dg],
         Ret tt (set_buffer (<[find_index (waiting_for (src_ip h)) (buffer st) :=
                               mk_server_buf (sb_peer_info e) 0]> (buffer st)) st)) ∧
      cstr (pi_msg (decode_peer_info dg)) = cstr (msg h)
  end.
Proof. apply response_run. Qed.

(** C18: whatever events a router handles, as long as the frames it may learn
    from name their source and it does not fault, its table stays well formed:
    rows are filled from the front with distinct sources. *)
Theorem odr_table_invariant hostname proto heap l es o st :
  Forall event_ok es → odr_run hostname proto heap es (odr_start l) = (o, Ret tt st) →
  table_ok (table st).
Proof.
  intros He E.
  by destruct (wpo_returns _ _ _ _ _ _ _ (keeps_run hostname proto heap es He _ (odr_start_inv l)) E).
Qed.

(** On three routers in a line, with empty tables, a client's request for
    the host at the other end is answered: after the flood, the reply and the
    payloads have all been delivered, the server was asked once and the client
    has its answer; a second request, with the routes now known, too. *)
Theorem request_crosses_the_line :
  ∃ x y, ask 60 line 0 = Some x ∧ ask 60 x 0 = Some y ∧ in_flight y = [] ∧
    texts y = [(2%nat, DOMAIN_SOCK_PATH, str "1#vm1");
               (0%nat, str "/tmp/dk_a1b2c3", str "Mon Nov  3 10:00:00 2014");
               (2%nat, DOMAIN_SOCK_PATH, str "1#vm1");
               (0%nat, str "/tmp/dk_a1b2c3", str "Mon Nov  3 10:00:00 2014")].
Proof.
  destruct (ask 60 line 0) as [x|] eqn:E; [|exfalso; vm_compute in E; discriminate].
  destruct (ask 60 x 0) as [y|] eqn:E2;
    [|exfalso; vm_compute in E; injection E as <-; vm_compute in E2; discriminate].
  exists x, y. split; [done|]. split; [done|].
  vm_compute in E. injection E as <-. vm_compute in E2. injection E2 as <-. by vm_compute.
Qed.

(** ** The hypotheses hold *)

Definition head (src dest : String.string) (hops b_id ty : Z) : frame_head :=
  mk_frame_head (ip20 src) (ip20 dest) hops b_id (zeros HDR_MSG_LEN) 0 ty.
Arguments head (src dest)%_string_scope hops b_id ty.

Ltac hdr := split; [split; by vm_compute|by apply Nat.ltb_lt; vm_compute..|by vm_compute].

(** The state of [vm4] after it learnt of [vm1], and after it also learnt of
    [vm5]. *)
Definition learnt (hs : list frame_head) (l : list server_details) : odr :=
  match odr_run (str "vm4") 0 [] (map (λ h, RawFrame (frame_of 0 [] b_mac (mac x09) h) 0 []) hs)
          (odr_start l) with
  | (_, Ret _ s) => s
  | _ => odr_start l
  end.
Definition knows1 : odr := learnt [head "192.168.10.1" "192.168.13.9" 1 2 rreq] vm4.
Definition knows15 : odr :=
  learnt [head "192.168.10.1" "192.168.13.9" 1 2 rreq; head "192.168.11.5" "192.168.10.1" 1 2 rrep] vm4.

Lemma learnt_inv hs l :
  Forall event_ok (map (λ h, RawFrame (frame_of 0 [] b_mac (mac x09) h) 0 []) hs) →
  odr_inv (learnt hs l).
Proof.
  intros He. unfold learnt.
  pose proof (keeps_run (str "vm4") 0 [] _ He _ (odr_start_inv l)) as H. unfold wpo in H.
  destruct (odr_run _ _ _ _ _) as [o [u s|c s|f]]; [done|apply odr_start_inv..].
Qed.

Lemma rreq_handled_witness :
  ∃ o t', process_frame (str "vm4") 0 [] (frame_of 0 [] b_mac (mac x01)
      (head "192.168.10.1" "192.168.11.5" 1 2 rreq)) 0 [] (odr_start vm4) =
    (o, Ret tt (set_table t' (odr_start vm4))) ∧ length o = 2%nat.
Proof.
  destruct (rreq_handled (str "vm4") 0 [] (head "192.168.10.1" "192.168.11.5" 1 2 rreq) b_mac
    (mac x01) 0 [] (odr_start vm4)) as (t' & r & hrep & hreq & E & _);
    [hdr|done|done|done|apply init_table_ok|by vm_compute
    |intros _; apply Nat.ltb_lt; by vm_compute|].
  eexists _, t'. split; [exact E|]. unfold rreq_output. destruct (_ || _); [apply length_map|].
  replace (improves _ _) with true by (by vm_compute). apply length_map.
Defined.

(** Three copies, the last over a shorter way: the first and the last are passed
    on, on both interfaces. *)
Definition three_copies : list arrival :=
  [mk_arrival (head "192.168.10.1" "192.168.12.7" 3 2 rreq) b_mac (mac x01) 0 [];
   mk_arrival (head "192.168.10.1" "192.168.12.7" 3 2 rreq) b_mac (mac x01) 0 [];
   mk_arrival (head "192.168.10.1" "192.168.12.7" 1 2 rreq) b_mac (mac x01) 0 []].

Lemma three_copies_ok : Forall (copy_of (ip20 "192.168.10.1") 2 3) three_copies.
Proof.
  repeat (apply Forall_cons_2; [split; [hdr|reflexivity|reflexivity|reflexivity|vm_compute; split; congruence|reflexivity|reflexivity]|]).
  apply Forall_nil_2.
Qed.


Lemma rrep_forwarded_witness :
  ∃ hfwd t' mac', process_frame (str "vm4") 0 [] (frame_of 0 [] (mac x03) (mac x04)
      (head "192.168.11.5" "192.168.10.1" 1 2 rrep)) 0 [] knows1 =
    (flood 0 [] mac' hfwd vm4, Ret tt (set_table t' knows1)) ∧ hop_count hfwd = 2.
Proof.
  destruct (rrep_forwarded (str "vm4") 0 [] (head "192.168.11.5" "192.168.10.1" 1 2 rrep) (mac x03)
    (mac x04) 0 [] knows1) as (t' & hfwd & _ & Hup & _ & _ & _ & Hh & _ & E);
    [hdr|done|done|done| |by vm_compute|intros _; apply Nat.ltb_lt; by vm_compute|by vm_compute|done|].
  { apply learnt_inv. repeat (constructor; [by left; vm_compute|]). constructor. }
  assert (is_Some (route t' (ip20 "192.168.10.1"))) as [rd Hrd].
  { vm_compute in Hup. injection Hup as <-. by vm_compute; eauto. }
  exists hfwd, t', (next_hop_mac rd). split; [|exact Hh].
  change (dest_ip (head "192.168.11.5" "192.168.10.1" 1 2 rrep)) with (ip20 "192.168.10.1") in E.
  rewrite Hrd in E. exact E.
Defined.

Lemma own_request_echo_faults_witness :
  process_frame (str "vm1") 0 [] (frame_of 0 [] b_mac (mac x02)
    (head "192.168.10.1" "192.168.10.1" 2 2 rreq)) 0 [] (odr_start vm1) = ([], Fault BadIndex).
Proof.
  apply (own_request_echo_faults (str "vm1") 0 []);
    [hdr|done|done|done|by vm_compute|by vm_compute|left; by vm_compute].
Defined.

Definition request_frame : frame_head := head "192.168.10.1" "192.168.11.5" 1 2 payload_req.

Lemma payload_forwarded_witness :
  ∃ h' m', process_frame (str "vm4") 0 [] (frame_of 0 [] (mac x02) (mac x01) request_frame) 0 [] knows15 =
      (flood 0 [] m' h' (serv knows15), Ret tt knows15) ∧ type h' = payload_req.
Proof.
  assert (hdr_ok request_frame) as Hh by hdr.
  assert (own (dest_ip request_frame) (serv knows15) = false) as Ho by by vm_compute.
  assert (is_i32 (broadcast_id knows15)) as Hb by by vm_compute.
  destruct (route (table knows15) (dest_ip request_frame)) as [r|] eqn:Hr;
    [|exfalso; vm_compute in Hr; discriminate].
  assert (is_i32 (row_hop_count r)) as Hi by (vm_compute in Hr; by injection Hr as <-).
  destruct (payload_forwarded (str "vm4") 0 [] request_frame (mac x02) (mac x01) 0 [] knows15 r)
    as (h' & E & Hty & _);
    [exact Hh|left; reflexivity|reflexivity|reflexivity|exact Ho|exact Hr|exact Hi|exact Hb|].
  exists h', (next_hop_mac r). split; [exact E|exact Hty].
Defined.

(** [vm1] with one request waiting. *)
Definition waiting1 : odr :=
  mk_odr vm1 init_routing_table 2 1
    (<[0%nat := mk_server_buf (decode_peer_info (time_request 0)) 1]> init_buffer).

Lemma response_answers_one_client_witness :
  ∃ dg s', process_frame (str "vm1") 0 [] (frame_of 0 [] (mac x01) (mac x02)
      (head "192.168.11.5" "192.168.10.1" 1 2 payload_resp)) 0 [] waiting1 =
      ([SendLocal (str "/tmp/dk_a1b2c3") dg], Ret tt s').
Proof.
  pose proof (response_answers_one_client (str "vm1") 0 []
    (head "192.168.11.5" "192.168.10.1" 1 2 payload_resp) (mac x01) (mac x02) 0 [] waiting1) as H.
  destruct (buffer waiting1 !! find_index (waiting_for (src_ip (head "192.168.11.5" "192.168.10.1" 1 2
    payload_resp))) (buffer waiting1)) as [e|] eqn:Ee; [|exfalso; vm_compute in Ee; discriminate].
  destruct H as (dg & E & _);
    [hdr|done|done|done|by vm_compute|by apply Nat.ltb_lt; vm_compute| |].
  { apply Forall_insert; [|by vm_compute]. apply Forall_replicate. by vm_compute. }
  exists dg. eexists. rewrite E. vm_compute in Ee. injection Ee as <-. reflexivity.
Defined.

Lemma odr_table_invariant_witness :
  ∃ o st, odr_run (str "vm4") 0 []
      [RawFrame (frame_of 0 [] b_mac (mac x01) (head "192.168.10.1" "192.168.13.9" 1 2 rreq)) 0 []; Stale]
      (odr_start vm4) = (o, Ret tt st) ∧ table_ok (table st).
Proof.
  destruct (odr_run (str "vm4") 0 []
      [RawFrame (frame_of 0 [] b_mac (mac x01) (head "192.168.10.1" "192.168.13.9" 1 2 rreq)) 0 []; Stale]
      (odr_start vm4)) as [o [[] st|c st|f]] eqn:E; [|exfalso; vm_compute in E; discriminate..].
  exists o, st. split; [done|]. apply (odr_table_invariant (str "vm4") 0 [] vm4 _ o st) in E; [exact E|].
  constructor; [by left; vm_compute|]. by constructor.
Defined.
