(* ===== verification/OdrApp.v ===== *)
(** * The time client and server (hw3/client.c, hw3/server.c)

    The applications that talk to the router of their host over local sockets:
    the client asks for the time of a host, the server answers the questions
    the router relays. *)

From Stdlib Require Import Strings.Byte.
From S2P Require Import Prelude.
From S2P Require Import CMem.
From S2P Require Import CText.
From S2P Require Import OdrMsg.
From S2P Require Import OdrTable.
From S2P Require Import Odr.

Definition hash : byte := byte.of_Z 35.

(** ** The server *)

(** [for (k = 0; k < strlen(recvline) && recvline[k] != '#'; k++)] *)
Definition hash_index (recvline : bytes) : nat :=
  find_index (λ b, bool_decide (b = hash)) (cstr recvline).

Record server_state := mk_server_state { srv_bc_id : Z; recvline : bytes (* char[1000] *) }.

(** One turn of [respond]: the question's number and host, and the datagram
    sent back; [ctime] is the text of the current time. *)
Definition respond_turn (hostname this_ip ctime : bytes) (s : server_state) (d : bytes)
    : option (server_state * Z * bytes * bytes) :=
  '(line, client_ip, client_port) ← msg_recv (recvline s) (zeros 100) (zeros 100) d;
  let k := hash_index line in
  let line := <[k := NUL]> line in
  let bid := atoi line in
  let src_vm := drop (k + 1) line in
  buff ← strcpy (zeros 100) (take 24 (cstr ctime));
  r ← msg_send hostname client_ip client_port this_ip DOMAIN_SOCK_PATH buff 0;
  Some (mk_server_state (if srv_bc_id s <? bid then bid else srv_bc_id s) line, bid, src_vm, r).

(** ** The client *)

(** One turn of the client's loop for the host typed into [arg]: the datagrams
    sent to the router.  [answered] says whether a reply came within the two
    seconds of [select]; without one the request is repeated with the force
    flag. *)
Definition client_turn (hostname this_ip port arg : bytes) (answered : bool)
    : fault + list bytes :=
  let arg := <[4%nat := NUL]> arg in
  match set_ip arg (zeros INET_ADDRSTRLEN) with
  | inl f => inl f
  | inr ip =>
      match msg_send hostname ip DOMAIN_SOCK_PATH this_ip port (str "GetMeTime") 0,
            msg_send hostname ip DOMAIN_SOCK_PATH this_ip port (str "GetMeTime") 1 with
      | Some d0, Some d1 => inr (if answered then [d0] else [d0; d1])
      | _, _ => inl BadCopy
      end
  end.

(** ** Properties *)

Lemma find_index_app_here {A} (p : A → bool) (l r : list A) x :
  Forall (λ y, p y = false) l → p x = true → find_index p (l ++ x :: r) = length l.
Proof.
  intros Hl Hx. induction Hl as [|y l Hy _ IH]; cbn; [by rewrite Hx|]. by rewrite Hy, IH.
Qed.

Lemma dec_d_bytes n :
  Forall (λ b, bool_decide (b = hash) = false ∧ b ≠ NUL) (dec_d n).
Proof.
  assert (∀ m, 0 <= m → Forall (λ b, bool_decide (b = hash) = false ∧ b ≠ NUL) (dec_u m)) as H.
  { intros m Hm. eapply Forall_impl; [apply dec_loop_digits, Hm|].
    intros b (d & Hd & ->). split; [|by apply digit_not_nul].
    apply bool_decide_eq_false. intros E. pose proof (digit_val_digit d Hd) as Hv.
    rewrite E in Hv. by vm_compute in Hv. }
  unfold dec_d. destruct (Z.ltb_spec n 0); [|apply H; lia].
  constructor; [by split|]. apply H. lia.
Qed.

Lemma atoi_dec_d n r : is_i32 n → atoi (dec_d n ++ NUL :: r) = n.
Proof.
  intros Hn. unfold atoi. destruct (Z.ltb_spec n 0) as [Hneg|Hpos].
  - assert (no_nul (dec_d n)) as Hnn.
    { unfold no_nul. intros Hin. pose proof (dec_d_bytes n) as H. rewrite Forall_forall in H.
      by destruct (H NUL Hin). }
    unfold strtol10. rewrite cstr_app_nul by done. unfold dec_d.
    rewrite (proj2 (Z.ltb_lt n 0)) by done. rewrite decide_True by done.
    pose proof (parse_dec_u (- n) [] ltac:(lia) ltac:(done)) as Hp. rewrite app_nil_r in Hp.
    rewrite Hp. cbn [fst]. unfold is_i32, LONG_MIN in *. rewrite i32_small; unfold is_i32; lia.
  - unfold dec_d. rewrite (proj2 (Z.ltb_ge n 0)) by done. unfold is_i32 in *.
    rewrite strtol_dec_u by (unfold LONG_MAX; lia). apply i32_small. unfold is_i32. lia.
Qed.

Lemma dec_d_length n : is_i32 n → (length (dec_d n) ≤ 33)%nat.
Proof.
  intros Hn. unfold is_i32 in Hn.
  unfold dec_d. destruct (Z.ltb_spec n 0); cbn [length].
  - pose proof (dec_u_length (- n) 32 ltac:(lia) ltac:(lia)). lia.
  - pose proof (dec_u_length n 32 ltac:(lia) ltac:(lia)). lia.
Qed.

Lemma dec_d_no_nul n : no_nul (dec_d n).
Proof.
  unfold no_nul. intros Hin. pose proof (dec_d_bytes n) as H. rewrite Forall_forall in H.
  by destruct (H NUL Hin).
Qed.

Lemma msg_recv_length m0 s0 p0 d m s p :
  msg_recv m0 s0 p0 d = Some (m, s, p) → length m = length m0.
Proof.
  unfold msg_recv. intros H. apply bind_Some in H as (t & _ & H). apply bind_Some in H as (x & Ex & H).
  do 4 (apply bind_Some in H as (? & _ & H)).
  injection H as <- _ _. by eapply strcpy_length.
Qed.

(** The text of the router's question. *)
Definition question (h : frame_head) (vm : bytes) : bytes := dec_d (bc_id h) ++ hash :: cstr vm.

Lemma question_no_nul h vm : no_nul (question h vm).
Proof.
  unfold no_nul, question. rewrite not_elem_of_app, not_elem_of_cons.
  split_and!; [apply dec_d_no_nul|done|apply cstr_no_nul].
Qed.

Lemma question_built h vm :
  is_i32 (bc_id h) → (length (cstr vm) < 10)%nat →
  ∃ b0 b1 b, strcpy (zeros 50) (dec_d (bc_id h)) = Some b0 ∧ strcat b0 (str "#") = Some b1 ∧
    strcat b1 vm = Some b ∧ cstr b = question h vm ∧ fits MAX_MSG_LEN b.
Proof.
  intros Hb Hvm. pose proof (dec_d_length _ Hb) as Hl.
  pose proof (cstr_id (dec_d (bc_id h)) (dec_d_no_nul _)) as Hc.
  destruct (strcpy_room (zeros 50) (dec_d (bc_id h))) as (b0 & E0 & L0 & C0).
  { rewrite Hc, length_zeros. lia. }
  rewrite length_zeros in L0. rewrite Hc in C0.
  destruct (strcat_room b0 (str "#")) as (b1 & E1 & L1 & C1).
  { rewrite C0, L0. change (length (cstr (str "#"))) with 1%nat. lia. }
  rewrite C0 in C1. change (cstr (str "#")) with [hash] in C1.
  destruct (strcat_room b1 vm) as (b & E & L & C).
  { rewrite C1, L1, L0, length_app. cbn [length]. lia. }
  exists b0, b1, b. split_and!; try done.
  - rewrite C, C1, <- app_assoc. done.
  - unfold fits, MAX_MSG_LEN. rewrite C, C1, !length_app. cbn [length]. lia.
Qed.

(** The server's reading of a line that holds the question. *)
Lemma hash_split h vm line :
  cstr line = question h vm → (length (question h vm) < length line)%nat → is_i32 (bc_id h) →
  let k := hash_index line in
  atoi (<[k := NUL]> line) = bc_id h ∧ cstr (drop (k + 1) (<[k := NUL]> line)) = cstr vm.
Proof.
  intros Hc Hl Hb. cbv zeta.
  assert (hash_index line = length (dec_d (bc_id h))) as Hk.
  { unfold hash_index. rewrite Hc. unfold question. apply find_index_app_here; [|done].
    eapply Forall_impl; [apply dec_d_bytes|]. by intros b [? _]. }
  assert (∃ r, line = dec_d (bc_id h) ++ hash :: cstr vm ++ NUL :: r) as [r Er].
  { eexists. rewrite (cstr_split line) at 1 by by rewrite Hc. rewrite Hc. unfold question.
    rewrite <- app_assoc. done. }
  rewrite Hk, Er. rewrite insert_app_r_alt, Nat.sub_diag by lia. cbn [insert list_insert].
  split; [by apply atoi_dec_d|].
  rewrite drop_app_ge by lia. replace (_ + 1 - _)%nat with 1%nat by lia. cbn [drop].
  apply cstr_app_nul, cstr_no_nul.
Qed.

(** ** The theorems *)

(** C35: a router's question and the server's answer agree: the server reads
    the broadcast number and the host name the router wrote, and the text it
    sends back, the first 24 characters of the time, becomes the message of
    the payload response. *)
Theorem question_answered hostname rhost this_ip ctime h vm s st :
  head_ok h → (length (cstr vm) < 10)%nat → length (recvline s) = 1000%nat →
  fits INET_ADDRSTRLEN this_ip →
  ∃ q r s' svm h', respond_turn rhost this_ip ctime s q = Some (s', bc_id h, svm, r) ∧
    cstr svm = cstr vm ∧
    get_data_from_server hostname h vm r st = ([SendLocal DOMAIN_SOCK_PATH q], Ret h' st) ∧
    cstr (msg h') = take 24 (cstr ctime).
Proof.
  intros Hh Hvm Hline Hip. pose proof (ho_bc _ Hh) as Hb.
  destruct (question_built h vm Hb Hvm) as (b0 & b1 & b & E0 & E1 & E & Cb & Fb).
  assert (fits 1000 b) as F1000 by (unfold fits, MAX_MSG_LEN in *; lia).
  destruct (msg_roundtrip hostname (str "dst_ip") (str "dst_port") (str "srcip") (str "srcport") b 0
    (recvline s) (zeros 100) (zeros 100)) as (q & line & cip & cport & Eq & Er & Cl & Cip & Cport);
    [by apply Nat.ltb_lt; vm_compute|by apply Nat.ltb_lt; vm_compute|by apply Nat.ltb_lt; vm_compute
    |done|by vm_compute|by rewrite Hline|by apply Nat.ltb_lt; vm_compute|by apply Nat.ltb_lt; vm_compute|].
  assert (length line = 1000%nat) as Ll.
  { by rewrite (msg_recv_length _ _ _ _ _ _ _ Er). }
  rewrite Cb in Cl. unfold fits in F1000. rewrite Cb in F1000.
  destruct (hash_split h vm line Cl ltac:(by rewrite Ll) Hb) as [Hbid Hsvm].
  assert (cstr (take 24 (cstr ctime)) = take 24 (cstr ctime)) as Ct.
  { apply cstr_id. unfold no_nul. intros Hin. apply (cstr_no_nul ctime).
    rewrite <- (take_drop 24 (cstr ctime)). apply elem_of_app. by left. }
  destruct (strcpy_room (zeros 100) (take 24 (cstr ctime))) as (buff & Ebuff & _ & Cbuff).
  { rewrite Ct, length_take, length_zeros. lia. }
  destruct (msg_send_ok rhost cip cport this_ip DOMAIN_SOCK_PATH buff 0) as (r & Emsg & Lr & Hr);
    [unfold fits; rewrite Cport; by apply Nat.ltb_lt; vm_compute|by apply Nat.ltb_lt; vm_compute|done
    |unfold fits, MAX_MSG_LEN; rewrite Cbuff, Ct, length_take; lia|by vm_compute|].
  specialize (Hr []). rewrite app_nil_r in Hr. destruct Hr as (Hpr & Cr & _).
  destruct (set_msg_ok h (pi_msg (decode_peer_info r)) Hh) as (h' & Eh' & _ & Ch' & _).
  { unfold fits, HDR_MSG_LEN. rewrite Cr, Cbuff, Ct, length_take. lia. }
  exists q, r. do 3 eexists. split; [|split; [exact Hsvm|split]].
  - unfold respond_turn. rewrite Er. cbn [mbind option_bind]. rewrite Ebuff. cbn [mbind option_bind].
    rewrite Emsg. cbn [mbind option_bind]. rewrite Hbid. reflexivity.
  - unfold get_data_from_server. rewrite E0. unfold mbind, M_bind. cbn [required mret M_ret].
    rewrite E1. cbn [required mret M_ret]. rewrite E. cbn [required mret M_ret]. rewrite Eq.
    cbn [required mret M_ret emit]. rewrite peer_info_in_long by lia. cbn [required mret M_ret].
    rewrite (text_of_fits _ _ (po_msg _ Hpr)) by (unfold fits, MAX_MSG_LEN; rewrite Cr, Cbuff, Ct, length_take; lia).
    cbn [required mret M_ret]. rewrite Eh'. reflexivity.
  - by rewrite Ch', Cr, Cbuff.
Qed.

Definition asked : frame_head :=
  mk_frame_head (str "192.168.10.1" ++ zeros 8) (str "192.168.11.5" ++ zeros 8) 1 7
    (zeros HDR_MSG_LEN) 0 payload_req.

Lemma question_answered_witness :
  ∃ q r s' svm h', respond_turn (str "vm5") (str "192.168.11.5") (str "Mon Nov  3 10:00:00 2014")
      (mk_server_state 0 (zeros 1000)) q = Some (s', 7, svm, r) ∧ cstr svm = str "vm1" ∧
    get_data_from_server (str "vm5") asked (str "vm1") r (odr_start []) =
      ([SendLocal DOMAIN_SOCK_PATH q], Ret h' (odr_start [])) ∧
    cstr (msg h') = str "Mon Nov  3 10:00:00 2014".
Proof.
  apply (question_answered (str "vm5") (str "vm5") (str "192.168.11.5") (str "Mon Nov  3 10:00:00 2014")
    asked (str "vm1") (mk_server_state 0 (zeros 1000)) (odr_start []));
    [split; by vm_compute|by apply Nat.ltb_lt; vm_compute|apply length_zeros|by apply Nat.ltb_lt; vm_compute].
Defined.

(** The force flags of the datagrams of a turn. *)
Definition turn_flags (r : fault + list bytes) : fault + list Z :=
  match r with
  | inl f => inl f
  | inr ds => inr (map (λ d, flag (decode_peer_info d)) ds)
  end.

(** The client sends one request, repeated with the force flag when no answer
    came; a name whose number is past the table of hosts is a read outside
    it. *)
Lemma client_turn_flags :
  let turn arg := client_turn (str "vm1") (str "192.168.10.1") (str "/tmp/dk_a") arg in
  turn_flags (turn (str "vm5" ++ zeros 17) true) = inr [0] ∧
  turn_flags (turn (str "vm5" ++ zeros 17) false) = inr [0; 1] ∧
  turn_flags (turn (str "vm12" ++ zeros 16) true) = inl BadIndex.
Proof. by vm_compute. Qed.
