(* ===== verification/OdrHop.v ===== *)
(** * One hop of a message between two hosts (properties of hw3/odr.c)

    What a router that knows nothing, or what it has learnt, about the two ends
    of an exchange does with each kind of frame of that exchange.  Headers and
    routes are described by what they say, up to the bytes after the terminator
    of a string. *)

From Stdlib Require Import Strings.Byte.
From S2P Require Import Prelude.
From S2P Require Import CMem.
From S2P Require Import CText.
From S2P Require Import OdrMsg.
From S2P Require Import OdrTable.
From S2P Require Import Odr.
From S2P Require Import OdrProps.
From S2P Require Import OdrApp.

(** What a header says. *)
Record head_is (h : frame_head) (ty : Z) (src dst : bytes) (hops b : Z) : Prop := {
  hi_ok : hdr_ok h;
  hi_type : type h = ty;
  hi_src : cstr (src_ip h) = cstr src;
  hi_dst : cstr (dest_ip h) = cstr dst;
  hi_hops : hop_count h = hops;
  hi_bid : bc_id h = b
}.

(** An address that names a host. *)
Definition ip_ok (ip : bytes) : Prop := fits IP_LEN ip ∧ cstr ip ≠ [].

Lemma populate_head src dst hops b ty f :
  ip_ok src → fits IP_LEN dst → is_i32 hops → is_i32 b → is_i32 ty → is_i32 f →
  ∃ h, populate_frame_header src dst hops b ty f = Some h ∧ head_is h ty src dst hops b.
Proof.
  intros [Fs Ns] Fd ? ? ? ?.
  destruct (populate_ok src dst hops b ty f) as (h & E & Hh & Hs & Hd & Hc & Hb & Ht & _ & Hm); [done..|].
  exists h. split; [exact E|]. split; [|done..]. split; [done|..].
  - by unfold fits; rewrite Hs.
  - by unfold fits; rewrite Hd.
  - rewrite Hm. by apply Nat.ltb_lt; vm_compute.
  - by rewrite Hs.
Qed.

Lemma set_msg_head h m ty src dst hops b :
  head_is h ty src dst hops b → fits HDR_MSG_LEN m →
  ∃ h', set_msg h m = Some h' ∧ head_is h' ty src dst hops b ∧ cstr (msg h') = cstr m.
Proof.
  intros [Hh ? ? ? ? ?] Hm.
  destruct (set_msg_ok h m (hd_head _ Hh) Hm) as (h' & E & Hok & Cm & Es & Ed & Eh & Eb & Et & _).
  exists h'. split; [exact E|]. split; [|exact Cm]. destruct Hh.
  split; [split|..]; rewrite ?Es, ?Ed, ?Eh, ?Eb, ?Et; try done. by unfold fits; rewrite Cm.
Qed.

(** ** Lookups depend on the text of an address *)

Lemma streq_ext a b b' : cstr b = cstr b' → streq a b = streq a b'.
Proof. unfold streq. by intros ->. Qed.

Lemma find_index_ext {A} (p q : A → bool) l : (∀ x, p x = q x) → find_index p l = find_index q l.
Proof. intros H. induction l as [|x l IH]; cbn; [done|]. by rewrite H, IH. Qed.

Lemma route_ext t a b : cstr a = cstr b → route t a = route t b.
Proof.
  intros E. unfold route. assert (get_row_entry t a = get_row_entry t b) as ->; [|done].
  unfold get_row_entry. by rewrite (find_index_ext _ (λ r, streq (row_dest_ip r) b))
    by (intros r; by apply streq_ext).
Qed.

Lemma own_ext l a b : cstr a = cstr b → own a l = own b l.
Proof.
  intros E. unfold own. induction l as [|d l IH]; cbn; [done|]. by rewrite IH, (streq_ext _ _ _ E).
Qed.

(** ** Routers *)

(** What a router knows of an address: the next hop, the number of hops and the
    broadcast number. *)
Definition fact : Type := bytes * Z * Z.
Definition row_fact (r : routing_table_row) : fact :=
  (next_hop_mac r, row_hop_count r, row_broadcast_id r).
Definition known (t : routing_table) (ip : bytes) : option fact := row_fact <$> route t ip.

(** A router with interfaces [l] whose table has at least [free] free rows. *)
Record router (l : list server_details) (free : nat) (s : odr) : Prop := {
  ro_serv : serv s = l;
  ro_table : table_ok (table s);
  ro_free : (entries (table s) + free ≤ ROUTING_TABLE_SIZE)%nat;
  ro_bid : is_i32 (broadcast_id s)
}.

Lemma known_Some t ip m c b :
  known t ip = Some (m, c, b) →
  ∃ r, route t ip = Some r ∧ next_hop_mac r = m ∧ row_hop_count r = c ∧ row_broadcast_id r = b.
Proof.
  unfold known. destruct (route t ip) as [r|]; [|done]. intros E. exists r.
  unfold row_fact in E. cbn in E. by injection E as <- <- <-.
Qed.

Lemma known_None t ip : known t ip = None → route t ip = None.
Proof. unfold known. by destruct (route t ip). Qed.

Lemma known_ext t a b : cstr a = cstr b → known t a = known t b.
Proof. intros E. unfold known. by rewrite (route_ext t a b E). Qed.

(** Learning of a source that was not known. *)
Lemma learn_new l free s h ty src dst hops b mac now :
  router l (S free) s → head_is h ty src dst hops b → ty = rreq ∨ ty = rrep → own src l = false →
  known (table s) src = None →
  ∃ t', learn_route h mac now s = ([], Ret true (set_table t' s)) ∧ router l free (set_table t' s) ∧
    ∀ ip, cstr ip ≠ [] → known t' ip = if decide (cstr ip = cstr src) then Some (mac, hops, b) else known (table s) ip.
Proof.
  intros [Hl Ht Hf Hb] [Hok Hty Hs Hd Hh Hbid] Hc Ho Hk. apply known_None in Hk.
  pose proof Hk as Hk'. rewrite <- (route_ext _ _ _ Hs) in Hk'. pose proof (hd_named _ Hok) as Hn.
  assert (room (table s) h) as Hroom by (intros _; lia).
  assert (own (src_ip h) (serv s) = false) as Ho' by (by rewrite Hl, (own_ext _ _ _ Hs)).
  assert (control h) as Hctl by (unfold control; by rewrite Hty).
  destruct (learn_route_spec h mac now s Ht Hn Hctl Ho' Hroom) as (t' & r & E & Ht' & _ & Hup).
  assert (improves (table s) h = true) as Hi.
  { apply Z.eqb_eq, should_update_iff; [done..|]. by rewrite Hk'. }
  rewrite Hi in E, Hup.
  destruct (update_spec (table s) h mac now Ht Hn Hroom) as (t2 & E2 & _ & Hr2 & He2).
  rewrite Hup in E2. injection E2 as <-. rewrite Hk' in He2, Hr2.
  exists t'. split; [exact E|]. split; [split; cbn [set_table serv table broadcast_id]; [done|done|rewrite He2; lia|done]|].
  intros ip Hip. unfold known. rewrite Hr2 by done. rewrite Hs. case_decide; [|done].
  cbn. unfold row_fact. cbn. by rewrite Hh, Hbid.
Qed.

(** The state after learning that [src] is [f]. *)
Definition learns (l : list server_details) (free : nat) (s : odr) (src : bytes) (f : fact) (s' : odr) : Prop :=
  router l free s' ∧ broadcast_id s' = broadcast_id s ∧ buffer s' = buffer s ∧
  ∀ ip, cstr ip ≠ [] → known (table s') ip = if decide (cstr ip = cstr src) then Some f else known (table s) ip.

Lemma learns_new l free s src f s' :
  learns l free s src f s' → cstr src ≠ [] → known (table s') src = Some f.
Proof. intros (_ & _ & _ & H) Hn. by rewrite H, decide_True. Qed.

Lemma learns_other l free s src f s' ip :
  learns l free s src f s' → cstr ip ≠ [] → cstr ip ≠ cstr src → known (table s') ip = known (table s) ip.
Proof. intros (_ & _ & _ & H) Hn Hne. by rewrite H, decide_False. Qed.

Lemma no_row t ip : table_ok t → cstr ip ≠ [] → known t ip = None → (get_row_entry t ip =? -1) = true.
Proof. intros Ht Hn Hk. apply Z.eqb_eq, route_None; [done..|]. by apply known_None. Qed.

(** Nothing is learnt from a frame of the router's own, nor from one that is no
    newer and no shorter than what is known. *)
Lemma learn_nothing l free s h ty src dst hops b mac now :
  router l free s → head_is h ty src dst hops b →
  own src l = true ∨ (∃ m c, known (table s) src = Some (m, c, b) ∧ c <= hops) →
  learn_route h mac now s = ([], Ret false s).
Proof.
  intros [Hl Ht Hf Hb] [Hok Hty Hs Hd Hh Hbid] Hcase. unfold learn_route.
  unfold mbind at 1, M_bind at 1, gets at 1. cbn [id].
  rewrite source_ip_cmp_own, Hl, (own_ext _ _ _ Hs).
  destruct Hcase as [-> | (m & c & Hk & Hle)]; [by rewrite andb_false_r|].
  assert ((should_update_rt (table s) h =? 1) = false) as ->; [|by rewrite andb_false_r].
  apply Z.eqb_neq. rewrite should_update_iff by (done || apply Hok). rewrite (route_ext _ _ _ Hs).
  apply known_Some in Hk as (r & -> & _ & Hc & Hrb). rewrite Hc, Hrb, Hh, Hbid. lia.
Qed.

(** ** Questions *)

(** The host name [ip_to_vm] makes of an address. *)
Lemma vm_of_ip ip :
  (11 ≤ length (cstr ip) < 18)%nat → fits (length ip) ip →
  ∃ vm, ip_to_vm ip (zeros 10) = Some vm ∧ cstr vm = str "vm" ++ drop 11 (cstr ip).
Proof.
  intros Hl Hf. assert (cstr (drop 11 ip) = drop 11 (cstr ip)) as Ec.
  { rewrite (cstr_split ip) at 1 by exact Hf. rewrite drop_app_le by lia. apply cstr_app_nul.
    intros Hin. apply (cstr_no_nul ip). rewrite <- (take_drop 11 (cstr ip)). apply elem_of_app. by right. }
  destruct (strcpy_room (zeros 10) (str "vm")) as (v0 & E0 & L0 & C0); [by apply Nat.ltb_lt; vm_compute|].
  change (cstr (str "vm")) with (str "vm") in C0. rewrite length_zeros in L0.
  destruct (strcat_room v0 (drop 11 ip)) as (v & E & _ & C).
  { rewrite C0, L0, Ec, length_drop. change (length (str "vm")) with 2%nat. lia. }
  exists v. unfold ip_to_vm. rewrite E0. cbn [mbind option_bind]. split; [exact E|]. by rewrite C, C0, Ec.
Qed.

Lemma fits_short n a : (length a < n)%nat → fits n a.
Proof. unfold fits. pose proof (length_cstr a). lia. Qed.

(** A whole answer of the local server, its text terminated. *)
Definition replies (reply : bytes) : Prop :=
  (sizeof_peer_info ≤ length reply)%nat ∧ NUL ∈ pi_msg (decode_peer_info reply).

(** The question to the local server and the answer put in the header. *)
Lemma ask_server hostname h vm reply s :
  hdr_ok h → (length (cstr vm) < 10)%nat → replies reply →
  ∃ q h', get_data_from_server hostname h vm reply s = ([SendLocal DOMAIN_SOCK_PATH q], Ret h' s) ∧
    cstr (pi_msg (decode_peer_info q)) = question h vm ∧
    head_is h' (type h) (src_ip h) (dest_ip h) (hop_count h) (bc_id h) ∧
    cstr (msg h') = cstr (pi_msg (decode_peer_info reply)).
Proof.
  intros Hok Hvm [Hrl Hrm]. assert (is_i32 (bc_id h)) as Hb by apply Hok.
  destruct (question_built h vm Hb Hvm) as (b0 & b1 & b & E0 & E1 & E & Cb & Fb).
  destruct (msg_send_ok hostname (str "dst_ip") (str "dst_port") (str "srcip") (str "srcport") b 0)
    as (q & Eq & _ & Hq);
    [by apply Nat.ltb_lt; vm_compute|by apply Nat.ltb_lt; vm_compute|by apply Nat.ltb_lt; vm_compute|done|by vm_compute|].
  destruct (set_msg_head h (pi_msg (decode_peer_info reply)) (type h) (src_ip h) (dest_ip h) (hop_count h) (bc_id h))
    as (h' & Em & Hh' & Cm); [by split|..].
  { apply fits_short. cbn. unfold slice. rewrite length_take, length_drop. unfold HDR_MSG_LEN. lia. }
  exists q, h'. split_and!; [| |done|done].
  - unfold get_data_from_server. rewrite E0. unfold mbind, M_bind. cbn [required mret M_ret].
    rewrite E1. cbn [required mret M_ret]. rewrite E. cbn [required mret M_ret]. rewrite Eq.
    cbn [required mret M_ret emit]. rewrite peer_info_in_long by done. cbn [required mret M_ret].
    unfold text_of. rewrite decide_True by done. cbn [required mret M_ret]. rewrite Em. reflexivity.
  - specialize (Hq []). rewrite app_nil_r in Hq. rewrite <- Cb. apply Hq.
Qed.

Section hop.
Context (hostname : bytes) (proto : Z) (heap : bytes).
Context (l : list server_details) (src dst : bytes).
Context (Hsrc : ip_ok src) (Hdst : ip_ok dst).
Context (d m : bytes) (Hd : length d = 6%nat) (Hm : length m = 6%nat).
Context (now : Z) (reply : bytes).

(** The frame with header [h], sent to [d] by [m]. *)
Abbreviation hears h s := (process_frame hostname proto heap (frame_of proto heap d m h) now reply s).

(** ** Route requests *)

Lemma hop_rreq free s h hops b :
  router l (S free) s → head_is h rreq src dst hops b → own src l = false → known (table s) src = None →
  ∃ t' hrep hreq r, hears h s = (rreq_output proto heap t' l true h hrep hreq r, Ret tt (set_table t' s)) ∧
    learns l free s src (m, hops, b) (set_table t' s) ∧ next_hop_mac r = m ∧
    head_is hrep rrep dst src 1 b ∧ head_is hreq rreq src dst (i32 (hops + 1)) b.
Proof.
  intros Hr Hh Ho Hk. pose proof (hi_ok _ _ _ _ _ _ Hh) as Hok.
  destruct (learn_new l free s h rreq src dst hops b m now Hr Hh ltac:(by left) Ho Hk) as (t' & E & Hr' & Hk').
  assert (learns l free s src (m, hops, b) (set_table t' s)) as HL by done.
  pose proof (learns_new _ _ _ _ _ _ HL (proj2 Hsrc)) as Hnew. cbn [set_table table] in Hnew.
  apply known_Some in Hnew as (r & Hroute & Hmac & _).
  assert (is_i32 (bc_id h)) as Hb by apply Hok. assert (is_i32 (force_flag h)) as Hff by apply Hok.
  destruct (populate_head (dest_ip h) (src_ip h) 1 (bc_id h) rrep 0) as (hrep & Erep & Hrep);
    [split; [apply Hok|rewrite (hi_dst _ _ _ _ _ _ Hh); apply Hdst]|apply Hok|by vm_compute|done|by vm_compute..|].
  destruct (populate_head (src_ip h) (dest_ip h) (i32 (hop_count h + 1)) (bc_id h) rreq (force_flag h))
    as (hreq & Ereq & Hreq);
    [split; apply Hok|apply Hok|apply i32_range|done|by vm_compute|done|].
  exists t', hrep, hreq, r. destruct Hh as [_ Hty Hs Hde Hho Hbid]. split_and!; try done.
  - rewrite process_frame_head by (done || apply Hok). unfold mbind, M_bind. rewrite E, Hty.
    change (rreq =? rreq) with true. cbn [app].
    rewrite (process_rreq_eq _ _ h (set_table t' s) true hrep hreq r Erep Ereq)
      by (cbn [set_table table]; by rewrite (route_ext _ _ _ Hs)).
    cbn [set_table serv table]. by rewrite (ro_serv _ _ _ Hr).
  - destruct Hrep as [? ? E1 E2 ? ?]. rewrite Hs in E2. rewrite Hde in E1. rewrite Hbid in *. by split.
  - destruct Hreq as [? ? E1 E2 E3 E4]. rewrite Hs in E1. rewrite Hde in E2. rewrite Hbid in E4.
    rewrite Hho in E3. by split.
Qed.

(** A request for another host that was news goes on. *)
Lemma hop_rreq_forward free s h hops b :
  router l (S free) s → head_is h rreq src dst hops b → own src l = false → own dst l = false →
  known (table s) src = None → known (table s) dst = None → cstr dst ≠ cstr src →
  ∃ h' s', hears h s = (flood proto heap b_mac h' l, Ret tt s') ∧
    head_is h' rreq src dst (i32 (hops + 1)) b ∧ learns l free s src (m, hops, b) s'.
Proof.
  intros Hr Hh Ho Hod Hk Hkd Hne.
  destruct (hop_rreq free s h hops b Hr Hh Ho Hk) as (t' & hrep & hreq & r & E & HL & _ & _ & Hreq).
  exists hreq, (set_table t' s). split; [|done]. rewrite E. unfold rreq_output.
  rewrite (own_ext _ _ _ (hi_dst _ _ _ _ _ _ Hh)), Hod.
  destruct HL as (Hr' & _ & _ & Hkn). rewrite no_row; [done|apply Hr'|..];
    [|rewrite (known_ext _ _ _ (hi_dst _ _ _ _ _ _ Hh))]; rewrite ?(hi_dst _ _ _ _ _ _ Hh).
  - apply Hdst.
  - cbn [set_table table] in Hkn. rewrite Hkn by apply Hdst. by rewrite decide_False.
Qed.

(** The destination answers along the way the request came. *)
Lemma hop_rreq_answer free s h hops b :
  router l (S free) s → head_is h rreq src dst hops b → own src l = false → own dst l = true →
  known (table s) src = None →
  ∃ h' s', hears h s = (flood proto heap m h' l, Ret tt s') ∧
    head_is h' rrep dst src 1 b ∧ learns l free s src (m, hops, b) s'.
Proof.
  intros Hr Hh Ho Hod Hk.
  destruct (hop_rreq free s h hops b Hr Hh Ho Hk) as (t' & hrep & hreq & r & E & HL & <- & Hrep & _).
  exists hrep, (set_table t' s). split; [|done]. rewrite E. unfold rreq_output.
  by rewrite (own_ext _ _ _ (hi_dst _ _ _ _ _ _ Hh)), Hod.
Qed.

(** A router that only knows a way to the destination answers too, and claims to
    be one hop away from it, whatever the distance [c] in its table. *)
Lemma reply_from_table_claims_one_hop free s h hops b m' c b' :
  router l (S free) s → head_is h rreq src dst hops b → own src l = false → own dst l = false →
  known (table s) src = None → known (table s) dst = Some (m', c, b') → cstr dst ≠ cstr src →
  ∃ h' s', hears h s = (flood proto heap m h' l, Ret tt s') ∧ head_is h' rrep dst src 1 b.
Proof.
  intros Hr Hh Ho Hod Hk Hkd Hne.
  destruct (hop_rreq free s h hops b Hr Hh Ho Hk) as (t' & hrep & hreq & r & E & HL & <- & Hrep & _).
  exists hrep, (set_table t' s). split; [|done]. rewrite E. unfold rreq_output.
  pose proof (learns_other _ _ _ _ _ _ dst HL (proj2 Hdst) Hne) as Hkd'. rewrite Hkd in Hkd'.
  rewrite <- (known_ext _ _ _ (hi_dst _ _ _ _ _ _ Hh)) in Hkd'. apply known_Some in Hkd' as (rd & Hrd & _).
  cbn [set_table table] in Hrd. unfold route in Hrd.
  destruct (get_row_entry t' (dest_ip h) =? -1); [done|]. by rewrite orb_true_r.
Qed.

(** A request that tells nothing new, for a host not known, is dropped. *)
Lemma hop_rreq_echo free s h hops b :
  router l free s → head_is h rreq src dst hops b →
  own src l = true ∨ (∃ m' c, known (table s) src = Some (m', c, b) ∧ c <= hops) →
  own dst l = false → known (table s) dst = None → hears h s = ([], Ret tt s).
Proof.
  intros Hr Hh Hold Ho Hk. rewrite process_frame_head by (done || apply Hh). unfold mbind, M_bind.
  rewrite (learn_nothing l free s h rreq src dst hops b m now Hr Hh Hold), (hi_type _ _ _ _ _ _ Hh).
  change (rreq =? rreq) with true. unfold process_rreq. unfold mbind, M_bind, gets. cbn [id].
  rewrite source_ip_cmp_own, (ro_serv _ _ _ Hr), (own_ext _ _ _ (hi_dst _ _ _ _ _ _ Hh)), Ho.
  rewrite no_row; [done|apply Hr|rewrite (hi_dst _ _ _ _ _ _ Hh); apply Hdst|].
  by rewrite (known_ext _ _ _ (hi_dst _ _ _ _ _ _ Hh)).
Qed.

(** ** Route replies *)

(** A reply teaches the way to its source. *)
Lemma hop_rrep_learns free s h hops b :
  router l (S free) s → head_is h rrep src dst hops b → own src l = false → known (table s) src = None →
  ∃ s', learns l free s src (m, hops, b) s' ∧
    hears h s = process_rrep proto heap h s'.
Proof.
  intros Hr Hh Ho Hk.
  destruct (learn_new l free s h rrep src dst hops b m now Hr Hh ltac:(by right) Ho Hk) as (t' & E & Hr' & Hk').
  exists (set_table t' s). split; [done|].
  rewrite process_frame_head by (done || apply Hh). unfold mbind, M_bind. rewrite E, (hi_type _ _ _ _ _ _ Hh).
  change (rrep =? rreq) with false. change (rrep =? rrep) with true. cbn [app].
  by destruct (process_rrep proto heap h (set_table t' s)).
Qed.

(** A reply for another host goes on along the way to it. *)
Lemma hop_rrep_forward free s h hops b m' c b' :
  router l (S free) s → head_is h rrep src dst hops b → own src l = false → own dst l = false →
  known (table s) src = None → known (table s) dst = Some (m', c, b') → cstr dst ≠ cstr src →
  ∃ h' s', hears h s = (flood proto heap m' h' l, Ret tt s') ∧
    head_is h' rrep src dst (i32 (hops + 1)) b ∧ learns l free s src (m, hops, b) s'.
Proof.
  intros Hr Hh Ho Hod Hk Hkd Hne. pose proof (hi_ok _ _ _ _ _ _ Hh) as Hok.
  destruct (hop_rrep_learns free s h hops b Hr Hh Ho Hk) as (s' & HL & E).
  assert (is_i32 (bc_id h)) as Hb by apply Hok.
  destruct (populate_head (src_ip h) (dest_ip h) (i32 (hop_count h + 1)) (bc_id h) rrep 0)
    as (h' & Eh & Hh'); [split; apply Hok|apply Hok|apply i32_range|done|by vm_compute..|].
  rewrite <- (learns_other _ _ _ _ _ _ dst HL (proj2 Hdst) Hne) in Hkd.
  rewrite <- (known_ext _ _ _ (hi_dst _ _ _ _ _ _ Hh)) in Hkd.
  apply known_Some in Hkd as (r & Hroute & <- & _).
  exists h', s'. split_and!; [|destruct Hh as [_ _ Hs Hde Hho Hbid], Hh' as [? ? E1 E2 E3 E4]|done].
  - rewrite E. unfold process_rrep. unfold mbind, M_bind, gets. cbn [id].
    rewrite source_ip_cmp_own, (ro_serv _ _ _ (proj1 HL)), (own_ext _ _ _ (hi_dst _ _ _ _ _ _ Hh)), Hod.
    cbn [negb]. by rewrite (send_rrep_eq _ _ _ _ _ _ h' r), (ro_serv _ _ _ (proj1 HL)).
  - rewrite Hs in E1. rewrite Hde in E2. rewrite Hho in E3. rewrite Hbid in E4. by split.
Qed.

(** A reply for this host: the payload follows. *)
Lemma hop_rrep_end free s h hops b :
  router l (S free) s → head_is h rrep src dst hops b → own src l = false → own dst l = true →
  known (table s) src = None →
  ∃ h' s', hears h s = (flood proto heap m h' l, Ret tt s') ∧
    head_is h' payload_req dst src hops (broadcast_id s) ∧ learns l free s src (m, hops, b) s'.
Proof.
  intros Hr Hh Ho Hod Hk. pose proof (hi_ok _ _ _ _ _ _ Hh) as Hok.
  destruct (hop_rrep_learns free s h hops b Hr Hh Ho Hk) as (s' & HL & E).
  pose proof (learns_new _ _ _ _ _ _ HL (proj2 Hsrc)) as Hnew.
  rewrite <- (known_ext _ _ _ (hi_src _ _ _ _ _ _ Hh)) in Hnew.
  apply known_Some in Hnew as (r & Hroute & Hmac & Hc & _).
  assert (is_i32 hops) as Hhops by (rewrite <- (hi_hops _ _ _ _ _ _ Hh); apply Hok).
  pose proof (proj1 (proj2 HL)) as Hbid.
  destruct (populate_head (dest_ip h) (src_ip h) hops (broadcast_id s) payload_req 0) as (hp & Ep & Hp);
    [split; [apply Hok|rewrite (hi_dst _ _ _ _ _ _ Hh); apply Hdst]|apply Hok|done|apply Hr|by vm_compute..|].
  destruct (set_msg_head hp (str " ") _ _ _ _ _ Hp) as (h' & Em & Hh' & _); [by apply Nat.ltb_lt; vm_compute|].
  exists h', s'. split_and!; [|destruct Hh as [_ _ Hs Hde _ _], Hh' as [? ? E1 E2 ? ?]|done].
  - rewrite E. unfold process_rrep. unfold mbind, M_bind, gets. cbn [id].
    rewrite source_ip_cmp_own, (ro_serv _ _ _ (proj1 HL)), (own_ext _ _ _ (hi_dst _ _ _ _ _ _ Hh)), Hod.
    cbn [negb].
    rewrite (send_payload_eq _ _ _ _ _ _ _ r hp h') by (done || by rewrite Hc, Hbid).
    by rewrite Hmac, (ro_serv _ _ _ (proj1 HL)).
  - rewrite Hs in E2. rewrite Hde in E1. by split.
Qed.

(** ** Payloads *)

(** A payload for another host goes on along the way to it. *)
Lemma hop_payload free s h ty hops b m' c b' :
  router l free s → head_is h ty src dst hops b → ty = payload_req ∨ ty = payload_resp → own dst l = false →
  known (table s) dst = Some (m', c, b') → is_i32 c →
  ∃ h', hears h s = (flood proto heap m' h' l, Ret tt s) ∧
    head_is h' ty src dst c (broadcast_id s) ∧ cstr (msg h') = cstr (msg h).
Proof.
  intros Hr Hh Hty Ho Hk Hc. pose proof (hi_ok _ _ _ _ _ _ Hh) as Hok.
  rewrite <- (known_ext _ _ _ (hi_dst _ _ _ _ _ _ Hh)) in Hk.
  apply known_Some in Hk as (r & Hroute & Hmac & Hrc & _).
  destruct (populate_head (src_ip h) (dest_ip h) c (broadcast_id s) ty 0) as (hp & Ep & Hp);
    [split; apply Hok|apply Hok|done|apply Hr|by destruct Hty as [-> | ->]; vm_compute|by vm_compute|].
  destruct (set_msg_head hp (msg h) _ _ _ _ _ Hp (hd_msg _ Hok)) as (h' & Em & Hh' & Cm).
  exists h'. destruct Hh as [_ Ety Hs Hde _ _]. split_and!; [|destruct Hh' as [? ? E1 E2 ? ?]|done].
  - rewrite process_frame_payload by (done || apply Hok || by rewrite Ety). unfold process_payload.
    unfold mbind, M_bind, gets. cbn [id]. rewrite source_ip_cmp_own, (ro_serv _ _ _ Hr), (own_ext _ _ _ Hde), Ho.
    cbn [negb].
    assert (get_row_entry (table s) (dest_ip h) ≠ -1) as Hne
      by (unfold route in Hroute; by destruct (Z.eqb_spec (get_row_entry (table s) (dest_ip h)) (-1))).
    rewrite (proj2 (Z.eqb_neq _ _) Hne). cbn [negb].
    rewrite Ety, (send_payload_eq _ _ _ _ _ _ _ r hp h') by (done || by rewrite Hrc).
    by rewrite Hmac, (ro_serv _ _ _ Hr).
  - rewrite Hs in E1. rewrite Hde in E2. by split.
Qed.

(** The destination asks its server and sends the answer back. *)
Lemma hop_question free s h hops b m' c b' :
  router l free s → head_is h payload_req src dst hops b → own dst l = true →
  known (table s) src = Some (m', c, b') → is_i32 c → (11 ≤ length (cstr src) < 18)%nat →
  replies reply →
  ∃ q h', hears h s = (SendLocal DOMAIN_SOCK_PATH q :: flood proto heap m' h' l, Ret tt s) ∧
    cstr (pi_msg (decode_peer_info q)) = dec_d b ++ hash :: str "vm" ++ drop 11 (cstr src) ∧
    head_is h' payload_resp dst src c (broadcast_id s) ∧
    cstr (msg h') = cstr (pi_msg (decode_peer_info reply)).
Proof.
  intros Hr Hh Ho Hk Hc Hlen Hrep. pose proof (hi_ok _ _ _ _ _ _ Hh) as Hok.
  rewrite <- (known_ext _ _ _ (hi_src _ _ _ _ _ _ Hh)) in Hk.
  apply known_Some in Hk as (r & Hroute & Hmac & Hrc & _).
  destruct (vm_of_ip (src_ip h)) as (vm & Evm & Cvm);
    [rewrite (hi_src _ _ _ _ _ _ Hh); lia
    |unfold fits; rewrite (hi_src _ _ _ _ _ _ Hh), (ho_src _ (hd_head _ Hok)); unfold IP_LEN; lia|].
  rewrite (hi_src _ _ _ _ _ _ Hh) in Cvm.
  destruct (ask_server hostname h vm reply s) as (q & h1 & Eq & Cq & [Hok1 Hty1 Hs1 Hd1 _ _] & Cm1);
    [exact Hok|rewrite Cvm, length_app, length_drop; change (length (str "vm")) with 2%nat; lia|done|].
  destruct Hh as [_ Hty Hs Hde _ Hb].
  destruct (populate_head (dest_ip h1) (src_ip h1) c (broadcast_id s) payload_resp 0) as (hp & Ep & Hp);
    [split; [apply Hok1|rewrite Hd1, Hde; apply Hdst]|apply Hok1|done|apply Hr|by vm_compute..|].
  destruct (set_msg_head hp (msg h1) _ _ _ _ _ Hp (hd_msg _ Hok1)) as (h' & Em & [? ? E1 E2 ? ?] & Cm).
  rewrite Hd1, Hde in E1. rewrite Hs1, Hs in E2. exists q, h'. split_and!; [| |by split|by rewrite Cm].
  - rewrite process_frame_payload by (done || apply Hok || by left). unfold process_payload.
    unfold mbind at 1, M_bind at 1, gets at 1. cbn [id].
    rewrite source_ip_cmp_own, (ro_serv _ _ _ Hr), (own_ext _ _ _ Hde), Ho, Hty. cbn [negb].
    change (payload_req =? payload_req) with true. rewrite Evm. unfold mbind, M_bind. cbn [required mret M_ret].
    rewrite Eq, (send_payload_eq _ _ _ _ _ _ _ r hp h'); [by rewrite Hmac, (ro_serv _ _ _ Hr)|..|done].
    + by rewrite (route_ext _ _ _ Hs1).
    + by rewrite Hrc.
  - by rewrite Cq; unfold question; rewrite Cvm, Hb.
Qed.
End hop.

(** ** Requests of local clients *)

(** No request for [ip] is waiting, and there is room for one. *)
Record idle (ip : bytes) (buf : list server_buf) : Prop := {
  id_ports : Forall (λ e, port_ok (sb_peer_info e)) buf;
  id_none : Forall (λ e, waiting_for ip e = false) buf;
  id_free : ∃ i e, buf !! i = Some e ∧ sb_count e = 0
}.

(** The buffer with request [p] pushed, and after it was answered. *)
Definition slot (buf : list server_buf) : nat := find_index (λ e, sb_count e =? 0) buf.
Definition pushed (p : peer_info) (buf : list server_buf) : list server_buf :=
  <[slot buf := mk_server_buf p 1]> buf.
Definition freed (p : peer_info) (buf : list server_buf) : list server_buf :=
  <[slot buf := mk_server_buf p 0]> buf.

Lemma slot_lt ip buf : idle ip buf → (slot buf < length buf)%nat.
Proof.
  intros [_ _ (i & e & Hi & He)]. pose proof (lookup_lt_Some _ _ _ Hi).
  pose proof (find_index_first (λ e, sb_count e =? 0) buf i e Hi (proj2 (Z.eqb_eq _ _) He)).
  unfold slot. lia.
Qed.

Lemma push_idle ip buf p : idle ip buf → push_data_to_buf buf p = Some (pushed p buf).
Proof. intros H. unfold push_data_to_buf. fold (slot buf). by rewrite decide_True by by eapply slot_lt. Qed.

Lemma waiting_ext a b e : cstr a = cstr b → waiting_for a e = waiting_for b e.
Proof. intros E. unfold waiting_for, streq. by rewrite E. Qed.

Lemma pushed_waits ip ip' buf p :
  idle ip buf → cstr ip' = cstr ip → cstr (pi_dest_ip p) = cstr ip →
  find_index (waiting_for ip') (pushed p buf) = slot buf ∧ pushed p buf !! slot buf = Some (mk_server_buf p 1).
Proof.
  intros Hi Eip Ep. pose proof (slot_lt ip buf Hi) as Hlt.
  assert (pushed p buf !! slot buf = Some (mk_server_buf p 1)) as Hl
    by by apply list_lookup_insert_eq.
  split; [|exact Hl]. apply (find_index_unique _ _ _ _ Hl).
  - unfold waiting_for. rewrite (proj2 (streq_true _ _)); [done|]. cbn. congruence.
  - intros j y Hj Hy. unfold pushed in Hy. rewrite list_lookup_insert_ne in Hy by lia.
    rewrite (waiting_ext _ _ _ Eip). apply (Forall_lookup_1 _ _ _ _ (id_none _ _ Hi) Hy).
Qed.

Lemma freed_idle ip buf p : idle ip buf → port_ok p → idle ip (freed p buf).
Proof.
  intros Hi Hp. pose proof (slot_lt ip buf Hi). destruct Hi as [H1 H2 H3]. split.
  - by apply Forall_insert.
  - apply Forall_insert; [done|]. unfold waiting_for. apply andb_false_r.
  - exists (slot buf), (mk_server_buf p 0). split; [by apply list_lookup_insert_eq|done].
Qed.

Section ends.
Context (hostname : bytes) (proto : Z) (heap : bytes).
Context (src dst : bytes) (Hsrc : ip_ok src) (Hdst : ip_ok dst).

(** The answer reaches the client that waits for it. *)
Lemma hop_answer l free s h hops b p buf d m now reply :
  router l free s → head_is h payload_resp src dst hops b → own dst l = true →
  length d = 6%nat → length m = 6%nat → fits MAX_MSG_LEN (msg h) →
  idle src buf → cstr (pi_dest_ip p) = cstr src → port_ok p → buffer s = pushed p buf →
  ∃ dg, process_frame hostname proto heap (frame_of proto heap d m h) now reply s =
      ([SendLocal (cstr (src_port p)) dg], Ret tt (set_buffer (freed p buf) s)) ∧
    cstr (pi_msg (decode_peer_info dg)) = cstr (msg h).
Proof.
  intros Hr Hh Ho Hd Hm Hf Hi Hp Hport Hbuf.
  destruct (pushed_waits src (src_ip h) buf p Hi (hi_src _ _ _ _ _ _ Hh) Hp) as [Hfi Hl].
  pose proof (response_run hostname proto heap h d m now reply s) as H. rewrite Hbuf, Hfi, Hl in H.
  destruct H as (dg & E & C);
    [apply Hh|apply Hh|done|done|by rewrite (ro_serv _ _ _ Hr), (own_ext _ _ _ (hi_dst _ _ _ _ _ _ Hh))|done|..].
  { apply Forall_insert; [apply Hi|done]. }
  exists dg. split; [|exact C]. rewrite E. cbn [sb_peer_info]. unfold pushed.
  by rewrite list_insert_insert_eq.
Qed.

(** The state after a request of a client was taken. *)
Definition asked_of (p : peer_info) (s : odr) : odr :=
  mk_odr (serv s) (table s) (i32 (broadcast_id s + 1)) (i32 (packet_counter s + 1)) (pushed p (buffer s)).

(** A request for [dst] without the force flag. *)
Record asks (ip : bytes) (dg : bytes) : Prop := {
  as_size : (sizeof_peer_info ≤ length dg)%nat;
  as_dest : cstr (pi_dest_ip (decode_peer_info dg)) = cstr ip;
  as_end : NUL ∈ pi_dest_ip (decode_peer_info dg);
  as_port : port_ok (decode_peer_info dg);
  as_flag : flag (decode_peer_info dg) ≠ 1
}.

Lemma client_request_runs dg s o :
  idle dst (buffer s) → asks dst dg → serv s = [o] →
  client_request proto heap dg s =
    (send_payload proto heap (sd_ip o) (pi_dest_ip (decode_peer_info dg)) payload_req (str " ")
       (flag (decode_peer_info dg)) ≫= λ _, mret tt) (asked_of (decode_peer_info dg) s).
Proof.
  intros Hi [Hl Hd He Hp Hf] Hs. unfold client_request.
  unfold mbind at 1, M_bind at 1, modify at 1. cbv beta zeta. rewrite peer_info_in_long by done.
  unfold mbind at 1, M_bind at 1. cbn [required mret M_ret].
  unfold text_of. rewrite decide_True by done. unfold mbind at 1, M_bind at 1. cbn [required mret M_ret].
  unfold mbind at 1, M_bind at 1, gets at 1. cbn [buffer]. rewrite (push_idle dst) by done.
  unfold mbind at 1, M_bind at 1. cbn [required mret M_ret].
  unfold mbind at 1, M_bind at 1, modify at 1. unfold mbind at 1, M_bind at 1, gets at 1.
  cbn [serv set_buffer]. rewrite Hs. cbn [foreach]. rewrite (proj2 (Z.eqb_neq _ _) Hf). cbn [when].
  unfold asked_of. rewrite Hs. cbn [set_buffer serv table broadcast_id packet_counter].
  unfold mbind, M_bind, mret, M_ret. cbn [app]. by destruct (send_payload _ _ _ _ _ _ _ _) as [? []].
Qed.

Lemma flag_range dg : is_i32 (flag (decode_peer_info dg)).
Proof. apply i32_range. Qed.

Lemma asked_router l free p s : router l free s → router l free (asked_of p s).
Proof. intros [? ? ? ?]. split; cbn; try done. apply i32_range. Qed.

(** A request for a host without a route floods a route request. *)
Lemma request_unknown free s o dg :
  router [o] free s → idle dst (buffer s) → asks dst dg → cstr (sd_ip o) = cstr src →
  known (table s) dst = None →
  ∃ h, client_request proto heap dg s = (flood proto heap b_mac h [o], Ret tt (asked_of (decode_peer_info dg) s)) ∧
    head_is h rreq src dst 1 (i32 (broadcast_id s + 1)).
Proof.
  intros Hr Hi Ha Ho Hk. rewrite (client_request_runs dg s o Hi Ha (ro_serv _ _ _ Hr)).
  set (p := decode_peer_info dg). pose proof (as_dest _ _ Ha) as Hd. fold p in Hd.
  destruct (populate_head (sd_ip o) (pi_dest_ip p) 1 (i32 (broadcast_id s + 1)) rreq (flag p)) as (h & E & Hh);
    [split; unfold fits; rewrite Ho; apply Hsrc|unfold fits; rewrite Hd; apply Hdst|by vm_compute|apply i32_range
    |by vm_compute|apply flag_range|].
  exists h. split; [|destruct Hh as [? ? E1 E2 ? ?]; rewrite Ho in E1; rewrite Hd in E2; by split].
  unfold send_payload. unfold mbind at 1, M_bind at 1.
  do 3 (unfold mbind at 1, M_bind at 1, gets at 1). cbn [asked_of table serv broadcast_id].
  rewrite no_row; [|apply Hr|rewrite Hd; apply Hdst|by rewrite (known_ext _ _ _ Hd)].
  rewrite (ro_serv _ _ _ Hr). cbn [foreach]. unfold mbind at 1, M_bind at 1.
  rewrite (send_rreq_eq _ _ _ _ _ _ _ _ _ E). cbn [mret M_ret asked_of serv]. by rewrite (ro_serv _ _ _ Hr).
Qed.

(** A request for a host with a route sends the payload there. *)
Lemma request_known free s o dg m c b :
  router [o] free s → idle dst (buffer s) → asks dst dg → cstr (sd_ip o) = cstr src →
  known (table s) dst = Some (m, c, b) → is_i32 c →
  ∃ h, client_request proto heap dg s = (flood proto heap m h [o], Ret tt (asked_of (decode_peer_info dg) s)) ∧
    head_is h payload_req src dst c (i32 (broadcast_id s + 1)).
Proof.
  intros Hr Hi Ha Ho Hk Hc. rewrite (client_request_runs dg s o Hi Ha (ro_serv _ _ _ Hr)).
  set (p := decode_peer_info dg). pose proof (as_dest _ _ Ha) as Hd. fold p in Hd.
  rewrite <- (known_ext _ _ _ Hd) in Hk. apply known_Some in Hk as (r & Hroute & Hmac & Hrc & _).
  destruct (populate_head (sd_ip o) (pi_dest_ip p) c (i32 (broadcast_id s + 1)) payload_req (flag p)) as (h & E & Hh);
    [split; unfold fits; rewrite Ho; apply Hsrc|unfold fits; rewrite Hd; apply Hdst|done|apply i32_range
    |by vm_compute|apply flag_range|].
  destruct (set_msg_head h (str " ") _ _ _ _ _ Hh) as (h' & Em & [? ? E1 E2 ? ?] & _);
    [by apply Nat.ltb_lt; vm_compute|].
  exists h'. split; [|rewrite Ho in E1; rewrite Hd in E2; by split].
  unfold mbind, M_bind. rewrite (send_payload_eq _ _ _ _ _ _ _ r h h'); [|done|by rewrite Hrc|done].
  cbn [mret M_ret asked_of serv]. by rewrite (ro_serv _ _ _ Hr), Hmac, app_nil_r.
Qed.
End ends.
