(* ===== verification/OdrLine.v ===== *)
(** * Routers in a line (hw3 end to end)

    Any number of routers in a line between two hosts: router [i] is joined to
    router [i + 1] by network [i].  A client at one end asks for the time at the
    other end, with no route known at first: the route request floods the line,
    the reply comes back, and payloads go both ways. *)

From Stdlib Require Import Strings.Byte.
From stdpp Require Import functions.
From S2P Require Import Prelude.
From S2P Require Import CMem.
From S2P Require Import CText.
From S2P Require Import OdrMsg.
From S2P Require Import OdrTable.
From S2P Require Import Odr.
From S2P Require Import OdrProps.
From S2P Require Import OdrNet.
From S2P Require Import OdrApp.
From S2P Require Import OdrHop.

(** [ln_between] routers between router 0 and the last one; the interfaces
    towards lower and higher numbers; names; what the local servers answer. *)
Record odr_line := mk_line {
  ln_between : nat;
  ln_left : nat → server_details;
  ln_right : nat → server_details;
  ln_host : nat → bytes;
  ln_reply : nat → bytes
}.

Section line.
Context (G : odr_line) (proto : Z) (heap : bytes).

Abbreviation n := (ln_between G).
Abbreviation lf := (ln_left G).
Abbreviation rt := (ln_right G).

(** The last router, and the addresses of the two ends. *)
Definition far : nat := S n.
Definition src_addr : bytes := sd_ip (rt 0%nat).
Definition dst_addr : bytes := sd_ip (lf far).

Definition has_left (i : nat) : bool := (0 <? i)%nat.
Definition has_right (i : nat) : bool := (i <? far)%nat.

Definition ifs (i : nat) : list server_details :=
  (if has_left i then [lf i] else []) ++ (if has_right i then [rt i] else []).
Definition wires (i : nat) : list (Z * nat) :=
  (if has_left i then [(sd_index (lf i), pred i)] else []) ++ (if has_right i then [(sd_index (rt i), i)] else []).

Definition line_node (st : nat → odr) (i : nat) : node :=
  mk_node (ln_host G i) (st i) (wires i) (ln_reply G i).
Definition line_net (st : nat → odr) (q : list (nat * nat * bytes)) (dl : list (nat * bytes * bytes)) : net_state :=
  mk_net (map (line_node st) (seq 0 (S far))) q dl.

(** The hardware addresses differ where it matters, interfaces of a router have
    different numbers, and only the ends have the addresses of the ends. *)
Record line_ok : Prop := {
  lk_left : ∀ i, length (sd_mac (lf i)) = 6%nat ∧ sd_mac (lf i) ≠ b_mac;
  lk_right : ∀ i, length (sd_mac (rt i)) = 6%nat ∧ sd_mac (rt i) ≠ b_mac;
  lk_differ : ∀ i, sd_mac (rt i) ≠ sd_mac (lf (S (S i)));
  lk_index : ∀ i, sd_index (lf i) ≠ sd_index (rt i);
  lk_src : ∀ i, (i ≤ far)%nat → own src_addr (ifs i) = (i =? 0)%nat;
  lk_dst : ∀ i, (i ≤ far)%nat → own dst_addr (ifs i) = (i =? far)%nat;
  lk_src_ip : (11 ≤ length (cstr src_addr) < 18)%nat;
  lk_dst_ip : (11 ≤ length (cstr dst_addr) < 18)%nat;
  lk_bound : Z.of_nat n < 2 ^ 31 - 3;
  lk_reply : replies (ln_reply G far);
  lk_answer : fits MAX_MSG_LEN (pi_msg (decode_peer_info (ln_reply G far)));
  lk_heap : (length heap = ETH_FRAME_LEN - 170)%nat
}.
Context (Hok : line_ok).

Lemma src_ok : ip_ok src_addr.
Proof. pose proof (lk_src_ip Hok). split; [unfold fits, IP_LEN; lia|]. intros E. rewrite E in H. cbn in H. lia. Qed.
Lemma dst_ok : ip_ok dst_addr.
Proof. pose proof (lk_dst_ip Hok). split; [unfold fits, IP_LEN; lia|]. intros E. rewrite E in H. cbn in H. lia. Qed.

Lemma ends_differ : cstr dst_addr ≠ cstr src_addr.
Proof.
  intros E. pose proof (lk_src Hok 0 ltac:(unfold far; lia)) as H. rewrite <- (own_ext _ _ _ E) in H.
  rewrite (lk_dst Hok) in H by (unfold far; lia). done.
Qed.

(** ** Networks *)

Lemma lan_left st i : (0 < i)%nat → lan_of (line_node st i) (sd_index (lf i)) = Some (pred i).
Proof.
  intros Hi. unfold lan_of, line_node, wires, has_left. cbn [n_lans].
  rewrite (proj2 (Nat.ltb_lt 0 i) Hi). cbn [app list_find]. by rewrite decide_True.
Qed.

Lemma lan_right st i : (i ≤ n)%nat → lan_of (line_node st i) (sd_index (rt i)) = Some i.
Proof.
  intros Hi. unfold lan_of, line_node, wires, has_right. cbn [n_lans].
  rewrite (proj2 (Nat.ltb_lt i far)) by (unfold far; lia). pose proof (lk_index Hok i).
  destruct (has_left i); cbn [app list_find fst]; [rewrite decide_False by done|];
    by rewrite decide_True.
Qed.

(** Whether an interface takes a frame. *)
Definition hit (d : server_details) (f : bytes) : bool :=
  bool_decide (take 6 f = b_mac) || bool_decide (take 6 f = sd_mac d).

Lemma accepts_line st i lan f :
  serv (st i) = ifs i → (i ≤ far)%nat →
  accepts (line_node st i) lan f =
    (has_left i && (pred i =? lan)%nat && hit (lf i) f) || (has_right i && (i =? lan)%nat && hit (rt i) f).
Proof.
  intros Hs Hi. unfold accepts. cbn [line_node n_odr]. rewrite Hs. unfold ifs.
  rewrite existsb_app. f_equal.
  - destruct (has_left i) eqn:E; [|done]. cbn [existsb]. fold (line_node st i).
    apply Nat.ltb_lt in E. rewrite lan_left by done. unfold hit. rewrite orb_false_r. f_equal.
    destruct (Nat.eqb_spec (pred i) lan) as [->|Hne]; [by rewrite bool_decide_eq_true_2|].
    by rewrite bool_decide_eq_false_2 by congruence.
  - destruct (has_right i) eqn:E; [|done]. cbn [existsb]. fold (line_node st i).
    apply Nat.ltb_lt in E. rewrite lan_right by (unfold far in E; lia). unfold hit. rewrite orb_false_r. f_equal.
    destruct (Nat.eqb_spec i lan) as [->|Hne]; [by rewrite bool_decide_eq_true_2|].
    by rewrite bool_decide_eq_false_2 by congruence.
Qed.

Lemma nodes_lookup st i : (i ≤ far)%nat → map (line_node st) (seq 0 (S far)) !! i = Some (line_node st i).
Proof. intros Hi. by rewrite list_lookup_fmap, lookup_seq_lt by lia. Qed.

Lemma nodes_insert st i s :
  (i ≤ far)%nat →
  <[i := mk_node (ln_host G i) s (wires i) (ln_reply G i)]> (map (line_node st) (seq 0 (S far))) =
  map (line_node (<[i := s]> st)) (seq 0 (S far)).
Proof.
  intros Hi. apply list_eq. intros j. destruct (decide (j ≤ far)%nat) as [Hj|Hj].
  - rewrite (nodes_lookup _ j Hj). destruct (decide (j = i)) as [->|Hne].
    + rewrite list_lookup_insert_eq by (rewrite length_map, length_seq; lia).
      unfold line_node. by rewrite fn_lookup_insert.
    + rewrite list_lookup_insert_ne, nodes_lookup by done.
      unfold line_node. by rewrite fn_lookup_insert_ne.
  - rewrite !lookup_ge_None_2; [done|..]; rewrite ?length_insert, length_map, length_seq; lia.
Qed.

(** ** Deliveries *)

(** The frames a flood puts on the networks of router [i]. *)
Definition sent (i : nat) (mac : bytes) (h : frame_head) : list (nat * nat * bytes) :=
  (if has_left i then [(pred i, i, frame_of proto heap mac (sd_mac (lf i)) h)] else []) ++
  (if has_right i then [(i, i, frame_of proto heap mac (sd_mac (rt i)) h)] else []).

Lemma absorb_flood st i mac h x :
  (i ≤ far)%nat →
  absorb i (line_node st i) (flood proto heap mac h (ifs i)) x =
  mk_net (nodes x) (in_flight x ++ sent i mac h) (delivered x).
Proof.
  intros Hi. unfold flood, ifs, sent. destruct (has_left i) eqn:El, (has_right i) eqn:Er;
    apply Nat.ltb_lt in El || apply Nat.ltb_ge in El; apply Nat.ltb_lt in Er || apply Nat.ltb_ge in Er;
    cbn [app map absorb]; rewrite ?lan_left by done; rewrite ?lan_right by (unfold far in *; lia);
    cbn [nodes in_flight delivered]; rewrite ?app_nil_r, <- ?app_assoc; try done.
  by destruct x.
Qed.

Lemma handle_line i e st q dl os s' :
  (i ≤ far)%nat → odr_turn (ln_host G i) proto heap e (st i) = (os, Ret tt s') →
  handle proto heap i e (line_net st q dl) =
  Some (absorb i (line_node st i) os (line_net (<[i := s']> st) q dl)).
Proof.
  intros Hi E. unfold handle.
  change (nodes (line_net st q dl)) with (map (line_node st) (seq 0 (S far))). rewrite nodes_lookup by done.
  cbn [mbind option_bind line_node n_host n_odr]. rewrite E. cbn [line_net nodes in_flight delivered n_lans n_reply].
  by rewrite nodes_insert.
Qed.

Lemma absorb_nodes i nd os x : nodes (absorb i nd os x) = nodes x.
Proof.
  revert x. induction os as [|o os IH]; intros x; [done|]. destruct o as [k f|p d]; cbn [absorb]; rewrite IH; [|done].
  by destruct (lan_of nd k).
Qed.

Lemma deliver_app ids ids' lan from f x :
  deliver_to proto heap (ids ++ ids') lan from f x =
  deliver_to proto heap ids lan from f x ≫= deliver_to proto heap ids' lan from f.
Proof.
  revert x. induction ids as [|i ids IH]; intros x; [done|]. cbn [app deliver_to].
  destruct (nodes x !! i) as [nd|]; [|done]. cbn [mbind option_bind].
  destruct (_ && _); [|apply IH]. destruct (handle _ _ _ _ _); [|done]. cbn [mbind option_bind]. apply IH.
Qed.

Lemma deliver_none ids lan from f x st :
  nodes x = map (line_node st) (seq 0 (S far)) →
  (∀ i, i ∈ ids → (i ≤ far)%nat ∧ negb (i =? from)%nat && accepts (line_node st i) lan f = false) →
  deliver_to proto heap ids lan from f x = Some x.
Proof.
  intros Hx. induction ids as [|i ids IH]; intros H; [done|]. cbn [deliver_to].
  destruct (H i) as [Hi Ha]; [by left|]. rewrite Hx, nodes_lookup by done. cbn [mbind option_bind]. rewrite Ha.
  apply IH. intros j Hj. apply H. by right.
Qed.

(** [m] deliveries lead from [x] to [y]. *)
Definition goes (m : nat) (x y : net_state) : Prop :=
  ∀ fuel, settle proto heap (m + fuel) x = settle proto heap fuel y.

Lemma goes_trans m k x y z : goes m x y → goes k y z → goes (m + k) x z.
Proof. intros H1 H2 fuel. by rewrite <- Nat.add_assoc, H1, H2. Qed.

Lemma goes_refl x : goes 0 x x.
Proof. done. Qed.

(** A frame nobody takes is lost. *)
Lemma goes_dead lan from f q dl st :
  (∀ i, (i ≤ far)%nat → negb (i =? from)%nat && accepts (line_node st i) lan f = false) →
  goes 1 (line_net st ((lan, from, f) :: q) dl) (line_net st q dl).
Proof.
  intros H fuel. cbn [Nat.add settle line_net in_flight nodes delivered]. rewrite length_map, length_seq.
  rewrite (deliver_none _ _ _ _ _ st); [done|done|].
  intros i [_ Hi]%elem_of_seq. split; [lia|]. apply H. lia.
Qed.

(** A frame one router takes is handled by it. *)
Lemma goes_live lan from f q dl st p os s' :
  (p ≤ far)%nat → serv s' = serv (st p) →
  (∀ i, (i ≤ far)%nat → negb (i =? from)%nat && accepts (line_node st i) lan f = (i =? p)%nat) →
  odr_turn (ln_host G p) proto heap (RawFrame f 0 (ln_reply G p)) (st p) = (os, Ret tt s') →
  goes 1 (line_net st ((lan, from, f) :: q) dl) (absorb p (line_node st p) os (line_net (<[p := s']> st) q dl)).
Proof.
  intros Hp Hs H E fuel. cbn [Nat.add settle line_net in_flight nodes delivered]. rewrite length_map, length_seq.
  fold (line_net st q dl). replace (S far) with (p + S (far - p))%nat at 1 by lia.
  rewrite seq_app, deliver_app, (deliver_none _ _ _ _ _ st); [|done|].
  2: { intros i [_ Hi]%elem_of_seq. split; [lia|]. rewrite H by lia. apply Nat.eqb_neq. lia. }
  cbn [mbind option_bind seq deliver_to Nat.add].
  change (nodes (line_net st q dl)) with (map (line_node st) (seq 0 (S far))).
  rewrite nodes_lookup by done. cbn [mbind option_bind]. rewrite H by done. rewrite Nat.eqb_refl.
  cbn [line_node n_reply]. rewrite (handle_line p _ st q dl os s' Hp E). cbn [mbind option_bind].
  rewrite (deliver_none _ _ _ _ _ (<[p := s']> st)); [done|by rewrite absorb_nodes|].
  intros i [Hi1 Hi2]%elem_of_seq. split; [lia|]. unfold accepts, line_node. cbn [n_odr].
  rewrite fn_lookup_insert_ne by lia. specialize (H i ltac:(lia)).
  rewrite (proj2 (Nat.eqb_neq i p)) in H by lia. exact H.
Qed.

(** ** One hop in each direction *)

Definition wired (st : nat → odr) : Prop := ∀ i, (i ≤ far)%nat → serv (st i) = ifs i.

Lemma frame_to mac sm h : length mac = 6%nat → take 6 (frame_of proto heap mac sm h) = mac.
Proof. intros H. unfold frame_of. rewrite (firstn_all2 mac) by lia. by rewrite take_app_length'. Qed.

(** Whether an interface takes a frame sent to [mac]. *)
Definition takes (d : server_details) (mac : bytes) : bool :=
  bool_decide (mac = b_mac) || bool_decide (mac = sd_mac d).

Lemma right_takers st k mac sm h i :
  wired st → (k ≤ n)%nat → length mac = 6%nat → (i ≤ far)%nat →
  negb (i =? k)%nat && accepts (line_node st i) k (frame_of proto heap mac sm h) =
  (i =? S k)%nat && takes (lf (S k)) mac.
Proof.
  intros Hw Hk Hm Hi. rewrite accepts_line by eauto. unfold hit. rewrite frame_to by done.
  unfold has_left, has_right, takes. destruct (Nat.eqb_spec i k) as [->|Hne].
  { by rewrite (proj2 (Nat.eqb_neq k (S k))) by lia. }
  rewrite andb_false_r, orb_false_r. cbn [negb andb].
  destruct (Nat.eqb_spec i (S k)) as [->|Hne']; [by rewrite Nat.eqb_refl|].
  destruct i as [|i]; [done|]. by rewrite (proj2 (Nat.eqb_neq _ _)) by (cbn; lia).
Qed.

Lemma left_takers st k mac sm h i :
  wired st → (k ≤ n)%nat → length mac = 6%nat → (i ≤ far)%nat →
  negb (i =? S k)%nat && accepts (line_node st i) k (frame_of proto heap mac sm h) =
  (i =? k)%nat && takes (rt k) mac.
Proof.
  intros Hw Hk Hm Hi. rewrite accepts_line by eauto. unfold hit. rewrite frame_to by done.
  unfold has_left, has_right, takes. destruct (Nat.eqb_spec i (S k)) as [->|Hne].
  { by rewrite (proj2 (Nat.eqb_neq (S k) k)) by lia. }
  destruct (Nat.eqb_spec i k) as [->|Hne'].
  - rewrite (proj2 (Nat.ltb_lt k far)) by (unfold far; lia). cbn [negb andb].
    destruct k as [|k]; [done|]. by rewrite (proj2 (Nat.eqb_neq _ _)) by (cbn; lia).
  - destruct i as [|i]; [done|]. rewrite (proj2 (Nat.eqb_neq (pred (S i)) k)) by (cbn; lia). by rewrite !andb_false_r.
Qed.

Lemma raw_turn p mac sm h s :
  length mac = 6%nat → length sm = 6%nat → hdr_ok h →
  odr_turn (ln_host G p) proto heap (RawFrame (frame_of proto heap mac sm h) 0 (ln_reply G p)) s =
  process_frame (ln_host G p) proto heap (frame_of proto heap mac sm h) 0 (ln_reply G p) s.
Proof.
  intros Hm Hs Hh. cbn [odr_turn]. rewrite recv_frame_full; [done|].
  apply length_frame_of; [done|done|apply Hh|apply Hok].
Qed.

Lemma goes_right k mac h q dl st os s' :
  (k ≤ n)%nat → wired st → length mac = 6%nat → hdr_ok h → takes (lf (S k)) mac = true → serv s' = ifs (S k) →
  process_frame (ln_host G (S k)) proto heap (frame_of proto heap mac (sd_mac (rt k)) h) 0 (ln_reply G (S k)) (st (S k))
    = (os, Ret tt s') →
  goes 1 (line_net st ((k, k, frame_of proto heap mac (sd_mac (rt k)) h) :: q) dl)
    (absorb (S k) (line_node st (S k)) os (line_net (<[S k := s']> st) q dl)).
Proof.
  intros Hk Hw Hm Hh Ht Hs E. assert (S k ≤ far)%nat by (unfold far; lia).
  apply goes_live; [done|by rewrite Hw, Hs| |by rewrite raw_turn by (done || apply Hok)].
  intros i Hi. rewrite right_takers, Ht by done. by rewrite andb_true_r.
Qed.

Lemma goes_left k mac h q dl st os s' :
  (k ≤ n)%nat → wired st → length mac = 6%nat → hdr_ok h → takes (rt k) mac = true → serv s' = ifs k →
  process_frame (ln_host G k) proto heap (frame_of proto heap mac (sd_mac (lf (S k))) h) 0 (ln_reply G k) (st k)
    = (os, Ret tt s') →
  goes 1 (line_net st ((k, S k, frame_of proto heap mac (sd_mac (lf (S k))) h) :: q) dl)
    (absorb k (line_node st k) os (line_net (<[k := s']> st) q dl)).
Proof.
  intros Hk Hw Hm Hh Ht Hs E. assert (k ≤ far)%nat by (unfold far; lia).
  apply goes_live; [done|by rewrite Hw, Hs| |by rewrite raw_turn by (done || apply Hok)].
  intros i Hi. rewrite left_takers, Ht by done. by rewrite andb_true_r.
Qed.

(** Payloads and replies on the network they came from are lost. *)
Lemma dead_left k h sm q dl st :
  (k ≤ n)%nat → wired st →
  goes 1 (line_net st ((k, S k, frame_of proto heap (sd_mac (lf (S (S k)))) sm h) :: q) dl) (line_net st q dl).
Proof.
  intros Hk Hw. destruct (lk_left Hok (S (S k))) as [Hl Hb]. pose proof (lk_differ Hok k) as Hd.
  apply goes_dead. intros i Hi. rewrite left_takers by done. unfold takes.
  rewrite !bool_decide_eq_false_2 by congruence. apply andb_false_r.
Qed.

Lemma dead_right k h sm q dl st :
  (S k ≤ n)%nat → wired st →
  goes 1 (line_net st ((S k, S k, frame_of proto heap (sd_mac (rt k)) sm h) :: q) dl) (line_net st q dl).
Proof.
  intros Hk Hw. destruct (lk_right Hok k) as [Hl Hb]. pose proof (lk_differ Hok k) as Hd.
  apply goes_dead. intros i Hi. rewrite right_takers by done. unfold takes.
  rewrite !bool_decide_eq_false_2 by congruence. apply andb_false_r.
Qed.

(** ** What the routers know *)

Definition room_for (o : option fact) : nat := match o with None => 1 | Some _ => 0 end.

(** Router [i], with its broadcast number and waiting requests, knows [kS] of the
    one end and [kD] of the other. *)
Record node_is (i : nat) (b : Z) (buf : list server_buf) (kS kD : option fact) (s : odr) : Prop := {
  ni_router : router (ifs i) (room_for kS + room_for kD) s;
  ni_src : known (table s) src_addr = kS;
  ni_dst : known (table s) dst_addr = kD;
  ni_bid : broadcast_id s = b;
  ni_buf : buffer s = buf
}.

Definition shape (b : nat → Z) (buf : nat → list server_buf) (kS kD : nat → option fact) (st : nat → odr) : Prop :=
  ∀ i, (i ≤ far)%nat → node_is i (b i) (buf i) (kS i) (kD i) (st i).

Lemma shape_wired b buf kS kD st : shape b buf kS kD st → wired st.
Proof. intros H i Hi. apply (H i Hi). Qed.

Lemma shape_update p s' b buf kS kD kS' kD' st :
  shape b buf kS kD st → node_is p (b p) (buf p) (kS' p) (kD' p) s' →
  (∀ i, (i ≤ far)%nat → i ≠ p → kS' i = kS i ∧ kD' i = kD i) →
  shape b buf kS' kD' (<[p := s']> st).
Proof.
  intros H Hp Hne i Hi. destruct (decide (i = p)) as [->|Hip].
  - by rewrite fn_lookup_insert.
  - rewrite fn_lookup_insert_ne by done. destruct (Hne i Hi Hip) as [-> ->]. by apply H.
Qed.

Lemma node_learns_src i b buf kD s f s' :
  node_is i b buf None kD s → learns (ifs i) (room_for kD) s src_addr f s' → node_is i b buf (Some f) kD s'.
Proof.
  intros [Hr Hs Hd Hb Hf] HL. pose proof HL as (Hr' & Hb' & Hf' & _). split; [done|..].
  - by apply (learns_new _ _ _ _ _ _ HL), src_ok.
  - rewrite (learns_other _ _ _ _ _ _ dst_addr HL); [done|apply dst_ok|apply ends_differ].
  - congruence.
  - congruence.
Qed.

Lemma node_learns_dst i b buf kS s f s' :
  node_is i b buf kS None s → learns (ifs i) (room_for kS) s dst_addr f s' → node_is i b buf kS (Some f) s'.
Proof.
  intros [Hr Hs Hd Hb Hf] HL. pose proof HL as (Hr' & Hb' & Hf' & _). split.
  - cbn [room_for]. by rewrite Nat.add_0_r.
  - rewrite (learns_other _ _ _ _ _ _ src_addr HL); [done|apply src_ok|]. by intros E; apply ends_differ.
  - by apply (learns_new _ _ _ _ _ _ HL), dst_ok.
  - congruence.
  - congruence.
Qed.

Lemma node_room_src i b buf kD s :
  node_is i b buf None kD s → router (ifs i) (S (room_for kD)) s ∧ known (table s) src_addr = None.
Proof. intros [Hr ? ? ? ?]. by split. Qed.

Lemma node_room_dst i b buf kS s :
  node_is i b buf kS None s → router (ifs i) (S (room_for kS)) s ∧ known (table s) dst_addr = None.
Proof. intros [Hr ? ? ? ?]. split; [|done]. cbn [room_for] in Hr. by rewrite Nat.add_1_r in Hr. Qed.

(** The routers below [p] know the way to the source; those from [p] on know the
    way to the destination. *)
Definition to_src (b : Z) (p i : nat) : option fact :=
  if ((0 <? i) && (i <? p))%nat then Some (sd_mac (rt (pred i)), Z.of_nat i, b) else None.
Definition to_dst (b : Z) (p i : nat) : option fact :=
  if ((p <=? i) && (i <? far))%nat then Some (sd_mac (lf (S i)), Z.of_nat (far - i), b) else None.

Lemma to_src_known b p i : (0 < i < p)%nat → to_src b p i = Some (sd_mac (rt (pred i)), Z.of_nat i, b).
Proof. intros H. unfold to_src. by rewrite (proj2 (Nat.ltb_lt 0 i)), (proj2 (Nat.ltb_lt i p)) by lia. Qed.
Lemma to_src_none b p i : (i = 0 ∨ p ≤ i)%nat → to_src b p i = None.
Proof.
  intros H. unfold to_src. destruct (Nat.ltb_spec 0 i); [|done]. by rewrite (proj2 (Nat.ltb_ge i p)) by lia.
Qed.
Lemma to_dst_known b p i : (p ≤ i ≤ n)%nat → to_dst b p i = Some (sd_mac (lf (S i)), Z.of_nat (far - i), b).
Proof.
  intros H. unfold to_dst. by rewrite (proj2 (Nat.leb_le p i)), (proj2 (Nat.ltb_lt i far)) by (unfold far; lia).
Qed.
Lemma to_dst_none b p i : (i = far ∨ i < p)%nat → to_dst b p i = None.
Proof.
  intros H. unfold to_dst. destruct (Nat.leb_spec p i); [|done]. by rewrite (proj2 (Nat.ltb_ge i far)) by lia.
Qed.

Lemma to_src_step b p i : i ≠ p → to_src b (S p) i = to_src b p i.
Proof.
  intros H. unfold to_src. destruct (Nat.ltb_spec i (S p)), (Nat.ltb_spec i p); try done; lia.
Qed.
Lemma to_dst_step b p i : i ≠ p → to_dst b p i = to_dst b (S p) i.
Proof.
  intros H. unfold to_dst. destruct (Nat.leb_spec (S p) i), (Nat.leb_spec p i); try done; lia.
Qed.

(** ** The route request crosses the line *)

Lemma own_src i : (0 < i ≤ far)%nat → own src_addr (ifs i) = false.
Proof. intros H. rewrite (lk_src Hok) by lia. apply Nat.eqb_neq. lia. Qed.
Lemma own_dst i : (i ≤ n)%nat → own dst_addr (ifs i) = false.
Proof. intros H. rewrite (lk_dst Hok) by (unfold far; lia). apply Nat.eqb_neq. unfold far. lia. Qed.
Lemma own_src_end : own src_addr (ifs 0) = true.
Proof. by rewrite (lk_src Hok) by lia. Qed.
Lemma own_dst_end : own dst_addr (ifs far) = true.
Proof. rewrite (lk_dst Hok) by lia. apply Nat.eqb_refl. Qed.

Lemma sent_between k mac h :
  (S k ≤ n)%nat →
  sent (S k) mac h = [(k, S k, frame_of proto heap mac (sd_mac (lf (S k))) h);
                      (S k, S k, frame_of proto heap mac (sd_mac (rt (S k))) h)].
Proof.
  intros Hk. unfold sent, has_left, has_right. by rewrite (proj2 (Nat.ltb_lt (S k) far)) by (unfold far; lia).
Qed.
Lemma sent_near mac h : sent 0 mac h = [(0%nat, 0%nat, frame_of proto heap mac (sd_mac (rt 0)) h)].
Proof. done. Qed.
Lemma sent_far mac h : sent far mac h = [(n, far, frame_of proto heap mac (sd_mac (lf far)) h)].
Proof. unfold sent, has_left, has_right. by rewrite Nat.ltb_irrefl. Qed.

Lemma hops_i32 i : (i ≤ far)%nat → is_i32 (Z.of_nat i).
Proof. intros Hi. pose proof (lk_bound Hok). unfold far, is_i32 in *. lia. Qed.
Lemma hops_next i : (i ≤ far)%nat → i32 (Z.of_nat i + 1) = Z.of_nat (S i).
Proof. intros Hi. pose proof (lk_bound Hok). unfold far in *. rewrite i32_small; unfold is_i32; lia. Qed.

(** A copy that went back is dropped. *)
Lemma request_back k b buf β st h dl q :
  (S k ≤ n)%nat → shape b buf (to_src β (S (S k))) (to_dst β far) st →
  head_is h rreq src_addr dst_addr (Z.of_nat (S (S k))) β →
  ∃ st', goes 1 (line_net st ((k, S k, frame_of proto heap b_mac (sd_mac (lf (S k))) h) :: q) dl) (line_net st' q dl) ∧
    shape b buf (to_src β (S (S k))) (to_dst β far) st'.
Proof.
  intros Hk Hst Hh. assert (k ≤ far)%nat as Hkf by (unfold far; lia). pose proof (Hst k Hkf) as Hnode.
  exists (<[k := st k]> st). split; [|by apply (shape_update k (st k) _ _ _ _ _ _ _ Hst)].
  apply (goes_left k b_mac h q dl st []);
    [lia|by eapply shape_wired|done|apply Hh|done|apply Hnode|].
  apply (hop_rreq_echo _ _ _ (ifs k) src_addr dst_addr dst_ok b_mac _ eq_refl (proj1 (lk_left Hok (S k)))
    _ _ _ _ _ _ _ (ni_router _ _ _ _ _ _ Hnode) Hh); [|by apply own_dst; lia|].
  - destruct k as [|k]; [left; apply own_src_end|right].
    rewrite (ni_src _ _ _ _ _ _ Hnode), to_src_known by lia. eexists _, _. split; [done|lia].
  - rewrite (ni_dst _ _ _ _ _ _ Hnode). apply to_dst_none. unfold far. lia.
Qed.

Lemma request_hop k b buf β st h dl :
  (S k ≤ n)%nat → shape b buf (to_src β (S k)) (to_dst β far) st →
  head_is h rreq src_addr dst_addr (Z.of_nat (S k)) β →
  ∃ st' h', goes 2 (line_net st [(k, k, frame_of proto heap b_mac (sd_mac (rt k)) h)] dl)
      (line_net st' [(S k, S k, frame_of proto heap b_mac (sd_mac (rt (S k))) h')] dl) ∧
    shape b buf (to_src β (S (S k))) (to_dst β far) st' ∧
    head_is h' rreq src_addr dst_addr (Z.of_nat (S (S k))) β.
Proof.
  intros Hk Hst Hh. assert (S k ≤ far)%nat as Hkf by (unfold far; lia). pose proof (Hst (S k) Hkf) as Hnode.
  rewrite to_src_none, to_dst_none in Hnode by (unfold far; lia).
  destruct (node_room_src _ _ _ _ _ Hnode) as [Hr Hks].
  destruct (hop_rreq_forward (ln_host G (S k)) proto heap (ifs (S k)) src_addr dst_addr src_ok dst_ok
    b_mac (sd_mac (rt k)) eq_refl (proj1 (lk_right Hok k)) 0 (ln_reply G (S k)) _ (st (S k)) h _ _ Hr Hh)
    as (h' & s' & E & Hh' & HL);
    [apply own_src; lia|apply own_dst; lia|done|apply Hnode|apply ends_differ|].
  rewrite hops_next in Hh' by lia.
  destruct (request_back k b buf β (<[S k := s']> st) h' dl
    [(S k, S k, frame_of proto heap b_mac (sd_mac (rt (S k))) h')] Hk) as (st2 & G2 & Hst2); [|exact Hh'|].
  { apply (shape_update (S k) s' b buf (to_src β (S k)) (to_dst β far)); [done| |].
    - rewrite to_src_known, to_dst_none by (unfold far; lia). by apply (node_learns_src _ _ _ _ (st (S k))).
    - intros i Hi Hne. by rewrite to_src_step by done. }
  exists st2, h'. split; [|done]. apply (goes_trans 1 1 _ (line_net (<[S k := s']> st) (sent (S k) b_mac h') dl)).
  - pose proof (goes_right k b_mac h [] dl st _ s' ltac:(lia) (shape_wired _ _ _ _ _ Hst) eq_refl
      (hi_ok _ _ _ _ _ _ Hh) eq_refl (ro_serv _ _ _ (proj1 HL)) E) as G1.
    by rewrite absorb_flood in G1.
  - by rewrite sent_between.
Qed.

Lemma request_crosses j k b buf β st h dl :
  (k + j = n)%nat → shape b buf (to_src β (S k)) (to_dst β far) st →
  head_is h rreq src_addr dst_addr (Z.of_nat (S k)) β →
  ∃ st' h', goes (2 * j) (line_net st [(k, k, frame_of proto heap b_mac (sd_mac (rt k)) h)] dl)
      (line_net st' [(n, n, frame_of proto heap b_mac (sd_mac (rt n)) h')] dl) ∧
    shape b buf (to_src β far) (to_dst β far) st' ∧
    head_is h' rreq src_addr dst_addr (Z.of_nat far) β.
Proof.
  revert k st h. induction j as [|j IH]; intros k st h Hk Hst Hh.
  { assert (k = n) as -> by lia. exists st, h. by split_and!. }
  destruct (request_hop k b buf β st h dl ltac:(lia) Hst Hh) as (st1 & h1 & G1 & Hst1 & Hh1).
  destruct (IH (S k) st1 h1 ltac:(lia) Hst1 Hh1) as (st2 & h2 & G2 & Hst2 & Hh2).
  exists st2, h2. split; [|done]. replace (2 * S j)%nat with (2 + 2 * j)%nat by lia. by eapply goes_trans.
Qed.

(** ** The reply comes back *)

(** Frames that went the wrong way: for a router two networks further on. *)
Definition lost (x : nat * nat * bytes) : Prop :=
  ∃ k sm h, (S k ≤ n)%nat ∧
    (x = (k, S k, frame_of proto heap (sd_mac (lf (S (S k)))) sm h) ∨
     x = (S k, S k, frame_of proto heap (sd_mac (rt k)) sm h)).

Lemma goes_lost dd q dl st :
  wired st → Forall lost dd → goes (length dd) (line_net st (dd ++ q) dl) (line_net st q dl).
Proof.
  intros Hw H. induction H as [|x dd (k & sm & h & Hk & Hx) _ IH]; [done|].
  apply (goes_trans 1 (length dd) _ (line_net st (dd ++ q) dl)); [|done].
  destruct Hx as [-> | ->]; [apply dead_left|apply dead_right]; by try lia.
Qed.

(** The destination hears the request and replies. *)
Lemma request_arrives b buf β st h dl :
  shape b buf (to_src β far) (to_dst β far) st → head_is h rreq src_addr dst_addr (Z.of_nat far) β →
  ∃ st' h', goes 1 (line_net st [(n, n, frame_of proto heap b_mac (sd_mac (rt n)) h)] dl)
      (line_net st' [(n, far, frame_of proto heap (sd_mac (rt n)) (sd_mac (lf far)) h')] dl) ∧
    shape b buf (to_src β (S far)) (to_dst β far) st' ∧ head_is h' rrep dst_addr src_addr 1 β.
Proof.
  intros Hst Hh. pose proof (Hst far ltac:(lia)) as Hnode.
  rewrite to_src_none, to_dst_none in Hnode by lia. destruct (node_room_src _ _ _ _ _ Hnode) as [Hr Hks].
  destruct (hop_rreq_answer (ln_host G far) proto heap (ifs far) src_addr dst_addr src_ok dst_ok
    b_mac (sd_mac (rt n)) eq_refl (proj1 (lk_right Hok n)) 0 (ln_reply G far) _ (st far) h _ _ Hr Hh)
    as (h' & s' & E & Hh' & HL); [apply own_src; unfold far; lia|apply own_dst_end|done|].
  exists (<[far := s']> st), h'. split_and!; [|apply (shape_update far s' b buf (to_src β far) (to_dst β far))|done].
  - pose proof (goes_right n b_mac h [] dl st _ s' ltac:(lia) (shape_wired _ _ _ _ _ Hst) eq_refl
      (hi_ok _ _ _ _ _ _ Hh) eq_refl (ro_serv _ _ _ (proj1 HL)) E) as G1.
    fold far in G1. rewrite absorb_flood, sent_far in G1 by done. exact G1.
  - done.
  - rewrite to_src_known, to_dst_none by (unfold far; lia). by apply (node_learns_src _ _ _ _ (st far)).
  - intros i Hi Hne. by rewrite to_src_step by done.
Qed.

Lemma takes_own d : takes d (sd_mac d) = true.
Proof. unfold takes. by rewrite (bool_decide_eq_true_2 (sd_mac d = sd_mac d)), orb_true_r. Qed.

(** A router between the ends passes the reply on. *)
Lemma reply_hop k b buf β st h dl dd :
  (S k ≤ n)%nat → shape b buf (to_src β (S far)) (to_dst β (S (S k))) st → Forall lost dd →
  head_is h rrep dst_addr src_addr (Z.of_nat (far - S k)) β →
  ∃ st' h' x, lost x ∧
    goes (1 + length dd)
      (line_net st ((S k, S (S k), frame_of proto heap (sd_mac (rt (S k))) (sd_mac (lf (S (S k)))) h) :: dd) dl)
      (line_net st' [(k, S k, frame_of proto heap (sd_mac (rt k)) (sd_mac (lf (S k))) h'); x] dl) ∧
    shape b buf (to_src β (S far)) (to_dst β (S k)) st' ∧
    head_is h' rrep dst_addr src_addr (Z.of_nat (far - k)) β.
Proof.
  intros Hk Hst Hdd Hh. assert (S k ≤ far)%nat as Hkf by (unfold far; lia). pose proof (Hst (S k) Hkf) as Hnode.
  rewrite to_src_known, (to_dst_none _ (S (S k))) in Hnode by lia.
  destruct (node_room_dst _ _ _ _ _ Hnode) as [Hr Hkd].
  destruct (hop_rrep_forward (ln_host G (S k)) proto heap (ifs (S k)) dst_addr src_addr src_ok
    (sd_mac (rt (S k))) (sd_mac (lf (S (S k)))) (proj1 (lk_right Hok (S k))) (proj1 (lk_left Hok (S (S k))))
    0 (ln_reply G (S k)) _ (st (S k)) h _ _ _ _ _ Hr Hh (own_dst _ Hk)
    ltac:(apply own_src; lia) Hkd (ni_src _ _ _ _ _ _ Hnode)) as (h' & s' & E & Hh' & HL);
    [by intros Ee; apply ends_differ|].
  rewrite hops_next in Hh' by lia. replace (S (far - S k)) with (far - k)%nat in Hh' by lia.
  assert (shape b buf (to_src β (S far)) (to_dst β (S k)) (<[S k := s']> st)) as Hst'.
  { apply (shape_update (S k) s' b buf (to_src β (S far)) (to_dst β (S (S k)))); [done| |].
    - rewrite to_src_known, to_dst_known by lia. by apply (node_learns_dst _ _ _ _ (st (S k))).
    - intros i Hi Hne. by rewrite to_dst_step by done. }
  pose proof (goes_left (S k) (sd_mac (rt (S k))) h dd dl st _ s' Hk (shape_wired _ _ _ _ _ Hst)
    (proj1 (lk_right Hok (S k))) (hi_ok _ _ _ _ _ _ Hh) (takes_own _) (ro_serv _ _ _ (proj1 HL)) E) as G1.
  rewrite absorb_flood, sent_between in G1 by done. cbn [line_net nodes in_flight delivered pred] in G1.
  eexists _, h', _. split_and!; [|eapply goes_trans; [exact G1|]|exact Hst'|exact Hh'].
  - exists k, (sd_mac (rt (S k))), h'. split; [done|by right].
  - apply goes_lost; [by eapply shape_wired|done].
Qed.

Lemma reply_crosses k b buf β st h dl dd :
  (k ≤ n)%nat → shape b buf (to_src β (S far)) (to_dst β (S k)) st → Forall lost dd →
  head_is h rrep dst_addr src_addr (Z.of_nat (far - k)) β →
  ∃ m st' h' dd', Forall lost dd' ∧ (m + length dd' = 2 * k + length dd)%nat ∧
    goes m (line_net st ((k, S k, frame_of proto heap (sd_mac (rt k)) (sd_mac (lf (S k))) h) :: dd) dl)
      (line_net st' ((0%nat, 1%nat, frame_of proto heap (sd_mac (rt 0)) (sd_mac (lf 1)) h') :: dd') dl) ∧
    shape b buf (to_src β (S far)) (to_dst β 1) st' ∧ head_is h' rrep dst_addr src_addr (Z.of_nat far) β.
Proof.
  revert st h dd. induction k as [|k IH]; intros st h dd Hk Hst Hdd Hh.
  { exists 0%nat, st, h, dd. by split_and!. }
  destruct (reply_hop k b buf β st h dl dd Hk Hst Hdd Hh) as (st1 & h1 & x & Hx & G1 & Hst1 & Hh1).
  destruct (IH st1 h1 [x] ltac:(lia) Hst1 ltac:(by constructor) Hh1) as (m & st2 & h2 & dd2 & Hdd2 & Hm & G2 & H2).
  exists (1 + length dd + m)%nat, st2, h2, dd2. split_and!; [done|cbn [length] in Hm; lia| |apply H2..].
  by eapply goes_trans.
Qed.

(** The source hears the reply and sends its payload. *)
Lemma reply_arrives b buf β st h dl dd :
  shape b buf (to_src β (S far)) (to_dst β 1) st → Forall lost dd →
  head_is h rrep dst_addr src_addr (Z.of_nat far) β →
  ∃ st' h' c, goes (1 + length dd)
      (line_net st ((0%nat, 1%nat, frame_of proto heap (sd_mac (rt 0)) (sd_mac (lf 1)) h) :: dd) dl)
      (line_net st' [(0%nat, 0%nat, frame_of proto heap (sd_mac (lf 1)) (sd_mac (rt 0)) h')] dl) ∧
    shape b buf (to_src β (S far)) (to_dst β 0) st' ∧ head_is h' payload_req src_addr dst_addr c (b 0%nat).
Proof.
  intros Hst Hdd Hh. pose proof (Hst 0%nat ltac:(lia)) as Hnode.
  rewrite (to_dst_none _ 1) in Hnode by lia. destruct (node_room_dst _ _ _ _ _ Hnode) as [Hr Hkd].
  destruct (hop_rrep_end (ln_host G 0) proto heap (ifs 0) dst_addr src_addr dst_ok src_ok
    (sd_mac (rt 0)) (sd_mac (lf 1)) (proj1 (lk_right Hok 0)) (proj1 (lk_left Hok 1)) 0 (ln_reply G 0)
    _ (st 0%nat) h _ _ Hr Hh (own_dst 0 ltac:(lia)) own_src_end Hkd) as (h' & s' & E & Hh' & HL).
  assert (shape b buf (to_src β (S far)) (to_dst β 0) (<[0%nat := s']> st)) as Hst'.
  { apply (shape_update 0 s' b buf (to_src β (S far)) (to_dst β 1)); [done| |].
    - rewrite (to_dst_known _ 0 0) by lia. rewrite Nat.sub_0_r. by apply (node_learns_dst _ _ _ _ (st 0%nat)).
    - intros i Hi Hne. by rewrite to_dst_step by done. }
  pose proof (goes_left 0 (sd_mac (rt 0)) h dd dl st _ s' ltac:(lia) (shape_wired _ _ _ _ _ Hst)
    (proj1 (lk_right Hok 0)) (hi_ok _ _ _ _ _ _ Hh) (takes_own _) (ro_serv _ _ _ (proj1 HL)) E) as G1.
  rewrite absorb_flood, sent_near in G1 by lia. cbn [line_net nodes in_flight delivered] in G1.
  rewrite (ni_bid _ _ _ _ _ _ Hnode) in Hh'.
  exists (<[0%nat := s']> st), h', (Z.of_nat far). split_and!; [|exact Hst'|exact Hh'].
  eapply goes_trans; [exact G1|]. apply goes_lost; [by eapply shape_wired|done].
Qed.

(** ** The payload and its answer *)

(** All the routers know both ends. *)
Definition routed (b : nat → Z) (buf : nat → list server_buf) (β : Z) (st : nat → odr) : Prop :=
  shape b buf (to_src β (S far)) (to_dst β 0) st.

Lemma routed_same b buf β st p : (p ≤ far)%nat → routed b buf β st → routed b buf β (<[p := st p]> st).
Proof. intros Hp H. apply (shape_update p (st p) _ _ _ _ _ _ _ H); [by apply H|done]. Qed.

Lemma payload_hop k b buf β st h c dl :
  (S k ≤ n)%nat → routed b buf β st → head_is h payload_req src_addr dst_addr c (b k) →
  ∃ st' h' c', goes 2 (line_net st [(k, k, frame_of proto heap (sd_mac (lf (S k))) (sd_mac (rt k)) h)] dl)
      (line_net st' [(S k, S k, frame_of proto heap (sd_mac (lf (S (S k)))) (sd_mac (rt (S k))) h')] dl) ∧
    routed b buf β st' ∧ head_is h' payload_req src_addr dst_addr c' (b (S k)).
Proof.
  intros Hk Hst Hh. assert (S k ≤ far)%nat as Hkf by (unfold far; lia). pose proof (Hst (S k) Hkf) as Hnode.
  pose proof (ni_dst _ _ _ _ _ _ Hnode) as Hkd. rewrite to_dst_known in Hkd by lia.
  destruct (hop_payload (ln_host G (S k)) proto heap (ifs (S k)) src_addr dst_addr
    (sd_mac (lf (S k))) (sd_mac (rt k)) (proj1 (lk_left Hok (S k))) (proj1 (lk_right Hok k)) 0 (ln_reply G (S k))
    _ (st (S k)) h payload_req c (b k) _ _ _ (ni_router _ _ _ _ _ _ Hnode) Hh (or_introl eq_refl) (own_dst _ Hk) Hkd)
    as (h' & E & Hh' & _); [apply hops_i32; lia|]. rewrite (ni_bid _ _ _ _ _ _ Hnode) in Hh'.
  pose proof (goes_right k (sd_mac (lf (S k))) h [] dl st _ (st (S k)) ltac:(lia) (shape_wired _ _ _ _ _ Hst)
    (proj1 (lk_left Hok (S k))) (hi_ok _ _ _ _ _ _ Hh) (takes_own _)
    (ro_serv _ _ _ (ni_router _ _ _ _ _ _ Hnode)) E) as G1.
  rewrite absorb_flood, sent_between in G1 by done. cbn [line_net nodes in_flight delivered app] in G1.
  pose proof (routed_same b buf β st (S k) Hkf Hst) as Hst'.
  exists (<[S k := st (S k)]> st), h', (Z.of_nat (far - S k)). split_and!; [|exact Hst'|exact Hh'].
  apply (goes_trans 1 1 _ _ _ G1). apply dead_left; [lia|by eapply shape_wired].
Qed.

Lemma payload_crosses j k b buf β st h c dl :
  (k + j = n)%nat → routed b buf β st → head_is h payload_req src_addr dst_addr c (b k) →
  ∃ st' h' c', goes (2 * j) (line_net st [(k, k, frame_of proto heap (sd_mac (lf (S k))) (sd_mac (rt k)) h)] dl)
      (line_net st' [(n, n, frame_of proto heap (sd_mac (lf far)) (sd_mac (rt n)) h')] dl) ∧
    routed b buf β st' ∧ head_is h' payload_req src_addr dst_addr c' (b n).
Proof.
  revert k st h c. induction j as [|j IH]; intros k st h c Hk Hst Hh.
  { assert (k = n) as -> by lia. exists st, h, c. by split_and!. }
  destruct (payload_hop k b buf β st h c dl ltac:(lia) Hst Hh) as (st1 & h1 & c1 & G1 & Hst1 & Hh1).
  destruct (IH (S k) st1 h1 c1 ltac:(lia) Hst1 Hh1) as (st2 & h2 & c2 & G2 & Hst2 & Hh2).
  exists st2, h2, c2. split; [|done]. replace (2 * S j)%nat with (2 + 2 * j)%nat by lia. by eapply goes_trans.
Qed.

(** The text of a local datagram; the server's answer; its question when the
    payload carries number [b]. *)
Definition text (d : bytes) : bytes := cstr (pi_msg (decode_peer_info d)).
Definition answer_text : bytes := text (ln_reply G far).
Definition question_text (b : Z) : bytes := dec_d b ++ hash :: str "vm" ++ drop 11 (cstr src_addr).

(** A header of the answer. *)
Definition answers (h : frame_head) : Prop :=
  (∃ c b, head_is h payload_resp dst_addr src_addr c b) ∧ cstr (msg h) = answer_text.

Lemma payload_arrives b buf β st h c dl :
  routed b buf β st → head_is h payload_req src_addr dst_addr c (b n) →
  ∃ st' h' q, goes 1 (line_net st [(n, n, frame_of proto heap (sd_mac (lf far)) (sd_mac (rt n)) h)] dl)
      (line_net st' [(n, far, frame_of proto heap (sd_mac (rt n)) (sd_mac (lf far)) h')]
         (dl ++ [(far, DOMAIN_SOCK_PATH, q)])) ∧
    routed b buf β st' ∧ answers h' ∧ text q = question_text (b n).
Proof.
  intros Hst Hh. pose proof (Hst far ltac:(lia)) as Hnode.
  pose proof (ni_src _ _ _ _ _ _ Hnode) as Hks. rewrite to_src_known in Hks by (unfold far; lia).
  destruct (hop_question (ln_host G far) proto heap (ifs far) src_addr dst_addr dst_ok
    (sd_mac (lf far)) (sd_mac (rt n)) (proj1 (lk_left Hok far)) (proj1 (lk_right Hok n)) 0 (ln_reply G far)
    _ (st far) h c (b n) _ _ _ (ni_router _ _ _ _ _ _ Hnode) Hh own_dst_end Hks) as (q & h' & E & Cq & Hh' & Cm);
    [apply hops_i32; lia|apply Hok|apply Hok|].
  pose proof (goes_right n (sd_mac (lf far)) h [] dl st _ (st far) ltac:(lia) (shape_wired _ _ _ _ _ Hst)
    (proj1 (lk_left Hok far)) (hi_ok _ _ _ _ _ _ Hh) (takes_own _)
    (ro_serv _ _ _ (ni_router _ _ _ _ _ _ Hnode)) E) as G1.
  fold far in G1. cbn [absorb] in G1. rewrite absorb_flood, sent_far in G1 by done.
  exists (<[far := st far]> st), h', q. split_and!; [exact G1|by apply routed_same| |exact Cq].
  split; [by do 2 eexists|exact Cm].
Qed.

Lemma answer_hop k b buf β st h dl dd :
  (S k ≤ n)%nat → routed b buf β st → Forall lost dd → answers h →
  ∃ st' h' x, lost x ∧
    goes (1 + length dd)
      (line_net st ((S k, S (S k), frame_of proto heap (sd_mac (rt (S k))) (sd_mac (lf (S (S k)))) h) :: dd) dl)
      (line_net st' [(k, S k, frame_of proto heap (sd_mac (rt k)) (sd_mac (lf (S k))) h'); x] dl) ∧
    routed b buf β st' ∧ answers h'.
Proof.
  intros Hk Hst Hdd ((c & b' & Hh) & Cm). assert (S k ≤ far)%nat as Hkf by (unfold far; lia).
  pose proof (Hst (S k) Hkf) as Hnode.
  pose proof (ni_src _ _ _ _ _ _ Hnode) as Hks. rewrite to_src_known in Hks by lia.
  destruct (hop_payload (ln_host G (S k)) proto heap (ifs (S k)) dst_addr src_addr
    (sd_mac (rt (S k))) (sd_mac (lf (S (S k)))) (proj1 (lk_right Hok (S k))) (proj1 (lk_left Hok (S (S k))))
    0 (ln_reply G (S k)) _ (st (S k)) h payload_resp c b' _ _ _ (ni_router _ _ _ _ _ _ Hnode) Hh
    (or_intror eq_refl) (own_src (S k) ltac:(lia)) Hks) as (h' & E & Hh' & Cm'); [apply hops_i32; lia|].
  pose proof (goes_left (S k) (sd_mac (rt (S k))) h dd dl st _ (st (S k)) Hk (shape_wired _ _ _ _ _ Hst)
    (proj1 (lk_right Hok (S k))) (hi_ok _ _ _ _ _ _ Hh) (takes_own _)
    (ro_serv _ _ _ (ni_router _ _ _ _ _ _ Hnode)) E) as G1.
  rewrite absorb_flood, sent_between in G1 by done. cbn [line_net nodes in_flight delivered pred] in G1.
  pose proof (routed_same b buf β st (S k) Hkf Hst) as Hst'.
  eexists _, h', _. split_and!; [|eapply goes_trans; [exact G1|]|exact Hst'|].
  - exists k, (sd_mac (rt (S k))), h'. split; [done|by right].
  - apply goes_lost; [by eapply shape_wired|done].
  - split; [by do 2 eexists|]. by rewrite Cm'.
Qed.

Lemma answer_crosses k b buf β st h dl dd :
  (k ≤ n)%nat → routed b buf β st → Forall lost dd → answers h →
  ∃ m st' h' dd', Forall lost dd' ∧ (m + length dd' = 2 * k + length dd)%nat ∧
    goes m (line_net st ((k, S k, frame_of proto heap (sd_mac (rt k)) (sd_mac (lf (S k))) h) :: dd) dl)
      (line_net st' ((0%nat, 1%nat, frame_of proto heap (sd_mac (rt 0)) (sd_mac (lf 1)) h') :: dd') dl) ∧
    routed b buf β st' ∧ answers h'.
Proof.
  revert st h dd. induction k as [|k IH]; intros st h dd Hk Hst Hdd Hh.
  { exists 0%nat, st, h, dd. by split_and!. }
  destruct (answer_hop k b buf β st h dl dd Hk Hst Hdd Hh) as (st1 & h1 & x & Hx & G1 & Hst1 & Hh1).
  destruct (IH st1 h1 [x] ltac:(lia) Hst1 ltac:(by constructor) Hh1) as (m & st2 & h2 & dd2 & Hdd2 & Hm & G2 & H2).
  exists (1 + length dd + m)%nat, st2, h2, dd2. split_and!; [done|cbn [length] in Hm; lia| |apply H2..].
  by eapply goes_trans.
Qed.

(** The answer reaches the client. *)
Lemma answer_arrives b buf0 buf β p st h dl dd :
  routed b (<[0%nat := pushed p buf0]> buf) β st → Forall lost dd → answers h →
  idle dst_addr buf0 → cstr (pi_dest_ip p) = cstr dst_addr → port_ok p →
  ∃ st' a, goes (1 + length dd)
      (line_net st ((0%nat, 1%nat, frame_of proto heap (sd_mac (rt 0)) (sd_mac (lf 1)) h) :: dd) dl)
      (line_net st' [] (dl ++ [(0%nat, cstr (src_port p), a)])) ∧
    routed b (<[0%nat := freed p buf0]> buf) β st' ∧ text a = answer_text.
Proof.
  intros Hst Hdd ((c & b' & Hh) & Cm) Hi Hp Hport. pose proof (Hst 0%nat ltac:(lia)) as Hnode.
  rewrite fn_lookup_insert in Hnode.
  destruct (hop_answer (ln_host G 0) proto heap dst_addr src_addr (ifs 0) _ (st 0%nat) h c b' p buf0
    (sd_mac (rt 0)) (sd_mac (lf 1)) 0 (ln_reply G 0) (ni_router _ _ _ _ _ _ Hnode) Hh own_src_end
    (proj1 (lk_right Hok 0)) (proj1 (lk_left Hok 1))) as (a & E & Ca);
    [unfold fits; rewrite Cm; apply Hok|done|done|done|apply Hnode|].
  pose proof (goes_left 0 (sd_mac (rt 0)) h dd dl st _ (set_buffer (freed p buf0) (st 0%nat)) ltac:(lia)
    (shape_wired _ _ _ _ _ Hst) (proj1 (lk_right Hok 0)) (hi_ok _ _ _ _ _ _ Hh) (takes_own _)
    (ro_serv _ _ _ (ni_router _ _ _ _ _ _ Hnode)) E) as G1.
  cbn [absorb line_net nodes in_flight delivered] in G1.
  set (st' := <[0%nat := set_buffer (freed p buf0) (st 0%nat)]> st) in *.
  assert (routed b (<[0%nat := freed p buf0]> buf) β st') as Hst'.
  { intros i Hi'. destruct (decide (i = 0%nat)) as [->|Hne]; unfold st'.
    - rewrite !fn_lookup_insert. destruct Hnode as [[? ? ? ?] ? ? ? ?]. by split.
    - rewrite !fn_lookup_insert_ne by done. specialize (Hst i Hi'). by rewrite fn_lookup_insert_ne in Hst. }
  exists st', a. split_and!; [|exact Hst'|by rewrite <- Cm].
  eapply goes_trans; [exact G1|].
  pose proof (goes_lost dd [] (dl ++ [(0%nat, cstr (src_port p), a)]) st' (shape_wired _ _ _ _ _ Hst') Hdd) as G2.
  rewrite app_nil_r in G2. exact G2.
Qed.

(** ** A whole request *)

Lemma exchange b buf0 buf β p st h c dl :
  routed b (<[0%nat := pushed p buf0]> buf) β st → head_is h payload_req src_addr dst_addr c (b 0%nat) →
  idle dst_addr buf0 → cstr (pi_dest_ip p) = cstr dst_addr → port_ok p →
  ∃ st' q a, goes (4 * n + 2)
      (line_net st [(0%nat, 0%nat, frame_of proto heap (sd_mac (lf 1)) (sd_mac (rt 0)) h)] dl)
      (line_net st' [] (dl ++ [(far, DOMAIN_SOCK_PATH, q); (0%nat, cstr (src_port p), a)])) ∧
    routed b (<[0%nat := freed p buf0]> buf) β st' ∧ text q = question_text (b n) ∧ text a = answer_text.
Proof.
  intros Hst Hh Hi Hp Hport.
  destruct (payload_crosses n 0 _ _ _ st h c dl eq_refl Hst Hh) as (st1 & h1 & c1 & G1 & Hst1 & Hh1).
  destruct (payload_arrives _ _ _ st1 h1 c1 dl Hst1 Hh1) as (st2 & h2 & q & G2 & Hst2 & Hh2 & Cq).
  destruct (answer_crosses n _ _ _ st2 h2 (dl ++ [(far, DOMAIN_SOCK_PATH, q)]) [] (le_n _) Hst2 ltac:(constructor) Hh2)
    as (m & st3 & h3 & dd & Hdd & Hm & G3 & Hst3 & Hh3).
  destruct (answer_arrives b buf0 buf β p st3 h3 (dl ++ [(far, DOMAIN_SOCK_PATH, q)]) dd Hst3 Hdd Hh3 Hi Hp Hport)
    as (st4 & a & G4 & Hst4 & Ca).
  exists st4, q, a. split; [|done]. rewrite <- app_assoc in G4.
  replace (4 * n + 2)%nat with (2 * n + (1 + (m + (1 + length dd))))%nat by (cbn [length] in Hm; lia).
  eapply goes_trans; [exact G1|]. eapply goes_trans; [exact G2|]. by eapply goes_trans.
Qed.

(** The routes are found. *)
Lemma discovery b buf β st h dl :
  shape b buf (to_src β 1) (to_dst β far) st → head_is h rreq src_addr dst_addr 1 β →
  ∃ st' h' c, goes (4 * n + 2)
      (line_net st [(0%nat, 0%nat, frame_of proto heap b_mac (sd_mac (rt 0)) h)] dl)
      (line_net st' [(0%nat, 0%nat, frame_of proto heap (sd_mac (lf 1)) (sd_mac (rt 0)) h')] dl) ∧
    routed b buf β st' ∧ head_is h' payload_req src_addr dst_addr c (b 0%nat).
Proof.
  intros Hst Hh.
  destruct (request_crosses n 0 b buf β st h dl eq_refl Hst Hh) as (st1 & h1 & G1 & Hst1 & Hh1).
  destruct (request_arrives b buf β st1 h1 dl Hst1 Hh1) as (st2 & h2 & G2 & Hst2 & Hh2).
  destruct (reply_crosses n b buf β st2 h2 dl [] (le_n _) Hst2 ltac:(constructor)) as
    (m & st3 & h3 & dd & Hdd & Hm & G3 & Hst3 & Hh3).
  { replace (far - n)%nat with 1%nat by (unfold far; lia). exact Hh2. }
  destruct (reply_arrives b buf β st3 h3 dl dd Hst3 Hdd Hh3) as (st4 & h4 & c & G4 & Hst4 & Hh4).
  exists st4, h4, c. split; [|done].
  replace (4 * n + 2)%nat with (2 * n + (1 + (m + (1 + length dd))))%nat by (cbn [length] in Hm; lia).
  eapply goes_trans; [exact G1|]. eapply goes_trans; [exact G2|]. by eapply goes_trans.
Qed.

Lemma goes_settled m x st dl fuel :
  goes m x (line_net st [] dl) → (m ≤ fuel)%nat → settle proto heap fuel x = Some (line_net st [] dl).
Proof.
  intros H Hm. replace fuel with (m + (fuel - m))%nat by lia. rewrite H. by destruct (fuel - m)%nat.
Qed.

(** The states after router 0 took a request. *)
Lemma shape_asked b buf kS kD st p :
  shape b buf kS kD st →
  shape (<[0%nat := i32 (b 0%nat + 1)]> b) (<[0%nat := pushed p (buf 0%nat)]> buf) kS kD
    (<[0%nat := asked_of p (st 0%nat)]> st).
Proof.
  intros H i Hi. specialize (H i Hi). destruct (decide (i = 0%nat)) as [->|Hne].
  - rewrite !fn_lookup_insert. destruct H as [Hr ? ? Hb Hf]. split; [by apply asked_router|done|done|..]; cbn; congruence.
  - by rewrite !fn_lookup_insert_ne.
Qed.

(** The outcome of a request: the server was asked and the client answered. *)
Definition served (b : nat → Z) (buf : nat → list server_buf) (β : Z) (dg : bytes) (need : nat) (st : nat → odr) : Prop :=
  let p := decode_peer_info dg in
  let b' := <[0%nat := i32 (b 0%nat + 1)]> b in
  ∀ fuel dl, (need ≤ fuel)%nat → ∃ st' q a,
    handle proto heap 0 (LocalDgram dg) (line_net st [] dl) ≫= settle proto heap fuel =
      Some (line_net st' [] (dl ++ [(far, DOMAIN_SOCK_PATH, q); (0%nat, cstr (src_port p), a)])) ∧
    routed b' (<[0%nat := freed p (buf 0%nat)]> buf) β st' ∧ text q = question_text (b' n) ∧ text a = answer_text.

Lemma ifs_near : ifs 0 = [rt 0%nat].
Proof. done. Qed.

Lemma first_request b buf dg st :
  (∀ β, shape b buf (to_src β 1) (to_dst β far) st) → idle dst_addr (buf 0%nat) → asks dst_addr dg →
  served b buf (i32 (b 0%nat + 1)) dg (8 * n + 4) st.
Proof.
  intros Hst Hi Ha fuel dl Hfuel. set (p := decode_peer_info dg). set (β := i32 (b 0%nat + 1)).
  specialize (Hst β). pose proof (Hst 0%nat ltac:(lia)) as Hnode. rewrite to_dst_none in Hnode by (unfold far; lia).
  destruct Hnode as [Hr _ Hkd Hb Hf]. rewrite ifs_near in Hr.
  destruct (request_unknown proto heap src_addr dst_addr src_ok dst_ok _ (st 0%nat) (rt 0%nat) dg Hr)
    as (h & E & Hh); [by rewrite Hf|done|done|done|]. fold p in E. rewrite Hb in Hh. fold β in Hh.
  destruct (discovery _ _ β _ h dl (shape_asked _ _ _ _ _ p Hst) Hh) as (st1 & h1 & c & G1 & Hst1 & Hh1).
  destruct (exchange _ (buf 0%nat) buf β p st1 h1 c dl Hst1 Hh1 Hi (as_dest _ _ Ha) (as_port _ _ Ha))
    as (st2 & q & a & G2 & Hst2 & Cq & Ca).
  exists st2, q, a. split; [|done].
  rewrite (handle_line 0 (LocalDgram dg) st [] dl _ _ ltac:(lia) E). cbn [mbind option_bind].
  rewrite <- ifs_near, absorb_flood, sent_near by lia. cbn [line_net nodes in_flight delivered app].
  apply (goes_settled (4 * n + 2 + (4 * n + 2))); [|lia]. by eapply goes_trans.
Qed.

Lemma later_request b buf β dg st :
  routed b buf β st → idle dst_addr (buf 0%nat) → asks dst_addr dg → served b buf β dg (8 * n + 4) st.
Proof.
  intros Hst Hi Ha fuel dl Hfuel. set (p := decode_peer_info dg).
  pose proof (Hst 0%nat ltac:(lia)) as Hnode. rewrite (to_dst_known _ 0 0) in Hnode by lia.
  destruct Hnode as [Hr _ Hkd Hb Hf]. rewrite ifs_near in Hr.
  destruct (request_known proto heap src_addr dst_addr src_ok dst_ok _ (st 0%nat) (rt 0%nat) dg
    (sd_mac (lf 1)) (Z.of_nat (far - 0)) β Hr)
    as (h & E & Hh); [by rewrite Hf|done|done|exact Hkd|apply hops_i32; lia|].
  fold p in E. rewrite Hb in Hh.
  destruct (exchange (<[0%nat := i32 (b 0%nat + 1)]> b) (buf 0%nat) buf β p _ h _ dl (shape_asked _ _ _ _ _ p Hst) Hh
    Hi (as_dest _ _ Ha) (as_port _ _ Ha)) as (st2 & q & a & G2 & Hst2 & Cq & Ca).
  exists st2, q, a. split; [|done].
  rewrite (handle_line 0 (LocalDgram dg) st [] dl _ _ ltac:(lia) E). cbn [mbind option_bind].
  rewrite <- ifs_near, absorb_flood, sent_near by lia. cbn [line_net nodes in_flight delivered app].
  by apply (goes_settled (4 * n + 2)); [|lia].
Qed.
End line.

(** ** Any number of requests *)

(** Each client's datagram is handed to router 0 when all is quiet. *)
Fixpoint ask_all (proto : Z) (heap : bytes) (fuel : nat) (ds : list bytes) (x : net_state) : option net_state :=
  match ds with
  | [] => Some x
  | d :: ds => x ← handle proto heap 0 (LocalDgram d) x; x ← settle proto heap fuel x; ask_all proto heap fuel ds x
  end.

(** What reaches local sockets, [b i] being the broadcast number of router [i]:
    for each request a question for the server at the far end and an answer for
    the client.  The question has the number of the last router before that end. *)
Fixpoint conversation (G : odr_line) (b : nat → Z) (ds : list bytes) : list (nat * bytes * bytes) :=
  match ds with
  | [] => []
  | d :: ds =>
      let b := <[0%nat := i32 (b 0%nat + 1)]> b in
      [(far G, DOMAIN_SOCK_PATH, question_text G (b (ln_between G)));
       (0%nat, cstr (src_port (decode_peer_info d)), answer_text G)] ++ conversation G b ds
  end.

(** No router knows either end, though it may know others; each has room for two
    routes; no request for the far end is waiting. *)
Definition at_start (G : odr_line) (st : nat → odr) : Prop :=
  (∀ i, (i ≤ far G)%nat → router (ifs G i) 2 (st i) ∧
     known (table (st i)) (src_addr G) = None ∧ known (table (st i)) (dst_addr G) = None) ∧
  idle (dst_addr G) (buffer (st 0%nat)).

(** Router [i] knows its true distances, and neighbours as next hops. *)
Definition distances (G : odr_line) (i : nat) (t : routing_table) : Prop :=
  ((0 < i)%nat → ∃ b, known t (src_addr G) = Some (sd_mac (ln_right G (pred i)), Z.of_nat i, b)) ∧
  ((i < far G)%nat → ∃ b, known t (dst_addr G) = Some (sd_mac (ln_left G (S i)), Z.of_nat (far G - i), b)).

Lemma at_start_shape G st β :
  at_start G st →
  shape G (λ i, broadcast_id (st i)) (λ i, buffer (st i)) (to_src G β 1) (to_dst G β (far G)) st.
Proof.
  intros [H _] i Hi. destruct (H i Hi) as (Hr & Hs & Hd). rewrite to_src_none, to_dst_none by lia. by split.
Qed.

Lemma routed_distances G b buf β st i :
  routed G b buf β st → (i ≤ far G)%nat → distances G i (table (st i)).
Proof.
  intros H Hi. destruct (H i Hi) as [_ Hs Hd _ _]. split; intros Hb.
  - exists β. rewrite Hs. apply to_src_known. lia.
  - exists β. rewrite Hd. apply to_dst_known. unfold far in *. lia.
Qed.

Lemma served_bind G proto heap b buf β dg need st fuel dl :
  served G proto heap b buf β dg need st → (need ≤ fuel)%nat →
  ∃ x1 st' q a, handle proto heap 0 (LocalDgram dg) (line_net G st [] dl) = Some x1 ∧
    settle proto heap fuel x1 =
      Some (line_net G st' [] (dl ++ [(far G, DOMAIN_SOCK_PATH, q); (0%nat, cstr (src_port (decode_peer_info dg)), a)])) ∧
    routed G (<[0%nat := i32 (b 0%nat + 1)]> b) (<[0%nat := freed (decode_peer_info dg) (buf 0%nat)]> buf) β st' ∧
    text q = question_text G ((<[0%nat := i32 (b 0%nat + 1)]> b) (ln_between G)) ∧ text a = answer_text G.
Proof.
  intros H Hf. destruct (H fuel dl Hf) as (st' & q & a & E & R).
  destruct (handle _ _ _ _ _) as [x1|]; [|done]. by exists x1, st', q, a.
Qed.

Lemma ask_later G proto heap fuel ds b buf β st dl :
  line_ok G heap → (8 * ln_between G + 4 ≤ fuel)%nat → Forall (asks (dst_addr G)) ds →
  routed G b buf β st → idle (dst_addr G) (buf 0%nat) →
  ∃ st' dl', ask_all proto heap fuel ds (line_net G st [] dl) = Some (line_net G st' [] (dl ++ dl')) ∧
    texts (line_net G st' [] dl') = conversation G b ds ∧ (∃ b' buf', routed G b' buf' β st').
Proof.
  intros Hok Hf Hds. revert b buf st dl. induction Hds as [|d ds Hd Hds IH]; intros b buf st dl Hst Hi.
  { exists st, []. rewrite app_nil_r. split_and!; [done..|eauto]. }
  destruct (served_bind _ _ _ _ _ _ _ _ _ fuel dl (later_request G proto heap Hok b buf β d st Hst Hi Hd) Hf)
    as (x1 & st1 & q & a & E1 & E2 & Hst1 & Cq & Ca).
  destruct (IH _ _ st1 (dl ++ [(far G, DOMAIN_SOCK_PATH, q); (0%nat, cstr (src_port (decode_peer_info d)), a)]) Hst1)
    as (st2 & dl2 & E3 & Ct & Hst2).
  { rewrite fn_lookup_insert. apply freed_idle; [done|apply Hd]. }
  exists st2, ([(far G, DOMAIN_SOCK_PATH, q); (0%nat, cstr (src_port (decode_peer_info d)), a)] ++ dl2).
  cbn [ask_all]. rewrite E1. cbn [mbind option_bind]. rewrite E2. cbn [mbind option_bind].
  rewrite E3, <- app_assoc. split_and!; [done| |done].
  unfold texts in *. cbn [delivered line_net] in *. rewrite map_app. cbn [conversation]. rewrite <- Ct, <- Cq, <- Ca. done.
Qed.

(** ** The theorem *)


(** Two routers between [vm1] and [vm10]. *)
Definition pick {A} (l : list A) (x : A) (i : nat) : A := nth i l x.
Definition four : odr_line :=
  mk_line 2
    (pick [mk_server_details (ip20 "0.0.0.0") (mac x01) 0; mk_server_details (ip20 "192.168.10.4") (mac x02) 2;
           mk_server_details (ip20 "192.168.11.6") (mac x03) 2]
       (mk_server_details (ip20 "192.168.13.10") (mac x04) 2))
    (pick [mk_server_details (ip20 "192.168.10.1") (mac x11) 3; mk_server_details (ip20 "192.168.11.4") (mac x12) 3]
       (mk_server_details (ip20 "192.168.13.6") (mac x13) 3))
    (pick [str "vm1"; str "vm4"; str "vm6"] (str "vm10"))
    (λ _, time_reply).

Definition far_request (port : bytes) : bytes :=
  dgram (msg_send (str "vm1") (str "192.168.13.10") DOMAIN_SOCK_PATH (str "192.168.10.1") port (str "GetMeTime") 0).

Lemma four_ok : line_ok four (zeros 1348).
Proof.
  split.
  - intros i. by do 4 (destruct i as [|i]; [by split; vm_compute|]); split; vm_compute.
  - intros i. by do 4 (destruct i as [|i]; [by split; vm_compute|]); split; vm_compute.
  - intros i. do 4 (destruct i as [|i]; [by vm_compute|]). by vm_compute.
  - intros i. do 4 (destruct i as [|i]; [by vm_compute|]). by vm_compute.
  - intros i Hi. unfold far in Hi. cbn in Hi. do 4 (destruct i as [|i]; [by vm_compute|]). lia.
  - intros i Hi. unfold far in Hi. cbn in Hi. do 4 (destruct i as [|i]; [by vm_compute|]). lia.
  - split; [apply Nat.leb_le|apply Nat.ltb_lt]; by vm_compute.
  - split; [apply Nat.leb_le|apply Nat.ltb_lt]; by vm_compute.
  - by vm_compute.
  - split; [by apply Nat.leb_le; vm_compute|by apply (bool_decide_unpack _); vm_compute].
  - by apply Nat.ltb_lt; vm_compute.
  - by vm_compute.
Qed.

Lemma four_at_start : at_start four (λ i, odr_start (ifs four i)).
Proof.
  split.
  - intros i Hi. split; [|by split; vm_compute].
    split; [done|apply init_table_ok|apply Nat.leb_le; by vm_compute|by vm_compute].
  - split; [apply Forall_replicate; by split; vm_compute|apply Forall_replicate; by vm_compute|].
    exists 0%nat, zero_buf. by split.
Qed.

