(* ===== verification/Kdhw3.v ===== *)
(** * The draft of the time client and server (hw3/kdhw3)

    The first version of hw3's time client and server, which talk over local
    sockets without a router.  [gethostbyname] and [gethostname] are parameters;
    an array the code does not initialise is an argument. *)

From Stdlib Require Import Strings.Byte.
From S2P Require Import Prelude.
From S2P Require Import CMem.
From S2P Require Import Inet.
From S2P Require Import CScan.

Definition kd_DOMAIN_SOCK_PATH : bytes := str "/tmp/deva_kau".
Definition kd_MAX_MSG_LEN : nat := 50.
Definition kd_MAX_VM_NAME_LEN : nat := 10.
Definition kd_ADDRSTRLEN : nat := 16.
Definition kd_PORT_LEN : nat := 100.

(** [struct peer_info], packed, in the order of its fields. *)
Record kd_peer_info := mk_kd_peer_info {
  kd_dest_port : bytes;   (* char[100] *)
  kd_dest_ip : bytes;     (* char[INET_ADDRSTRLEN] *)
  kd_src_port : bytes;    (* char[100] *)
  kd_src_ip : bytes;      (* char[INET_ADDRSTRLEN] *)
  kd_msg : bytes;         (* char[MAX_MSG_LEN] *)
  kd_source_vm : bytes    (* char[MAX_VM_NAME_LEN] *)
}.

Definition kd_memory (p : kd_peer_info) : bytes :=
  kd_dest_port p ++ kd_dest_ip p ++ kd_src_port p ++ kd_src_ip p ++ kd_msg p ++ kd_source_vm p.
Definition sizeof_kd_peer_info : nat := 292.

(** The offsets of the fields. *)
Definition at_dest_port : nat := 0.
Definition at_dest_ip : nat := 100.
Definition at_src_port : nat := 116.
Definition at_src_ip : nat := 216.
Definition at_msg : nat := 232.
Definition at_source_vm : nat := 282.

(** The string at an offset of the structure; it may run into the fields that
    follow, but not past the structure. *)
Definition string_at (off : nat) (mem : bytes) : option bytes :=
  let s := drop off mem in if decide (NUL ∈ s) then Some (cstr s) else None.

(** What the programs do: print lines, send datagrams. *)
Inductive kd_out := Line (s : bytes) | SendTo (addr d : bytes).

Section draft.
Context (hostname : bytes) (gethostbyname : bytes → option bytes).

Section common.
Context {S : Type}.
Abbreviation Kd := (M S kd_out).

Definition kd_set_ip (host ip : bytes) : Kd bytes :=
  a ← required NullPointer (gethostbyname (cstr host));
  r ← required BadCopy (inet_ntop4 a ip (Z.of_nat kd_ADDRSTRLEN));
  match r with inr ip => mret ip | inl _ => exit 1 end.

Definition kd_set_this_ip (this_ip : bytes) : Kd bytes := kd_set_ip hostname this_ip.

Definition kd_msg_send (dip dport sip sport m addr : bytes) : Kd unit :=
  dp ← required BadCopy (strcpy (zeros kd_PORT_LEN) dport);
  di ← required BadCopy (strncpy (zeros kd_ADDRSTRLEN) dip kd_ADDRSTRLEN);
  sp ← required BadCopy (strcpy (zeros kd_PORT_LEN) sport);
  si ← required BadCopy (strcpy (zeros kd_ADDRSTRLEN) sip);
  vm ← required BadCopy (strncpy (zeros kd_MAX_VM_NAME_LEN) hostname kd_MAX_VM_NAME_LEN);
  mm ← required BadCopy (strcpy (zeros kd_MAX_MSG_LEN) m);
  let odr_info := kd_memory (mk_kd_peer_info dp di sp si mm vm) in
  emit (SendTo addr (take (Z.to_nat (strlen odr_info)) odr_info)).

(** [recvline] is the uninitialised array of [msg_recv], [d] the datagram. *)
Definition kd_msg_recv (recvline d m sip sport : bytes) : Kd (bytes * bytes * bytes) :=
  recvline ← required BadCopy (memcpy_at 0 recvline d);
  let pinfo := take sizeof_kd_peer_info recvline in
  emit (Line (str "time to check")) ≫= λ _,
  foreach [at_dest_port; at_dest_ip; at_src_port; at_src_ip; at_source_vm; at_msg] (λ off,
    s ← required BadIndex (string_at off pinfo); emit (Line s)) ≫= λ _,
  s ← required BadIndex (string_at at_msg pinfo); m ← required BadCopy (strcpy m s);
  s ← required BadIndex (string_at at_src_ip pinfo); sip ← required BadCopy (strcpy sip s);
  s ← required BadIndex (string_at at_src_port pinfo); sport ← required BadCopy (strcpy sport s);
  mret (m, sip, sport).
End common.

(** ** The server: [recvline] and [buff] of [respond] *)
Record kd_server := mk_kd_server { kd_recvline : bytes; kd_buff : bytes }.

(** A turn of [respond] for datagram [d] at the time [ctime].  [msg_recv] does not
    store the sender's address: the answer goes to what [cliaddr] held. *)
Definition kd_respond_turn (this_ip ctime cliaddr recvline d : bytes) : M kd_server kd_out unit :=
  s ← gets id;
  '(line, client_ip, client_port) ← kd_msg_recv recvline d (kd_recvline s) (zeros 100) (zeros 100);
  emit (Line (str "Received request: " ++ cstr line ++ str " from client: " ++ cstr cliaddr)) ≫= λ _,
  buff ← required BadCopy (strcpy (kd_buff s) (take 24 (cstr ctime)));
  modify (λ _, mk_kd_server line buff) ≫= λ _,
  emit (Line (str "Sending response: '" ++ cstr buff ++ str "' to client: " ++ cstr cliaddr)) ≫= λ _,
  kd_msg_send client_ip client_port this_ip kd_DOMAIN_SOCK_PATH buff cliaddr.

(** ** The client *)

(** The arrays [recvline] and [arg] of [main]. *)
Record kd_client := mk_kd_client { kd_line : bytes; kd_arg : bytes }.

Definition kd_hello (this_ip tempfile servaddr : bytes) : M kd_client kd_out unit :=
  kd_msg_send (str "ip") kd_DOMAIN_SOCK_PATH this_ip tempfile (str "GetMeTime") servaddr.

(** A turn of [main]'s loop: [input] is what the user types, [d] the answer. At
    the end of the input [scanf] leaves [arg] as it was. *)
Definition kd_client_turn (this_ip tempfile servaddr recvline input d : bytes) : M kd_client kd_out unit :=
  s ← gets id;
  emit (Line (x0a :: str "*** Choose a vm (vm1-vm10) ***")) ≫= λ _,
  arg ← required BadCopy (match fst (scan_s input) with Some w => strcpy (kd_arg s) w | None => Some (kd_arg s) end);
  let arg := <[4%nat := NUL]> arg in
  ip ← kd_set_ip arg (zeros kd_ADDRSTRLEN);
  emit (Line (str "IP address for vm:" ++ cstr arg ++ str " is " ++ cstr ip)) ≫= λ _,
  emit (Line (str "Sending request to server vm:" ++ cstr arg)) ≫= λ _,
  kd_msg_send ip kd_DOMAIN_SOCK_PATH this_ip tempfile (str "GetMeTime") servaddr ≫= λ _,
  emit (Line (str "Waiting for reply")) ≫= λ _,
  '(line, _, _) ← kd_msg_recv recvline d (kd_line s) (zeros 100) (zeros 100);
  modify (λ _, mk_kd_client line arg) ≫= λ _,
  emit (Line (str "Received response from server:" ++ cstr line)).
End draft.

(** ** What the draft sends *)

Lemma string_at_cases off d :
  no_nul d → (off = 0 ∨ length d ≤ off)%nat → (off < sizeof_kd_peer_info)%nat →
  (length d < sizeof_kd_peer_info)%nat →
  string_at off (d ++ zeros (sizeof_kd_peer_info - length d)) = Some (if decide (off = 0)%nat then d else []).
Proof.
  intros Hd Ho Hlt Hl. unfold string_at. destruct Ho as [->|Ho].
  - rewrite drop_0. destruct (sizeof_kd_peer_info - length d)%nat as [|k] eqn:E; [lia|].
    cbn [zeros replicate]. rewrite decide_True by (apply elem_of_app; right; left).
    rewrite decide_True by done. by rewrite cstr_app_nul.
  - rewrite drop_app_ge, drop_zeros by done.
    rewrite decide_True, cstr_zeros by (apply elem_of_replicate; split; [done|lia]).
    case_decide; [|done]. subst. by destruct d; [|cbn in Ho; lia].
Qed.

Section sends.
Context (hostname : bytes) (gethostbyname : bytes → option bytes).

(** A message is sent as far as the first NUL byte of the structure, which is
    the end of its first field. *)
Lemma kd_msg_send_run {S} dip dport sip sport m addr (s : S) :
  fits kd_PORT_LEN dport → fits kd_PORT_LEN sport → fits kd_ADDRSTRLEN sip → fits kd_MAX_MSG_LEN m →
  kd_msg_send hostname dip dport sip sport m addr s = ([SendTo addr (cstr dport)], Ret tt s).
Proof.
  intros Hdp Hsp Hsi Hm. unfold kd_msg_send.
  destruct (strcpy_zeros _ _ Hdp) as (dp & -> & Ldp & Cdp).
  destruct (strcpy_zeros _ _ Hsp) as (sp & -> & _ & _).
  destruct (strcpy_zeros _ _ Hsi) as (si & -> & _ & _).
  destruct (strcpy_zeros _ _ Hm) as (mm & -> & _ & _).
  unfold strncpy. rewrite !memcpy_all by (rewrite length_take, length_app, !length_zeros; lia).
  unfold mbind, M_bind. cbn [required mret M_ret]. unfold emit, kd_memory. cbn [kd_dest_port].
  do 2 f_equal. f_equal. unfold strlen. rewrite Nat2Z.id. unfold fits in Hdp.
  rewrite (cstr_split dp) by (rewrite Cdp, Ldp; lia). 
  rewrite <- app_assoc. cbn [app]. rewrite cstr_app_nul by apply cstr_no_nul.
  by rewrite take_app_length, Cdp.
Qed.

(** Such a datagram in an array that held zeros. *)
Lemma kd_msg_recv_run {S} d m sip sport (s : S) :
  no_nul d → (length d ≤ kd_PORT_LEN)%nat → (0 < length m)%nat → (0 < length sip)%nat → (0 < length sport)%nat →
  kd_msg_recv (zeros sizeof_kd_peer_info) d m sip sport s =
    (Line <$> [str "time to check"; d; []; []; []; []; []],
     Ret (NUL :: drop 1 m, NUL :: drop 1 sip, NUL :: drop 1 sport) s).
Proof.
  intros Hd Hl Hm Hs Hp. unfold kd_PORT_LEN in *.
  set (mem := d ++ zeros (sizeof_kd_peer_info - length d)).
  assert (length mem = sizeof_kd_peer_info) as Lm
    by (unfold mem; rewrite length_app, length_zeros; unfold sizeof_kd_peer_info; lia).
  assert (memcpy_at 0 (zeros sizeof_kd_peer_info) d = Some mem) as Em.
  { unfold memcpy_at, mem. rewrite decide_True by (rewrite length_zeros; unfold sizeof_kd_peer_info; lia).
    by rewrite drop_zeros. }
  unfold kd_msg_recv, mbind, M_bind. rewrite Em. cbn [required mret M_ret].
  rewrite take_ge by lia. unfold mem.
  unfold at_dest_port, at_dest_ip, at_src_port, at_src_ip, at_msg, at_source_vm.
  cbn [foreach]. unfold mbind, M_bind.
  assert (∀ x, (0 < length x)%nat → strcpy x [] = Some (NUL :: drop 1 x)) as Hc
    by (intros x Hx; by rewrite strcpy_Some by done).
  repeat (rewrite string_at_cases by (first [done | unfold sizeof_kd_peer_info; lia]);
    cbn [decide required emit mret M_ret]).
  by rewrite !Hc by done.
Qed.

Hypothesis resolves : ∀ h, is_Some (gethostbyname h).

Lemma kd_set_ip_run {St} host (s : St) :
  ∃ ip, kd_set_ip gethostbyname host (zeros kd_ADDRSTRLEN) s = ([], Ret ip s) ∧ fits kd_ADDRSTRLEN ip.
Proof.
  destruct (resolves (cstr host)) as [a Ha]. pose proof (quad_text_length a) as Hl.
  exists (quad_text a ++ NUL :: drop (S (length (quad_text a))) (zeros kd_ADDRSTRLEN)).
  unfold kd_set_ip, mbind, M_bind. rewrite Ha. cbn [required mret M_ret].
  rewrite inet_ntop4_fits by (rewrite ?length_zeros; unfold kd_ADDRSTRLEN; lia).
  split; [done|]. unfold fits. rewrite cstr_app_nul by apply quad_text_no_nul.
  unfold kd_ADDRSTRLEN. lia.
Qed.

(** The datagrams among the outputs. *)
Definition sends (os : list kd_out) : list bytes :=
  omap (λ o, match o with SendTo _ d => Some d | Line _ => None end) os.

Lemma respond_run this_ip ctime cliaddr d s :
  no_nul d → (length d ≤ kd_PORT_LEN)%nat → fits kd_ADDRSTRLEN this_ip →
  length (kd_recvline s) = 1000%nat → length (kd_buff s) = 100%nat →
  ∃ o s', kd_respond_turn hostname this_ip ctime cliaddr (zeros sizeof_kd_peer_info) d s = (o, Ret tt s') ∧
    sends o = [[]].
Proof.
  intros Hd Hl Hip Hr Hb. unfold kd_respond_turn, mbind, M_bind. cbn [gets id].
  rewrite kd_msg_recv_run by (done || (rewrite ?length_zeros; lia)). cbn [emit].
  destruct (strcpy_room (kd_buff s) (take 24 (cstr ctime))) as (b & -> & _ & Cb).
  { rewrite Hb. pose proof (length_cstr (take 24 (cstr ctime))) as H. rewrite length_take in H. lia. }
  assert (fits kd_MAX_MSG_LEN b) as Hm.
  { unfold fits, kd_MAX_MSG_LEN. rewrite Cb. pose proof (length_cstr (take 24 (cstr ctime))) as H.
    rewrite length_take in H. lia. }
  cbn [required mret M_ret modify]. rewrite kd_msg_send_run by (done || (apply Nat.ltb_lt; reflexivity)).
  by eexists _, _.
Qed.

Lemma client_run this_ip tempfile servaddr input d c :
  no_nul d → (length d ≤ kd_PORT_LEN)%nat → fits kd_ADDRSTRLEN this_ip → fits kd_PORT_LEN tempfile →
  length (kd_line c) = 30%nat → length (kd_arg c) = 20%nat →
  (∀ w, fst (scan_s input) = Some w → (length w < 20)%nat) →
  ∃ o c', kd_client_turn hostname gethostbyname this_ip tempfile servaddr (zeros sizeof_kd_peer_info)
            input d c = (o, Ret tt c') ∧
    sends o = [kd_DOMAIN_SOCK_PATH] ∧ last o = Some (Line (str "Received response from server:")).
Proof.
  intros Hd Hl Hip Hf Hr Ha Hw. unfold kd_client_turn, mbind, M_bind. cbn [gets id emit].
  assert (∃ arg, match fst (scan_s input) with Some w => strcpy (kd_arg c) w | None => Some (kd_arg c) end =
    Some arg) as [arg ->].
  { destruct (fst (scan_s input)) as [w|]; [|by eexists]. specialize (Hw w eq_refl).
    destruct (strcpy_room (kd_arg c) w) as (b & E & _); [|by exists b].
    pose proof (length_cstr w). lia. }
  cbn [required mret M_ret]. destruct (kd_set_ip_run (<[4%nat := NUL]> arg) c) as (ip & -> & Hi).
  cbn [emit]. rewrite kd_msg_send_run by (done || (apply Nat.ltb_lt; reflexivity)).
  rewrite kd_msg_recv_run by (done || (rewrite ?length_zeros; lia)). cbn [emit modify].
  eexists _, _. split; [reflexivity|]. split; reflexivity.
Qed.
End sends.

(** The draft's question and answer: since a message is cut at the first NUL
    byte of its structure, the client's question is the path of the server's
    socket and nothing else, the server's answer is empty, and the client, its
    buffers being zero, shows an empty time. *)
Theorem draft_exchange client_host server_host gethostbyname this_ip server_ip tempfile servaddr cliaddr ctime input s c :
  (∀ h, is_Some (gethostbyname h)) →
  fits kd_ADDRSTRLEN this_ip → fits kd_ADDRSTRLEN server_ip → fits kd_PORT_LEN tempfile →
  length (kd_recvline s) = 1000%nat → length (kd_buff s) = 100%nat →
  length (kd_line c) = 30%nat → length (kd_arg c) = 20%nat →
  (∀ w, fst (scan_s input) = Some w → (length w < 20)%nat) →
  let mem := zeros sizeof_kd_peer_info in
  ∃ q r oc c' os s',
    kd_client_turn client_host gethostbyname this_ip tempfile servaddr mem input r c = (oc, Ret tt c') ∧
    sends oc = [q] ∧ q = kd_DOMAIN_SOCK_PATH ∧
    kd_respond_turn server_host server_ip ctime cliaddr mem q s = (os, Ret tt s') ∧ sends os = [r] ∧ r = [] ∧
    last oc = Some (Line (str "Received response from server:")).
Proof.
  intros Hg Hi Hs Hf Hr Hb Hl Ha Hw mem.
  destruct (client_run client_host gethostbyname Hg this_ip tempfile servaddr input [] c)
    as (oc & c' & Ec & Hq & Hlast); [apply not_elem_of_nil|cbn; lia|done..|].
  destruct (respond_run server_host server_ip ctime cliaddr kd_DOMAIN_SOCK_PATH s) as (os & s' & Es & Hsr);
    [|apply Nat.leb_le; reflexivity|done..|].
  { apply (bool_decide_unpack _). by vm_compute. }
  by exists kd_DOMAIN_SOCK_PATH, [], oc, c', os, s'.
Qed.

Lemma draft_exchange_witness :
  let mem := zeros sizeof_kd_peer_info in
  let names (h : bytes) := Some (map byte.of_Z [192; 168; 10; 1]) in
  ∃ q r oc c' os s',
    kd_client_turn (str "vm1") names (str "192.168.10.1") (str "/tmp/dk_a") kd_DOMAIN_SOCK_PATH mem
      (str "vm3") r (mk_kd_client (zeros 30) (zeros 20)) = (oc, Ret tt c') ∧
    sends oc = [q] ∧ q = kd_DOMAIN_SOCK_PATH ∧
    kd_respond_turn (str "vm3") (str "192.168.10.3") (str "Mon Dec  1 12:00:00 2014") (str "/tmp/dk_a") mem q
      (mk_kd_server (zeros 1000) (zeros 100)) = (os, Ret tt s') ∧
    sends os = [r] ∧ r = [] ∧ last oc = Some (Line (str "Received response from server:")).
Proof.
  apply (draft_exchange (str "vm1") (str "vm3") (λ _, Some (map byte.of_Z [192; 168; 10; 1])) (str "192.168.10.1")
    (str "192.168.10.3") (str "/tmp/dk_a") kd_DOMAIN_SOCK_PATH (str "/tmp/dk_a")
    (str "Mon Dec  1 12:00:00 2014") (str "vm3") (mk_kd_server (zeros 1000) (zeros 100))
    (mk_kd_client (zeros 30) (zeros 20))); try reflexivity; try (apply Nat.ltb_lt; reflexivity).
  - by eexists.
  - intros w [= <-]. apply Nat.ltb_lt. reflexivity.
Defined.
