(* ===== verification/Arp.v ===== *)
(** * The address resolution daemon (hw4/arp.c, hw4/arp.h)

    The daemon keeps a cache of forty entries, answers the requests of local
    clients from it, and resolves what is missing with requests and replies on
    a raw socket.  Frames, answers to clients and closed descriptors are its
    outputs. *)

From Stdlib Require Import Strings.Byte.
From S2P Require Import Prelude.
From S2P Require Import CMem.
From S2P Require Import CText.
From S2P Require Import Inet.
From S2P Require Import Interfaces.

Definition IP_LEN : nat := 20.
Definition IF_HADDR : nat := 6.
Definition ETH_FRAME_LEN : nat := 1514.
Definition NO_FD : Z := 0.
Definition NUM_CACHE_ENTRIES : nat := 40.

Record server_details := mk_server_details {
  sd_ip : bytes;      (* char[IP_LEN] *)
  sd_mac : bytes;     (* char[IF_HADDR] *)
  sd_index : Z
}.

Record arp_cache_details := mk_entry {
  ip : bytes;         (* char[IP_LEN] *)
  mac : bytes;        (* char[IF_HADDR] *)
  index : Z;
  fd : Z;
  filled : Z
}.

Record arp_req_reply := mk_arp {
  eth_dest : bytes;
  eth_src : bytes;
  frame_type : Z;     (* unsigned short *)
  hard_type : Z;
  prot_type : Z;
  hard_size : Z;
  prot_size : Z;
  op : Z;
  sender_eth : bytes;
  sender_ip : bytes;
  target_eth : bytes;
  target_ip : bytes;
  identification : bytes   (* char[3] *)
}.

(** The daemon's globals. *)
Record arp := mk_state {
  src_mac : bytes;
  src_ip : bytes;          (* char[20] *)
  src_ifindex : Z;
  arp_cache : list arp_cache_details
}.

Inductive arp_out :=
| SendFrame (if_index : Z) (frame : bytes)
| WriteFd (fd : Z) (d : bytes)
| CloseFd (fd : Z).

(** ** The structures in memory *)

Definition sizeof_arp : nat := 79.

Definition encode_arp (a : arp_req_reply) : bytes :=
  eth_dest a ++ eth_src a ++ put_u16 (frame_type a) ++ put_u16 (hard_type a) ++
  put_u16 (prot_type a) ++ put_u16 (hard_size a) ++ put_u16 (prot_size a) ++ put_u16 (op a) ++
  sender_eth a ++ sender_ip a ++ target_eth a ++ target_ip a ++ identification a.

Definition decode_arp (b : bytes) : arp_req_reply :=
  mk_arp (slice 0 6 b) (slice 6 6 b) (get_u16 (slice 12 2 b)) (get_u16 (slice 14 2 b))
    (get_u16 (slice 16 2 b)) (get_u16 (slice 18 2 b)) (get_u16 (slice 20 2 b)) (get_u16 (slice 22 2 b))
    (slice 24 6 b) (slice 30 20 b) (slice 50 6 b) (slice 56 20 b) (slice 76 3 b).

(** [struct hwaddr], the answer to a client. *)
Record hwaddr := mk_hwaddr {
  sll_ifindex : Z;
  sll_hatype : Z;
  sll_halen : Z;
  sll_addr : bytes    (* char[8] *)
}.
Definition encode_hwaddr (h : hwaddr) : bytes :=
  put_i32 (sll_ifindex h) ++ put_u16 (sll_hatype h) ++ [byte.of_Z (sll_halen h)] ++ sll_addr h.
Definition decode_hwaddr (b : bytes) : hwaddr :=
  mk_hwaddr (get_i32 (slice 0 4 b)) (get_u16 (slice 4 2 b)) (le_combine (slice 6 1 b)) (slice 7 8 b).

Definition zero_entry : arp_cache_details := mk_entry (zeros IP_LEN) (zeros IF_HADDR) 0 0 0.
Definition zero_details : server_details := mk_server_details (zeros IP_LEN) (zeros IF_HADDR) 0.

(** The constant [identification]. *)
Definition our_id : bytes := str "dk" ++ [NUL].
Definition b_mac : bytes := replicate 6 xff.

(** [proto] is the protocol number (the address of a string literal, converted
    by [htons]); [heap] the bytes [malloc] returned after the message. *)
Section arp.
Context (proto : Z) (heap : bytes).

Abbreviation Arp := (M arp arp_out).

Definition set_cache (c : list arp_cache_details) (s : arp) : arp :=
  mk_state (src_mac s) (src_ip s) (src_ifindex s) c.

(** The write to [arp_cache[i]]. *)
Definition update_cache_entry (sv : server_details) (i : nat) (f : Z) : Arp unit :=
  c ← gets arp_cache;
  e ← required BadIndex (c !! i);
  ip' ← required BadCopy (strcpy (ip e) (sd_ip sv));
  modify (set_cache (<[i := mk_entry ip' (sd_mac sv) (sd_index sv) f 1]> c)).

(** The loops over the filled entries stop at the first one with the address
    or at the first one that is not filled. *)
Definition seek (c : list arp_cache_details) (a : bytes) : nat :=
  find_index (λ e, negb (filled e =? 1) || streq (ip e) a) c.

Definition insert_into_cache (sv : server_details) (f : Z) : Arp unit :=
  c ← gets arp_cache;
  update_cache_entry sv (seek c (sd_ip sv)) f.

(** [boot_cache]: the first address becomes the daemon's own. *)
Fixpoint boot_cache (svd : list server_details) : Arp unit :=
  match svd with
  | [] => mret tt
  | sv :: svd =>
      if bool_decide (List.hd NUL (sd_ip sv) = NUL) then mret tt else
      s ← gets id;
      (if src_ifindex s =? -1 then
         a ← required BadCopy (strcpy (src_ip s) (sd_ip sv));
         modify (λ s, mk_state (sd_mac sv) a (sd_index sv) (arp_cache s))
       else mret tt) ≫= λ _,
      insert_into_cache sv NO_FD ≫= λ _,
      boot_cache svd
  end.

(** [send_packet]: the frame carries the message after its own header. *)
Definition frame_of (dest_mac smac : bytes) (a : arp_req_reply) : bytes :=
  take 6 dest_mac ++ take 6 smac ++ put_u16 proto ++ encode_arp a ++ heap.
Definition send_packet (dest_mac smac : bytes) (if_index : Z) (a : arp_req_reply) : Arp unit :=
  emit (SendFrame if_index (frame_of dest_mac smac a)).

Definition prepare_arp_req_reply (o : Z) : Arp arp_req_reply :=
  s ← gets id;
  sip ← required BadCopy (strcpy (zeros IP_LEN) (src_ip s));
  mret (mk_arp (zeros 6) (src_mac s) 2054 1 proto 6 2 o (src_mac s) sip (zeros 6) (zeros IP_LEN) our_id).

Definition set_target_ip (a : arp_req_reply) (t : bytes) : arp_req_reply :=
  mk_arp (eth_dest a) (eth_src a) (frame_type a) (hard_type a) (prot_type a) (hard_size a)
    (prot_size a) (op a) (sender_eth a) (sender_ip a) (target_eth a) t (identification a).

(** Ask the network for an address; [waiting_fd]'s client waits. *)
Definition send_req (t : bytes) (waiting_fd : Z) : Arp unit :=
  a ← prepare_arp_req_reply 1;
  tip ← required BadCopy (strcpy (target_ip a) t);
  let a := set_target_ip a tip in
  svip ← required BadCopy (strcpy (sd_ip zero_details) t);
  insert_into_cache (mk_server_details svip (sd_mac zero_details) 0) waiting_fd ≫= λ _,
  s ← gets id;
  send_packet b_mac (src_mac s) (src_ifindex s) a.

(** The answer made from a cache entry. *)
Definition answer (e : arp_cache_details) : bytes :=
  encode_hwaddr (mk_hwaddr (index e) 1 (strlen (mac e)) (mac e ++ zeros 2)).

(** [send_reply]: 1 if the cache had an entry for the address, complete or
    not.  The client is [f], or the one waiting in the entry if [f] is -1. *)
Definition send_reply (a : bytes) (f : Z) : Arp Z :=
  c ← gets arp_cache;
  let i := seek c a in
  match c !! i with
  | None => mret 0
  | Some e =>
      if filled e =? 1 then
        emit (WriteFd (if negb (f =? -1) then f else fd e) (answer e)) ≫= λ _,
        when (0 <? fd e) (emit (CloseFd (fd e))) ≫= λ _,
        modify (set_cache (<[i := mk_entry (ip e) (mac e) (index e) NO_FD (filled e)]> c)) ≫= λ _,
        mret 1
      else mret 0
  end.

(** [update_response_in_cache]: the first entry with the sender's address,
    filled or not; 0 if there is none. *)
Definition update_response_in_cache (a : arp_req_reply) : Arp Z :=
  c ← gets arp_cache;
  let i := find_index (λ e, streq (ip e) (sender_ip a)) c in
  match c !! i with
  | None => mret 0
  | Some e =>
      modify (set_cache (<[i := mk_entry (ip e) (sender_eth a) 2 (fd e) 1]> c)) ≫= λ _, mret 1
  end.

Definition handle_response (a : arp_req_reply) : Arp unit :=
  update_response_in_cache a ≫= λ _, send_reply (sender_ip a) (-1) ≫= λ _, mret tt.

(** The reply [handle_request] makes of a request: the addresses swapped, the
    daemon's hardware address as the source. *)
Definition reply_to (smac : bytes) (a : arp_req_reply) : arp_req_reply :=
  mk_arp (eth_src a) smac (frame_type a) (hard_type a) (prot_type a) (hard_size a) (prot_size a) 2
    smac (target_ip a) (sender_eth a) (sender_ip a) (identification a).

Definition handle_request (a : arp_req_reply) : Arp unit :=
  s ← gets id;
  if streq (src_ip s) (target_ip a) then
    svip ← required BadCopy (strcpy (sd_ip zero_details) (sender_ip a));
    insert_into_cache (mk_server_details svip (sender_eth a) 0) NO_FD ≫= λ _,
    let a := reply_to (src_mac s) a in
    send_packet (target_eth a) (src_mac s) (src_ifindex s) a
  else update_response_in_cache a ≫= λ _, mret tt.

Definition process_frame (output : bytes) : Arp unit :=
  let a := decode_arp (slice 14 sizeof_arp output) in
  if negb (streq (identification a) our_id) then mret tt
  else if op a =? 1 then handle_request a
  else if op a =? 2 then handle_response a
  else mret tt.

(** A client connected and sent an address, in the array [buf]. *)
Definition serve_client (connfd : Z) (buf : bytes) : Arp unit :=
  r ← send_reply buf connfd;
  if r =? 1 then mret tt else send_req buf connfd.

Inductive arp_event := RawFrame (output : bytes) | Client (connfd : Z) (buf : bytes).

(** One turn of [main]'s loop. *)
Definition arp_turn (e : arp_event) : Arp unit :=
  match e with
  | RawFrame f => process_frame f
  | Client connfd buf => serve_client connfd buf
  end.

Fixpoint arp_run (es : list arp_event) : Arp unit :=
  match es with
  | [] => mret tt
  | e :: es => arp_turn e ≫= λ _, arp_run es
  end.
End arp.

(** The globals before [boot]. *)
Definition arp_zero : arp :=
  mk_state (zeros IF_HADDR) (zeros 20) (-1) (replicate NUM_CACHE_ENTRIES zero_entry).

(** [populate_server_details]: the addresses of [eth0], into an array of [n]. *)
Definition usable (h : hwa_info) : bool :=
  streq (if_name h) (str "eth0") && existsb (λ b, negb (bool_decide (b = NUL))) (if_haddr h).

Fixpoint populate_server_details (n : nat) (hwas : list hwa_info) : option (list server_details) :=
  match hwas with
  | [] => Some []
  | h :: hwas =>
      if usable h then
        match n with
        | O => None
        | S n =>
            a ← strcpy (zeros IP_LEN) (quad_text (slice 4 4 (hwa_ip_addr h)));
            rest ← populate_server_details n hwas;
            Some (mk_server_details a (if_haddr h) (if_index h) :: rest)
        end
      else populate_server_details n hwas
  end.

(** [boot]: the array of twenty is cleared first. *)
Definition boot (svd : list server_details) : M arp arp_out unit := boot_cache svd.

(** [areq] (hw4/common.c): the bytes written to the daemon, and the address
    read back over a zeroed [recvline]; no answer is the timeout. *)
Definition sizeof_hwaddr : nat := 15.
Definition areq_request (a : bytes) : bytes := cstr a ++ [NUL].
Definition areq (reply : option bytes) : hwaddr * Z :=
  match reply with
  | Some d => (decode_hwaddr (take sizeof_hwaddr (d ++ zeros sizeof_hwaddr)), 0)
  | None => (mk_hwaddr 0 0 0 (zeros 8), 1)
  end.
