(* ===== verification/ArpProps.v ===== *)
(** * Resolving addresses (properties of hw4/arp.c) *)

From Stdlib Require Import Strings.Byte.
From S2P Require Import Prelude.
From S2P Require Import CMem.
From S2P Require Import CText.
From S2P Require Import Arp.

(** ** Messages *)

Record arp_ok (a : arp_req_reply) : Prop := {
  ao_edest : length (eth_dest a) = 6%nat;
  ao_esrc : length (eth_src a) = 6%nat;
  ao_seth : length (sender_eth a) = 6%nat;
  ao_sip : length (sender_ip a) = 20%nat;
  ao_teth : length (target_eth a) = 6%nat;
  ao_tip : length (target_ip a) = 20%nat;
  ao_id : length (identification a) = 3%nat;
  ao_ftype : 0 <= frame_type a < 2 ^ 16;
  ao_htype : 0 <= hard_type a < 2 ^ 16;
  ao_ptype : 0 <= prot_type a < 2 ^ 16;
  ao_hsize : 0 <= hard_size a < 2 ^ 16;
  ao_psize : 0 <= prot_size a < 2 ^ 16;
  ao_op : 0 <= op a < 2 ^ 16
}.

Ltac arp_slices :=
  repeat first
    [ rewrite slice_here by (done || apply put_u16_length)
    | rewrite slice_all by done
    | erewrite slice_later by
        (first [eassumption | apply put_u16_length] || (vm_compute; lia));
      cbn [Nat.sub] ].

Lemma length_encode_arp a : arp_ok a → length (encode_arp a) = sizeof_arp.
Proof.
  intros []. unfold encode_arp. rewrite !length_app, !put_u16_length,
    ao_edest0, ao_esrc0, ao_seth0, ao_sip0, ao_teth0, ao_tip0, ao_id0. done.
Qed.

Lemma decode_encode_arp a : arp_ok a → decode_arp (encode_arp a) = a.
Proof.
  intros []. destruct a as [ed es ft ht pt hs ps o se si te ti i]. cbn in *.
  unfold decode_arp, encode_arp.
  cbn [eth_dest eth_src frame_type hard_type prot_type hard_size prot_size op sender_eth sender_ip
       target_eth target_ip identification].
  arp_slices. by rewrite !get_put_u16.
Qed.

Section frames.
Context (proto : Z) (heap : bytes).

Lemma frame_message d s a :
  length d = 6%nat → length s = 6%nat → arp_ok a →
  decode_arp (slice 14 sizeof_arp (frame_of proto heap d s a)) = a.
Proof.
  intros Hd Hs Ha. unfold frame_of. rewrite !firstn_all2 by lia.
  rewrite (slice_later 6 14) by (done || lia). cbn [Nat.sub].
  rewrite (slice_later 6 8) by (done || lia). cbn [Nat.sub].
  rewrite (slice_later 2 2) by (apply put_u16_length || lia). cbn [Nat.sub].
  rewrite slice_here by by apply length_encode_arp. by apply decode_encode_arp.
Qed.

Lemma frame_dest d s a : length d = 6%nat → take 6 (frame_of proto heap d s a) = d.
Proof. intros Hd. unfold frame_of. rewrite (firstn_all2 d) by lia. rewrite take_app_le by lia. by rewrite firstn_all2 by lia. Qed.

(** ** The cache as a map *)

(** The entry the loops find for an address, if it is filled. *)
Definition lookup_cache (c : list arp_cache_details) (a : bytes) : option arp_cache_details :=
  match c !! seek c a with
  | Some e => if filled e =? 1 then Some e else None
  | None => None
  end.

Lemma seek_before c a j e :
  (j < seek c a)%nat → c !! j = Some e → filled e = 1 ∧ cstr (ip e) ≠ cstr a.
Proof.
  intros Hj He. pose proof (find_index_before _ c j e Hj He) as H. cbv beta in H.
  apply orb_false_iff in H as [H1%negb_false_iff%Z.eqb_eq H2%streq_false]. done.
Qed.

Lemma seek_here c a e :
  c !! seek c a = Some e → filled e ≠ 1 ∨ cstr (ip e) = cstr a.
Proof.
  intros He. pose proof (lookup_lt_Some _ _ _ He) as Hlt.
  destruct (find_index_lt _ _ Hlt) as (e' & He' & Hp). fold (seek c a) in He'.
  rewrite He in He'. injection He' as <-.
  apply orb_true_iff in Hp as [H%negb_true_iff%Z.eqb_neq|H%streq_true]; [by left|by right].
Qed.

(** Writing a filled entry for [a] where [seek] points leaves [seek] there. *)
Lemma seek_insert c a e :
  (seek c a < length c)%nat → cstr (ip e) = cstr a →
  seek (<[seek c a := e]> c) a = seek c a.
Proof.
  intros Hlt Hc. unfold seek at 1. apply (find_index_unique _ _ _ e).
  - by apply list_lookup_insert_eq.
  - apply orb_true_iff. right. by apply streq_true.
  - intros j y Hj Hy. rewrite list_lookup_insert_ne in Hy by lia.
    destruct (seek_before c a j y Hj Hy) as [-> Hne]. cbn. by apply streq_false.
Qed.

(** The loop of [update_response_in_cache] finds the same entry. *)
Lemma find_ip_seek c a e b :
  c !! seek c a = Some e → cstr (ip e) = cstr a → cstr b = cstr a →
  find_index (λ e, streq (ip e) b) c = seek c a.
Proof.
  intros He Hc Hb. apply (find_index_unique _ _ _ e He).
  - apply streq_true. congruence.
  - intros j y Hj Hy. apply streq_false. rewrite Hb. by apply (seek_before c a j y).
Qed.

Lemma seek_cong c a b : cstr a = cstr b → seek c a = seek c b.
Proof.
  intros H. unfold seek. induction c as [|e c IH]; cbn; [done|].
  unfold streq at 1 3. rewrite H. by rewrite IH.
Qed.

Lemma lookup_cache_cong c a b : cstr a = cstr b → lookup_cache c a = lookup_cache c b.
Proof. intros H. unfold lookup_cache. by rewrite (seek_cong c a b H). Qed.
End frames.

(** ** Single steps *)

Record cache_wf (c : list arp_cache_details) : Prop := {
  cw_size : length c = NUM_CACHE_ENTRIES;
  cw_entries : Forall (λ e, length (ip e) = IP_LEN ∧ length (mac e) = IF_HADDR) c
}.

Section steps.
Context (proto : Z) (heap : bytes).

(** [insert_into_cache] writes where [seek] points. *)
Lemma insert_eq sv f s :
  cache_wf (arp_cache s) → fits IP_LEN (sd_ip sv) →
  (seek (arp_cache s) (sd_ip sv) < NUM_CACHE_ENTRIES)%nat →
  ∃ a, insert_into_cache sv f s = ([], Ret tt (set_cache (<[seek (arp_cache s) (sd_ip sv) :=
         mk_entry a (sd_mac sv) (sd_index sv) f 1]> (arp_cache s)) s)) ∧
    cstr a = cstr (sd_ip sv) ∧ length a = IP_LEN.
Proof.
  intros [Hsz Hwf] Hfit Hi. unfold insert_into_cache, update_cache_entry, mbind, M_bind, gets.
  destruct (lookup_lt_is_Some_2 (arp_cache s) (seek (arp_cache s) (sd_ip sv))) as [e He];
    [by rewrite Hsz|].
  rewrite He. cbn [required mret M_ret].
  pose proof (Forall_lookup_1 _ _ _ _ Hwf He) as [Hl _].
  destruct (strcpy_room (ip e) (sd_ip sv)) as (a & Ea & La & Ca); [by rewrite Hl|].
  exists a. rewrite Ea. cbn [required mret M_ret modify]. split; [done|]. split; [done|]. by rewrite La.
Qed.

(** A full cache without the address is written past its end. *)
Lemma insert_full sv f s :
  seek (arp_cache s) (sd_ip sv) = length (arp_cache s) →
  insert_into_cache sv f s = ([], Fault BadIndex).
Proof.
  intros H. unfold insert_into_cache, update_cache_entry, mbind, M_bind, gets.
  rewrite H, lookup_ge_None_2 by done. done.
Qed.

Lemma send_reply_miss a f s :
  lookup_cache (arp_cache s) a = None → send_reply a f s = ([], Ret 0 s).
Proof.
  intros H. unfold lookup_cache in H. unfold send_reply, mbind at 1, M_bind at 1, gets.
  destruct (arp_cache s !! seek (arp_cache s) a) as [e|]; [|done].
  destruct (filled e =? 1); [done|]. done.
Qed.

Lemma send_reply_hit a f e s :
  lookup_cache (arp_cache s) a = Some e →
  send_reply a f s =
    (WriteFd (if negb (f =? -1) then f else fd e) (answer e) ::
       (if 0 <? fd e then [CloseFd (fd e)] else []),
     Ret 1 (set_cache (<[seek (arp_cache s) a :=
       mk_entry (ip e) (mac e) (index e) NO_FD (filled e)]> (arp_cache s)) s)).
Proof.
  intros H. unfold lookup_cache in H. unfold send_reply, mbind at 1, M_bind at 1, gets.
  destruct (arp_cache s !! seek (arp_cache s) a) as [e'|] eqn:E; [|done].
  destruct (filled e' =? 1) eqn:Hf; [|done]. injection H as ->.
  by destruct (0 <? fd e).
Qed.

Lemma update_response_eq m e s :
  arp_cache s !! seek (arp_cache s) (sender_ip m) = Some e → cstr (ip e) = cstr (sender_ip m) →
  update_response_in_cache m s =
    ([], Ret 1 (set_cache (<[seek (arp_cache s) (sender_ip m) :=
       mk_entry (ip e) (sender_eth m) 2 (fd e) 1]> (arp_cache s)) s)).
Proof.
  intros He Hc. unfold update_response_in_cache, mbind, M_bind, gets.
  rewrite (find_ip_seek _ _ _ _ He Hc eq_refl), He. done.
Qed.

(** ** The exchange *)

Record daemon_ok (s : arp) : Prop := {
  dk_cache : cache_wf (arp_cache s);
  dk_mac : length (src_mac s) = 6%nat;
  dk_ip : fits IP_LEN (src_ip s)
}.

(** The request for the address [t]. *)
Definition request_of (s : arp) (sip tip : bytes) : arp_req_reply :=
  mk_arp (zeros 6) (src_mac s) 2054 1 proto 6 2 1 (src_mac s) sip (zeros 6) tip our_id.

Hypothesis proto_u16 : 0 <= proto < 2 ^ 16.

Lemma request_ok s sip tip :
  length (src_mac s) = 6%nat → length sip = IP_LEN → length tip = IP_LEN →
  arp_ok (request_of s sip tip).
Proof. intros. split; cbn; try done; lia. Qed.

(** A client asks for an address that is not cached: an incomplete entry is
    made for it and a request broadcast. *)
Lemma client_asks s connfd a :
  daemon_ok s → fits IP_LEN a → lookup_cache (arp_cache s) a = None →
  (seek (arp_cache s) a < NUM_CACHE_ENTRIES)%nat →
  ∃ sip tip a', cstr sip = cstr (src_ip s) ∧ length sip = IP_LEN ∧ cstr tip = cstr a ∧
    length tip = IP_LEN ∧ cstr a' = cstr a ∧ length a' = IP_LEN ∧
    arp_turn proto heap (Client connfd a) s =
      ([SendFrame (src_ifindex s) (frame_of proto heap b_mac (src_mac s) (request_of s sip tip))],
       Ret tt (set_cache (<[seek (arp_cache s) a := mk_entry a' (zeros IF_HADDR) 0 connfd 1]>
                            (arp_cache s)) s)).
Proof.
  intros [Hc Hm Hip] Hfit Hmiss Hroom.
  destruct (strcpy_zeros IP_LEN (src_ip s) Hip) as (sip & Esip & Lsip & Csip).
  destruct (strcpy_zeros IP_LEN a Hfit) as (tip & Etip & Ltip & Ctip).
  set (sv := mk_server_details tip (zeros IF_HADDR) 0).
  assert (seek (arp_cache s) (sd_ip sv) = seek (arp_cache s) a) as Hseek by by apply seek_cong.
  destruct (insert_eq sv connfd s Hc) as (a' & Eins & Ca' & La').
  { unfold fits. cbn. by rewrite Ctip. } { by rewrite Hseek. }
  exists sip, tip, a'. cbn [sd_ip sv] in Ca'. rewrite Hseek in Eins.
  split_and!; try done; [by rewrite Ca'|].
  cbn [arp_turn]. unfold serve_client. unfold mbind at 1, M_bind at 1.
  rewrite (send_reply_miss a connfd s Hmiss). cbn [Z.eqb app]. unfold send_req, prepare_arp_req_reply.
  unfold mbind, M_bind, gets. cbn [id]. rewrite Esip. cbn [required mret M_ret target_ip].
  rewrite Etip. cbn [required mret M_ret set_target_ip].
  change (sd_ip zero_details) with (zeros IP_LEN). rewrite Etip. cbn [required mret M_ret].
  change (mk_server_details tip (sd_mac zero_details) 0) with sv. rewrite Eins. done.
Qed.

(** The daemon with that address answers with its own hardware address, and
    remembers the asker's. *)
Lemma target_replies p' h' s m :
  daemon_ok s → arp_ok m → identification m = our_id → op m = 1 →
  cstr (target_ip m) = cstr (src_ip s) → fits IP_LEN (sender_ip m) →
  (seek (arp_cache s) (sender_ip m) < NUM_CACHE_ENTRIES)%nat →
  ∃ a', cstr a' = cstr (sender_ip m) ∧ length a' = IP_LEN ∧
    process_frame proto heap (frame_of p' h' b_mac (eth_src m) m) s =
      ([SendFrame (src_ifindex s)
          (frame_of proto heap (sender_eth m) (src_mac s) (reply_to (src_mac s) m))],
       Ret tt (set_cache (<[seek (arp_cache s) (sender_ip m) := mk_entry a' (sender_eth m) 0 NO_FD 1]>
                            (arp_cache s)) s)).
Proof.
  intros [Hc Hm Hip] Ha Hid Hop Htip Hfit Hroom.
  destruct (strcpy_zeros IP_LEN (sender_ip m) Hfit) as (svip & Esv & Lsv & Csv).
  set (sv := mk_server_details svip (sender_eth m) 0).
  assert (seek (arp_cache s) (sd_ip sv) = seek (arp_cache s) (sender_ip m)) as Hseek by by apply seek_cong.
  destruct (insert_eq sv NO_FD s Hc) as (a' & Eins & Ca' & La').
  { unfold fits. cbn. by rewrite Csv. } { by rewrite Hseek. }
  rewrite Hseek in Eins. exists a'. split; [by rewrite Ca'|]. split; [done|].
  unfold process_frame. rewrite frame_message by (done || apply Ha). rewrite Hid, Hop.
  rewrite streq_refl. cbn [negb]. change (1 =? 1) with true. cbv iota.
  unfold handle_request, mbind, M_bind, gets. cbn [id].
  rewrite (proj2 (streq_true (src_ip s) (target_ip m))) by done.
  change (sd_ip zero_details) with (zeros IP_LEN). rewrite Esv. cbn [required mret M_ret].
  fold sv. rewrite Eins. done.
Qed.

(** The reply completes the entry: the waiting client is answered and its
    descriptor closed. *)
Lemma reply_completes p' h' s m e :
  arp_ok m → identification m = our_id → op m = 2 →
  arp_cache s !! seek (arp_cache s) (sender_ip m) = Some e → cstr (ip e) = cstr (sender_ip m) →
  process_frame proto heap (frame_of p' h' (eth_dest m) (eth_src m) m) s =
    (WriteFd (fd e) (answer (mk_entry (ip e) (sender_eth m) 2 (fd e) 1)) ::
       (if 0 <? fd e then [CloseFd (fd e)] else []),
     Ret tt (set_cache (<[seek (arp_cache s) (sender_ip m) :=
       mk_entry (ip e) (sender_eth m) 2 NO_FD 1]> (arp_cache s)) s)).
Proof.
  intros Ha Hid Hop He Hc.
  unfold process_frame. rewrite frame_message by (done || apply Ha). rewrite Hid, Hop, streq_refl.
  cbn [negb]. change (2 =? 1) with false. change (2 =? 2) with true. cbv iota.
  unfold handle_response. unfold mbind at 1, M_bind at 1.
  rewrite (update_response_eq m e s He Hc).
  set (s' := set_cache _ s). set (e' := mk_entry (ip e) (sender_eth m) 2 (fd e) 1) in *.
  assert (seek (arp_cache s') (sender_ip m) = seek (arp_cache s) (sender_ip m)) as Hseek.
  { apply seek_insert; [by eapply lookup_lt_Some|done]. }
  assert (lookup_cache (arp_cache s') (sender_ip m) = Some e') as Hl.
  { unfold lookup_cache. rewrite Hseek. unfold s'. cbn [set_cache arp_cache].
    rewrite list_lookup_insert_eq by by eapply lookup_lt_Some. done. }
  unfold mbind, M_bind. rewrite (send_reply_hit _ (-1) e' s' Hl), Hseek. cbn [fd e' negb Z.eqb].
  cbn [mret M_ret Pos.eqb negb]. rewrite app_nil_r.
  unfold s'. cbn [set_cache arp_cache src_mac src_ip src_ifindex ip mac index filled].
  unfold set_cache. cbn [arp_cache src_mac src_ip src_ifindex]. by rewrite list_insert_insert_eq.
Qed.
End steps.

(** ** The invariant of the cache *)

(** The filled entries come first, with distinct and non-empty addresses; the
    others have no address. *)
Record cache_inv (n : nat) (c : list arp_cache_details) : Prop := {
  ci_size : length c = NUM_CACHE_ENTRIES;
  ci_le : (n ≤ length c)%nat;
  ci_filled : ∀ i e, c !! i = Some e → (i < n)%nat ↔ filled e = 1;
  ci_free : ∀ i e, c !! i = Some e → (n ≤ i)%nat → cstr (ip e) = [];
  ci_named : ∀ i e, c !! i = Some e → (i < n)%nat → cstr (ip e) ≠ [];
  ci_distinct : ∀ i j e e', c !! i = Some e → c !! j = Some e' → (i < n)%nat → (j < n)%nat →
    cstr (ip e) = cstr (ip e') → i = j
}.

Definition cache_good (s : arp) : Prop := ∃ n, cache_inv n (arp_cache s).

(** [seek] finds the entry or the first free place. *)
Lemma seek_cases n c a :
  cache_inv n c → (seek c a < length c)%nat →
  seek c a = n ∨ (seek c a < n)%nat ∧ ∃ e, c !! seek c a = Some e ∧ cstr (ip e) = cstr a.
Proof.
  intros Hc Hlt. destruct (lookup_lt_is_Some_2 _ _ Hlt) as [e He].
  destruct (decide (seek c a < n)%nat) as [Hn|Hn].
  - right. split; [done|]. exists e. split; [done|].
    destruct (seek_here c a e He) as [Hf|]; [|done]. destruct Hf. by apply (ci_filled n c Hc _ _ He).
  - left. destruct (decide (n < seek c a)%nat) as [Hgt|]; [|lia]. exfalso.
    destruct (lookup_lt_is_Some_2 c n) as [e' He']; [lia|].
    destruct (seek_before c a n e' Hgt He') as [Hf _].
    apply (ci_filled n c Hc _ _ He') in Hf. lia.
Qed.

(** Writing an entry that keeps its address. *)
Lemma cache_inv_same n c i e e' :
  cache_inv n c → c !! i = Some e → (i < n)%nat → cstr (ip e') = cstr (ip e) → filled e' = 1 →
  cache_inv n (<[i := e']> c).
Proof.
  intros [Hs Hle Hf Hfree Hn Hd] He Hi Hip Hf'.
  assert (∀ j x, <[i := e']> c !! j = Some x →
    ∃ y, c !! j = Some y ∧ cstr (ip x) = cstr (ip y) ∧ (filled x = 1 ↔ filled y = 1)) as Hsame.
  { intros j x Hx. apply list_lookup_insert_Some in Hx as [(<- & <- & _)|[_ Hx]]; [|by exists x].
    exists e. split_and!; [done..|]. rewrite Hf'. split; [|done]. intros _. by apply (Hf i). }
  split; rewrite ?length_insert; try done.
  - intros j x Hx. destruct (Hsame j x Hx) as (y & Hy & _ & ->). by apply Hf.
  - intros j x Hx Hj. destruct (Hsame j x Hx) as (y & Hy & -> & _). by eapply Hfree.
  - intros j x Hx Hj. destruct (Hsame j x Hx) as (y & Hy & -> & _). by eapply Hn.
  - intros j k x x' Hx Hx' Hj Hk Hc. destruct (Hsame j x Hx) as (y & Hy & Hxy & _).
    destruct (Hsame k x' Hx') as (y' & Hy' & Hxy' & _). eapply Hd; eauto. congruence.
Qed.

(** Filling the first free place with a new address. *)
Lemma cache_inv_new n c e' :
  cache_inv n c → (n < length c)%nat → filled e' = 1 → cstr (ip e') ≠ [] →
  (∀ i e, c !! i = Some e → (i < n)%nat → cstr (ip e) ≠ cstr (ip e')) →
  cache_inv (S n) (<[n := e']> c).
Proof.
  intros [Hs Hle Hf Hfree Hn Hd] Hlt Hf' Hne Hnew.
  split; rewrite ?length_insert; try done.
  - intros j x Hx. apply list_lookup_insert_Some in Hx as [(<- & <- & _)|[Hj Hx]]; [split; [done|lia]|].
    rewrite <- (Hf j x Hx). lia.
  - intros j x Hx Hj. apply list_lookup_insert_Some in Hx as [(<- & <- & _)|[_ Hx]]; [lia|].
    eapply Hfree; [done|lia].
  - intros j x Hx Hj. apply list_lookup_insert_Some in Hx as [(<- & <- & _)|[? Hx]]; [done|].
    eapply Hn; [done|lia].
  - intros j k x x' Hx Hx' Hj Hk Hc.
    apply list_lookup_insert_Some in Hx as [(<- & <- & _)|[? Hx]];
    apply list_lookup_insert_Some in Hx' as [(<- & <- & _)|[? Hx']]; try done.
    + by destruct (Hnew k x' Hx' ltac:(lia)).
    + by destruct (Hnew j x Hx ltac:(lia)).
    + eapply Hd; eauto; lia.
Qed.

(** Writing a filled entry for an address where [seek] points. *)
Lemma cache_inv_insert n c a e' :
  cache_inv n c → (seek c a < length c)%nat → cstr a ≠ [] → cstr (ip e') = cstr a → filled e' = 1 →
  ∃ n', cache_inv n' (<[seek c a := e']> c).
Proof.
  intros Hc Hlt Hne Hip Hf. destruct (seek_cases n c a Hc Hlt) as [E|[Hi (e & He & Hcip)]].
  - exists (S n). rewrite E in *. apply cache_inv_new; try done; rewrite Hip; [done|].
    intros i e He Hi. by apply (seek_before c a i e); [rewrite E|].
  - exists n. eapply cache_inv_same; eauto. congruence.
Qed.

Section invariant.
Context (proto : Z) (heap : bytes).

Abbreviation keeps m := (preserves cache_good m).

Lemma keeps_insert sv f : cstr (sd_ip sv) ≠ [] → keeps (insert_into_cache sv f).
Proof.
  intros Hne s [n Hc]. unfold insert_into_cache, update_cache_entry. wpo_steps. cbn.
  pose proof (strcpy_cstr _ _ _ Ha0) as Hcs. pose proof (lookup_lt_Some _ _ _ Ha) as Hlt.
  by eapply cache_inv_insert.
Qed.

Lemma keeps_reply a f : keeps (send_reply a f).
Proof.
  intros s [n Hc]. unfold send_reply. wpo_step. wpo_step. cbv beta.
  destruct (arp_cache s !! seek (arp_cache s) a) as [e|] eqn:He; [|wpo_step; by exists n].
  destruct (filled e =? 1) eqn:Hf; [|wpo_step; by exists n]. apply Z.eqb_eq in Hf.
  wpo_steps; exists n; cbn; (eapply cache_inv_same; [done|done| |done|done]); by apply (ci_filled n _ Hc _ _ He).
Qed.

Lemma keeps_update m : cstr (sender_ip m) ≠ [] → keeps (update_response_in_cache m).
Proof.
  intros Hne s [n Hc]. unfold update_response_in_cache. wpo_step. wpo_step. cbv beta.
  destruct (arp_cache s !! find_index _ (arp_cache s)) as [e|] eqn:He; [|wpo_step; by exists n].
  wpo_steps. exists n. cbn.
  assert (cstr (ip e) = cstr (sender_ip m)) as Hip.
  { pose proof (lookup_lt_Some _ _ _ He) as Hlt.
    destruct (find_index_lt _ _ Hlt) as (e' & He' & Hp%streq_true). congruence. }
  eapply cache_inv_same; [done|done| |done|done].
  destruct (decide (n ≤ find_index (λ e, streq (ip e) (sender_ip m)) (arp_cache s))%nat) as [Hge|]; [|lia].
  rewrite (ci_free n _ Hc _ _ He Hge) in Hip. by rewrite <- Hip in Hne.
Qed.

Definition event_named (e : arp_event) : Prop :=
  match e with
  | RawFrame f => cstr (sender_ip (decode_arp (slice 14 sizeof_arp f))) ≠ []
  | Client _ buf => cstr buf ≠ []
  end.

Lemma arp_keeps_request m : cstr (sender_ip m) ≠ [] → keeps (handle_request proto heap m).
Proof.
  intros Hne. apply preserves_bind; [apply preserves_gets|intros s0].
  destruct (streq _ _).
  - intros s Hs. wpo_step. apply wpo_required; [|done]. intros v Hv.
    eapply wpo_mono; [apply (preserves_bind cache_good (insert_into_cache _ _)); [|intros _; apply preserves_emit|exact Hs]|done].
    apply keeps_insert. cbn. by rewrite (strcpy_cstr _ _ _ Hv).
  - apply preserves_bind; [by apply keeps_update|intros _; apply preserves_ret].
Qed.

Lemma keeps_send_req t f : cstr t ≠ [] → keeps (send_req proto heap t f).
Proof.
  intros Hne. apply preserves_bind.
  { apply preserves_bind; [apply preserves_gets|intros s0]. apply preserves_bind; [apply preserves_required|intros x].
    apply preserves_ret. }
  intros m. apply preserves_bind; [apply preserves_required|intros tip]. cbv zeta.
  intros s Hs. wpo_step. apply wpo_required; [|done]. intros v Hv.
  eapply wpo_mono; [apply (preserves_bind cache_good (insert_into_cache _ _));
    [|intros _; apply preserves_bind; [apply preserves_gets|intros ?; apply preserves_emit]|exact Hs]|done].
  apply keeps_insert. cbn. by rewrite (strcpy_cstr _ _ _ Hv).
Qed.

Lemma arp_keeps_turn e : event_named e → keeps (arp_turn proto heap e).
Proof.
  destruct e as [f|connfd buf]; cbn [event_named arp_turn]; intros Hne.
  - unfold process_frame. destruct (negb _); [apply preserves_ret|].
    destruct (_ =? 1); [by apply arp_keeps_request|]. destruct (_ =? 2); [|apply preserves_ret].
    apply preserves_bind; [by apply keeps_update|intros _].
    apply preserves_bind; [apply keeps_reply|intros _; apply preserves_ret].
  - apply preserves_bind; [apply keeps_reply|intros r]. destruct (r =? 1); [apply preserves_ret|].
    by apply keeps_send_req.
Qed.

Lemma keeps_arp_run es : Forall event_named es → keeps (arp_run proto heap es).
Proof.
  induction 1 as [|e es He _ IH]; cbn [arp_run]; [apply preserves_ret|].
  apply preserves_bind; [by apply arp_keeps_turn|done].
Qed.
End invariant.

Lemma arp_zero_good : cache_good arp_zero.
Proof.
  exists O. split; cbn [arp_cache arp_zero]; try done; try lia.
  - intros i e He. apply lookup_replicate_1 in He as [-> _]. split; [lia|done].
  - intros i e He _. by apply lookup_replicate_1 in He as [-> _].
Qed.

Lemma keeps_boot_cache svd s : cache_good s → wpo True (boot_cache svd) (λ _ _ s', cache_good s') s.
Proof.
  revert s. induction svd as [|sv svd IH]; intros s Hs; cbn [boot_cache]; [done|].
  case_bool_decide as Hn; [done|].
  assert (cstr (sd_ip sv) ≠ []) as Hne.
  { destruct (sd_ip sv) as [|b l]; [by cbn in Hn|]. cbn in *. by rewrite decide_False. }
  revert s Hs. apply preserves_bind; [apply preserves_gets|intros s0]. apply preserves_bind.
  { destruct (_ =? -1); [|apply preserves_ret]. apply preserves_bind; [apply preserves_required|intros a].
    intros s Hs. by wpo_step. }
  intros _. apply preserves_bind; [by apply keeps_insert|done].
Qed.

(** C19: however the daemon is started and whatever frames and client requests
    it then handles, as long as the frames name a sender and the clients ask for
    an address (neither text is empty), its cache keeps the filled entries in
    front, with distinct, non-empty addresses, so that an address has at most one
    entry and the loops that stop at the first free entry miss none. *)
Theorem arp_cache_invariant proto heap svd es o s' :
  Forall event_named es →
  (boot svd ≫= λ _, arp_run proto heap es) arp_zero = (o, Ret tt s') →
  ∃ n, cache_inv n (arp_cache s').
Proof.
  intros Hes Hrun. eapply (wpo_returns True (boot svd ≫= λ _, arp_run proto heap es) (λ _ _ s', cache_good s'));
    [|exact Hrun].
  apply wpo_bind. eapply wpo_mono; [apply keeps_boot_cache, arp_zero_good|]. cbv beta.
  intros _ _ s Hs. by apply keeps_arp_run.
Qed.

(** ** The exchange between two daemons *)

(** What a client reads back. *)
Lemma decode_answer e :
  is_i32 (index e) → length (mac e) = IF_HADDR →
  decode_hwaddr (answer e) = mk_hwaddr (index e) 1 (strlen (mac e)) (mac e ++ zeros 2).
Proof.
  intros Hi Hm. unfold decode_hwaddr, answer, encode_hwaddr.
  cbn [sll_ifindex sll_hatype sll_halen sll_addr].
  assert (length (mac e ++ zeros 2) = 8%nat) as Hl by (rewrite length_app, Hm; done).
  assert (0 <= strlen (mac e) < 2 ^ 8) as Hs.
  { unfold strlen. pose proof (length_cstr (mac e)). rewrite Hm in *. unfold IF_HADDR in *. lia. }
  rewrite slice_here by apply put_i32_length.
  rewrite (slice_later 4 4), (slice_later 4 6), (slice_later 4 7) by (apply put_i32_length || lia). cbn [Nat.sub].
  rewrite slice_here by apply put_u16_length.
  rewrite (slice_later 2 2), (slice_later 2 3) by (apply put_u16_length || lia). cbn [Nat.sub].
  rewrite slice_here by done. rewrite (slice_later 1 1) by (done || lia). cbn [Nat.sub].
  rewrite slice_all by done. rewrite get_put_i32, get_put_u16 by (done || lia). f_equal.
  change [byte.of_Z (strlen (mac e))] with (le_split 1 (strlen (mac e))).
  rewrite le_combine_split. by apply Z.mod_small.
Qed.

Section exchange.
Context (p1 : Z) (h1 : bytes) (p2 : Z) (h2 : bytes).
Context (proto_u16 : 0 <= p1 < 2 ^ 16).

(** A cached address whose entry nobody waits for. *)
Lemma served_from_cache s f a e :
  f ≠ -1 → lookup_cache (arp_cache s) a = Some e → fd e = NO_FD →
  arp_turn p1 h1 (Client f a) s = ([WriteFd f (answer e)], Ret tt s).
Proof.
  intros Hf Hl Hfd. cbn [arp_turn]. unfold serve_client, mbind, M_bind.
  rewrite (send_reply_hit _ _ _ _ Hl), Hfd, (proj2 (Z.eqb_neq f (-1))) by done.
  cbn. do 2 f_equal. destruct s as [m i x c]. unfold set_cache. cbn in *. f_equal.
  unfold lookup_cache in Hl. destruct (c !! seek c a) as [e'|] eqn:E; [|done].
  destruct (filled e' =? 1); [|done]. injection Hl as ->.
  rewrite list_insert_id; [done|]. fold (seek c a). rewrite E. f_equal. destruct e; cbn in *. by rewrite Hfd.
Qed.

Lemma lookup_cache_insert c a e :
  (seek c a < length c)%nat → cstr (ip e) = cstr a → filled e = 1 →
  lookup_cache (<[seek c a := e]> c) a = Some e.
Proof.
  intros Hlt Hc Hf. unfold lookup_cache. rewrite seek_insert, list_lookup_insert_eq by done. by rewrite Hf.
Qed.

(** C7: resolving an address takes one request and one reply.  A client asks
    the first daemon, on descriptor [connfd], for an address it has no entry
    for; the second daemon has that address.  The first broadcasts one frame;
    the second, given it, sends one frame back and has learnt the first one's
    hardware address; given that, the first writes the second's hardware address
    to the client and closes its descriptor.  Later requests for the address are
    answered from the cache with the same bytes, and nothing is sent. *)
Theorem arp_exchange s1 s2 connfd a :
  daemon_ok s1 → daemon_ok s2 → 0 < connfd → fits IP_LEN a → cstr a = cstr (src_ip s2) →
  lookup_cache (arp_cache s1) a = None →
  (seek (arp_cache s1) a < NUM_CACHE_ENTRIES)%nat →
  (seek (arp_cache s2) (src_ip s1) < NUM_CACHE_ENTRIES)%nat →
  ∃ f1 f2 d s1' s1'' s2',
    arp_turn p1 h1 (Client connfd a) s1 = ([SendFrame (src_ifindex s1) f1], Ret tt s1') ∧
    take 6 f1 = b_mac ∧
    arp_turn p2 h2 (RawFrame f1) s2 = ([SendFrame (src_ifindex s2) f2], Ret tt s2') ∧
    take 6 f2 = src_mac s1 ∧
    mac <$> lookup_cache (arp_cache s2') (src_ip s1) = Some (src_mac s1) ∧
    arp_turn p1 h1 (RawFrame f2) s1' = ([WriteFd connfd d; CloseFd connfd], Ret tt s1'') ∧
    decode_hwaddr d = mk_hwaddr 2 1 (strlen (src_mac s2)) (src_mac s2 ++ zeros 2) ∧
    ∀ f, f ≠ -1 → arp_turn p1 h1 (Client f a) s1'' = ([WriteFd f d], Ret tt s1'').
Proof.
  intros Hs1 Hs2 Hfd Hfit Ha Hmiss Hroom1 Hroom2.
  destruct (client_asks p1 h1 s1 connfd a Hs1 Hfit Hmiss Hroom1)
    as (sip & tip & a' & Csip & Lsip & Ctip & Ltip & Ca' & La' & Hask).
  set (m := request_of p1 s1 sip tip) in *.
  assert (seek (arp_cache s2) sip = seek (arp_cache s2) (src_ip s1)) as Hsip by by apply seek_cong.
  assert (arp_ok m) as Hm by (apply request_ok; [done|apply Hs1|done..]).
  destruct (target_replies p2 h2 p1 h1 s2 m Hs2 Hm) as (b & Cb & Lb & Hrep); cbn; try done.
  { by rewrite Ctip. } { unfold fits. rewrite Csip. apply Hs1. } { by rewrite Hsip. }
  set (r := reply_to (src_mac s2) m) in *.
  assert (arp_ok r) as Hr by (destruct Hm; split; cbn in *; try done; try apply Hs2; lia).
  pose proof (cw_size _ (dk_cache _ Hs1)) as Hsz1. pose proof (cw_size _ (dk_cache _ Hs2)) as Hsz2.
  set (s1' := set_cache (<[seek (arp_cache s1) a := mk_entry a' (zeros IF_HADDR) 0 connfd 1]>
                           (arp_cache s1)) s1) in *.
  assert (seek (arp_cache s1') tip = seek (arp_cache s1) a) as Hseek.
  { rewrite (seek_cong _ tip a Ctip). apply seek_insert; [by rewrite Hsz1|done]. }
  pose proof (reply_completes p1 h1 p2 h2 s1' r (mk_entry a' (zeros IF_HADDR) 0 connfd 1) Hr) as Hfin.
  cbn [identification op sender_ip fd ip r reply_to m request_of target_ip] in Hfin.
  specialize (Hfin eq_refl eq_refl). rewrite Hseek in Hfin.
  specialize (Hfin ltac:(unfold s1'; cbn [set_cache arp_cache];
    rewrite list_lookup_insert_eq; [done|by rewrite Hsz1]) ltac:(by rewrite Ca', Ctip)).
  rewrite (proj2 (Z.ltb_lt 0 connfd) Hfd) in Hfin.
  cbn [sender_ip m request_of] in Hrep, Cb. rewrite Hsip in Hrep.
  eexists _, _, _, _, _, _. split; [exact Hask|]. split; [by apply frame_dest|].
  split; [exact Hrep|]. split; [apply frame_dest, Hs1|].
  split. { cbn [set_cache arp_cache]. rewrite lookup_cache_insert; [done|by rewrite Hsz2|cbn; congruence|done]. }
  split; [exact Hfin|]. split; [by apply decode_answer; [|apply Hs2]|].
  intros f Hf. apply (served_from_cache _ _ _ (mk_entry a' (src_mac s2) 2 NO_FD 1)); [done| |done].
  cbn [set_cache arp_cache s1']. rewrite list_insert_insert_eq.
  apply lookup_cache_insert; [by rewrite Hsz1|done..].
Qed.

(** A request for an address whose resolution is under way is answered at
    once, from the incomplete entry: the second client reads an all-zero
    hardware address, the first one's descriptor is closed unanswered, and when
    the reply arrives it is written to descriptor 0. *)
Theorem second_client_cuts_off_first s f1 f2 a m :
  daemon_ok s → 0 < f1 → 0 < f2 → fits IP_LEN a →
  lookup_cache (arp_cache s) a = None → (seek (arp_cache s) a < NUM_CACHE_ENTRIES)%nat →
  arp_ok m → identification m = our_id → op m = 2 → cstr (sender_ip m) = cstr a →
  ∃ frame d s1 s2 s3,
    arp_turn p1 h1 (Client f1 a) s = ([SendFrame (src_ifindex s) frame], Ret tt s1) ∧
    arp_turn p1 h1 (Client f2 a) s1 = ([WriteFd f2 d; CloseFd f1], Ret tt s2) ∧
    sll_addr (decode_hwaddr d) = zeros 8 ∧
    arp_turn p1 h1 (RawFrame (frame_of p2 h2 (eth_dest m) (eth_src m) m)) s2 =
      ([WriteFd 0 (answer (mk_entry (sender_ip m) (sender_eth m) 2 0 1))], Ret tt s3).
Proof.
  intros Hs Hf1 Hf2 Hfit Hmiss Hroom Hm Hid Hop Hsip.
  destruct (client_asks p1 h1 s f1 a Hs Hfit Hmiss Hroom)
    as (sip & tip & a' & _ & _ & _ & _ & Ca' & La' & Hask).
  pose proof (cw_size _ (dk_cache _ Hs)) as Hsz.
  set (e1 := mk_entry a' (zeros IF_HADDR) 0 f1 1) in *.
  set (s1 := set_cache _ s) in Hask.
  assert (lookup_cache (arp_cache s1) a = Some e1) as Hl.
  { apply lookup_cache_insert; [by rewrite Hsz|done..]. }
  assert (seek (arp_cache s1) a = seek (arp_cache s) a) as Hseek.
  { apply seek_insert; [by rewrite Hsz|done]. }
  set (e2 := mk_entry a' (zeros IF_HADDR) 0 NO_FD 1).
  set (s2 := set_cache (<[seek (arp_cache s) a := e2]> (arp_cache s)) s).
  assert (arp_cache s2 !! seek (arp_cache s2) (sender_ip m) = Some e2) as He.
  { rewrite (seek_cong _ _ a Hsip). unfold s2. cbn [set_cache arp_cache].
    rewrite seek_insert, list_lookup_insert_eq by (done || by rewrite Hsz); done. }
  eexists _, (answer e1), s1, s2, _. split; [exact Hask|]. split.
  { cbn [arp_turn]. unfold serve_client, mbind, M_bind. rewrite (send_reply_hit _ f2 _ _ Hl), Hseek.
    rewrite (proj2 (Z.eqb_neq f2 (-1))), (proj2 (Z.ltb_lt 0 (fd e1))) by (cbn; lia).
    change (1 =? 1) with true. cbn [mret M_ret negb app]. do 2 f_equal. unfold s2, s1, set_cache.
    cbn [arp_cache src_mac src_ip src_ifindex]. by rewrite list_insert_insert_eq. }
  split; [by rewrite decode_answer|].
  pose proof (reply_completes p1 h1 p2 h2 s2 m e2 Hm Hid Hop) as Hfin.
  specialize (Hfin He ltac:(by rewrite Hsip)). cbn [fd] in Hfin. exact Hfin.
Qed.

(** Once forty addresses are cached, the first request for another one
    writes past the end of the cache. *)
Theorem full_cache_overruns s connfd a :
  daemon_ok s → fits IP_LEN a → seek (arp_cache s) a = NUM_CACHE_ENTRIES →
  arp_turn p1 h1 (Client connfd a) s = ([], Fault BadIndex).
Proof.
  intros [[Hsz _] Hm Hip] Hfit Hfull.
  destruct (strcpy_zeros IP_LEN (src_ip s) Hip) as (sip & Esip & _ & _).
  destruct (strcpy_zeros IP_LEN a Hfit) as (tip & Etip & _ & Ctip).
  cbn [arp_turn]. unfold serve_client. unfold mbind at 1, M_bind at 1.
  rewrite send_reply_miss.
  2: { unfold lookup_cache. by rewrite Hfull, lookup_ge_None_2 by by rewrite Hsz. }
  cbn [Z.eqb app]. unfold send_req, prepare_arp_req_reply, mbind, M_bind, gets. cbn [id].
  rewrite Esip. cbn [required mret M_ret target_ip]. rewrite Etip. cbn [required mret M_ret set_target_ip].
  change (sd_ip zero_details) with (zeros IP_LEN). rewrite Etip. cbn [required mret M_ret].
  rewrite insert_full; [done|]. cbn [sd_ip]. by rewrite (seek_cong _ tip a Ctip), Hfull, Hsz.
Qed.
End exchange.

(** ** Witnesses *)

Definition vm_details (n : bytes) (m : byte) : server_details :=
  mk_server_details (n ++ zeros (20 - length n)) (replicate 6 m) 2.
Definition booted (sv : server_details) : arp :=
  match boot [sv] arp_zero with (_, Ret _ s) => s | _ => arp_zero end.
Definition vm1 : arp := booted (vm_details (str "130.245.156.21") x11).
Definition vm2 : arp := booted (vm_details (str "130.245.156.22") x22).

Lemma vm1_ok : daemon_ok vm1.
Proof. split; [split|..]; try done; [by apply (bool_decide_unpack _); vm_compute|vm_compute; lia]. Qed.
Lemma vm2_ok : daemon_ok vm2.
Proof. split; [split|..]; try done; [by apply (bool_decide_unpack _); vm_compute|vm_compute; lia]. Qed.

Lemma arp_exchange_witness : ∃ f1 f2 d s1' s1'' s2',
  arp_turn 7 [] (Client 5 (src_ip vm2)) vm1 = ([SendFrame 2 f1], Ret tt s1') ∧
  arp_turn 9 [] (RawFrame f1) vm2 = ([SendFrame 2 f2], Ret tt s2') ∧
  arp_turn 7 [] (RawFrame f2) s1' = ([WriteFd 5 d; CloseFd 5], Ret tt s1'') ∧
  sll_addr (decode_hwaddr d) = replicate 6 x22 ++ zeros 2.
Proof.
  destruct (arp_exchange 7 [] 9 [] ltac:(lia) vm1 vm2 5 (src_ip vm2) vm1_ok vm2_ok ltac:(lia)
    ltac:(vm_compute; lia) eq_refl ltac:(vm_compute; reflexivity) ltac:(vm_compute; lia)
    ltac:(vm_compute; lia)) as (f1 & f2 & d & s1' & s1'' & s2' & H1 & _ & H2 & _ & _ & H3 & H4 & _).
  exists f1, f2, d, s1', s1'', s2'. split; [exact H1|]. split; [exact H2|]. split; [exact H3|].
  rewrite H4. reflexivity.
Defined.

Lemma arp_cache_invariant_witness : ∃ o s',
  (boot [vm_details (str "130.245.156.21") x11] ≫= λ _, arp_run 7 [] [Client 5 (src_ip vm2)]) arp_zero
    = (o, Ret tt s') ∧ ∃ n, cache_inv n (arp_cache s').
Proof.
  destruct ((boot [vm_details (str "130.245.156.21") x11] ≫= λ _, arp_run 7 [] [Client 5 (src_ip vm2)]) arp_zero)
    as [o [[] s'|c s'|f]] eqn:E; [|vm_compute in E; discriminate E|vm_compute in E; discriminate E].
  exists o, s'. split; [reflexivity|]. eapply arp_cache_invariant; [|exact E].
  constructor; [vm_compute; intros [=]|constructor].
Defined.

Lemma second_client_cuts_off_first_witness : ∃ frame d s1 s2 s3 d',
  arp_turn 7 [] (Client 5 (src_ip vm2)) vm1 = ([SendFrame 2 frame], Ret tt s1) ∧
  arp_turn 7 [] (Client 6 (src_ip vm2)) s1 = ([WriteFd 6 d; CloseFd 5], Ret tt s2) ∧
  sll_addr (decode_hwaddr d) = zeros 8 ∧
  arp_turn 7 [] (RawFrame (frame_of 9 [] (replicate 6 x11) (replicate 6 x22)
    (reply_to (replicate 6 x22) (request_of 7 vm1 (src_ip vm1) (src_ip vm2))))) s2 =
      ([WriteFd 0 d'], Ret tt s3).
Proof.
  destruct (second_client_cuts_off_first 7 [] 9 [] vm1 5 6 (src_ip vm2)
    (reply_to (replicate 6 x22) (request_of 7 vm1 (src_ip vm1) (src_ip vm2))) vm1_ok
    ltac:(lia) ltac:(lia) ltac:(vm_compute; lia) ltac:(vm_compute; reflexivity) ltac:(vm_compute; lia)
    ltac:(split; vm_compute; (reflexivity || split; congruence)) eq_refl eq_refl eq_refl)
    as (frame & d & s1 & s2 & s3 & H1 & H2 & H3 & H4).
  exists frame, d, s1, s2, s3. eexists. split; [exact H1|]. split; [exact H2|]. split; [exact H3|].
  exact H4.
Defined.

(** A daemon that was asked for thirty-nine addresses after its own. *)
Definition busy : arp :=
  match arp_run 7 [] (map (λ k, Client 5 (str "10.0.0." ++ dec_u (Z.of_nat k))) (seq 1 39)) vm1 with
  | (_, Ret _ s) => s
  | _ => arp_zero
  end.

Lemma full_cache_overruns_witness : arp_turn 7 [] (Client 5 (src_ip vm2)) busy = ([], Fault BadIndex).
Proof.
  apply full_cache_overruns; [|vm_compute; lia|vm_compute; reflexivity].
  split; [split; [vm_compute; reflexivity|apply (bool_decide_unpack _); vm_compute; exact I]|vm_compute; reflexivity|vm_compute; lia].
Defined.
