(* ===== verification/ArpLan.v ===== *)
(** * The daemons of a network (hw4/arp.c with areq of hw4/common.c)

    Any number of hosts on one network, each with its daemon: frames reach the
    host they are addressed to, or all but their sender.  What a client of a
    daemon relies on is the interface [Resolver]; the network of daemons is
    shown to implement it. *)

From Stdlib Require Import Strings.Byte.
From S2P Require Import Prelude.
From S2P Require Import CMem.
From S2P Require Import CText.
From S2P Require Import Arp.
From S2P Require Import ArpProps.

(** ** The interface *)

(** Writing a request to the local daemon: what is read back, if anything, and
    the state of the service afterwards. *)
Class Resolver (S : Type) := ask : bytes → S → option bytes * S.

(** In the states of [inv], a request for the address of a host is answered with
    that host's hardware address, and the state stays in [inv]. *)
Class ResolverOk (S : Type) `{!Resolver S} (inv : S → Prop) (owner : bytes → bytes → Prop) : Prop := {
  owner_mac : ∀ x a m, inv x → owner a m → length m = IF_HADDR;
  ask_owner : ∀ x a m, inv x → owner (cstr a) m →
    ∃ d x', ask (areq_request a) x = (Some d, x') ∧
      take 6 (sll_addr (areq (Some d)).1) = m ∧ inv x'
}.

(** ** The network *)

Section lan.
(** Each host's protocol number and the bytes that follow its messages. *)
Context (proto : nat → Z) (heap : nat → bytes).

(** Host [j] sees a frame of host [from]: one of another host that is for it or
    for all, and whose type is the protocol its packet socket was opened for. *)
Definition hear (from : nat) (f : bytes) (j : nat) (s : arp) : option (list arp_out * arp) :=
  if negb (j =? from)%nat && bool_decide (slice 12 2 f = put_u16 (proto j)) &&
     (bool_decide (take 6 f = b_mac) || bool_decide (take 6 f = src_mac s)) then
    match arp_turn (proto j) (heap j) (RawFrame f) s with
    | (o, Ret _ s') => Some (o, s')
    | _ => None
    end
  else Some ([], s).

(** Deliver a frame to the hosts from number [j] on; outputs are tagged with
    their host.  [None]: a daemon failed. *)
Fixpoint deliver (from : nat) (f : bytes) (j : nat) (l : list arp) : option (list (nat * arp_out) * list arp) :=
  match l with
  | [] => Some ([], [])
  | s :: l =>
      '(o, s') ← hear from f j s;
      '(os, l') ← deliver from f (S j) l;
      Some (map (pair j) o ++ os, s' :: l')
  end.

Definition sent (os : list (nat * arp_out)) : list (nat * bytes) :=
  omap (λ x, match x.2 with SendFrame _ f => Some (x.1, f) | _ => None end) os.

Definition writes (i : nat) (connfd : Z) (os : list (nat * arp_out)) : list bytes :=
  omap (λ x, match x.2 with
             | WriteFd fd d => if bool_decide (x.1 = i) && (fd =? connfd) then Some d else None
             | _ => None
             end) os.

(** Deliver the frames [q] and those sent in return, at most [fuel]. *)
Fixpoint settle (fuel : nat) (q : list (nat * bytes)) (l : list arp) : option (list (nat * arp_out) * list arp) :=
  match q, fuel with
  | [], _ => Some ([], l)
  | _, O => None
  | (i, f) :: q, S fuel =>
      '(o, l) ← deliver i f 0 l;
      '(o', l) ← settle fuel (q ++ sent o) l;
      Some (o ++ o', l)
  end.

(** What [Read(connfd, buf, 100)] leaves in the zeroed array. *)
Definition client_buf (req : bytes) : bytes := take 100 (req ++ zeros 100).

(** A client of host [i] writes a request: the daemon's turn, the frames that
    follow, and the bytes it got. *)
Definition lan_ask (i : nat) (connfd : Z) (req : bytes) (l : list arp) : option bytes * list arp :=
  match l !! i with
  | None => (None, l)
  | Some s =>
      match arp_turn (proto i) (heap i) (Client connfd (client_buf req)) s with
      | (o, Ret _ s') =>
          let o := map (pair i) o in
          match settle 2 (sent o) (<[i := s']> l) with
          | Some (o', l') => (head (writes i connfd (o ++ o')), l')
          | None => (None, l)
          end
      | _ => (None, l)
      end
  end.
End lan.

(** ** Networks in order *)

(** The hosts' addresses and hardware addresses. *)
Abbreviation directory := (list (bytes * bytes)).

Record dir_ok (dir : directory) : Prop := {
  do_ips : NoDup (map fst dir);
  do_macs : NoDup (map snd dir);
  do_size : (length dir ≤ NUM_CACHE_ENTRIES)%nat;
  do_named : Forall (λ h, h.1 ≠ [] ∧ cstr h.1 = h.1 ∧ (length h.1 < IP_LEN)%nat ∧ h.2 ≠ b_mac) dir
}.

(** A daemon that knows its own address and only true ones, with nobody
    waiting. *)
Record host_ok (dir : directory) (s : arp) : Prop := {
  hs_daemon : daemon_ok s;
  hs_cache : cache_good s;
  hs_true : ∀ i e, arp_cache s !! i = Some e → filled e = 1 →
    (cstr (ip e), mac e) ∈ dir ∧ fd e = NO_FD ∧ is_i32 (index e);
  hs_own : is_Some (lookup_cache (arp_cache s) (src_ip s))
}.

Definition host_key (s : arp) : bytes * bytes := (cstr (src_ip s), src_mac s).

Record lan_ok (dir : directory) (l : list arp) : Prop := {
  lo_keys : map host_key l = dir;
  lo_hosts : Forall (host_ok dir) l
}.

Lemma dir_unique dir a m m' : dir_ok dir → (a, m) ∈ dir → (a, m') ∈ dir → m = m'.
Proof.
  intros Hd Hm Hm'. apply list_elem_of_lookup_1 in Hm as [i Hi], Hm' as [j Hj].
  assert (i = j) as ->; [|congruence].
  apply (NoDup_lookup _ i j a (do_ips dir Hd)); rewrite list_lookup_fmap; [by rewrite Hi|by rewrite Hj].
Qed.

(** There is room for the address of every host. *)
Lemma seek_room dir s a m :
  dir_ok dir → host_ok dir s → (cstr a, m) ∈ dir → (seek (arp_cache s) a < NUM_CACHE_ENTRIES)%nat.
Proof.
  intros Hd Hs Ha. destruct (hs_cache dir s Hs) as [n Hc]. pose proof (ci_size n _ Hc) as Hsz.
  destruct (decide (seek (arp_cache s) a < NUM_CACHE_ENTRIES)%nat) as [|Hge]; [done|exfalso].
  assert (∀ i e, arp_cache s !! i = Some e → filled e = 1 ∧ cstr (ip e) ≠ cstr a) as Hall.
  { intros i e He. apply (seek_before (arp_cache s) a i e); [|done]. pose proof (lookup_lt_Some _ _ _ He). lia. }
  assert (cstr a :: map (λ e, cstr (ip e)) (arp_cache s) ⊆+ map fst dir) as Hsub.
  { apply NoDup_submseteq.
    - apply NoDup_cons. split.
      + intros Hin%list_elem_of_fmap. destruct Hin as (e & E & [i He]%list_elem_of_lookup_1).
        by destruct (Hall i e He).
      + apply NoDup_alt. intros i j t Hi Hj. rewrite !list_lookup_fmap in *.
        destruct (arp_cache s !! i) as [e|] eqn:Ei; [|done]. destruct (arp_cache s !! j) as [e'|] eqn:Ej; [|done].
        injection Hi as <-. injection Hj as Hj.
        apply (ci_distinct n _ Hc i j e e' Ei Ej); [..|done]; eapply (ci_filled n _ Hc); eauto; by eapply Hall.
    - intros t [->|Hin]%elem_of_cons; [by apply (list_elem_of_fmap_2 fst _ (cstr a, m))|].
      apply list_elem_of_fmap in Hin as (e & -> & [i He]%list_elem_of_lookup_1).
      destruct (hs_true dir s Hs i e He (proj1 (Hall i e He))) as [Hin _].
      by apply (list_elem_of_fmap_2 fst _ _ Hin). }
  apply submseteq_length in Hsub. cbn in Hsub. rewrite !length_map, Hsz in Hsub.
  pose proof (do_size dir Hd). lia.
Qed.

(** Writing an entry for [a] does not hide that of another address. *)
Lemma lookup_cache_insert_ne c a b e e' :
  lookup_cache c b = Some e → cstr b ≠ cstr a → cstr (ip e') = cstr a → filled e' = 1 →
  lookup_cache (<[seek c a := e']> c) b = Some e.
Proof.
  intros Hb Hne Hip Hf. unfold lookup_cache in Hb.
  destruct (c !! seek c b) as [e0|] eqn:He; [|done]. destruct (filled e0 =? 1) eqn:Hf0; [|done].
  injection Hb as ->. apply Z.eqb_eq in Hf0. pose proof (seek_here c b e He) as [|Hcip]; [done|].
  assert (seek c a ≠ seek c b) as Hij.
  { intros E. rewrite <- E in He. destruct (seek_here c a e He); [done|]. by rewrite <- Hcip in Hne. }
  assert (seek (<[seek c a := e']> c) b = seek c b) as Hs.
  { unfold seek at 1. apply (find_index_unique _ _ _ e).
    - by rewrite list_lookup_insert_ne.
    - apply orb_true_iff. right. by apply streq_true.
    - intros j y Hj Hy. apply list_lookup_insert_Some in Hy as [(_ & <- & _)|[_ Hy]].
      + rewrite Hf. cbn. apply streq_false. congruence.
      + destruct (seek_before c b j y Hj Hy) as [-> Hyne]. cbn. by apply streq_false. }
  unfold lookup_cache. rewrite Hs, list_lookup_insert_ne, He by done. by rewrite Hf0.
Qed.

(** A true entry may be written for any host. *)
Lemma host_ok_insert dir s a a' m x :
  dir_ok dir → host_ok dir s → (cstr a, m) ∈ dir → cstr a' = cstr a → length a' = IP_LEN → length m = IF_HADDR →
  is_i32 x →
  host_ok dir (set_cache (<[seek (arp_cache s) a := mk_entry a' m x NO_FD 1]> (arp_cache s)) s).
Proof.
  intros Hd Hs Ha Ca La Lm Hx. pose proof (seek_room dir s a m Hd Hs Ha) as Hroom.
  destruct (hs_daemon dir s Hs) as [[Hsz Hwf] Hmac Hip].
  split; cbn [set_cache arp_cache src_ip src_mac].
  - split; [split|done|done]; cbn [set_cache arp_cache]; [by rewrite length_insert|].
    by apply Forall_insert.
  - destruct (hs_cache dir s Hs) as [n Hc]. apply (cache_inv_insert n); try done; [by rewrite Hsz|].
    by destruct (proj1 (Forall_forall _ _) (do_named dir Hd) _ Ha).
  - intros i e He Hf. apply list_lookup_insert_Some in He as [(_ & <- & _)|[_ He]]; cbn; [by rewrite Ca|].
    by apply (hs_true dir s Hs i).
  - destruct (hs_own dir s Hs) as [e He]. unfold set_cache. cbn [src_ip].
    destruct (decide (cstr (src_ip s) = cstr a)) as [E|E].
    + rewrite (lookup_cache_cong _ _ a E). eexists. apply lookup_cache_insert; [by rewrite Hsz|done..].
    + exists e. by apply lookup_cache_insert_ne.
Qed.

(** ** Single hosts *)

Lemma lookup_cache_spec c a e :
  lookup_cache c a = Some e → ∃ i, c !! i = Some e ∧ filled e = 1 ∧ cstr (ip e) = cstr a.
Proof.
  unfold lookup_cache. intros H. exists (seek c a). destruct (c !! seek c a) as [e'|] eqn:E; [|done].
  destruct (filled e' =? 1) eqn:Hf; [|done]. injection H as ->. apply Z.eqb_eq in Hf.
  destruct (seek_here c a e E); [done|]. by split_and!.
Qed.

Lemma known_host dir s a m e :
  dir_ok dir → host_ok dir s → (cstr a, m) ∈ dir → lookup_cache (arp_cache s) a = Some e →
  mac e = m ∧ fd e = NO_FD ∧ is_i32 (index e).
Proof.
  intros Hd Hs Ha He. destruct (lookup_cache_spec _ _ _ He) as (i & Hi & Hf & Hc).
  destruct (hs_true dir s Hs i e Hi Hf) as (Hin & Hfd & Hx). rewrite Hc in Hin.
  split; [by eapply dir_unique|done].
Qed.

Lemma length_answer e : length (mac e) = IF_HADDR → length (answer e) = sizeof_hwaddr.
Proof.
  intros Hm. unfold answer, encode_hwaddr. rewrite !length_app, put_i32_length, put_u16_length.
  cbn [sll_addr]. rewrite length_app, Hm. done.
Qed.

(** What a client makes of an answer. *)
Lemma answer_read e :
  is_i32 (index e) → length (mac e) = IF_HADDR → take 6 (sll_addr (areq (Some (answer e))).1) = mac e.
Proof.
  intros Hx Hm. pose proof (length_answer e Hm) as Hl. cbn [areq fst]. rewrite take_app_le by lia.
  rewrite (firstn_all2 (answer e)) by lia.
  rewrite decode_answer by done. cbn [sll_addr]. by rewrite take_app_length'.
Qed.

(** The first entry with an address is the one [seek] finds. *)
Lemma find_ip_first n c a e :
  cache_inv n c → cstr a ≠ [] → c !! find_index (λ e, streq (ip e) a) c = Some e →
  filled e = 1 ∧ cstr (ip e) = cstr a ∧ find_index (λ e, streq (ip e) a) c = seek c a.
Proof.
  intros Hc Hne He. pose proof (lookup_lt_Some _ _ _ He) as Hlt.
  destruct (find_index_lt _ _ Hlt) as (e' & He' & Hp%streq_true). rewrite He in He'. injection He' as <-.
  assert (find_index (λ e, streq (ip e) a) c < n)%nat as Hn.
  { destruct (decide (n ≤ find_index (λ e, streq (ip e) a) c)%nat) as [Hge|]; [|lia].
    pose proof (ci_free n c Hc _ _ He Hge). congruence. }
  split; [by apply (ci_filled n c Hc _ _ He)|]. split; [done|]. symmetry.
  apply (find_index_unique _ _ _ e He); [apply orb_true_iff; right; by apply streq_true|].
  intros j y Hj Hy. rewrite (proj1 (ci_filled n c Hc j y Hy)) by lia. cbn.
  by apply (find_index_before _ c j y Hj Hy).
Qed.

(** A host that a request is not for refreshes its entry for the asker. *)
Lemma bystander dir proto heap p' h' s m :
  dir_ok dir → host_ok dir s → arp_ok m → identification m = our_id → op m = 1 →
  cstr (target_ip m) ≠ cstr (src_ip s) → (cstr (sender_ip m), sender_eth m) ∈ dir →
  ∃ s', process_frame proto heap (frame_of p' h' b_mac (eth_src m) m) s = ([], Ret tt s') ∧
    host_ok dir s' ∧ host_key s' = host_key s.
Proof.
  intros Hd Hs Hm Hid Hop Ht Hsnd. unfold process_frame. rewrite frame_message by (done || apply Hm).
  rewrite Hid, Hop, streq_refl. cbn [negb]. change (1 =? 1) with true. cbv iota.
  unfold handle_request, mbind at 1, M_bind at 1, gets. cbn [id].
  rewrite (proj2 (streq_false (src_ip s) (target_ip m))) by done.
  unfold update_response_in_cache, mbind, M_bind, gets.
  destruct (arp_cache s !! find_index _ _) as [e|] eqn:He; [|by exists s].
  destruct (hs_cache dir s Hs) as [n Hc].
  destruct (find_ip_first n _ (sender_ip m) e Hc) as (Hf & Hip & E); [|done|].
  { by destruct (proj1 (Forall_forall _ _) (do_named dir Hd) _ Hsnd). }
  rewrite E. destruct (hs_true dir s Hs _ e He Hf) as (_ & -> & _).
  eexists. split; [reflexivity|]. split; [|done].
  apply host_ok_insert; try done; [|apply Hm].
  destruct (hs_daemon dir s Hs) as [[_ Hwf] _ _]. by apply (Forall_lookup_1 _ _ _ _ Hwf He).
Qed.

(** ** The whole network *)

Section network.
Context (proto : nat → Z) (heap : nat → bytes).
Context (proto_u16 : ∀ k, 0 <= proto k < 2 ^ 16) (proto_same : ∀ j k, proto j = proto k).

(** A delivery to which only host [j0] says something. *)
Lemma deliver_run from f (R : nat → arp → arp → Prop) j0 xs j l :
  (∀ k s, l !! k = Some s → ∃ s',
     hear proto heap from f (j + k) s = Some (if (j + k =? j0)%nat then xs else [], s') ∧ R (j + k)%nat s s') →
  ∃ l', deliver proto heap from f j l =
      Some (if decide (j ≤ j0 < j + length l)%nat then map (pair j0) xs else [], l') ∧
    length l' = length l ∧ ∀ k s, l !! k = Some s → ∃ s', l' !! k = Some s' ∧ R (j + k)%nat s s'.
Proof.
  revert j. induction l as [|s l IH]; intros j Hl; cbn [deliver].
  { exists []. rewrite decide_False by (cbn; lia). by split_and!. }
  destruct (Hl O s eq_refl) as (s' & Hs & HR). rewrite Nat.add_0_r in *. rewrite Hs. cbn [mbind option_bind].
  destruct (IH (S j)) as (l' & E & Hlen & Hl').
  { intros k t Hk. destruct (Hl (S k) t Hk) as (t' & Ht & HRt). exists t'. by rewrite Nat.add_succ_r in *. }
  rewrite E. cbn [mbind option_bind]. exists (s' :: l'). split; [|split; [cbn; congruence|]].
  - do 2 f_equal. destruct (Nat.eqb_spec j j0) as [->|Hne].
    + rewrite (decide_False (P := S j0 ≤ j0 < _)%nat), decide_True by (cbn; lia). apply app_nil_r.
    + apply decide_ext. cbn. lia.
  - intros [|k] t Hk; cbn in *; [injection Hk as <-; exists s'; by rewrite Nat.add_0_r|].
    destruct (Hl' k t Hk) as (t' & Ht & HRt). exists t'. by rewrite Nat.add_succ_r.
Qed.

Lemma frame_type_of p h d m a :
  length d = 6%nat → length m = 6%nat → slice 12 2 (frame_of p h d m a) = put_u16 p.
Proof.
  intros Hd Hm. unfold frame_of. rewrite !firstn_all2, (slice_later 6), (slice_later 6) by lia.
  apply slice_here, put_u16_length.
Qed.

Lemma frame_heard j k h d m a :
  length d = 6%nat → length m = 6%nat → slice 12 2 (frame_of (proto j) h d m a) = put_u16 (proto k).
Proof. intros Hd Hm. by rewrite frame_type_of, (proto_same j k). Qed.

Lemma hear_frame from f j s o s' :
  j ≠ from → slice 12 2 f = put_u16 (proto j) → take 6 f = b_mac ∨ take 6 f = src_mac s →
  process_frame (proto j) (heap j) f s = (o, Ret tt s') → hear proto heap from f j s = Some (o, s').
Proof.
  intros Hj Ht Hf Hp. unfold hear. rewrite (proj2 (Nat.eqb_neq j from)), bool_decide_true by done. cbn [negb andb].
  replace (bool_decide _ || bool_decide _) with true; [cbn [arp_turn]; by rewrite Hp|].
  symmetry. apply orb_true_iff. rewrite !bool_decide_eq_true. done.
Qed.

Lemma hear_nothing from f j s :
  j = from ∨ take 6 f ≠ b_mac ∧ take 6 f ≠ src_mac s → hear proto heap from f j s = Some ([], s).
Proof.
  intros [->|[H1 H2]]; unfold hear; [by rewrite Nat.eqb_refl|].
  rewrite (bool_decide_eq_false_2 (take 6 f = b_mac)), (bool_decide_eq_false_2 (take 6 f = src_mac s)) by done.
  by rewrite andb_false_r.
Qed.

Context (dir : directory) (Hd : dir_ok dir).

Lemma key_at l k t : lan_ok dir l → l !! k = Some t → dir !! k = Some (host_key t).
Proof. intros [<- _] Hk. rewrite list_lookup_fmap, Hk. done. Qed.

Lemma key_in l k t : lan_ok dir l → l !! k = Some t → host_key t ∈ dir.
Proof. intros Hl Hk. eapply list_elem_of_lookup_2, key_at; eauto. Qed.

Lemma host_at l k t : lan_ok dir l → l !! k = Some t → host_ok dir t.
Proof. intros [_ Hl] Hk. by eapply Forall_lookup_1. Qed.

Lemma keys_differ l j k s t :
  lan_ok dir l → l !! j = Some s → l !! k = Some t → j ≠ k →
  cstr (src_ip s) ≠ cstr (src_ip t) ∧ src_mac s ≠ src_mac t.
Proof.
  intros Hl Hj Hk Hne. pose proof (key_at l j s Hl Hj) as Kj. pose proof (key_at l k t Hl Hk) as Kk.
  split; intros E; apply Hne.
  - apply (NoDup_lookup _ j k (cstr (src_ip s)) (do_ips dir Hd)); rewrite list_lookup_fmap; [by rewrite Kj|].
    rewrite Kk. cbn. by rewrite E.
  - apply (NoDup_lookup _ j k (src_mac s) (do_macs dir Hd)); rewrite list_lookup_fmap; [by rewrite Kj|].
    rewrite Kk. cbn. by rewrite E.
Qed.

(** Another host may have changed its cache only. *)
Definition same_host (t t' : arp) : Prop := host_ok dir t' ∧ host_key t' = host_key t.

(** The request reaches all; the host asked for replies. *)
Lemma deliver_request l i s s1 sip tip j0 s0 :
  lan_ok dir l → l !! i = Some s → l !! j0 = Some s0 → i ≠ j0 →
  cstr sip = cstr (src_ip s) → length sip = IP_LEN → cstr tip = cstr (src_ip s0) → length tip = IP_LEN →
  let q := request_of (proto i) s sip tip in
  ∃ l2, deliver proto heap i (frame_of (proto i) (heap i) b_mac (src_mac s) q) 0 (<[i := s1]> l) =
      Some ([(j0, SendFrame (src_ifindex s0)
                    (frame_of (proto j0) (heap j0) (src_mac s) (src_mac s0) (reply_to (src_mac s0) q)))], l2) ∧
    length l2 = length l ∧ l2 !! i = Some s1 ∧
    ∀ k t, k ≠ i → l !! k = Some t → ∃ t', l2 !! k = Some t' ∧ same_host t t'.
Proof.
  intros Hl Hi Hj Hij Csip Lsip Ctip Ltip q.
  pose proof (hs_daemon dir s (host_at l i s Hl Hi)) as [_ Hm _].
  assert (arp_ok q) as Hq by by apply request_ok.
  assert ((cstr (sender_ip q), sender_eth q) ∈ dir) as Hsnd by (cbn; rewrite Csip; by apply (key_in l i)).
  destruct (deliver_run i (frame_of (proto i) (heap i) b_mac (src_mac s) q)
    (λ k t t', (k = i → t' = t) ∧ (k ≠ i → same_host t t')) j0
    [SendFrame (src_ifindex s0) (frame_of (proto j0) (heap j0) (src_mac s) (src_mac s0) (reply_to (src_mac s0) q))]
    0 (<[i := s1]> l)) as (l2 & E & Hlen & Hl2).
  { intros k t Hk. cbn [plus]. apply list_lookup_insert_Some in Hk as [(<- & <- & _)|[Hki Hk]].
    { exists s1. rewrite hear_nothing, (proj2 (Nat.eqb_neq i j0)) by auto. by split. }
    pose proof (host_at l k t Hl Hk) as Ht. pose proof (key_in l k t Hl Hk) as Kt.
    destruct (Nat.eqb_spec k j0) as [->|Hkj].
    - rewrite Hj in Hk. injection Hk as <-.
      destruct (target_replies (proto j0) (heap j0) (proto i) (heap i) s0 q) as (a' & Ca' & La' & Hr);
        try done; [apply Ht|unfold fits; cbn [sender_ip q request_of]; rewrite Csip; apply (host_at l i s Hl Hi)|
                   by eapply seek_room|].
      eexists. split; [apply hear_frame; [done|by apply frame_heard|left; by apply frame_dest|exact Hr]|].
      split; [done|]. intros _. split; [|done]. by apply host_ok_insert.
    - destruct (bystander dir (proto k) (heap k) (proto i) (heap i) t q Hd Ht) as (t' & Hb & Hok & Hkey); try done.
      { cbn. rewrite Ctip. by apply (keys_differ l j0 k s0 t). }
      exists t'. split; [apply hear_frame; [done|by apply frame_heard|left; by apply frame_dest|exact Hb]|].
      split; [congruence|]. intros _. by split. }
  rewrite length_insert in *. pose proof (lookup_lt_Some _ _ _ Hj). rewrite decide_True in E by lia.
  exists l2. split; [exact E|]. split; [done|]. split.
  - destruct (Hl2 i s1) as (t' & Ht' & [Heq _]); [by apply list_lookup_insert_eq, (lookup_lt_Some _ _ _ Hi)|].
    by rewrite (Heq eq_refl) in Ht'.
  - intros k t Hki Hk. destruct (Hl2 k t) as (t' & Ht' & [_ H']); [by rewrite list_lookup_insert_ne|].
    exists t'. split; [done|]. by apply H'.
Qed.

Lemma lan_ok_pointwise l l' :
  lan_ok dir l → length l' = length l →
  (∀ k t, l !! k = Some t → ∃ t', l' !! k = Some t' ∧ same_host t t') → lan_ok dir l'.
Proof.
  intros [Hkeys Hl] Hlen Hpt.
  assert (∀ k t', l' !! k = Some t' → ∃ t, l !! k = Some t ∧ same_host t t') as Hback.
  { intros k t' Ht'. destruct (lookup_lt_is_Some_2 l k) as [t Ht]; [apply lookup_lt_Some in Ht'; lia|].
    exists t. split; [done|]. destruct (Hpt k t Ht) as (t2 & Ht2 & H2). congruence. }
  split.
  - rewrite <- Hkeys. apply list_eq. intros k. rewrite !list_lookup_fmap.
    destruct (l' !! k) as [t'|] eqn:Ht'.
    + destruct (Hback k t' Ht') as (t & -> & [_ E]). cbn. by rewrite E.
    + apply lookup_ge_None in Ht'. by rewrite lookup_ge_None_2 by lia.
  - apply Forall_lookup_2. intros k t' Ht'. by destruct (Hback k t' Ht') as (t & _ & [? _]).
Qed.

(** The reply reaches the asker alone. *)
Lemma deliver_reply l l2 i s s1 s1' j0 f o :
  lan_ok dir l → l !! i = Some s → i ≠ j0 → l2 !! i = Some s1 → src_mac s1 = src_mac s → length l2 = length l →
  (∀ k t, k ≠ i → l !! k = Some t → ∃ t', l2 !! k = Some t' ∧ same_host t t') →
  slice 12 2 f = put_u16 (proto i) → take 6 f = src_mac s → process_frame (proto i) (heap i) f s1 = (o, Ret tt s1') → same_host s s1' →
  ∃ l3, deliver proto heap j0 f 0 l2 = Some (map (pair i) o, l3) ∧ lan_ok dir l3.
Proof.
  intros Hl Hi Hij Hi2 Hmac Hlen Hoth Ht Hf Hp Hs1'.
  destruct (deliver_run j0 f (λ k t t', (k = i → t' = s1') ∧ (k ≠ i → t' = t)) i o 0 l2) as (l3 & E & Hlen3 & Hl3).
  { intros k t Hk. cbn [plus]. destruct (Nat.eqb_spec k i) as [->|Hki].
    - rewrite Hi2 in Hk. injection Hk as <-. exists s1'.
      split; [apply hear_frame; [done|done|right; congruence|done]|]. by split.
    - exists t. split; [|by split]. apply hear_nothing. right.
      destruct (lookup_lt_is_Some_2 l k) as [u Hu]; [apply lookup_lt_Some in Hk; lia|].
      destruct (Hoth k u Hki Hu) as (t' & Ht' & [_ Ekey]). rewrite Hk in Ht'. injection Ht' as <-.
      unfold host_key in Ekey. injection Ekey as _ Em.
      destruct (proj1 (Forall_forall _ _) (do_named dir Hd) _ (key_in l i s Hl Hi)) as (_ & _ & _ & Hb).
      rewrite Hf, Em. split; [done|]. by apply (keys_differ l i k s u). }
  pose proof (lookup_lt_Some _ _ _ Hi). rewrite decide_True in E by lia.
  exists l3. split; [exact E|]. apply (lan_ok_pointwise l); [done|congruence|].
  intros k t Hk. destruct (decide (k = i)) as [->|Hki].
  - rewrite Hi in Hk. injection Hk as <-. destruct (Hl3 i s1 Hi2) as (t' & Ht' & [H' _]).
    exists s1'. by rewrite (H' eq_refl) in Ht'.
  - destruct (Hoth k t Hki Hk) as (t2 & Ht2 & Hs2). destruct (Hl3 k t2 Ht2) as (t' & Ht' & [_ H']).
    exists t2. by rewrite (H' Hki) in Ht'.
Qed.

Lemma client_buf_cstr a : (length (cstr a) < 99)%nat → cstr (client_buf (areq_request a)) = cstr a.
Proof.
  intros Ha. unfold client_buf, areq_request. rewrite <- app_assoc.
  rewrite take_app_ge by lia. destruct (100 - length (cstr a))%nat eqn:E; [lia|].
  cbn [take app]. apply cstr_app_nul, cstr_no_nul.
Qed.

Context (i : nat) (connfd : Z) (Hfd : 0 < connfd).

(** A known address is answered from the cache. *)
Lemma ask_known l s buf e :
  l !! i = Some s → lookup_cache (arp_cache s) buf = Some e → fd e = NO_FD →
  arp_turn (proto i) (heap i) (Client connfd buf) s = ([WriteFd connfd (answer e)], Ret tt s) ∧
  settle proto heap 2 (sent (map (pair i) [WriteFd connfd (answer e)])) (<[i := s]> l) = Some ([], l).
Proof.
  intros Hi He Hn. split; [apply served_from_cache; [lia|done..]|]. cbn. by rewrite list_insert_id.
Qed.

(** An unknown one after an exchange of two frames. *)
Lemma ask_unknown l s buf j0 s0 :
  lan_ok dir l → l !! i = Some s → l !! j0 = Some s0 → cstr buf = cstr (src_ip s0) →
  lookup_cache (arp_cache s) buf = None →
  ∃ f s1 e l3,
    arp_turn (proto i) (heap i) (Client connfd buf) s = ([SendFrame (src_ifindex s) f], Ret tt s1) ∧
    settle proto heap 2 [(i, f)] (<[i := s1]> l) =
      Some ((j0, SendFrame (src_ifindex s0) e.1) :: map (pair i) [WriteFd connfd (answer e.2); CloseFd connfd], l3) ∧
    mac e.2 = src_mac s0 ∧ index e.2 = 2 ∧ lan_ok dir l3.
Proof.
  intros Hl Hi Hj Ha Hmiss.
  pose proof (host_at l i s Hl Hi) as Hs. pose proof (host_at l j0 s0 Hl Hj) as Hs0.
  pose proof (key_in l j0 s0 Hl Hj) as K0. unfold host_key in K0. rewrite <- Ha in K0.
  assert (i ≠ j0) as Hij.
  { intros ->. rewrite Hi in Hj. injection Hj as <-. destruct (hs_own dir s Hs) as [e He].
    rewrite <- (lookup_cache_cong _ _ _ Ha) in He. congruence. }
  pose proof (seek_room dir s buf _ Hd Hs K0) as Hroom.
  assert (fits IP_LEN buf) as Hfit by (unfold fits; rewrite Ha; apply Hs0).
  destruct (client_asks (proto i) (heap i) s connfd buf (hs_daemon dir s Hs) Hfit Hmiss Hroom)
    as (sip & tip & a' & Csip & Lsip & Ctip & Ltip & Ca' & La' & Hask).
  set (q := request_of (proto i) s sip tip) in *.
  set (s1 := set_cache _ s) in Hask.
  destruct (deliver_request l i s s1 sip tip j0 s0 Hl Hi Hj Hij Csip Lsip) as (l2 & E2 & Hlen2 & Hi2 & Hoth);
    [by rewrite Ctip|done|]. fold q in E2.
  pose proof (cw_size _ (dk_cache _ (hs_daemon dir s Hs))) as Hsz.
  set (r := reply_to (src_mac s0) q) in *.
  assert (arp_ok q) as Hq by (apply request_ok; try done; apply Hs).
  assert (arp_ok r) as Hr by (destruct Hq; split; cbn in *; try done; try apply Hs0; lia).
  assert (seek (arp_cache s1) tip = seek (arp_cache s) buf) as Hseek.
  { rewrite (seek_cong _ tip buf Ctip). apply seek_insert; [by rewrite Hsz|done]. }
  pose proof (reply_completes (proto i) (heap i) (proto j0) (heap j0) s1 r (mk_entry a' (zeros IF_HADDR) 0 connfd 1) Hr) as Hfin.
  cbn [identification op sender_ip fd ip r reply_to q request_of target_ip] in Hfin.
  specialize (Hfin eq_refl eq_refl). rewrite Hseek in Hfin.
  specialize (Hfin ltac:(unfold s1; cbn [set_cache arp_cache];
    rewrite list_lookup_insert_eq; [done|by rewrite Hsz]) ltac:(by rewrite Ca', Ctip)).
  rewrite (proj2 (Z.ltb_lt 0 connfd) Hfd) in Hfin.
  assert (∀ c, set_cache c s1 = set_cache c s) as Es by done. rewrite Es in Hfin.
  unfold s1 in Hfin at 2. cbn [set_cache arp_cache] in Hfin. rewrite list_insert_insert_eq in Hfin.
  destruct (deliver_reply l l2 i s s1 _ j0 _ _ Hl Hi Hij Hi2 eq_refl Hlen2 Hoth
    (frame_heard _ _ _ _ _ _ ltac:(apply Hs) ltac:(apply Hs0)) (frame_dest _ _ _ _ _ ltac:(apply Hs)) Hfin)
    as (l3 & E3 & Hl3).
  { split; [|done]. apply host_ok_insert; try done. apply Hs0. }
  eexists _, s1, (_, mk_entry a' (src_mac s0) 2 connfd 1), l3. split; [exact Hask|].
  split; [|by split_and!].
  cbn [settle]. rewrite E2. cbn [mbind option_bind]. cbn [sent omap list_omap app snd fst settle].
  change (eth_dest r) with (src_mac s) in E3. change (eth_src r) with (src_mac s0) in E3.
  rewrite E3. cbn [mbind option_bind sent omap list_omap map app snd fst settle]. reflexivity.
Qed.

Lemma lan_ask_owner l a m :
  lan_ok dir l → (i < length dir)%nat → (cstr a, m) ∈ dir →
  ∃ d l', lan_ask proto heap i connfd (areq_request a) l = (Some d, l') ∧
    take 6 (sll_addr (areq (Some d)).1) = m ∧ lan_ok dir l'.
Proof.
  intros Hl Hlt Ha. destruct (proj1 (Forall_forall _ _) (do_named dir Hd) _ Ha) as (_ & _ & Hlen & _).
  cbn in Hlen. unfold IP_LEN in Hlen. set (buf := client_buf (areq_request a)).
  assert (cstr buf = cstr a) as Hbuf by (apply client_buf_cstr; lia). rewrite <- Hbuf in Ha.
  destruct (lookup_lt_is_Some_2 l i) as [s Hs]; [by rewrite <- (length_map host_key), (lo_keys dir l Hl)|].
  unfold lan_ask. rewrite Hs. fold buf. destruct (lookup_cache (arp_cache s) buf) as [e|] eqn:He.
  - pose proof (host_at l i s Hl Hs) as Hh.
    destruct (known_host dir s buf m e Hd Hh Ha He) as (<- & Hfd0 & Hx).
    destruct (ask_known l s buf e Hs He Hfd0) as [-> E]. rewrite E.
    exists (answer e), l. split; [cbn; by rewrite bool_decide_true, Z.eqb_refl by done|]. split; [|done].
    apply answer_read; [done|]. destruct (lookup_cache_spec _ _ _ He) as (k & Hk & _).
    destruct (hs_daemon dir s Hh) as [[_ Hwf] _ _]. by apply (Forall_lookup_1 _ _ _ _ Hwf Hk).
  - apply list_elem_of_lookup_1 in Ha as [j0 Hj0]. rewrite <- (lo_keys dir l Hl), list_lookup_fmap in Hj0.
    destruct (l !! j0) as [s0|] eqn:Hs0; [|done]. injection Hj0 as Hip <-.
    destruct (ask_unknown l s buf j0 s0 Hl Hs Hs0 (eq_sym Hip) He) as (f & s1 & e & l3 & -> & E & Hm & Hx & Hl3).
    cbn [map sent omap list_omap snd fst]. rewrite E. exists (answer e.2), l3.
    split; [cbn; by rewrite bool_decide_true, Z.eqb_refl by done|]. split; [|done].
    rewrite <- Hm. apply answer_read; [by rewrite Hx|]. rewrite Hm. apply (host_at l j0 s0 Hl Hs0).
Qed.
End network.

(** The network, as the clients of host [i] see it. *)
#[export] Instance lan_resolver (proto : nat → Z) (heap : nat → bytes) (i : nat) (connfd : Z)
  : Resolver (list arp) := lan_ask proto heap i connfd.

#[export] Instance lan_resolver_ok proto heap dir i connfd
    (Hp : ∀ k, 0 <= proto k < 2 ^ 16) (Hsame : ∀ j k, proto j = proto k) (Hd : dir_ok dir) (Hi : (i < length dir)%nat) (Hfd : 0 < connfd) :
  @ResolverOk (list arp) (lan_resolver proto heap i connfd) (lan_ok dir) (λ a m, (a, m) ∈ dir).
Proof.
  split; [|intros l a m Hl Ha; by apply lan_ask_owner].
  intros l a m Hl Ha. rewrite <- (lo_keys dir l Hl) in Ha. apply list_elem_of_fmap in Ha as (s & E & Hs).
  injection E as _ ->. by apply (proj1 (Forall_forall _ _) (lo_hosts dir l Hl) s Hs).
Qed.

(** ** Any sequence of requests *)

(** Clients of the hosts ask one after the other; each is given by its host,
    its descriptor and the address it asks for. *)
Fixpoint lan_serve (proto : nat → Z) (heap : nat → bytes) (qs : list (nat * Z * bytes)) (l : list arp)
    : list (option bytes) :=
  match qs with
  | [] => []
  | (i, connfd, a) :: qs =>
      let '(d, l') := lan_ask proto heap i connfd (areq_request a) l in
      d :: lan_serve proto heap qs l'
  end.

Definition is_mac_of (dir : directory) (q : nat * Z * bytes) (d : option bytes) : Prop :=
  ∃ b, d = Some b ∧ (cstr q.2, take 6 (sll_addr (areq (Some b)).1)) ∈ dir.

(** C6: on a network of up to forty hosts, requests put one after the other are
    all answered, with the right address.  The daemons were given the same
    protocol number (a packet socket gets no frame of another one) and start
    with their own addresses in their caches; clients of any of the hosts then
    ask for addresses of any of them, in any order, each after the one before it
    has got its answer.  (A second client that asks for an address one still
    waits for takes its place: see [second_client_cuts_off_first].)  Each request
    gets the hardware address of the host it asks for, from the cache or by an
    exchange of two frames, while the other daemons that hear the request refresh
    their own entries. *)
Theorem lan_always_answers proto heap dir l qs :
  (∀ k, 0 <= proto k < 2 ^ 16) → (∀ j k, proto j = proto k) → dir_ok dir → lan_ok dir l →
  Forall (λ q : nat * Z * bytes, (q.1.1 < length dir)%nat ∧ 0 < q.1.2 ∧ cstr q.2 ∈ map fst dir) qs →
  Forall2 (is_mac_of dir) qs (lan_serve proto heap qs l).
Proof.
  intros Hp Hsame Hd Hl Hqs. revert l Hl. induction Hqs as [|[[i connfd] a] qs (Hi & Hfd & Ha) _ IH]; intros l Hl;
    cbn [lan_serve]; [constructor|]. cbn in Hi, Hfd, Ha.
  apply list_elem_of_fmap in Ha as ([a' m] & E & Hin). cbn in E. subst a'.
  destruct (lan_ask_owner proto heap Hp Hsame dir Hd i connfd Hfd l a m Hl Hi Hin) as (d & l' & -> & Hm & Hl').
  constructor; [|by apply IH]. exists d. split; [done|]. cbn [snd]. by rewrite Hm.
Qed.

(** ** Witness *)

(** Two hosts that have just been started. *)
Definition lab_dir : directory :=
  [(str "130.245.156.21", replicate 6 x11); (str "130.245.156.22", replicate 6 x22)].

Lemma lab_dir_ok : dir_ok lab_dir.
Proof.
  split; [by apply (bool_decide_unpack _); vm_compute|by apply (bool_decide_unpack _); vm_compute|vm_compute; lia|].
  by apply (bool_decide_unpack _); vm_compute.
Qed.

Lemma booted_ok sv s :
  boot [sv] arp_zero = ([], Ret tt s) →
  arp_cache s = mk_entry (src_ip s) (src_mac s) 2 NO_FD 1 :: replicate 39 zero_entry →
  daemon_ok s → (cstr (src_ip s), src_mac s) ∈ lab_dir → host_ok lab_dir s.
Proof.
  intros Hb Hc Hs Hin. split; [done| | |].
  - apply (wpo_returns True (boot [sv]) (λ _ _ s', cache_good s') arp_zero [] tt s); [|done].
    apply keeps_boot_cache, arp_zero_good.
  - intros i e He Hf. rewrite Hc in He. destruct i as [|i]; [by injection He as <-|].
    change (replicate 39 zero_entry !! i = Some e) in He. apply lookup_replicate_1 in He as [-> _]. done.
  - rewrite Hc. unfold lookup_cache, seek. cbn. rewrite streq_refl. by eexists.
Qed.

Lemma lab_ok : lan_ok lab_dir [vm1; vm2].
Proof.
  split; [by vm_compute|]. constructor; [|constructor; [|constructor]].
  - apply (booted_ok (vm_details (str "130.245.156.21") x11)); [by vm_compute|by vm_compute|exact vm1_ok|left].
  - apply (booted_ok (vm_details (str "130.245.156.22") x22)); [by vm_compute|by vm_compute|exact vm2_ok|right; left].
Qed.

Lemma lan_always_answers_witness :
  Forall2 (is_mac_of lab_dir) [(0%nat, 5, str "130.245.156.22"); (1%nat, 6, str "130.245.156.21"); (0%nat, 7, str "130.245.156.22")]
    (lan_serve (λ _, 7) (λ _, []) [(0%nat, 5, str "130.245.156.22"); (1%nat, 6, str "130.245.156.21"); (0%nat, 7, str "130.245.156.22")]
       [vm1; vm2]).
Proof.
  apply (lan_always_answers (λ _, 7) (λ _, []) lab_dir [vm1; vm2]); [intros; lia|done|exact lab_dir_ok|exact lab_ok|].
  repeat constructor; cbn; lia.
Defined.
