(* ===== verification/Checksum.v ===== *)
(** * The Internet checksum (unpv13e/libfree/in_cksum.c)

    The routine the tour program puts into its IP and ICMP headers, against the
    one's complement sum it stands for. *)

From Stdlib Require Import Strings.Byte.
From S2P Require Import Prelude.
From S2P Require Import CMem.

(** The loop over the 16-bit words and the odd byte after it; words are read
    and [answer]'s first byte is set in little-endian order. *)
Fixpoint cksum_loop (w : bytes) (sum : Z) : Z :=
  match w with
  | b0 :: b1 :: w => cksum_loop w (u32 (sum + get_u16 [b0; b1]))
  | [b0] => u32 (sum + byte.unsigned b0)
  | [] => sum
  end.

Definition in_cksum (addr : bytes) : Z :=
  let sum := cksum_loop addr 0 in
  let sum := u32 (Z.shiftr sum 16 + Z.land sum 65535) in
  let sum := u32 (sum + Z.shiftr sum 16) in
  u16 (Z.lnot sum).

(** ** One's complement addition *)

(** The sum of the words, without a bound. *)
Fixpoint word_sum (w : bytes) : Z :=
  match w with
  | b0 :: b1 :: w => get_u16 [b0; b1] + word_sum w
  | [b0] => byte.unsigned b0
  | [] => 0
  end.

(** The 16-bit one's complement sum of numbers adding up to [x]: the residue
    modulo 65535, written 65535 rather than 0 unless nothing was added. *)
Definition ones_sum (x : Z) : Z := if x =? 0 then 0 else (x - 1) mod 65535 + 1.

Lemma ones_sum_range x : 0 <= ones_sum x <= 65535.
Proof.
  unfold ones_sum. destruct (Z.eqb_spec x 0); [lia|].
  pose proof (Z.mod_pos_bound (x - 1) 65535). lia.
Qed.

Lemma ones_sum_mod x : ones_sum x mod 65535 = x mod 65535.
Proof.
  unfold ones_sum. destruct (Z.eqb_spec x 0) as [->|]; [done|].
  rewrite Zplus_mod_idemp_l. f_equal. lia.
Qed.

Lemma ones_sum_full x : 0 < x → x mod 65535 = 0 → ones_sum x = 65535.
Proof.
  intros Hx Hm. pose proof (ones_sum_range x). pose proof (ones_sum_mod x) as H'.
  assert (ones_sum x ≠ 0).
  { unfold ones_sum. destruct (Z.eqb_spec x 0); [lia|]. pose proof (Z.mod_pos_bound (x - 1) 65535). lia. }
  rewrite Hm in H'. apply Z.mod_divide in H' as [k Hk]; [|done]. lia.
Qed.

(** The two folds of a 32-bit sum. *)
Lemma fold_ones_sum x :
  0 <= x < 2 ^ 32 →
  let t := u32 (Z.shiftr x 16 + Z.land x 65535) in
  u16 (u32 (t + Z.shiftr t 16)) = ones_sum x.
Proof.
  intros Hx t. change 65535 with (Z.ones 16) in t. subst t.
  rewrite Z.land_ones, !Z.shiftr_div_pow2 by lia.
  pose proof (Z.div_mod x (2 ^ 16) ltac:(lia)) as Hd. pose proof (Z.mod_pos_bound x (2 ^ 16) ltac:(lia)) as Hm.
  set (q := x / 2 ^ 16) in *. set (r := x mod 2 ^ 16) in *.
  assert (0 <= q < 2 ^ 16) as Hq by (subst q; split; [apply Z.div_pos; lia|apply Z.div_lt_upper_bound; lia]).
  rewrite (u32_small (q + r)) by (unfold is_u32; lia).
  unfold ones_sum. destruct (Z.eqb_spec x 0) as [Hx0|Hx0].
  { assert (q = 0 ∧ r = 0) as [-> ->] by lia. done. }
  destruct (Z.ltb_spec (q + r) (2 ^ 16)) as [Hlt|Hge].
  - rewrite (Z.div_small (q + r)) by lia. rewrite u32_small by (unfold is_u32; lia).
    unfold u16. rewrite Z.mod_small by lia.
    rewrite <- (Z.mod_unique_pos (x - 1) 65535 q (q + r - 1)) by lia. lia.
  - rewrite <- (Z.div_unique_pos (q + r) (2 ^ 16) 1 (q + r - 2 ^ 16)) by lia.
    rewrite u32_small by (unfold is_u32; lia).
    unfold u16. rewrite <- (Z.mod_unique_pos (q + r + 1) (2 ^ 16) 1 (q + r + 1 - 2 ^ 16)) by lia.
    rewrite <- (Z.mod_unique_pos (x - 1) 65535 (q + 1) (q + r - 65536)) by lia. lia.
Qed.

Lemma get_u16_range b0 b1 : 0 <= get_u16 [b0; b1] < 2 ^ 16.
Proof. apply (le_combine_bound [b0; b1]). Qed.

(** Induction over the words of a list of bytes. *)
Lemma words_ind (P : bytes → Prop) :
  P [] → (∀ b, P [b]) → (∀ b0 b1 w, P w → P (b0 :: b1 :: w)) → ∀ w, P w.
Proof.
  intros H0 H1 H2. fix IH 1. intros [|b0 [|b1 w]]; [exact H0|exact (H1 b0)|]. apply H2, IH.
Qed.

Lemma word_sum_bound w : 0 <= word_sum w /\ 2 * word_sum w <= 65535 * (Z.of_nat (length w) + 1).
Proof.
  induction w as [|b|b0 b1 w IH] using words_ind; cbn [word_sum length]; [lia| |].
  - pose proof (byte.unsigned_range b). lia.
  - pose proof (get_u16_range b0 b1). lia.
Qed.

Lemma cksum_loop_sum w s :
  0 <= s → s + word_sum w < 2 ^ 32 → cksum_loop w s = s + word_sum w.
Proof.
  revert s. induction w as [|b|b0 b1 w IH] using words_ind; intros s Hs Hb; cbn [cksum_loop word_sum] in *.
  - lia.
  - pose proof (byte.unsigned_range b). rewrite u32_small; [done|]. unfold is_u32. lia.
  - pose proof (get_u16_range b0 b1). pose proof (word_sum_bound w).
    rewrite u32_small by (unfold is_u32; lia). rewrite IH; lia.
Qed.

Lemma word_sum_app a b :
  Nat.Even (length a) → word_sum (a ++ b) = word_sum a + word_sum b.
Proof.
  induction a as [|x|x y a IH] using words_ind; intros He; cbn [app word_sum length] in *; [done| |].
  - destruct He as [k Hk]. lia.
  - rewrite IH; [lia|]. destruct He as [k Hk]. exists (k - 1)%nat. lia.
Qed.

(** The checksum is the complement of the one's complement sum. *)
Lemma in_cksum_ones w :
  Z.of_nat (length w) <= 2 ^ 17 → in_cksum w = 65535 - ones_sum (word_sum w).
Proof.
  intros Hl. pose proof (word_sum_bound w) as [H0 Hb].
  unfold in_cksum. rewrite (cksum_loop_sum w 0) by lia. rewrite Z.add_0_l. cbv zeta.
  rewrite <- (fold_ones_sum (word_sum w)) by lia. cbv zeta.
  set (t := u32 (_ + Z.shiftr _ 16)). unfold u16, Z.lnot.
  pose proof (Z.mod_pos_bound t (2 ^ 16) ltac:(lia)) as Hm.
  pose proof (Z.div_mod t (2 ^ 16) ltac:(lia)) as Hd.
  rewrite <- (Z.mod_unique_pos (Z.pred (- t)) (2 ^ 16) (- (t / 2 ^ 16) - 1) (65535 - t mod 2 ^ 16)); lia.
Qed.

(** The sum around one word. *)
Lemma word_sum_field pre w post :
  Nat.Even (length pre) → 0 <= w < 2 ^ 16 →
  word_sum (pre ++ put_u16 w ++ post) = word_sum pre + w + word_sum post.
Proof.
  intros He Hw. pose proof (put_u16_length w) as Hl. pose proof (get_put_u16 w Hw) as Hg.
  rewrite word_sum_app by done. destruct (put_u16 w) as [|b0 [|b1 [|]]]; try done.
  cbn [app word_sum]. rewrite Hg. lia.
Qed.

Lemma in_cksum_zero w :
  Z.of_nat (length w) <= 2 ^ 17 → in_cksum w = 0 ↔ 0 < word_sum w ∧ word_sum w mod 65535 = 0.
Proof.
  intros Hl. rewrite in_cksum_ones by done. pose proof (word_sum_bound w) as [H0 _]. split.
  - intros H. assert (ones_sum (word_sum w) = 65535) as H1 by lia. split.
    + destruct (decide (word_sum w = 0)) as [E|]; [|lia]. by rewrite E in H1.
    + by rewrite <- ones_sum_mod, H1.
  - intros [Hp Hm]. rewrite ones_sum_full; done.
Qed.

(** A checksum stored over the zero it was computed with. *)
Lemma in_cksum_stored pre post :
  Nat.Even (length pre) → Z.of_nat (length pre + 2 + length post) <= 2 ^ 17 →
  in_cksum (pre ++ put_u16 (in_cksum (pre ++ put_u16 0 ++ post)) ++ post) = 0.
Proof.
  intros He Hl.
  assert (∀ w, Z.of_nat (length (pre ++ put_u16 w ++ post)) <= 2 ^ 17) as Hl'.
  { intros w. rewrite !length_app, put_u16_length. lia. }
  pose proof (word_sum_bound pre) as [Hpre _]. pose proof (word_sum_bound post) as [Hpost _].
  rewrite (in_cksum_ones (pre ++ put_u16 0 ++ post)), word_sum_field by (done || lia). rewrite Z.add_0_r.
  set (S := word_sum pre + word_sum post) in *.
  pose proof (ones_sum_range S). pose proof (ones_sum_mod S) as Hm.
  apply in_cksum_zero; [done|]. rewrite word_sum_field by (done || lia).
  replace (word_sum pre + (65535 - ones_sum S) + word_sum post) with (S - ones_sum S + 65535) by lia.
  split.
  - destruct (decide (S = 0)) as [->|]; [done|]. lia.
  - rewrite <- Zplus_mod_idemp_l, Zminus_mod, Hm, Z.sub_diag. done.
Qed.

(** ** The reference *)

(** The 16-bit words of the data; an odd last byte is the low one of its word. *)
Fixpoint words (w : bytes) : list Z :=
  match w with
  | b0 :: b1 :: w => get_u16 [b0; b1] :: words w
  | [b0] => [byte.unsigned b0]
  | [] => []
  end.

(** Addition with the carry brought around to the low end (RFC 1071). *)
Definition ones_add (a b : Z) : Z := if a + b <? 2 ^ 16 then a + b else a + b - 2 ^ 16 + 1.

Lemma ones_add_sum w x : 0 <= w < 2 ^ 16 → 0 <= x → ones_add w (ones_sum x) = ones_sum (w + x).
Proof.
  intros Hw Hx. unfold ones_add, ones_sum. destruct (Z.eqb_spec x 0) as [->|Hx0].
  { rewrite Z.add_0_r. rewrite (proj2 (Z.ltb_lt w (2 ^ 16))) by lia. destruct (Z.eqb_spec w 0); [done|].
    rewrite Z.mod_small; lia. }
  destruct (Z.eqb_spec (w + x) 0); [lia|].
  pose proof (Z.mod_pos_bound (x - 1) 65535 ltac:(lia)) as Hm. pose proof (Z.div_mod (x - 1) 65535 ltac:(lia)) as Hd.
  set (q := (x - 1) / 65535) in *. set (r := (x - 1) mod 65535) in *.
  destruct (Z.ltb_spec (w + (r + 1)) (2 ^ 16)) as [Hlt|Hge].
  - rewrite <- (Z.mod_unique_pos (w + x - 1) 65535 q (w + r)); lia.
  - destruct (decide (w + r - 65535 < 65535)).
    + rewrite <- (Z.mod_unique_pos (w + x - 1) 65535 (q + 1) (w + r - 65535)); lia.
    + rewrite <- (Z.mod_unique_pos (w + x - 1) 65535 (q + 2) (w + r - 131070)); lia.
Qed.

Lemma ones_sum_words data : ones_sum (word_sum data) = foldr ones_add 0 (words data).
Proof.
  induction data as [|b|b0 b1 w IH] using words_ind; cbn [word_sum words foldr]; [done| |].
  - pose proof (byte.unsigned_range b). pose proof (ones_add_sum (byte.unsigned b) 0 ltac:(lia) ltac:(lia)) as E.
    rewrite Z.add_0_r in E. by rewrite <- E.
  - pose proof (word_sum_bound w). rewrite <- IH, ones_add_sum; [done|apply get_u16_range|lia].
Qed.

(** C11: [in_cksum] is the Internet checksum.  For any data of up to 128 KB it
    is the complement of the 16-bit one's complement sum of the words (each carry
    added at the low end), however the 32-bit accumulator folds; data into whose
    zeroed checksum field, at an even offset, it was stored has checksum zero; and
    data that has checksum zero no longer has it when one aligned word is replaced
    by another (0 and 65535 being the same number). *)
Theorem in_cksum_correct data :
  Z.of_nat (length data) <= 2 ^ 17 →
  in_cksum data = 65535 - foldr ones_add 0 (words data) ∧
  ∀ pre w post, Nat.Even (length pre) → 0 <= w < 2 ^ 16 → data = pre ++ put_u16 w ++ post →
    (w = 0 → in_cksum (pre ++ put_u16 (in_cksum data) ++ post) = 0) ∧
    ∀ w', 0 <= w' < 2 ^ 16 → w mod 65535 ≠ w' mod 65535 →
      in_cksum data = 0 → in_cksum (pre ++ put_u16 w' ++ post) ≠ 0.
Proof.
  intros Hl. split; [by rewrite in_cksum_ones, ones_sum_words|]. intros pre w post He Hw ->.
  rewrite !length_app, put_u16_length in Hl. split; [intros ->; apply in_cksum_stored; [done|lia]|].
  assert (∀ w, Z.of_nat (length (pre ++ put_u16 w ++ post)) <= 2 ^ 17) as Hl'.
  { intros v. rewrite !length_app, put_u16_length. lia. }
  intros w' Hw' Hne [_ H1]%in_cksum_zero [_ H2]%in_cksum_zero; try done. apply Hne.
  rewrite word_sum_field in H1, H2 by done.
  apply Z.mod_divide in H1 as [k Hk]; [|done]. apply Z.mod_divide in H2 as [k' Hk']; [|done].
  replace w with (w' + (k - k') * 65535) by lia. apply Z_mod_plus_full.
Qed.

Lemma in_cksum_correct_witness :
  in_cksum (str "odd") = 65535 - foldr ones_add 0 (words (str "odd")) ∧
  in_cksum (str "ab" ++ put_u16 (in_cksum (str "ab" ++ put_u16 0 ++ str "odd")) ++ str "odd") = 0.
Proof.
  split; [apply (proj1 (in_cksum_correct (str "odd") ltac:(vm_compute; congruence)))|].
  refine (proj1 (proj2 (in_cksum_correct (str "ab" ++ put_u16 0 ++ str "odd") ltac:(vm_compute; congruence)) (str "ab") 0
    (str "odd") _ _ eq_refl) eq_refl); [by exists 1%nat|lia].
Defined.
