(* ===== verification/SockText.v ===== *)
(** * Socket addresses as text (unpv13e/lib/sock_ntop.c, sock_ntop_host.c)

    The two functions for every address family, into their static arrays; the
    programs use them for IPv4 addresses, where they agree with the texts their
    models are written with. *)

From Stdlib Require Import Strings.Byte.
From S2P Require Import Prelude.
From S2P Require Import CMem.
From S2P Require Import CText.
From S2P Require Import Inet.
From S2P Require Import Inet6.
From S2P Require Import Hw2Addr.

(** The members of a [struct sockaddr] the functions read. *)
Inductive sockaddr :=
| sockaddr_in (sin_addr : bytes) (sin_port : Z)
| sockaddr_in6 (sin6_addr : bytes) (sin6_port : Z)
| sockaddr_un (sun_path : bytes)
| sockaddr_other (sa_family : Z).

(** [sock_ntop] of an AF_INET address, as the programs' models write it. *)
Definition sock_ntop (a : bytes) (port : Z) : bytes :=
  quad_text a ++ (if port =? 0 then [] else str ":" ++ dec_u port).

(** [static char str[128]] *)
Definition STR_LEN : nat := 128.

(** [snprintf(dst, size, ...)] of a text into the array [dst] at offset 0. *)
Definition snprintf (dst text : bytes) (size : nat) : option bytes := memcpy_at 0 dst (take (size - 1) text ++ [NUL]).

Definition no_path : bytes := str "(no pathname bound)".

(** Where the functions put the text: the array after the call and the offset of
    the pointer returned; [inl] is [NULL]. *)
Abbreviation text_result := (option (unit + bytes * nat)).

Definition at_start (o : option bytes) : text_result := (λ s, inr (s, 0%nat)) <$> o.

(** [strcat(str, portstr)] where [portstr] has eight bytes. *)
Definition add_port (s text : bytes) : option bytes :=
  portstr ← snprintf (zeros 8) text 8; strcat s portstr.

Definition family_text (name : bytes) (s : bytes) (family salen : Z) : option bytes :=
  snprintf s (name ++ str ": unknown AF_xxx: " ++ dec_d family ++ str ", len " ++ dec_d salen) STR_LEN.

Definition path_text (s path : bytes) : option bytes :=
  if bool_decide (head path = Some NUL) then strcpy s no_path else snprintf s (cstr path) STR_LEN.

Definition sock_ntop_sa (s : bytes) (sa : sockaddr) (salen : Z) : text_result :=
  match sa with
  | sockaddr_in a port =>
      r ← inet_ntop AF_INET a s (Z.of_nat STR_LEN);
      match r with
      | inl _ => Some (inl tt)
      | inr s => at_start (if negb (port =? 0) then add_port s (str ":" ++ dec_d port) else Some s)
      end
  | sockaddr_in6 a port =>
      let bracket := byte.of_Z 91 in
      r ← inet_ntop AF_INET6 a (drop 1 s) (Z.of_nat STR_LEN - 1);
      match r with
      | inl _ => Some (inl tt)
      | inr t =>
          if negb (port =? 0) then at_start (add_port (bracket :: t) (str "]:" ++ dec_d port))
          else Some (inr (bracket :: t, 1%nat))
      end
  | sockaddr_un path => at_start (path_text s path)
  | sockaddr_other family => at_start (family_text (str "sock_ntop") s family salen)
  end.

Definition sock_ntop_host_sa (s : bytes) (sa : sockaddr) (salen : Z) : text_result :=
  let address (af : Z) (a : bytes) :=
    r ← inet_ntop af a s (Z.of_nat STR_LEN);
    match r with inl _ => Some (inl tt) | inr s => at_start (Some s) end in
  match sa with
  | sockaddr_in a _ => address AF_INET a
  | sockaddr_in6 a _ => address AF_INET6 a
  | sockaddr_un path => at_start (path_text s path)
  | sockaddr_other family => at_start (family_text (str "sock_ntop_host") s family salen)
  end.

(** The string the caller gets. *)
Definition returned (r : text_result) : option bytes :=
  match r with Some (inr (s, off)) => Some (cstr (drop off s)) | _ => None end.

(** ** Properties *)

Lemma dec_d_nonneg n : 0 <= n → dec_d n = dec_u n.
Proof. intros H. unfold dec_d. by rewrite (proj2 (Z.ltb_ge n 0)). Qed.

Definition is_port (p : Z) : Prop := 0 <= p < 65536.

Lemma dec_loop_short fuel n k :
  0 <= n < 10 ^ Z.of_nat k → (0 < k)%nat → (length (dec_loop fuel n) ≤ k)%nat.
Proof.
  revert n k. induction fuel as [|fuel IH]; intros n k Hn Hk; cbn [dec_loop]; [cbn; lia|].
  destruct (Z.ltb_spec n 10); [cbn; lia|].
  destruct k as [|[|k]]; [lia|change (10 ^ Z.of_nat 1) with 10 in Hn; lia|].
  rewrite length_app. cbn [length]. rewrite (Nat2Z.inj_succ (S k)), Z.pow_succ_r in Hn by lia.
  assert (length (dec_loop fuel (n / 10)) ≤ S k)%nat; [|lia].
  apply IH; [split; [apply Z.div_pos; lia|apply Z.div_lt_upper_bound; lia]|lia].
Qed.

(** A port number after a short prefix is appended to a string with room. *)
Lemma add_port_run s pre p :
  is_port p → no_nul pre → (length pre ≤ 2)%nat → (length (cstr s) + 8 < length s)%nat →
  ∃ s', add_port s (pre ++ dec_d p) = Some s' ∧ cstr s' = cstr s ++ pre ++ dec_u p.
Proof.
  intros Hp Hn Hl Hs. unfold is_port in Hp. rewrite dec_d_nonneg by lia.
  assert (length (dec_u p) ≤ 5)%nat as H5 by (apply dec_loop_short; [cbn; lia|lia]).
  assert (no_nul (pre ++ dec_u p)) as Hno
    by (unfold no_nul; rewrite not_elem_of_app; split; [done|apply dec_u_no_nul; lia]).
  unfold add_port, snprintf. rewrite take_ge by (rewrite length_app; lia).
  unfold memcpy_at. rewrite decide_True by (rewrite !length_app, length_zeros; cbn [length]; lia).
  cbn [mbind option_bind take app]. set (q := (pre ++ dec_u p) ++ [NUL]).
  destruct (strcat_room s (q ++ drop (length q) (zeros 8))) as (s' & E & _ & C).
  { unfold q. rewrite <- app_assoc. cbn [app]. rewrite cstr_app_nul by done. rewrite length_app. lia. }
  exists s'. split; [exact E|]. rewrite C. unfold q. rewrite <- app_assoc. cbn [app].
  by rewrite cstr_app_nul.
Qed.

Lemma returned_start s : returned (at_start (Some s)) = Some (cstr s).
Proof. done. Qed.

(** For an IPv4 address both functions give the text the programs' models use. *)
Lemma sock_ntop_in s a p salen :
  length s = STR_LEN → is_port p →
  returned (sock_ntop_sa s (sockaddr_in a p) salen) = Some (sock_ntop a p) ∧
  returned (sock_ntop_host_sa s (sockaddr_in a p) salen) = Some (quad_text a).
Proof.
  intros Hs Hp. pose proof (quad_text_length a) as Hq. unfold STR_LEN in Hs.
  assert (inet_ntop AF_INET a s (Z.of_nat STR_LEN) =
    Some (inr (quad_text a ++ NUL :: drop (S (length (quad_text a))) s))) as E.
  { change (inet_ntop AF_INET) with inet_ntop4. apply inet_ntop4_fits; unfold STR_LEN; lia. }
  unfold sock_ntop_sa, sock_ntop_host_sa. cbv zeta beta. rewrite E. cbn [mbind option_bind].
  split; [|rewrite returned_start; by rewrite cstr_app_nul by apply quad_text_no_nul].
  unfold sock_ntop. destruct (p =? 0); cbn [negb].
  - rewrite returned_start.
    by rewrite cstr_app_nul, app_nil_r by apply quad_text_no_nul.
  - set (t := quad_text a ++ _). assert (cstr t = quad_text a) as Ct by apply cstr_app_nul, quad_text_no_nul.
    destruct (add_port_run t (str ":") p) as (s' & -> & C);
      [done|by apply (bool_decide_unpack _); vm_compute|cbn; lia| |].
    { rewrite Ct. unfold t. rewrite length_app. cbn [length]. rewrite length_drop. lia. }
    rewrite returned_start. by rewrite C, Ct.
Qed.

(** [sock_ntop_host] does not look at the port. *)
Lemma sock_ntop_host_in s a p salen :
  length s = STR_LEN → sock_ntop_host_sa s (sockaddr_in a p) salen =
    at_start (Some (quad_text a ++ NUL :: drop (S (length (quad_text a))) s)).
Proof.
  intros Hs. pose proof (quad_text_length a) as Hq. unfold STR_LEN in Hs.
  unfold sock_ntop_host_sa. cbv zeta beta. change (inet_ntop AF_INET) with inet_ntop4.
  rewrite inet_ntop4_fits by (unfold STR_LEN; lia). done.
Qed.

(** ** The theorem *)

(** An IPv6 address comes out of [sock_ntop] as text that [inet_pton] reads
    back: alone when the port is zero, else in brackets and followed by the port;
    [sock_ntop_host] leaves the port out. *)
Theorem sock_ntop_in6 s a p salen :
  length s = STR_LEN → length a = IN6ADDRSZ → is_port p →
  ∃ t, inet_pton AF_INET6 (t ++ [NUL]) = (1, Some a) ∧
    returned (sock_ntop_sa s (sockaddr_in6 a p) salen) =
      Some (if p =? 0 then t else str "[" ++ t ++ str "]:" ++ dec_u p) ∧
    returned (sock_ntop_host_sa s (sockaddr_in6 a p) salen) = Some t.
Proof.
  intros Hs Ha Hp. unfold STR_LEN in Hs. destruct (inet_ntop6_run a Ha) as (t & Hn & Hl & Hpt & Hrun).
  exists t. split; [unfold inet_pton; cbn [Z.eqb]; by rewrite Hpt|].
  unfold sock_ntop_sa, sock_ntop_host_sa. cbv zeta beta. change (inet_ntop AF_INET6) with inet_ntop6.
  rewrite !Hrun by (rewrite ?length_drop; unfold STR_LEN; lia). cbn [mbind option_bind].
  split; [|rewrite returned_start; by rewrite cstr_app_nul].
  destruct (p =? 0); cbn [negb].
  - cbn [returned]. change (drop 1 (?x :: ?l)) with l. by rewrite cstr_app_nul.
  - set (u := byte.of_Z 91 :: _). assert (cstr u = str "[" ++ t) as Cu.
    { unfold u. change (byte.of_Z 91 :: t ++ NUL :: drop (S (length t)) (drop 1 s)) with
        ((str "[" ++ t) ++ NUL :: drop (S (length t)) (drop 1 s)). apply cstr_app_nul.
      unfold no_nul. rewrite not_elem_of_app. split; [by apply (bool_decide_unpack _); vm_compute|done]. }
    destruct (add_port_run u (str "]:") p) as (s' & -> & C);
      [done|by apply (bool_decide_unpack _); vm_compute|cbn; lia| |].
    { rewrite Cu. unfold u. cbn [length app]. rewrite !length_app. cbn [length]. rewrite !length_drop. cbn. lia. }
    rewrite returned_start. rewrite C, Cu. by rewrite <- app_assoc.
Qed.

Lemma sock_ntop_in6_witness :
  ∃ t, returned (sock_ntop_sa (zeros 128) (sockaddr_in6 (zeros 16) 80) 28) = Some (str "[" ++ t ++ str "]:" ++ dec_u 80).
Proof.
  destruct (sock_ntop_in6 (zeros 128) (zeros 16) 80 28) as (t & _ & H & _); [done|done|by vm_compute|]. by exists t.
Defined.
