(* ===== verification/Tour.v ===== *)
(** * The tour program (hw4/tour.c, hw4/tour.h, the lookups of hw4/common.c)

    A node keeps the route it last saw, the list of the nodes it pings and the
    counters of its pings.  Its main thread handles route packets, echo replies
    and the multicast that ends the tour; a second thread pings.  Packets,
    frames and reported lines are its outputs. *)

From Stdlib Require Import Strings.Byte.
From S2P Require Import Prelude.
From S2P Require Import CMem.
From S2P Require Import CText.
From S2P Require Import Inet.
From S2P Require Import CFloat.
From S2P Require Import Rtt.
From S2P Require Import Arp.
From S2P Require Import Checksum.
From S2P Require Import SockText.

Definition MAX_ROUTE : nat := 20.
Definition INET_ADDRSTRLEN : nat := 16.
Definition NUM_IPS_PING : nat := 20.
Definition RT_PROTO : byte := byte.of_Z 195.
Definition IPPROTO_ICMP : byte := x01.
Definition MAXTTL : byte := xff.

Record route := mk_route {
  ip_addr : list bytes;       (* char[MAX_ROUTE][INET_ADDRSTRLEN] *)
  rt_index : Z;
  total_size : Z
}.

(** The globals.  [ips_to_ping] has as many pointers as the memory reserved
    for it holds; a pointer is null or points to a block of twenty bytes. *)
Record tour := mk_tour {
  src_vm : bytes;
  src_ip : bytes;             (* char[INET_ADDRSTRLEN] *)
  route_el : route;
  seq_no : Z;                 (* seq *)
  pid : Z;
  keep_pinging : Z;
  ips_to_ping : list (option bytes);
  next_ip_index : nat;
  next_ip_to_ping_index : nat;
  dest_ping_ip : bytes        (* char[INET_ADDRSTRLEN] *)
}.

Inductive tour_out :=
| SendRt (dest packet : bytes)
| SendMcast (text : bytes)
| SendEth (if_index : Z) (frame : bytes)
| AskArp (request : bytes)
| Announce (name addr : bytes)
| Echo (icmplen : Z) (name addr : bytes) (icmp_seq ttl : Z) (sent_ago : timeval) (rtt : spec_float)
| Said (line : bytes).

Abbreviation Tour := (M tour tour_out).

(** ** Layouts *)

Definition i64 (z : Z) : Z := (z + 2 ^ 63) mod 2 ^ 64 - 2 ^ 63.
Definition put_i64 (z : Z) : bytes := le_split 8 z.
Definition get_i64 (b : bytes) : Z := i64 (le_combine b).
(** The two bytes of [htons(z)]. *)
Definition htons_bytes (z : Z) : bytes := rev (put_u16 z).

Definition encode_route (r : route) : bytes :=
  concat (ip_addr r) ++ put_i32 (rt_index r) ++ put_i32 (total_size r).

Definition decode_route (b : bytes) : route :=
  mk_route (map (λ i, slice (i * INET_ADDRSTRLEN) INET_ADDRSTRLEN b) (seq 0 MAX_ROUTE))
    (get_i32 (slice 320 4 b)) (get_i32 (slice 324 4 b)).
Definition sizeof_route : nat := 328.

(** [struct ip]: version 4, header length 5; [len], [id] and [sum] as stored. *)
Definition ip_header (len id : bytes) (p : byte) (sum src dst : bytes) : bytes :=
  [byte.of_Z 69; x00] ++ len ++ id ++ [x00; x00] ++ [MAXTTL; p] ++ sum ++ src ++ dst.
Definition sizeof_ip : nat := 20.

(** The 28 bytes of [struct icmp] with its checksum field and the time. *)
Definition icmp_bytes (type : byte) (sum id sq : Z) (tv : timeval) : bytes :=
  [type; x00] ++ put_u16 sum ++ put_u16 id ++ put_u16 sq ++
  put_i64 (tv_sec tv) ++ put_i64 (tv_usec tv) ++ zeros 4.
Definition sizeof_icmp : Z := 28.

(** [inet_addr]: the address of a dotted-decimal text, INADDR_NONE otherwise. *)
Definition inet_addr (a : bytes) : bytes := default (replicate 4 xff) (inet_pton4 a).

(** [tv_sub] (unpv13e/lib/tv_sub.c) *)
Definition tv_sub (out i : timeval) : timeval :=
  let usec := i64 (tv_usec out - tv_usec i) in
  if usec <? 0 then mk_timeval (i64 (i64 (tv_sec out - 1) - tv_sec i)) (i64 (usec + 1000000))
  else mk_timeval (i64 (tv_sec out - tv_sec i)) usec.

(** One entry of the list [getaddrinfo] gives. *)
Record addrinfo := mk_addrinfo { ai_canonname : option bytes; ai_addr : sockaddr; ai_addrlen : Z }.

(** ** The node *)

(** [ident] is [htons(IDENTIFICATION)] (the address of a string literal);
    [resolve], [host_of] and [lookup] are the resolver: [gethostbyname], the name
    [gethostbyaddr] gives, and [getaddrinfo] of a name with no service and
    AI_CANONNAME, an error or a list; [fresh] is what [malloc] leaves in a block;
    [heap] the rest of a frame. *)
Section tour.
Context (ident : Z) (resolve : bytes → option (list bytes)) (host_of : bytes → option bytes).
Context (lookup : bytes → Z + list addrinfo).
Context (fresh heap : bytes).

Definition set_route (r : route) (s : tour) : tour :=
  mk_tour (src_vm s) (src_ip s) r (seq_no s) (pid s) (keep_pinging s) (ips_to_ping s)
    (next_ip_index s) (next_ip_to_ping_index s) (dest_ping_ip s).
Definition set_list (l : list (option bytes)) (n : nat) (s : tour) : tour :=
  mk_tour (src_vm s) (src_ip s) (route_el s) (seq_no s) (pid s) (keep_pinging s) l
    n (next_ip_to_ping_index s) (dest_ping_ip s).
Definition set_seq (n : Z) (s : tour) : tour :=
  mk_tour (src_vm s) (src_ip s) (route_el s) n (pid s) (keep_pinging s) (ips_to_ping s)
    (next_ip_index s) (next_ip_to_ping_index s) (dest_ping_ip s).
Definition set_announced (n : nat) (s : tour) : tour :=
  mk_tour (src_vm s) (src_ip s) (route_el s) (seq_no s) (pid s) (keep_pinging s) (ips_to_ping s)
    (next_ip_index s) n (dest_ping_ip s).
Definition set_dest (a : bytes) (s : tour) : tour :=
  mk_tour (src_vm s) (src_ip s) (route_el s) (seq_no s) (pid s) (keep_pinging s) (ips_to_ping s)
    (next_ip_index s) (next_ip_to_ping_index s) a.
Definition stop_pinging (s : tour) : tour :=
  mk_tour (src_vm s) (src_ip s) (route_el s) (seq_no s) (pid s) 0 (ips_to_ping s)
    (next_ip_index s) (next_ip_to_ping_index s) (dest_ping_ip s).

(** [get_ip_from_host]: the texts of all addresses, each over the last one. *)
Fixpoint write_texts (text : bytes) (l : list bytes) : option bytes :=
  match l with
  | [] => Some text
  | a :: l => t ← strcpy text (quad_text a); write_texts t l
  end.
Definition get_ip_from_host (host text : bytes) : option bytes :=
  match resolve (cstr host) with
  | None => Some text
  | Some l => write_texts text l
  end.

(** The blocks [main] allocates for the list. *)
Definition store_block (k : nat) : Tour unit :=
  l ← gets ips_to_ping;
  _ ← required BadIndex (l !! k);
  modify (λ s, set_list (<[k := Some fresh]> l) (next_ip_index s) s).
Definition allocate : Tour unit := foreach (seq 0 NUM_IPS_PING) store_block.

Definition int_index (z : Z) : option nat := if 0 <=? z then Some (Z.to_nat z) else None.

Definition send_rt : Tour unit :=
  s ← gets id;
  let r := route_el s in
  dest_ip ← required BadIndex (i ← int_index (rt_index r); ip_addr r !! i);
  let dest := inet_addr dest_ip in
  let header := ip_header [x00; x00] (put_u16 ident) RT_PROTO [x00; x00] (inet_addr (src_ip s)) dest in
  emit (SendRt dest (header ++ encode_route r)).

Definition set_hop (i : nat) (host : bytes) : Tour unit :=
  r ← gets route_el;
  t ← required BadIndex (ip_addr r !! i);
  t' ← required BadCopy (get_ip_from_host host t);
  modify (set_route (mk_route (<[i := t']> (ip_addr r)) (rt_index r) (total_size r))).

(** [argv] includes the program's name. *)
Definition populate_route (argv : list bytes) : Tour unit :=
  vm ← gets src_vm;
  set_hop 0 vm ≫= λ _,
  r ← gets route_el;
  modify (set_route (mk_route (ip_addr r) (rt_index r) (Z.of_nat (length argv)))) ≫= λ _,
  foreach (zip (seq 1 (length argv - 1)) (tail argv)) (λ '(i, host), set_hop i host) ≫= λ _,
  r ← gets route_el;
  modify (set_route (mk_route (ip_addr r) (i32 (rt_index r + 1)) (total_size r))) ≫= λ _,
  send_rt.

Definition send_multicast : Tour unit :=
  vm ← gets src_vm;
  emit (SendMcast (str "<<<< This is " ++ cstr vm ++
    str ". Tour has ended. Group members please identify yourselves >>>>")).

(** 1 if the packet is ours, -1 otherwise. *)
Definition recv_rt (output : bytes) : Tour Z :=
  if negb (get_u16 (slice 4 2 output) =? ident) then mret (-1) else
  let r := decode_route (slice sizeof_ip sizeof_route output) in
  modify (set_route (mk_route (ip_addr r) (i32 (rt_index r + 1)) (total_size r))) ≫= λ _,
  mret 1.

(** The loop over the list: whether [add_ip_to_ping] returns in it. *)
Fixpoint ping_known (own a : bytes) (k : nat) (l : list (option bytes)) : option bool :=
  match k with
  | O => Some false
  | S k =>
      match l with
      | Some b :: l => if streq a b then Some true else if streq own a then Some true else ping_known own a k l
      | _ => None
      end
  end.

Definition add_ip_to_ping (a : bytes) : Tour unit :=
  s ← gets id;
  known ← required BadIndex (ping_known (src_ip s) a (next_ip_index s) (ips_to_ping s));
  if (known : bool) then mret tt else
  p ← required BadIndex (ips_to_ping s !! next_ip_index s);
  b ← required NullPointer p;
  b' ← required BadCopy (strcpy b a);
  modify (set_list (<[next_ip_index s := Some b']> (ips_to_ping s)) (S (next_ip_index s))).

(** [set_icmp]: the request with its checksum over the 24 bytes in use. *)
Definition set_icmp (now : timeval) : Tour bytes :=
  s ← gets id;
  let sq := u16 (seq_no s + 1) in
  let sum := in_cksum (take 24 (icmp_bytes x08 0 (pid s) sq now)) in
  modify (set_seq (i32 (seq_no s + 1))) ≫= λ _,
  mret (icmp_bytes x08 sum (pid s) sq now).

Definition ping_header (src dst : bytes) : bytes :=
  let h sum := ip_header (htons_bytes (sizeof_icmp + sizeof_icmp)) [x00; x00] IPPROTO_ICMP (put_u16 sum) src dst in
  h (in_cksum (h 0)).

Definition send_ping_request (dst_mac src_mac source dest_ip : bytes) (if_index : Z) (now : timeval) : Tour unit :=
  icmp ← set_icmp now;
  emit (SendEth if_index (take 6 dst_mac ++ take 6 src_mac ++ [x08; x00] ++
    ping_header (inet_addr source) (inet_addr dest_ip) ++ icmp ++ heap)).

(** [rtt = tv_sec * 1000.0 + tv_usec / 1000.0] *)
Definition rtt_ms (tv : timeval) : spec_float :=
  f64_add (f64_mul (f64_of_Z (tv_sec tv)) (f64_of_Z 1000)) (f64_div (f64_of_Z (tv_usec tv)) (f64_of_Z 1000)).

(** [Host_serv(name, NULL, 0, 0)] (unpv13e/lib/host_serv.c); the programs use
    the head of the list. *)
Definition Host_serv (name : bytes) : Tour addrinfo :=
  match lookup name with
  | inl _ => exit 1
  | inr res => required NullPointer (head res)
  end.

(** [Sock_ntop_host] (unpv13e/lib/sock_ntop_host.c) *)
Definition Sock_ntop_host (ai : addrinfo) : Tour bytes :=
  match sock_ntop_host_sa (zeros STR_LEN) (ai_addr ai) (ai_addrlen ai) with
  | None => fail BadCopy
  | Some (inl _) => exit 1
  | Some (inr (s, off)) => mret (cstr (drop off s))
  end.

(** The name and the address to print for the address with the text [a]: it is
    looked up for its name, and the name for an address. *)
Definition find_host (a : bytes) : Tour (option bytes * bytes) :=
  ipv4addr ← required Unset (inet_pton4 a);
  h_name ← required NullPointer (host_of ipv4addr);
  ai ← Host_serv h_name;
  h ← Sock_ntop_host ai;
  mret (ai_canonname ai, h).

Definition proc_v4 (ptr : bytes) (len : Z) (tvrecv : timeval) (from : bytes) : Tour unit :=
  s ← gets id;
  let hlen1 := Z.shiftl (Z.land (le_combine (slice 0 1 ptr)) 15) 2 in
  let icmplen := len - hlen1 in
  if icmplen <? 8 then exit 1 else
  let icmp := drop (Z.to_nat hlen1) ptr in
  if bool_decide (slice 0 1 icmp = [x00]) then
    if negb (get_u16 (slice 4 2 icmp) =? pid s) then mret tt
    else if icmplen <? 16 then exit 1 else
    let tvsend := mk_timeval (get_i64 (slice 8 8 icmp)) (get_i64 (slice 16 8 icmp)) in
    let tv := tv_sub tvrecv tvsend in
    f ← find_host from;
    name ← required NullPointer f.1;
    emit (Echo icmplen name f.2 (get_u16 (slice 6 2 icmp)) (le_combine (slice 8 1 ptr)) tv (rtt_ms tv))
  else mret tt.

(** [get_host_from_ip]: copied into an array of [length host]. *)
Definition get_host_from_ip (a host : bytes) : Tour bytes :=
  ipv4addr ← required Unset (inet_pton4 a);
  match host_of ipv4addr with
  | None => mret host
  | Some name => required BadCopy (strcpy host name)
  end.

(** What [Select] found in one turn of [main]'s loop: a route packet with its
    sender, a ping packet with the time read after it, a multicast. *)
Record ready := mk_ready {
  on_rt : option (bytes * bytes);
  on_ping : option (bytes * timeval);
  on_udp : option bytes
}.

(** [Recvfrom] into [output]: the first bytes are replaced. *)
Definition received (output d : bytes) : bytes := d ++ drop (length d) output.

Definition rt_ready (output : bytes) (from d : bytes) : Tour bytes :=
  let output := received output d in
  r ← recv_rt output;
  (if 0 <? r then
     dest ← gets dest_ping_ip;
     dest' ← required BadCopy (strcpy dest (sock_ntop from 0));
     modify (set_dest dest') ≫= λ _,
     add_ip_to_ping dest' ≫= λ _,
     rt ← gets route_el;
     if total_size rt <=? rt_index rt then send_multicast else send_rt
   else mret tt) ≫= λ _, mret output.

Definition ping_ready (output d : bytes) (tval : timeval) : Tour bytes :=
  let output := received output d in
  s ← gets id;
  (if get_u16 (slice 4 2 (slice sizeof_ip 28 output)) =? pid s then
     let from := quad_text (slice 12 4 output) in
     get_host_from_ip from (zeros 20) ≫= λ _,
     proc_v4 output (Z.of_nat (length d)) tval from
   else mret tt) ≫= λ _, mret output.

Definition udp_ready (output d : bytes) : Tour unit :=
  let output := received output d in
  vm ← gets src_vm;
  emit (Said (str "Node " ++ cstr vm ++ str ". Received : " ++ cstr output)) ≫= λ _,
  emit (Said (str "Node " ++ cstr vm ++ str ". I am a member of this group.")) ≫= λ _,
  emit (Said (str "Node " ++ cstr vm ++ str ". Sending : <<<<This is node " ++ cstr vm ++
              str ". Tour has ended.>>>>>")) ≫= λ _,
  modify stop_pinging.

(** One turn; [true] is the [break]. *)
Definition tour_turn (e : ready) : Tour bool :=
  let output := zeros (Z.to_nat MAXLINE) in
  output ← (match on_rt e with Some (from, d) => rt_ready output from d | None => mret output end : Tour bytes);
  output ← (match on_ping e with Some (d, tval) => ping_ready output d tval | None => mret output end : Tour bytes);
  match on_udp e with
  | Some d => udp_ready output d ≫= λ _, mret true
  | None => mret false
  end.

(** [main]'s loop, for what [Select] finds turn after turn. *)
Fixpoint tour_loop (es : list ready) : Tour unit :=
  match es with
  | [] => mret tt
  | e :: es => stop ← tour_turn e; if (stop : bool) then mret tt else tour_loop es
  end.

(** [areq]: the request written to the local daemon, for its [reply]. *)
Definition call_areq (a : bytes) (reply : option bytes) : Tour hwaddr :=
  emit (AskArp (areq_request a)) ≫= λ _, mret (areq reply).1.

(** The daemon's answers in one step of the pinging thread, for the address
    pinged and for the node's own. *)
Record answers := mk_answers { for_dest : option bytes; for_own : option bytes }.

(** The body of the pinging thread's loop for the [k]-th address; [time] is the
    clock. *)
Definition ping_one (arpd : answers) (time : timeval) (k : nat) : Tour unit :=
  s ← gets id;
  p ← required BadIndex (ips_to_ping s !! k);
  a ← required NullPointer p;
  dest_hwaddr ← call_areq a (for_dest arpd);
  src_hwaddr ← call_areq (src_ip s) (for_own arpd);
  (if (next_ip_to_ping_index s <? next_ip_index s)%nat then
     q ← required BadIndex (ips_to_ping s !! next_ip_to_ping_index s);
     b ← required NullPointer q;
     f ← find_host b;
     emit (Announce (default f.2 f.1) f.2) ≫= λ _,
     modify (set_announced (S (next_ip_to_ping_index s)))
   else mret tt) ≫= λ _,
  send_ping_request (sll_addr dest_hwaddr) (sll_addr src_hwaddr) (src_ip s) a (sll_ifindex src_hwaddr) time.

(** One pass over the list, as long as it was at the start. *)
Definition ping_round (arpd : nat → answers) (times : nat → timeval) : Tour unit :=
  idx ← gets next_ip_index;
  foreach (seq 0 idx) (λ k, ping_one (arpd k) (times k) k).

(** [main] up to its loop. *)
Definition tour_start (hostname : bytes) (argv : list bytes) : Tour unit :=
  allocate ≫= λ _,
  s ← gets id;
  a ← required BadCopy (get_ip_from_host hostname (src_ip s));
  modify (λ s, mk_tour hostname a (route_el s) (seq_no s) (pid s) (keep_pinging s) (ips_to_ping s)
    (next_ip_index s) (next_ip_to_ping_index s) (dest_ping_ip s)) ≫= λ _,
  when (1 <? Z.of_nat (length argv)) (populate_route argv).
End tour.

(** The globals before [main], with [room] pointers at [ips_to_ping]. *)
Definition tour_zero (room : nat) (process : Z) : tour :=
  mk_tour (zeros 10) (zeros INET_ADDRSTRLEN)
    (mk_route (replicate MAX_ROUTE (zeros INET_ADDRSTRLEN)) 0 0) 0 (Z.land process 65535) 1
    (replicate room None) 0 0 (zeros INET_ADDRSTRLEN).
