(* ===== verification/TourProps.v ===== *)
(** * The tour and the pings (properties of hw4/tour.c) *)

From Stdlib Require Import Strings.Byte.
From S2P Require Import Prelude.
From S2P Require Import CMem.
From S2P Require Import CText.
From S2P Require Import Inet.
From S2P Require Import Rtt.
From S2P Require Import Arp.
From S2P Require Import Checksum.
From S2P Require Import SockText.
From S2P Require Import Tour.

(** ** Route packets *)

Record route_ok (r : route) : Prop := {
  ro_size : length (ip_addr r) = MAX_ROUTE;
  ro_texts : Forall (λ t, length t = INET_ADDRSTRLEN) (ip_addr r);
  ro_index : is_i32 (rt_index r);
  ro_total : is_i32 (total_size r)
}.

Lemma length_concat_texts n (l : list bytes) :
  Forall (λ t, length t = n) l → length (concat l) = (length l * n)%nat.
Proof. induction 1 as [|t l Ht _ IH]; cbn; [done|]. rewrite length_app, Ht, IH. done. Qed.

(** The [i]-th element of an array of arrays of [n] bytes. *)
Lemma slice_concat n (l : list bytes) i t rest :
  Forall (λ t, length t = n) l → l !! i = Some t → slice (i * n) n (concat l ++ rest) = t.
Proof.
  intros Hl. revert i. induction Hl as [|u l Hu _ IH]; intros i Hi; [done|]. cbn [concat].
  rewrite <- app_assoc. destruct i as [|i]; cbn in Hi.
  - injection Hi as ->. by apply slice_here.
  - rewrite (slice_later n) by (done || lia). replace (S i * n - n)%nat with (i * n)%nat by lia. by apply IH.
Qed.

Lemma decode_encode_route r : route_ok r → decode_route (encode_route r) = r.
Proof.
  intros [Hs Ht Hi Htot]. destruct r as [l i t]. cbn in *. unfold decode_route, encode_route.
  cbn [ip_addr rt_index total_size].
  assert (length (concat l) = 320%nat) as Hc by by rewrite (length_concat_texts _ _ Ht), Hs.
  f_equal.
  - apply list_eq. intros k. rewrite list_lookup_fmap.
    destruct (l !! k) as [u|] eqn:Hk.
    + rewrite lookup_seq_lt by (rewrite <- Hs; by eapply lookup_lt_Some). cbn [fmap option_fmap option_map].
      f_equal. by apply slice_concat.
    + apply lookup_ge_None in Hk. rewrite lookup_seq_ge by lia. done.
  - rewrite (slice_later 320) by (done || lia). cbn [Nat.sub]. rewrite slice_here by apply put_i32_length.
    by apply get_put_i32.
  - rewrite (slice_later 320) by (done || lia). cbn [Nat.sub].
    rewrite (slice_later 4) by (apply put_i32_length || lia). cbn [Nat.sub].
    rewrite slice_all by apply put_i32_length. by apply get_put_i32.
Qed.

Lemma length_encode_route r : route_ok r → length (encode_route r) = sizeof_route.
Proof.
  intros [Hs Ht _ _]. unfold encode_route.
  rewrite !length_app, !put_i32_length, (length_concat_texts _ _ Ht), Hs. done.
Qed.

(** ** The list of nodes to ping *)

(** The twenty blocks of the list are there; behind them there is nothing. *)
Record ping_ok (s : tour) : Prop := {
  po_blocks : ∀ k, (k < NUM_IPS_PING)%nat → ∃ b, ips_to_ping s !! k = Some (Some b) ∧ length b = 20%nat;
  po_end : ∀ k p, (NUM_IPS_PING ≤ k)%nat → ips_to_ping s !! k = Some p → p = None;
  po_next : (next_ip_index s ≤ NUM_IPS_PING)%nat
}.

(** The addresses of the list are in the array. *)
Definition listed (s : tour) : Prop :=
  ∀ k, (k < next_ip_index s)%nat → ∃ b, ips_to_ping s !! k = Some (Some b).

Lemma ping_ok_listed s : ping_ok s → listed s.
Proof. intros [Hb _ Hn] k Hk. destruct (Hb k) as (b & Hk' & _); [lia|]. by exists b. Qed.

(** The addresses in the list. *)
Definition texts (l : list (option bytes)) : list bytes := map (λ p, cstr (default [] p)) l.
Definition pinged (s : tour) : list bytes := texts (take (next_ip_index s) (ips_to_ping s)).

(** Whether an address is left out of the list [l] by the node [own]. *)
Definition left_out (own a : bytes) (l : list bytes) : bool :=
  bool_decide (a ∈ l) || (bool_decide (a = own) && negb (bool_decide (l = []))).

Lemma left_out_nil own a : left_out own a [] = false.
Proof. unfold left_out. repeat case_bool_decide; cbn; try done; set_solver. Qed.

Lemma ping_known_spec own a k l :
  (∀ j, (j < k)%nat → ∃ b, l !! j = Some (Some b)) →
  ping_known own a k l = Some (left_out (cstr own) (cstr a) (texts (take k l))).
Proof.
  revert l. induction k as [|k IH]; intros l Hl; [by rewrite left_out_nil|].
  destruct (Hl 0%nat ltac:(lia)) as (b & H0). destruct l as [|p l]; [done|]. cbn in H0. injection H0 as ->.
  - cbn [ping_known take texts map default]. fold (texts (take k l)).
    rewrite IH by (intros j Hj; apply (Hl (S j)); lia). unfold left_out, streq. cbn [from_option id].
    repeat case_bool_decide; cbn; try done; try set_solver; congruence.
Qed.

Lemma texts_app l l' : texts (l ++ l') = texts l ++ texts l'.
Proof. apply map_app. Qed.

Lemma add_ip_run a s :
  ping_ok s → fits 20 a → (next_ip_index s < NUM_IPS_PING)%nat →
  ∃ l n, add_ip_to_ping a s = ([], Ret tt (set_list l n s)) ∧ ping_ok (set_list l n s) ∧
    (n ≤ S (next_ip_index s))%nat ∧
    pinged (set_list l n s) =
      if left_out (cstr (src_ip s)) (cstr a) (pinged s) then pinged s else pinged s ++ [cstr a].
Proof.
  intros Hp0 Hfit Hroom. pose proof (ping_ok_listed s Hp0) as Hls. destruct Hp0 as [Hb He Hn].
  unfold add_ip_to_ping, mbind, M_bind, gets. cbn [id].
  rewrite ping_known_spec by exact Hls. fold (pinged s). cbn [required mret M_ret app].
  destruct (left_out _ _ _) eqn:Hlo.
  - exists (ips_to_ping s), (next_ip_index s). destruct s; cbn. split_and!; try done. lia.
  - destruct (Hb (next_ip_index s) Hroom) as (b & Hp & Lb). apply lookup_lt_Some in Hp as Hlt.
    destruct (strcpy_room b a) as (b' & Eb & Lb' & Cb); [by rewrite Lb|].
    exists (<[next_ip_index s := Some b']> (ips_to_ping s)), (S (next_ip_index s)).
    rewrite Hp. cbn [required mret M_ret app]. rewrite Eb. cbn [required mret M_ret app modify].
    split; [done|]. split; [|split; [done|]].
    + split; cbn [set_list ips_to_ping next_ip_index]; [|intros k p Hk; rewrite list_lookup_insert_ne by lia; by apply He|lia].
      intros k Hk. destruct (decide (k = next_ip_index s)) as [->|Hne].
      * exists b'. by rewrite list_lookup_insert_eq, Lb'.
      * rewrite list_lookup_insert_ne by done. by apply Hb.
    + unfold pinged. cbn [set_list ips_to_ping next_ip_index].
      rewrite (take_S_r _ _ (Some b')) by (by apply list_lookup_insert_eq).
      rewrite take_insert_ge by lia. rewrite texts_app. cbn. by rewrite Cb.
Qed.

(** ** One hop *)

Lemma inet_addr_text t q :
  is_addr q → length t = INET_ADDRSTRLEN → cstr t = quad_text q → inet_addr t = q.
Proof.
  intros Hq Hl Hc. unfold inet_addr. pose proof (quad_text_length q).
  rewrite (cstr_split t) by (rewrite Hc, Hl; unfold INET_ADDRSTRLEN; lia).
  rewrite Hc. by rewrite pton4_quad_text.
Qed.

Section hops.
Context (ident : Z) (host_of : bytes → option bytes) (lookup : bytes → Z + list addrinfo).
Hypothesis ident_u16 : 0 <= ident < 2 ^ 16.

(** A node that can take [k] more addresses into its list. *)
Record node_ok (k : nat) (s : tour) : Prop := {
  no_ping : ping_ok s;
  no_room : (next_ip_index s + k ≤ NUM_IPS_PING)%nat;
  no_dest : length (dest_ping_ip s) = INET_ADDRSTRLEN
}.

(** The packet [send_rt] makes. *)
Definition rt_packet (source dest : bytes) (r : route) : bytes :=
  ip_header [x00; x00] (put_u16 ident) RT_PROTO [x00; x00] source dest ++ encode_route r.

(** The packet [d] on the wire is [p] but for what the kernel fills in. *)
Definition delivered (p d : bytes) : Prop :=
  length d = length p ∧ slice 4 2 d = slice 4 2 p ∧ drop sizeof_ip d = drop sizeof_ip p.

Lemma rt_packet_id source dest r : slice 4 2 (rt_packet source dest r) = put_u16 ident.
Proof. unfold rt_packet, ip_header. cbn [app]. unfold slice. cbn [drop]. pose proof (put_u16_length ident) as H.
  destruct (put_u16 ident) as [|a [|b [|]]]; try done. Qed.

Lemma rt_packet_route source dest r :
  is_addr source → is_addr dest → drop sizeof_ip (rt_packet source dest r) = encode_route r.
Proof.
  intros Hs Hd. unfold rt_packet. rewrite drop_app_length'; [done|].
  unfold ip_header. rewrite !length_app, put_u16_length, Hs, Hd. done.
Qed.

Lemma recv_rt_ours p d source dest r s :
  p = rt_packet source dest r → is_addr source → is_addr dest → route_ok r → delivered p d →
  recv_rt ident (received (zeros (Z.to_nat MAXLINE)) d) s =
    ([], Ret 1 (set_route (mk_route (ip_addr r) (i32 (rt_index r + 1)) (total_size r)) s)).
Proof.
  intros -> Hs Hd Hr (Hl & Hid & Hbody). unfold recv_rt, received.
  assert (length d = 348%nat) as Hld.
  { rewrite Hl. unfold rt_packet, ip_header.
    rewrite !length_app, put_u16_length, Hs, Hd, (length_encode_route r Hr). done. }
  assert (∀ o n rest, (o + n ≤ 348)%nat → slice o n (d ++ rest) = slice o n d) as Hsl.
  { intros o n rest H. unfold slice. rewrite drop_app_le by lia. rewrite take_app_le; [done|].
    rewrite length_drop. lia. }
  rewrite !Hsl by (vm_compute; lia). rewrite Hid, rt_packet_id, get_put_u16, Z.eqb_refl by done. cbn [negb].
  assert (slice sizeof_ip sizeof_route d = encode_route r) as ->.
  { unfold slice. rewrite Hbody, rt_packet_route by done.
    by rewrite firstn_all2 by by rewrite length_encode_route. }
  by rewrite decode_encode_route.
Qed.

(** What a node sends on after the route [r] (its index already advanced). *)
Definition passes_on (s : tour) (r : route) : list tour_out :=
  if total_size r <=? rt_index r then
    [SendMcast (str "<<<< This is " ++ cstr (src_vm s) ++
       str ". Tour has ended. Group members please identify yourselves >>>>")]
  else
    let dest := inet_addr (nth (Z.to_nat (rt_index r)) (ip_addr r) []) in
    [SendRt dest (rt_packet (inet_addr (src_ip s)) dest r)].

Lemma send_rt_run s :
  route_ok (route_el s) → 0 <= rt_index (route_el s) < 20 →
  let dest := inet_addr (nth (Z.to_nat (rt_index (route_el s))) (ip_addr (route_el s)) []) in
  send_rt ident s = ([SendRt dest (rt_packet (inet_addr (src_ip s)) dest (route_el s))], Ret tt s).
Proof.
  intros Hr Hi. unfold send_rt, mbind, M_bind, gets. cbn [id]. unfold int_index.
  rewrite (proj2 (Z.leb_le 0 _)) by lia. cbn [option_bind].
  destruct (lookup_lt_is_Some_2 (ip_addr (route_el s)) (Z.to_nat (rt_index (route_el s)))) as [t Ht].
  { rewrite (ro_size _ Hr). unfold MAX_ROUTE. lia. }
  rewrite Ht. cbn [required mret M_ret]. rewrite (nth_lookup_Some _ _ _ _ Ht). done.
Qed.

Lemma sock_ntop_fits from : fits INET_ADDRSTRLEN (sock_ntop from 0).
Proof.
  unfold fits, sock_ntop. rewrite app_nil_r, (cstr_id _ (quad_text_no_nul from)).
  pose proof (quad_text_length from). unfold INET_ADDRSTRLEN. lia.
Qed.

Lemma cstr_sock_ntop from : cstr (sock_ntop from 0) = quad_text from.
Proof. unfold sock_ntop. rewrite app_nil_r. apply cstr_id, quad_text_no_nul. Qed.

(** A route packet makes a node add its sender to the list, advance the route
    and pass it on. *)
Lemma hop source dest from r d k s :
  is_addr source → is_addr dest → route_ok r → 0 <= rt_index r < 20 → total_size r <= 20 →
  delivered (rt_packet source dest r) d → node_ok (S k) s →
  let r' := mk_route (ip_addr r) (rt_index r + 1) (total_size r) in
  ∃ s', tour_turn ident host_of lookup (mk_ready (Some (from, d)) None None) s =
      (passes_on s r', Ret false s') ∧ node_ok k s' ∧ route_el s' = r' ∧
      src_ip s' = src_ip s ∧ src_vm s' = src_vm s ∧
      pinged s' = if left_out (cstr (src_ip s)) (quad_text from) (pinged s) then pinged s
                  else pinged s ++ [quad_text from].
Proof.
  intros Hsrc Hdst Hr Hi Htot Hd [Hp Hk Hl] r'.
  set (s1 := set_route r' s).
  destruct (strcpy_room (dest_ping_ip s) (sock_ntop from 0)) as (t & Et & Lt & Ct).
  { rewrite Hl. apply sock_ntop_fits. }
  rewrite cstr_sock_ntop in Ct. set (s2 := set_dest t s1).
  destruct (add_ip_run t s2) as (l & n & Hadd & Hp' & Hn & Hl').
  { destruct Hp. by split. } { unfold fits. rewrite Ct. pose proof (quad_text_length from). lia. }
  { cbn. lia. }
  set (s3 := set_list l n s2) in *. exists s3.
  assert (route_ok r') as Hr' by (destruct Hr; split; try done; unfold is_i32; cbn; lia).
  split; [|split; [split; [done|cbn in *; lia|cbn; by rewrite Lt]|]].
  - unfold tour_turn. cbn [on_rt on_ping on_udp]. unfold rt_ready.
    unfold mbind, M_bind. rewrite (recv_rt_ours _ d source dest r s eq_refl Hsrc Hdst Hr Hd).
    rewrite i32_small by (unfold is_i32; lia). fold r'. fold s1.
    change (0 <? 1) with true. cbv iota. unfold gets at 1. cbn [dest_ping_ip s1 set_route].
    rewrite Et. cbn [required mret M_ret modify]. fold s2. rewrite Hadd. fold s3.
    cbn [gets]. change (route_el s3) with r'. unfold passes_on.
    destruct (Z.leb_spec (total_size r') (rt_index r')) as [_|Hlt]; cbn [total_size rt_index r'] in *.
    + done.
    + pose proof (send_rt_run s3) as Hsend. change (route_el s3) with r' in Hsend.
      cbv zeta in Hsend. rewrite Hsend by (done || cbn; lia). done.
  - split_and!; try done. rewrite <- Ct. exact Hl'.
Qed.
End hops.
