(* ===== verification/TourNet.v ===== *)
(** * A tour through its nodes (properties of hw4/tour.c)

    The nodes are run one after the other, each on the packet the previous one
    sent: the order in which the program itself sequences them, since a node
    sends the route on only after it received it. *)

From Stdlib Require Import Strings.Byte.
From stdpp Require Import functions.
From S2P Require Import Prelude.
From S2P Require Import CMem.
From S2P Require Import CText.
From S2P Require Import Inet.
From S2P Require Import Rtt.
From S2P Require Import Arp.
From S2P Require Import SockText.
From S2P Require Import Tour.
From S2P Require Import TourProps.

Section net.
Context (ident : Z) (host_of : bytes → option bytes) (lookup : bytes → Z + list addrinfo).
Hypothesis ident_u16 : 0 <= ident < 2 ^ 16.
(** What the network makes of a packet: the kernel fills in the length and the
    checksum of the header. *)
Context (wire : bytes → bytes).
Hypothesis wire_delivers : ∀ p, delivered p (wire p).

(** Follow a route packet from node to node, at most [n] of them: the nodes
    visited, what the last one sent, and all nodes afterwards. *)
Fixpoint follow (n : nat) (nodes : bytes → tour) (from dest p : bytes) :
    option (list bytes * list tour_out * (bytes → tour)) :=
  match n with
  | O => None
  | S n =>
      match tour_turn ident host_of lookup (mk_ready (Some (from, wire p)) None None) (nodes dest) with
      | ([SendRt d p'], Ret false s') =>
          '(visited, o, nodes') ← follow n (<[dest := s']> nodes) dest d p';
          Some (dest :: visited, o, nodes')
      | (o, Ret false s') => Some ([dest], o, <[dest := s']> nodes)
      | _ => None
      end
  end.

(** The route [r] has the texts of the addresses [qs]. *)
Definition holds (r : route) (qs : list bytes) : Prop :=
  ∀ j q, qs !! j = Some q → is_addr q ∧ ∃ t, ip_addr r !! j = Some t ∧ cstr t = quad_text q.

Lemma holds_dest r qs j q :
  route_ok r → holds r qs → qs !! j = Some q → inet_addr (nth j (ip_addr r) []) = q.
Proof.
  intros Hr Hh Hj. destruct (Hh j q Hj) as (Hq & t & Ht & Hc).
  rewrite (nth_lookup_Some _ _ _ _ Ht). apply inet_addr_text; [done| |done].
  exact (Forall_lookup_1 _ _ _ _ (ro_texts _ Hr) Ht).
Qed.

(** What the last node of a tour sends. *)
Definition farewell (s : tour) : list tour_out :=
  [SendMcast (str "<<<< This is " ++ cstr (src_vm s) ++
     str ". Tour has ended. Group members please identify yourselves >>>>")].

Definition adjacent (l : list bytes) (a b : bytes) : Prop :=
  ∃ j, l !! j = Some a ∧ l !! S j = Some b.

Lemma left_out_in own a l : a ≠ own → a ∈ (if left_out own a l then l else l ++ [a]).
Proof.
  intros Hne. unfold left_out. destruct (bool_decide (a ∈ l)) eqn:E; cbn.
  - by apply bool_decide_eq_true in E.
  - rewrite (bool_decide_eq_false_2 (a = own)) by done. cbn. set_solver.
Qed.

Lemma left_out_mono own a l x : x ∈ l → x ∈ (if left_out own a l then l else l ++ [a]).
Proof. destruct (left_out _ _ _); set_solver. Qed.

Lemma drop_head {A} (l : list A) i x rest :
  drop i l = x :: rest → l !! i = Some x ∧ length l = (i + S (length rest))%nat ∧ drop (S i) l = rest.
Proof.
  intros H. split; [|split].
  - rewrite <- (Nat.add_0_r i), <- lookup_drop. by rewrite H.
  - pose proof (f_equal length H) as Hl. rewrite length_drop in Hl. cbn in Hl. lia.
  - rewrite <- Nat.add_1_r, <- drop_drop, H. done.
Qed.

Lemma pinged_grows (nodes : bytes → tour) dest s' own a :
  pinged s' = (if left_out own a (pinged (nodes dest)) then pinged (nodes dest) else pinged (nodes dest) ++ [a]) →
  ∀ q x, x ∈ pinged (nodes q) → x ∈ pinged (<[dest := s']> nodes q).
Proof.
  intros Hp q x Hx. destruct (decide (q = dest)) as [->|Hne].
  - rewrite fn_lookup_insert, Hp. by apply left_out_mono.
  - by rewrite fn_lookup_insert_ne.
Qed.

Lemma farewell_insert (nodes : bytes → tour) dest s' q :
  src_vm s' = src_vm (nodes dest) → farewell (<[dest := s']> nodes q) = farewell (nodes q).
Proof.
  intros H. unfold farewell. destruct (decide (q = dest)) as [->|Hne].
  - by rewrite fn_lookup_insert, H.
  - by rewrite fn_lookup_insert_ne.
Qed.

Lemma follow_run qs rest r nodes from dest source :
  holds r qs → route_ok r → total_size r = Z.of_nat (length qs) → (length qs ≤ 20)%nat →
  0 <= rt_index r → drop (Z.to_nat (rt_index r)) qs = dest :: rest → is_addr source →
  (∀ q, q ∈ qs → node_ok (S (length rest)) (nodes q) ∧ length (src_ip (nodes q)) = INET_ADDRSTRLEN ∧
                 cstr (src_ip (nodes q)) = quad_text q) →
  ∃ nodes', follow (S (length rest)) nodes from dest (rt_packet ident source dest r) =
      Some (dest :: rest, farewell (nodes (List.last (dest :: rest) [])), nodes') ∧
    (∀ q x, x ∈ pinged (nodes q) → x ∈ pinged (nodes' q)) ∧
    (∀ a b, adjacent (from :: dest :: rest) a b → quad_text a ≠ quad_text b →
            quad_text a ∈ pinged (nodes' b)).
Proof.
  revert r nodes from dest source. induction rest as [|d2 rest IH];
    intros r nodes from dest source Hh Hr Ht Hn Hi Hdrop Hsrc Hnodes;
    pose proof (drop_head qs _ _ _ Hdrop) as (Hdest & Hlen & Hrest); cbn [length] in Hlen;
    destruct (Hnodes dest) as (Hok & Hsl & Hsc); try (by eapply list_elem_of_lookup_2);
    destruct (Hh _ _ Hdest) as [Hda _];
    destruct (hop ident host_of lookup ident_u16 source dest from r (wire (rt_packet ident source dest r))
                _ (nodes dest) Hsrc Hda Hr ltac:(lia) ltac:(lia) (wire_delivers _) Hok)
      as (s' & Hturn & Hok' & Hroute & Hip & Hvm & Hpg).
  - exists (<[dest := s']> nodes). cbn [follow length]. rewrite Hturn. unfold passes_on.
    cbn [total_size rt_index]. rewrite (proj2 (Z.leb_le _ _)) by lia. split; [done|].
    split; [by eapply pinged_grows|].
    intros a b (j & Ha & Hb) Hne. destruct j as [|[|j]]; try done. cbn in Ha, Hb. simplify_eq.
    rewrite fn_lookup_insert, Hpg. apply left_out_in. by rewrite Hsc.
  - set (r' := mk_route (ip_addr r) (rt_index r + 1) (total_size r)) in *.
    destruct (IH r' (<[dest := s']> nodes) dest d2 (inet_addr (src_ip (nodes dest))))
      as (nodes' & Hf & Hmono & Hadj); try done.
    + destruct Hr. split; try done. unfold is_i32. cbn. lia.
    + cbn. lia.
    + cbn. by replace (Z.to_nat (rt_index r + 1)) with (S (Z.to_nat (rt_index r))) by lia.
    + by rewrite (inet_addr_text _ dest).
    + intros q Hq. destruct (Hnodes q Hq) as (Hq1 & Hq2 & Hq3). destruct (decide (q = dest)) as [->|Hne].
      * rewrite fn_lookup_insert, Hip. done.
      * rewrite fn_lookup_insert_ne by done. split; [|done]. destruct Hq1 as [? Hroom ?]. cbn [length] in Hroom. split; [done|lia|done].
    + exists nodes'. split; [|split].
      * cbn [length]. remember (S (length rest)) as n. cbn [follow]. rewrite Hturn.
        unfold passes_on. cbn [total_size rt_index r'].
        rewrite (proj2 (Z.leb_gt _ _)) by lia.
        replace (Z.to_nat (rt_index r + 1)) with (S (Z.to_nat (rt_index r))) by lia.
        assert (qs !! S (Z.to_nat (rt_index r)) = Some d2) as Hd2.
        { rewrite <- (Nat.add_0_r (S _)), <- lookup_drop. by rewrite Hrest. }
        cbv zeta. change (ip_addr r') with (ip_addr r). rewrite (holds_dest r qs _ d2 Hr Hh Hd2).
        rewrite Hf. cbn [mbind option_bind].
        do 3 f_equal. by apply farewell_insert.
      * intros q x Hx. apply Hmono. by eapply pinged_grows.
      * intros a b (j & Ha & Hb) Hne. destruct j as [|j].
        -- cbn in Ha, Hb. simplify_eq. apply Hmono. rewrite fn_lookup_insert, Hpg. apply left_out_in. by rewrite Hsc.
        -- apply Hadj; [|done]. by exists j.
Qed.

(** ** The start *)

Context (resolve : bytes → option (list bytes)) (fresh : bytes).

(** The host resolves to one address. *)
Definition resolves (host q : bytes) : Prop := is_addr q ∧ resolve (cstr host) = Some [q].

Lemma get_ip_run host q text :
  resolves host q → length text = INET_ADDRSTRLEN →
  ∃ t, get_ip_from_host resolve host text = Some t ∧ length t = INET_ADDRSTRLEN ∧ cstr t = quad_text q.
Proof.
  intros [Hq Hr] Hl. unfold get_ip_from_host. rewrite Hr. cbn [write_texts].
  destruct (strcpy_room text (quad_text q)) as (t & Et & Lt & Ct).
  { rewrite (cstr_id _ (quad_text_no_nul q)), Hl. pose proof (quad_text_length q). unfold INET_ADDRSTRLEN. lia. }
  exists t. rewrite Et. split; [done|]. rewrite Lt, Ct. split; [done|]. apply cstr_id, quad_text_no_nul.
Qed.

Lemma set_hop_run i host q s :
  resolves host q → route_ok (route_el s) → (i < 20)%nat →
  ∃ t, set_hop resolve i host s =
    ([], Ret tt (set_route (mk_route (<[i := t]> (ip_addr (route_el s))) (rt_index (route_el s))
                              (total_size (route_el s))) s)) ∧
    length t = INET_ADDRSTRLEN ∧ cstr t = quad_text q.
Proof.
  intros Hq [Hs Ht Hi Htot] Hlt. unfold set_hop, mbind, M_bind, gets.
  destruct (lookup_lt_is_Some_2 (ip_addr (route_el s)) i) as [t Et]; [by rewrite Hs|].
  rewrite Et. cbn [required mret M_ret].
  destruct (get_ip_run host q t Hq (Forall_lookup_1 _ _ _ _ Ht Et)) as (t' & Eg & L & C).
  exists t'. rewrite Eg. done.
Qed.

Lemma route_ok_insert l i t x n :
  route_ok (mk_route l x n) → length t = INET_ADDRSTRLEN → route_ok (mk_route (<[i := t]> l) x n).
Proof. intros [? ? ? ?] Ht. split; cbn in *; [by rewrite length_insert|by apply Forall_insert|done..]. Qed.

Lemma populate_run hosts qs i s :
  Forall2 resolves hosts qs → route_ok (route_el s) → (i + length hosts ≤ 20)%nat →
  ∃ l, foreach (zip (seq i (length hosts)) hosts) (λ '(i, host), set_hop resolve i host) s =
      ([], Ret tt (set_route (mk_route l (rt_index (route_el s)) (total_size (route_el s))) s)) ∧
    route_ok (mk_route l (rt_index (route_el s)) (total_size (route_el s))) ∧
    (∀ j, (j < i)%nat → l !! j = ip_addr (route_el s) !! j) ∧
    (∀ j q, qs !! j = Some q → ∃ t, l !! (i + j)%nat = Some t ∧ cstr t = quad_text q).
Proof.
  intros Hres. revert i s. induction Hres as [|h q hosts qs Hq _ IH]; intros i s Hr Hn.
  - exists (ip_addr (route_el s)). cbn. destruct s as [? ? [? ? ?]]. by split_and!.
  - cbn [length] in Hn. destruct (set_hop_run i h q s Hq Hr) as (t & Eh & Lt & Ct); [lia|].
    set (s1 := set_route _ s) in Eh.
    destruct (IH (S i) s1) as (l & El & Hl & Hbefore & Hat); [|lia|].
    { destruct (route_el s). by apply route_ok_insert. }
    exists l. cbn [length seq zip zip_with foreach]. unfold mbind, M_bind. rewrite Eh.
    cbn [route_el set_route s1 rt_index total_size ip_addr] in *.
    split; [|split; [done|split]].
    + fold s1. rewrite El. done.
    + intros j Hj. rewrite Hbefore by lia. by rewrite list_lookup_insert_ne by lia.
    + intros [|j] q' Hj; cbn in Hj.
      * injection Hj as <-. exists t. rewrite Nat.add_0_r, Hbefore by lia.
        rewrite list_lookup_insert_eq by (rewrite (ro_size _ Hr); unfold MAX_ROUTE; lia). done.
      * replace (i + S j)%nat with (S i + j)%nat by lia. by apply Hat.
Qed.

(** The blocks are stored from left to right, as far as the array goes. *)
Lemma allocate_from n k l i s :
  (k ≤ length l)%nat →
  foreach (seq k n) (store_block fresh) (set_list l i s) =
  if (k + n <=? length l)%nat
  then ([], Ret tt (set_list (take k l ++ replicate n (Some fresh) ++ drop (k + n) l) i s))
  else ([], Fault BadIndex).
Proof.
  revert k l. induction n as [|n IH]; intros k l Hk; cbn [seq foreach].
  { rewrite Nat.add_0_r, (proj2 (Nat.leb_le _ _)) by done. cbn [replicate app]. by rewrite take_drop. }
  assert (store_block fresh k (set_list l i s) = match l !! k with
    | Some _ => ([], Ret tt (set_list (<[k := Some fresh]> l) i s)) | None => ([], Fault BadIndex) end) as E.
  { unfold store_block, mbind, M_bind, gets. cbn [set_list ips_to_ping]. by destruct (l !! k). }
  unfold mbind, M_bind. rewrite E. destruct (l !! k) as [p|] eqn:Hp; cbn [app].
  - apply lookup_lt_Some in Hp as Hlt.
    rewrite IH by (rewrite length_insert; lia). rewrite length_insert, Nat.add_succ_comm.
    destruct (k + S n <=? length l)%nat; [|done]. do 3 f_equal.
    rewrite (take_S_r _ _ (Some fresh)) by (by apply list_lookup_insert_eq).
    rewrite take_insert_ge, drop_insert_lt by lia. rewrite <- app_assoc. done.
  - apply lookup_ge_None in Hp. rewrite (proj2 (Nat.leb_gt _ _)) by lia. done.
Qed.

Lemma allocate_run room process :
  allocate fresh (tour_zero room process) =
    if (20 <=? room)%nat
    then ([], Ret tt (set_list (replicate 20 (Some fresh) ++ replicate (room - 20) None) 0 (tour_zero room process)))
    else ([], Fault BadIndex).
Proof.
  pose proof (allocate_from 20 0 (replicate room None) 0 (tour_zero room process) ltac:(lia)) as H.
  rewrite length_replicate, drop_replicate in H. exact H.
Qed.

(** The list as [allocate] leaves it. *)
Lemma allocated_ok room s :
  length fresh = 20%nat → ips_to_ping s = replicate 20 (Some fresh) ++ replicate (room - 20) None →
  next_ip_index s = 0%nat → ping_ok s.
Proof.
  intros Hf E Hn. split; rewrite ?E; [| |lia].
  - intros k Hk. exists fresh. split; [|done]. rewrite lookup_app_l by (by rewrite length_replicate).
    by apply lookup_replicate_2.
  - intros k p Hk. rewrite lookup_app_r by (rewrite length_replicate; exact Hk).
    by intros [-> _]%lookup_replicate.
Qed.

(** [populate_route] writes the addresses of this host and of the arguments
    into the route and sends it to the first one. *)
Lemma populate_route_run prog hosts q0 q1 qs s :
  resolves (src_vm s) q0 → Forall2 resolves hosts (q1 :: qs) → (length qs < 19)%nat →
  route_ok (route_el s) → rt_index (route_el s) = 0 →
  ∃ r, populate_route ident resolve (prog :: hosts) s =
      ([SendRt q1 (rt_packet ident (inet_addr (src_ip s)) q1 r)], Ret tt (set_route r s)) ∧
    route_ok r ∧ holds r (q0 :: q1 :: qs) ∧ rt_index r = 1 ∧
    total_size r = Z.of_nat (length (q0 :: q1 :: qs)).
Proof.
  intros H0 Hres Hn Hr Hi. pose proof (Forall2_length _ _ _ Hres) as Hlen. cbn [length] in Hlen.
  destruct (set_hop_run 0 (src_vm s) q0 s H0 Hr) as (t0 & E0 & L0 & C0); [lia|].
  set (s1 := set_route _ s) in E0.
  set (s2 := set_route (mk_route (ip_addr (route_el s1)) (rt_index (route_el s1))
                          (Z.of_nat (length (prog :: hosts)))) s1).
  assert (route_ok (route_el s2)) as Hr2.
  { destruct Hr as [Hs Ht Hx _]. split; cbn; [by rewrite length_insert|by apply Forall_insert|done|].
    unfold is_i32. lia. }
  destruct (populate_run hosts (q1 :: qs) 1 s2 Hres Hr2) as (l & El & Hrl & Hbefore & Hat); [cbn; lia|].
  set (r := mk_route l (i32 (rt_index (route_el s) + 1)) (Z.of_nat (length (prog :: hosts)))).
  assert (rt_index r = 1) as Hr1 by (cbn; by rewrite Hi).
  assert (route_ok r) as Hrr by (destruct Hrl; split; try done; by rewrite Hr1).
  assert (holds r (q0 :: q1 :: qs)) as Hh.
  { intros [|j] q Hj; cbn in Hj.
    - injection Hj as <-. split; [apply H0|]. exists t0. split; [|done]. cbn. rewrite Hbefore by lia.
      cbn. rewrite list_lookup_insert_eq; [done|]. rewrite (ro_size _ Hr). vm_compute; lia.
    - split; [|by apply Hat]. destruct (Forall2_lookup_r _ _ _ _ _ Hres Hj) as (h & _ & Hh & _). done. }
  exists r. split; [|split_and!; try done; cbn; lia].
  unfold populate_route. cbn [tail length]. rewrite Nat.sub_1_r. cbn [Nat.pred].
  unfold mbind, M_bind, gets. rewrite E0. cbn [modify]. fold s2.
  unfold s2 in El. cbn [length] in El. fold s2 in El. rewrite El. cbn [route_el set_route s2 s1 rt_index total_size ip_addr].
  match goal with |- context [send_rt ident ?x] => change x with (set_route r s) end.
  pose proof (send_rt_run ident (set_route r s)) as Hsend. cbn [route_el set_route] in Hsend. cbv zeta in Hsend.
  rewrite Hsend by (done || lia). rewrite Hr1. change (Z.to_nat 1) with 1%nat. rewrite (holds_dest r (q0 :: q1 :: qs) 1 q1 Hrr Hh eq_refl). done.
Qed.

Lemma start_run hostname prog hosts q0 q1 qs room process :
  (20 ≤ room)%nat → length fresh = 20%nat → resolves hostname q0 → Forall2 resolves hosts (q1 :: qs) →
  (length qs < 19)%nat →
  ∃ r s0, tour_start ident resolve fresh hostname (prog :: hosts) (tour_zero room process) =
      ([SendRt q1 (rt_packet ident q0 q1 r)], Ret tt s0) ∧
    route_ok r ∧ holds r (q0 :: q1 :: qs) ∧ rt_index r = 1 ∧
    total_size r = Z.of_nat (length (q0 :: q1 :: qs)) ∧
    node_ok 20 s0 ∧ length (src_ip s0) = INET_ADDRSTRLEN ∧ cstr (src_ip s0) = quad_text q0.
Proof.
  intros Hroom Hfresh H0 Hres Hn. pose proof (Forall2_length _ _ _ Hres) as Hlen. cbn [length] in Hlen.
  unfold tour_start, mbind, M_bind. rewrite allocate_run, (proj2 (Nat.leb_le _ _)) by done. unfold gets. cbn [id].
  destruct (get_ip_run hostname q0 (zeros INET_ADDRSTRLEN) H0 eq_refl) as (t0 & E0 & L0 & C0).
  change (src_ip (set_list _ 0 (tour_zero room process))) with (zeros INET_ADDRSTRLEN). rewrite E0.
  cbn [required mret M_ret modify]. set (s1 := mk_tour hostname t0 _ _ _ _ _ _ _ _).
  rewrite (proj2 (Z.ltb_lt 1 _)) by (cbn [length]; lia). cbn [when].
  destruct (populate_route_run prog hosts q0 q1 qs s1 H0 Hres Hn) as (r & Ep & Hr & Hh & Hi & Ht).
  { split; [done| |done|done]. apply Forall_replicate. done. } { done. }
  rewrite Ep. exists r, (set_route r s1). cbn [src_ip set_route s1].
  rewrite (inet_addr_text t0 q0) by (done || apply H0).
  split_and!; try done. split; [by apply (allocated_ok room)|done|done].
Qed.

(** The tour after the start. *)
Lemma journey q0 q1 qs r s0 nodes :
  is_addr q0 → route_ok r → holds r (q0 :: q1 :: qs) → rt_index r = 1 →
  total_size r = Z.of_nat (length (q0 :: q1 :: qs)) → (length qs < 19)%nat →
  node_ok 20 s0 → length (src_ip s0) = INET_ADDRSTRLEN → cstr (src_ip s0) = quad_text q0 →
  (∀ q, q ∈ q1 :: qs → node_ok 20 (nodes q) ∧ length (src_ip (nodes q)) = INET_ADDRSTRLEN ∧
                       cstr (src_ip (nodes q)) = quad_text q) →
  ∃ nodes', follow (S (length qs)) (<[q0 := s0]> nodes) q0 q1 (rt_packet ident q0 q1 r) =
      Some (q1 :: qs, farewell ((<[q0 := s0]> nodes) (List.last (q1 :: qs) [])), nodes') ∧
    ∀ a b, adjacent (q0 :: q1 :: qs) a b → a ≠ b → quad_text a ∈ pinged (nodes' b).
Proof.
  intros Hq0 Hr Hh Hi Ht Hn Hs0 Hl0 Hc0 Hnodes.
  destruct (follow_run (q0 :: q1 :: qs) qs r (<[q0 := s0]> nodes) q0 q1 q0)
    as (nodes' & Hf & _ & Hadj); try done; [cbn; lia|lia|by rewrite Hi| |].
  { intros q Hq. destruct (decide (q = q0)) as [->|Hne].
    - rewrite fn_lookup_insert. split; [|done]. destruct Hs0 as [? Hroom ?]. split; [done|lia|done].
    - rewrite fn_lookup_insert_ne by done. destruct (Hnodes q) as ([? Hroom ?] & Hl & Hc); [set_solver|].
      split; [|done]. split; [done|lia|done]. }
  exists nodes'. split; [exact Hf|]. intros a b Hab Hne. apply (Hadj a b Hab). intros E. apply Hne.
  destruct Hab as (j & Ha & Hb). apply (quad_text_inj a b); [by apply (Hh j)|by apply (Hh (S j))|done].
Qed.

(** C4: a tour visits the hosts it was given, in their order, and then ends, if
    the memory at [ips_to_ping] takes the twenty pointers [main] stores there.
    tour.c declares the array without a size, which reserves one pointer; with
    fewer than twenty the start is undefined behaviour, a write outside the array.
    With twenty or more: started on the host of address [q0] with up to nineteen
    arguments that resolve to [q1 :: qs], the program sends the route to [q1];
    handed from node to node the packet then reaches exactly [q1 :: qs], in that
    order, a host given twice being visited twice; the last node and no other one
    sends the farewell to the multicast group; and every visited node has the
    node before it, where that is another host, in its list of nodes to ping. *)
Theorem tour_completes hostname prog hosts q0 q1 qs room process nodes :
  length fresh = 20%nat → resolves hostname q0 → Forall2 resolves hosts (q1 :: qs) →
  (length qs < 19)%nat →
  (∀ q, q ∈ q1 :: qs → node_ok 20 (nodes q) ∧ length (src_ip (nodes q)) = INET_ADDRSTRLEN ∧
                       cstr (src_ip (nodes q)) = quad_text q) →
  ((room < 20)%nat →
    tour_start ident resolve fresh hostname (prog :: hosts) (tour_zero room process) = ([], Fault BadIndex)) ∧
  ((20 ≤ room)%nat → ∃ p s0 nodes',
    tour_start ident resolve fresh hostname (prog :: hosts) (tour_zero room process) =
      ([SendRt q1 p], Ret tt s0) ∧
    follow (S (length qs)) (<[q0 := s0]> nodes) q0 q1 p =
      Some (q1 :: qs, farewell ((<[q0 := s0]> nodes) (List.last (q1 :: qs) [])), nodes') ∧
    ∀ a b, adjacent (q0 :: q1 :: qs) a b → a ≠ b → quad_text a ∈ pinged (nodes' b)).
Proof.
  intros Hfresh H0 Hres Hn Hnodes. split; intros Hroom.
  { unfold tour_start, mbind, M_bind. by rewrite allocate_run, (proj2 (Nat.leb_gt _ _)). }
  destruct (start_run hostname prog hosts q0 q1 qs room process Hroom Hfresh H0 Hres Hn)
    as (r & s0 & Hstart & Hr & Hh & Hi & Ht & Hs0 & Hl0 & Hc0).
  destruct (journey q0 q1 qs r s0 nodes (proj1 H0) Hr Hh Hi Ht Hn Hs0 Hl0 Hc0 Hnodes)
    as (nodes' & Hf & Hadj).
  exists (rt_packet ident q0 q1 r), s0, nodes'.
  split; [exact Hstart|]. split; [exact Hf|exact Hadj].
Qed.
End net.

(** ** Witness *)

Definition vm_addr (n : Z) : bytes := map byte.of_Z [130; 245; 156; 20 + n].
(** A resolver that knows the hosts vm1 to vm3. *)
Definition lab (host : bytes) : option (list bytes) :=
  if bool_decide (host = str "vm1") then Some [vm_addr 1]
  else if bool_decide (host = str "vm2") then Some [vm_addr 2]
  else if bool_decide (host = str "vm3") then Some [vm_addr 3] else None.
(** A node started without arguments. *)
Definition idle (name : bytes) : tour :=
  match tour_start 7 lab (zeros 20) name [str "tour"] (tour_zero 20 99) with
  | (_, Ret _ s) => s
  | _ => tour_zero 20 99
  end.
Definition lab_nodes (q : bytes) : tour :=
  if bool_decide (q = vm_addr 2) then idle (str "vm2") else idle (str "vm3").

Lemma idle_ok : node_ok 20 (idle (str "vm2")) ∧ node_ok 20 (idle (str "vm3")).
Proof.
  split; (split; [by apply (allocated_ok (zeros 20) 20)|vm_compute; lia|reflexivity]).
Qed.

Lemma lab_nodes_ok q :
  q ∈ [vm_addr 2; vm_addr 3; vm_addr 2] →
  node_ok 20 (lab_nodes q) ∧ length (src_ip (lab_nodes q)) = INET_ADDRSTRLEN ∧
  cstr (src_ip (lab_nodes q)) = quad_text q.
Proof.
  destruct idle_ok as [H2 H3]. revert q. apply Forall_forall.
  apply Forall_cons; split; [split; [exact H2|split; reflexivity]|].
  apply Forall_cons; split; [split; [exact H3|split; reflexivity]|].
  apply Forall_cons; split; [split; [exact H2|split; reflexivity]|apply Forall_nil; exact I].
Qed.

Lemma tour_completes_witness :
  tour_start 7 lab (zeros 20) (str "vm1") [str "tour"; str "vm2"; str "vm3"; str "vm2"] (tour_zero 1 42) =
    ([], Fault BadIndex) ∧
  ∃ p s0 nodes',
  tour_start 7 lab (zeros 20) (str "vm1") [str "tour"; str "vm2"; str "vm3"; str "vm2"] (tour_zero 20 42) =
    ([SendRt (vm_addr 2) p], Ret tt s0) ∧
  follow 7 (λ _, None) (λ _, inl 0) id 3 (<[vm_addr 1 := s0]> lab_nodes) (vm_addr 1) (vm_addr 2) p =
    Some ([vm_addr 2; vm_addr 3; vm_addr 2], farewell (idle (str "vm2")), nodes').
Proof.
  pose proof (λ room, tour_completes 7 (λ _, None) (λ _, inl 0) ltac:(lia) id ltac:(by intros p) lab (zeros 20)
    (str "vm1") (str "tour") [str "vm2"; str "vm3"; str "vm2"] (vm_addr 1) (vm_addr 2) [vm_addr 3; vm_addr 2]
    room 42 lab_nodes eq_refl ltac:(by split) ltac:(repeat constructor) ltac:(cbn; lia) lab_nodes_ok) as H.
  split; [apply (H 1%nat); lia|]. destruct (proj2 (H 20%nat) ltac:(lia)) as (p & s0 & nodes' & H1 & H2 & _).
  - exists p, s0, nodes'. split; [exact H1|].
    etransitivity; [exact H2|]. cbn [List.last]. rewrite fn_lookup_insert_ne by (intros [=]). reflexivity.
Defined.
