(* ===== verification/TourPings.v ===== *)
(** * Pinging (properties of hw4/tour.c and of tv_sub)

    What the nodes on the list are sent, what is made of their replies, and how
    the list grows. *)

From Stdlib Require Import Strings.Byte.
From S2P Require Import Prelude.
From S2P Require Import CMem.
From S2P Require Import CText.
From S2P Require Import Inet.
From S2P Require Import CFloat.
From S2P Require Import Rtt.
From S2P Require Import Arp.
From S2P Require Import Checksum.
From S2P Require Import SockText.
From S2P Require Import Tour.
From S2P Require Import TourProps.
From S2P Require Import TourNet.

(** ** The list over whole runs *)

(** The list has no address twice, and this node's own at most in front. *)
Record list_inv (own : bytes) (s : tour) : Prop := {
  li_ping : ping_ok s;
  li_own : cstr (src_ip s) = own;
  li_dest : length (dest_ping_ip s) = INET_ADDRSTRLEN;
  li_nodup : NoDup (pinged s);
  li_self : ∀ i, pinged s !! S i ≠ Some own
}.

Lemma list_inv_same own s s' :
  list_inv own s → ips_to_ping s' = ips_to_ping s → next_ip_index s' = next_ip_index s →
  src_ip s' = src_ip s → length (dest_ping_ip s') = length (dest_ping_ip s) → list_inv own s'.
Proof.
  intros [[H1 H2 H3] Ho Hd Hn Hs] E1 E2 E3 E4. unfold pinged in *.
  split; [split|..]; unfold pinged; rewrite ?E1, ?E2, ?E3, ?E4; done.
Qed.

Section list.
Context (ident : Z) (host_of : bytes → option bytes) (lookup : bytes → Z + list addrinfo) (own : bytes).

Abbreviation keeps m := (preserves (list_inv own) m).

Lemma keeps_add a : fits 20 a → keeps (add_ip_to_ping a).
Proof.
  intros Hfit s Hs. pose proof (li_ping _ _ Hs) as Hp.
  destruct (decide (next_ip_index s < NUM_IPS_PING)%nat) as [Hlt|Hge].
  - destruct (add_ip_run a s Hp Hfit Hlt) as (l & n & E & Hp' & _ & Hpg).
    eapply wpo_eq; [exact E|]. destruct Hs as [_ Ho Hd Hn Hself].
    split; [done|done|done|..]; rewrite Hpg; destruct (left_out _ _ _) eqn:Hlo; try done;
      unfold left_out in Hlo; apply orb_false_iff in Hlo as [H1%bool_decide_eq_false H2].
    + apply NoDup_app. split; [done|]. split; [|apply NoDup_singleton]. set_solver.
    + intros i. rewrite lookup_app. destruct (pinged s !! S i) as [x|] eqn:E'; [rewrite <- E'; apply Hself|].
      intros Hx. apply list_lookup_singleton_Some in Hx as [Hi Hown].
      apply lookup_ge_None in E'. rewrite bool_decide_eq_true_2 in H2 by congruence.
      destruct (pinged s); [|done]. cbn in Hi. lia.
  - unfold add_ip_to_ping. wpo_steps; try done. cbn [id] in *.
    by rewrite (po_end s Hp (next_ip_index s) a1) in Ha1 by (done || lia).
Qed.

Lemma keeps_route r : keeps (modify (set_route r) : Tour unit).
Proof. intros s Hs. wpo_step. by eapply list_inv_same. Qed.

Hint Resolve keeps_route : preserves.

Lemma keeps_rt output from d : keeps (rt_ready ident output from d).
Proof.
  unfold rt_ready. apply preserves_bind.
  { unfold recv_rt. destruct (negb _); auto with preserves. }
  intros r. apply preserves_bind; [|auto with preserves]. destruct (0 <? r); [|auto with preserves].
  intros s Hs. wpo_step. wpo_step. wpo_step. apply wpo_required; [|done]. intros t Ht.
  wpo_step. wpo_step.
  assert (fits 20 t) as Hfit.
  { pose proof (strcpy_length _ _ _ Ht) as Hl. rewrite (li_dest _ _ Hs) in Hl.
    unfold fits. pose proof (length_cstr t). unfold INET_ADDRSTRLEN in *. lia. }
  assert (list_inv own (set_dest t s)) as Hs'.
  { eapply list_inv_same; [exact Hs|done..|]. cbn. by eapply strcpy_length. }
  revert Hs'. generalize (set_dest t s). clear s Hs Ht.
  apply preserves_bind; [by apply keeps_add|intros _]. apply preserves_bind; [apply preserves_gets|intros rt].
  destruct (_ <=? _); unfold send_multicast, send_rt; auto 6 with preserves.
Qed.

Lemma keeps_find_host a : keeps (find_host host_of lookup a).
Proof.
  unfold find_host, Host_serv, Sock_ntop_host.
  apply preserves_bind; [apply preserves_required|intros q]. apply preserves_bind; [apply preserves_required|intros n].
  apply preserves_bind; [destruct (lookup n); [by intros s Hs|apply preserves_required]|intros ai].
  apply preserves_bind; [|intros h; apply preserves_ret].
  destruct (sock_ntop_host_sa _ _ _) as [[u|[t off]]|]; [by intros s Hs|apply preserves_ret|by intros s Hs].
Qed.
Hint Resolve keeps_find_host : preserves.

Lemma keeps_ping output d tval : keeps (ping_ready host_of lookup output d tval).
Proof.
  apply preserves_bind; [apply preserves_gets|intros s0]. apply preserves_bind; [|auto with preserves].
  destruct (_ =? _); [|auto with preserves]. apply preserves_bind.
  { apply preserves_bind; [apply preserves_required|intros q].
    destruct (host_of q); [apply preserves_required|apply preserves_ret]. }
  intros _. apply preserves_bind; [apply preserves_gets|intros s1]. cbv zeta.
  destruct (_ <? 8); [by intros s Hs|]. case_bool_decide; [|auto with preserves].
  destruct (negb _); [auto with preserves|]. destruct (_ <? 16); [by intros s Hs|].
  auto with preserves.
Qed.

Lemma keeps_udp output d : keeps (udp_ready output d).
Proof.
  unfold udp_ready. repeat (apply preserves_bind; [auto with preserves|intros ?]).
  intros s Hs. wpo_step. by eapply list_inv_same.
Qed.

Lemma keeps_tour_turn e : keeps (tour_turn ident host_of lookup e).
Proof.
  apply preserves_bind; [destruct (on_rt e) as [[from d]|]; [apply keeps_rt|apply preserves_ret]|intros o1].
  apply preserves_bind; [destruct (on_ping e) as [[d t]|]; [apply keeps_ping|apply preserves_ret]|intros o2].
  destruct (on_udp e); [|apply preserves_ret]. apply preserves_bind; [apply keeps_udp|intros ?; apply preserves_ret].
Qed.
End list.

(** ** The start *)

(** What [main] has set up when it enters its loop. *)
Record started (s : tour) : Prop := {
  sd_ping : ping_ok s;
  sd_next : next_ip_index s = 0%nat;
  sd_dest : length (dest_ping_ip s) = INET_ADDRSTRLEN
}.

Section start.
Context (ident : Z) (resolve : bytes → option (list bytes)) (fresh : bytes).
Abbreviation keeps m := (preserves started m).

Lemma started_route r : keeps (modify (set_route r) : Tour unit).
Proof. intros s [[? ? ?] ? ?]. wpo_step. by split; [split|..]. Qed.
Hint Resolve started_route : preserves.

Lemma started_hop i host : keeps (set_hop resolve i host).
Proof. unfold set_hop. repeat (apply preserves_bind; [auto with preserves|intros ?]). auto with preserves. Qed.
Hint Resolve started_hop : preserves.

Lemma started_populate argv : keeps (populate_route ident resolve argv).
Proof.
  unfold populate_route. repeat (apply preserves_bind; [auto with preserves|intros ?]);
    [|unfold send_rt; auto 6 with preserves].
  apply preserves_foreach. intros [i host]. auto with preserves.
Qed.

(** A start that returns had room for the list. *)
Lemma start_started hostname argv room process o s :
  length fresh = 20%nat →
  tour_start ident resolve fresh hostname argv (tour_zero room process) = (o, Ret tt s) → started s.
Proof.
  intros Hf. unfold tour_start. unfold mbind at 1, M_bind at 1. rewrite allocate_run.
  destruct (20 <=? room)%nat; [|done]. set (s0 := set_list _ 0 _).
  assert (started s0) as H0 by (by split; [by apply (allocated_ok fresh room)|..]). revert H0. generalize s0. clear s0.
  intros s0 H0. match goal with |- (let '(_, _) := ?m s0 in _) = _ → _ => set (rest := m) end.
  assert (keeps rest) as Hrest.
  { apply preserves_bind; [apply preserves_gets|intros s1]. apply preserves_bind; [apply preserves_required|intros a].
    apply preserves_bind; [|intros _; destruct (1 <? _); [apply started_populate|apply preserves_ret]].
    intros s2 [[? ? ?] ? ?]. wpo_step. by split; [split|..]. }
  destruct (rest s0) as [o' r] eqn:E. intros [= <- ->]. exact (wpo_returns True _ _ _ _ _ _ (Hrest s0 H0) E).
Qed.
End start.

(** C25: in a node that got through its start (which needs room for twenty
    pointers at [ips_to_ping]), over any run of the main loop, whatever packets
    come in, the list of nodes to ping has no address twice, and the node's own
    address nowhere but in front (where it lands if it comes first). *)
Theorem ping_list_distinct ident host_of lookup resolve fresh hostname argv room process es o s o' s' :
  length fresh = 20%nat →
  tour_start ident resolve fresh hostname argv (tour_zero room process) = (o, Ret tt s) →
  tour_loop ident host_of lookup es s = (o', Ret tt s') →
  NoDup (pinged s') ∧ ∀ i, pinged s' !! S i ≠ Some (cstr (src_ip s)).
Proof.
  intros Hf Hstart Hrun. destruct (start_started _ _ _ _ _ _ _ _ _ Hf Hstart) as [Hp Hn Hd].
  set (own := cstr (src_ip s)).
  assert (list_inv own s) as Hs.
  { split; try done; unfold pinged; rewrite Hn; [constructor|done]. }
  cut (list_inv own s'); [by intros []|].
  assert (∀ es s, list_inv own s → wpo True (tour_loop ident host_of lookup es) (λ _ _ s', list_inv own s') s) as Hloop.
  { clear. generalize own. clear own s. intros own. induction es as [|e es IH]; intros s Hs; cbn [tour_loop]; [done|].
    revert s Hs.
    apply preserves_bind; [apply keeps_tour_turn|]. intros [|]; [apply preserves_ret|exact IH]. }
  exact (wpo_returns True _ _ s o' tt s' (Hloop es s Hs) Hrun).
Qed.

(** ** Times *)

Definition micros (tv : timeval) : Z := tv_sec tv * 1000000 + tv_usec tv.
(** A time of the clock. *)
Definition tv_ok (tv : timeval) : Prop := 0 <= tv_sec tv < 2 ^ 62 ∧ 0 <= tv_usec tv < 1000000.

Lemma i64_small z : - 2 ^ 63 <= z < 2 ^ 63 → i64 z = z.
Proof. intros H. unfold i64. rewrite Z.mod_small; lia. Qed.

Lemma tv_sub_micros a b :
  tv_ok a → tv_ok b →
  micros (tv_sub a b) = micros a - micros b ∧ 0 <= tv_usec (tv_sub a b) < 1000000.
Proof.
  intros [Ha1 Ha2] [Hb1 Hb2]. unfold tv_sub, micros. rewrite (i64_small (tv_usec a - tv_usec b)) by lia.
  destruct (Z.ltb_spec (tv_usec a - tv_usec b) 0); cbn [tv_sec tv_usec]; rewrite !i64_small; try lia;
    rewrite ?i64_small; lia.
Qed.

(** ** Requests *)

Section requests.
Context (heap : bytes).

Lemma icmp_stored type id sq tv :
  in_cksum (take 24 (icmp_bytes type (in_cksum (take 24 (icmp_bytes type 0 id sq tv))) id sq tv)) = 0.
Proof.
  assert (∀ sum, take 24 (icmp_bytes type sum id sq tv) =
    [type; x00] ++ put_u16 sum ++ (put_u16 id ++ put_u16 sq ++ put_i64 (tv_sec tv) ++ put_i64 (tv_usec tv))) as E.
  { intros sum. unfold icmp_bytes. rewrite !app_assoc, take_app_length'; [done|].
    rewrite !length_app, !put_u16_length. unfold put_i64. rewrite !length_le_split. done. }
  rewrite !E. apply in_cksum_stored; [by exists 1%nat|].
  rewrite !length_app, !put_u16_length. unfold put_i64. rewrite !length_le_split. cbn. lia.
Qed.

Lemma header_stored src dst : is_addr src → is_addr dst → in_cksum (ping_header src dst) = 0.
Proof.
  intros Hs Hd. unfold ping_header, ip_header. cbv zeta.
  set (len := htons_bytes _).
  assert (∀ sum, [byte.of_Z 69; x00] ++ len ++ [x00; x00] ++ [x00; x00] ++ [MAXTTL; IPPROTO_ICMP] ++ sum ++ src ++ dst
    = ([byte.of_Z 69; x00] ++ len ++ [x00; x00] ++ [x00; x00] ++ [MAXTTL; IPPROTO_ICMP]) ++ sum ++ (src ++ dst)) as E.
  { intros sum. by rewrite <- !app_assoc. }
  rewrite !E. apply in_cksum_stored; [by exists 5%nat|].
  rewrite !length_app, Hs, Hd. vm_compute. congruence.
Qed.

Lemma length_ping_header src dst : is_addr src → is_addr dst → length (ping_header src dst) = 20%nat.
Proof.
  intros Hs Hd. unfold ping_header, ip_header. rewrite !length_app, put_u16_length, Hs, Hd. done.
Qed.

Lemma length_icmp_bytes type sum id sq tv : length (icmp_bytes type sum id sq tv) = 28%nat.
Proof. unfold icmp_bytes. rewrite !length_app, !put_u16_length. unfold put_i64. rewrite !length_le_split. done. Qed.

Lemma inet_addr_length a : is_addr (inet_addr a).
Proof.
  unfold inet_addr. destruct (inet_pton4 a) as [q|] eqn:E; [|done]. cbn. by eapply pton4_length.
Qed.

(** The message and the frame of a request. *)
Definition request_icmp (id sq : Z) (now : timeval) : bytes :=
  icmp_bytes x08 (in_cksum (take 24 (icmp_bytes x08 0 id sq now))) id sq now.
Definition request_frame (dst_mac src_mac source dest_ip : bytes) (id sq : Z) (now : timeval) : bytes :=
  take 6 dst_mac ++ take 6 src_mac ++ [x08; x00] ++
  ping_header (inet_addr source) (inet_addr dest_ip) ++ request_icmp id sq now ++ heap.

Lemma send_ping_request_run dst_mac src_mac source dest_ip x now s :
  send_ping_request heap dst_mac src_mac source dest_ip x now s =
    ([SendEth x (request_frame dst_mac src_mac source dest_ip (pid s) (u16 (seq_no s + 1)) now)],
     Ret tt (set_seq (i32 (seq_no s + 1)) s)).
Proof. reflexivity. Qed.

Lemma request_icmp_split id sq now :
  request_icmp id sq now = take 24 (request_icmp id sq now) ++ zeros 4.
Proof.
  unfold request_icmp, icmp_bytes at 1 3. rewrite !app_assoc, take_app_length'; [done|].
  rewrite !length_app, !put_u16_length. unfold put_i64. by rewrite !length_le_split.
Qed.

Section parts.
Context (d m source dest_ip : bytes) (id sq : Z) (now : timeval).
Hypothesis (Hd : length d = 8%nat) (Hm : length m = 8%nat).

Lemma request_frame_header :
  slice 14 20 (request_frame d m source dest_ip id sq now) = ping_header (inet_addr source) (inet_addr dest_ip).
Proof.
  unfold request_frame. rewrite (slice_later 6 14), (slice_later 6), (slice_later 2)
    by (rewrite ?length_take, ?Hd, ?Hm; done || (cbn; lia)).
  cbn [Nat.sub]. apply slice_here, length_ping_header; apply inet_addr_length.
Qed.

Lemma request_frame_icmp n :
  slice 34 n (request_frame d m source dest_ip id sq now) = take n (request_icmp id sq now ++ heap).
Proof.
  unfold request_frame. rewrite (slice_later 6 34), (slice_later 6), (slice_later 2)
    by (rewrite ?length_take, ?Hd, ?Hm; done || (cbn; lia)).
  cbn [Nat.sub]. rewrite (slice_later 20); [done|apply length_ping_header; apply inet_addr_length|lia].
Qed.
End parts.

(** C27: the checksums of a ping.  The IP header a request carries verifies, and
    so do the 24 bytes of ICMP message it was computed over; but the header
    announces 56 bytes, so a receiver sums 36, eight of which lie beyond the
    message: it accepts the request only if those, which the program never
    wrote, sum to zero. *)
Theorem ping_checksums dst_mac src_mac source dest_ip x now s :
  length dst_mac = 8%nat → length src_mac = 8%nat → (8 ≤ length heap)%nat →
  ∃ frame s', send_ping_request heap dst_mac src_mac source dest_ip x now s = ([SendEth x frame], Ret tt s') ∧
    slice 2 2 (slice 14 20 frame) = [x00; byte.of_Z 56] ∧
    in_cksum (slice 14 20 frame) = 0 ∧ in_cksum (slice 34 24 frame) = 0 ∧
    (in_cksum (slice 34 36 frame) = 0 ↔ word_sum (take 8 heap) mod 65535 = 0).
Proof.
  intros Hd Hs Hh. eexists _, _. split; [apply send_ping_request_run|].
  rewrite request_frame_header, !request_frame_icmp by done. split; [reflexivity|].
  split; [apply header_stored; apply inet_addr_length|].
  set (r := request_icmp _ _ _). pose proof (icmp_stored x08 (pid s) (u16 (seq_no s + 1)) now) as Hck.
  fold (request_icmp (pid s) (u16 (seq_no s + 1)) now) in Hck. fold r in Hck.
  assert (length r = 28%nat) as Lr by apply length_icmp_bytes.
  rewrite take_app_le by lia. split; [exact Hck|].
  apply in_cksum_zero in Hck as [Hpos Hmod]; [|rewrite length_take, Lr; cbn; lia].
  rewrite (take_app_ge r), Lr by lia. change (36 - 28)%nat with 8%nat.
  rewrite (in_cksum_zero (r ++ take 8 heap)) by (rewrite length_app, firstn_length_le, Lr by done; cbn; lia).
  rewrite word_sum_app by (rewrite Lr; by exists 14%nat).
  assert (word_sum r = word_sum (take 24 r)) as ->.
  { unfold r at 1. rewrite request_icmp_split. fold r.
    rewrite word_sum_app by (rewrite length_take, Lr; by exists 12%nat). change (word_sum (zeros 4)) with 0. lia. }
  pose proof (word_sum_bound (take 8 heap)) as [Hb _].
  rewrite <- Zplus_mod_idemp_l, Hmod, Z.add_0_l. split; [tauto|]. split; [lia|done].
Qed.
End requests.

(** ** Replies *)

Lemma get_put_i64 z : - 2 ^ 63 <= z < 2 ^ 63 → get_i64 (put_i64 z) = z.
Proof.
  intros H. unfold get_i64, put_i64. rewrite le_combine_split.
  change (2 ^ (Z.of_nat 8 * 8)) with (2 ^ 64). unfold i64. rewrite Zplus_mod_idemp_l, Z.mod_small; lia.
Qed.

Lemma inet_addr_quad q : is_addr q → inet_addr (quad_text q) = q.
Proof.
  intros Hq. unfold inet_addr. pose proof (pton4_quad_text q [] Hq) as H. unfold inet_pton4 in *.
  rewrite cstr_app_nul in H by apply quad_text_no_nul. rewrite (cstr_id _ (quad_text_no_nul q)). by rewrite H.
Qed.

(** The name and the address reported for the address with the text [a]. *)
Section names.
Context (host_of : bytes → option bytes) (lookup : bytes → Z + list addrinfo).

Definition host_entry (a : bytes) : option addrinfo :=
  q ← inet_pton4 a;
  n ← host_of q;
  match lookup n with inr (ai :: _) => Some ai | _ => None end.

Definition host_text (ai : addrinfo) : option bytes :=
  returned (sock_ntop_host_sa (zeros STR_LEN) (ai_addr ai) (ai_addrlen ai)).

Lemma find_host_run a ai h s :
  host_entry a = Some ai → host_text ai = Some h →
  find_host host_of lookup a s = ([], Ret (ai_canonname ai, h) s).
Proof.
  unfold host_entry, host_text, find_host, Host_serv, Sock_ntop_host, mbind, M_bind. intros He Ht.
  destruct (inet_pton4 a) as [q|]; [cbn in He|done]. cbn [required mret M_ret].
  destruct (host_of q) as [n|]; [cbn in He|done]. cbn [required mret M_ret].
  destruct (lookup n) as [e|[|ai' res]]; [done|done|]. injection He as ->. cbn [head required mret M_ret].
  destruct (sock_ntop_host_sa _ _ _) as [[u|[t off]]|]; [done| |done]. cbn in Ht. by injection Ht as <-.
Qed.

Lemma addr_text_in canon a port len : host_text (mk_addrinfo canon (sockaddr_in a port) len) = Some (quad_text a).
Proof.
  unfold host_text. cbn [ai_addr ai_addrlen]. rewrite sock_ntop_host_in by done.
  by rewrite returned_start, cstr_app_nul by apply quad_text_no_nul.
Qed.

Lemma pton4_quad q : is_addr q → inet_pton4 (quad_text q) = Some q.
Proof.
  intros Hq. pose proof (pton4_quad_text q [] Hq) as H. unfold inet_pton4 in *.
  rewrite cstr_app_nul in H by apply quad_text_no_nul. rewrite (cstr_id _ (quad_text_no_nul q)). by rewrite H.
Qed.
End names.

Section reply.
Context (ident : Z) (host_of : bytes → option bytes) (lookup : bytes → Z + list addrinfo).
Context (hdr : bytes) (sum id sq : Z) (sent now : timeval) (s : tour).
Hypothesis (Hh : length hdr = 20%nat) (Hv : slice 0 1 hdr = [byte.of_Z 69]).
Hypothesis (Hid : 0 <= id < 2 ^ 16) (Hsq : 0 <= sq < 2 ^ 16) (Hsent : tv_ok sent) (Hnow : tv_ok now).

Definition reply_packet : bytes := hdr ++ icmp_bytes x00 sum id sq sent.
Definition reply_event : ready := mk_ready None (Some (reply_packet, now)) None.

Lemma reply_head n off rest : (off + n ≤ 20)%nat → slice off n (hdr ++ rest) = slice off n hdr.
Proof.
  intros H. unfold slice. rewrite drop_app_le by lia. rewrite take_app_le; [done|]. rewrite length_drop. lia.
Qed.

Lemma reply_icmp rest :
  drop 20 (hdr ++ icmp_bytes x00 sum id sq sent ++ rest) = icmp_bytes x00 sum id sq sent ++ rest.
Proof. by rewrite drop_app_length'. Qed.

Lemma icmp_id_field rest : slice 4 2 (icmp_bytes x00 sum id sq sent ++ rest) = put_u16 id.
Proof. unfold icmp_bytes. rewrite <- !app_assoc.
  rewrite (slice_later 2 4), (slice_later 2 2) by (apply put_u16_length || done || lia).
  apply slice_here, put_u16_length. Qed.
Lemma icmp_seq_field rest : slice 6 2 (icmp_bytes x00 sum id sq sent ++ rest) = put_u16 sq.
Proof. unfold icmp_bytes. rewrite <- !app_assoc.
  rewrite (slice_later 2 6), (slice_later 2 4), (slice_later 2 2) by (apply put_u16_length || done || lia).
  apply slice_here, put_u16_length. Qed.
Lemma icmp_time rest :
  slice 8 8 (icmp_bytes x00 sum id sq sent ++ rest) = put_i64 (tv_sec sent) ∧
  slice 16 8 (icmp_bytes x00 sum id sq sent ++ rest) = put_i64 (tv_usec sent).
Proof. unfold icmp_bytes. rewrite <- !app_assoc.
  rewrite (slice_later 2 8), (slice_later 2 16), (slice_later 2 6), (slice_later 2 14), (slice_later 2 4),
    (slice_later 2 12), (slice_later 2 2), (slice_later 2 10) by (apply put_u16_length || done || lia).
  cbn [Nat.sub]. rewrite (slice_later 8 8) by (apply length_le_split || lia). cbn [Nat.sub].
  split; apply slice_here, length_le_split. Qed.

Lemma reply_time rest :
  mk_timeval (get_i64 (slice 8 8 (icmp_bytes x00 sum id sq sent ++ rest)))
    (get_i64 (slice 16 8 (icmp_bytes x00 sum id sq sent ++ rest))) = sent.
Proof.
  destruct (icmp_time rest) as [-> ->]. destruct Hsent as [H1 H2].
  rewrite !get_put_i64 by lia. by destruct sent.
Qed.

(** What is done about an echo reply of ours. *)
Definition report (from : bytes) : Tour unit :=
  f ← find_host host_of lookup from;
  name ← required NullPointer f.1;
  emit (Echo 28 name f.2 sq (le_combine (slice 8 1 hdr)) (tv_sub now sent) (rtt_ms (tv_sub now sent))).

Lemma proc_v4_reply from rest :
  id = pid s →
  proc_v4 host_of lookup (hdr ++ icmp_bytes x00 sum id sq sent ++ rest) 48 now from s = report from s.
Proof.
  intros Hp. unfold proc_v4. unfold mbind at 1, M_bind at 1. unfold gets. cbn [Datatypes.id].
  rewrite !(reply_head 1), Hv by lia.
  change (Z.shiftl (Z.land (le_combine [byte.of_Z 69]) 15) 2) with 20. change (48 - 20) with 28. cbv zeta.
  change (28 <? 8) with false. change (28 <? 16) with false. cbv iota.
  change (Z.to_nat 20) with 20%nat. rewrite reply_icmp.
  assert (slice 0 1 (icmp_bytes x00 sum id sq sent ++ rest) = [x00]) as -> by reflexivity.
  rewrite bool_decide_eq_true_2 by done. rewrite icmp_id_field, icmp_seq_field, !get_put_u16, Hp, Z.eqb_refl by done.
  cbn [negb]. rewrite <- Hp, reply_time. fold (report from). by destruct (report from s).
Qed.

Lemma ping_ready_reply name :
  id = pid s → host_of (slice 12 4 hdr) = Some name → fits 20 name →
  tour_turn ident host_of lookup reply_event s = (report (quad_text (slice 12 4 hdr)) ≫= λ _, mret false) s.
Proof.
  intros Hp Hname Hfit. unfold tour_turn, reply_event. cbn [on_rt on_ping on_udp].
  assert (length reply_packet = 48%nat) as Hlen.
  { unfold reply_packet. by rewrite length_app, Hh, length_icmp_bytes. }
  unfold mbind at 1, M_bind at 1. cbn [mret M_ret].
  unfold ping_ready, received. rewrite Hlen. generalize (drop 48 (zeros (Z.to_nat MAXLINE))). intros rest.
  unfold reply_packet. rewrite <- app_assoc. set (q := slice 12 4 hdr) in *.
  assert (is_addr q) as Hq by (unfold is_addr, q; by rewrite slice_length; [|lia]).
  unfold mbind, M_bind, gets. cbn [Datatypes.id mret M_ret].
  assert (slice 4 2 (slice sizeof_ip 28 (hdr ++ icmp_bytes x00 sum id sq sent ++ rest)) = put_u16 id) as ->.
  { unfold slice at 2. rewrite reply_icmp. rewrite take_app_le by by rewrite length_icmp_bytes.
    rewrite firstn_all2 by by rewrite length_icmp_bytes. rewrite <- (app_nil_r (icmp_bytes _ _ _ _ _)). apply icmp_id_field. }
  rewrite get_put_u16, Hp, Z.eqb_refl by done. rewrite reply_head by lia. fold q.
  unfold get_host_from_ip, mbind, M_bind. rewrite pton4_quad by done. cbn [required mret M_ret]. rewrite Hname.
  destruct (strcpy_zeros 20 name Hfit) as (h & -> & _ & _). cbn [required mret M_ret].
  change (Z.of_nat 48) with 48. rewrite <- Hp, proc_v4_reply by done.
  destruct (report (quad_text q) s) as [o [u s'|c s'|f]]; cbn [app]; by rewrite ?app_nil_r.
Qed.
End reply.


(** ** A round of pings *)

Section round.
Context (host_of : bytes → option bytes) (lookup : bytes → Z + list addrinfo) (heap : bytes) (arpd : nat → answers) (times : nat → timeval).

(** What the daemon gave in the [k]-th step. *)
Definition dest_hw (k : nat) : hwaddr := (areq (for_dest (arpd k))).1.
Definition own_hw (k : nat) : hwaddr := (areq (for_own (arpd k))).1.

(** The frame of the [k]-th step of a round started in [s]. *)
Definition step_frame (s : tour) (k : nat) : bytes :=
  request_frame heap (sll_addr (dest_hw k)) (sll_addr (own_hw k))
    (src_ip s) (nth k (pinged s) []) (pid s) (u16 (seq_no s + Z.of_nat k + 1)) (times k).

(** The name and the address the address with the text [a] is announced with. *)
Definition announced (a : bytes) : option (bytes * bytes) :=
  ai ← host_entry host_of lookup a;
  h ← host_text ai;
  Some (default h (ai_canonname ai), h).

(** What that step puts out. *)
Definition step_out (s : tour) (k : nat) : list tour_out :=
  [AskArp (areq_request (nth k (pinged s) [])); AskArp (areq_request (src_ip s))] ++
  (if (next_ip_to_ping_index s + k <? next_ip_index s)%nat
   then [uncurry Announce (default ([], []) (announced (nth (next_ip_to_ping_index s + k) (pinged s) [])))] else []) ++
  [SendEth (sll_ifindex (own_hw k)) (step_frame s k)].

(** The node after [k] steps. *)
Definition stepped (s : tour) (k : nat) : tour :=
  set_announced (Nat.max (next_ip_to_ping_index s) (Nat.min (next_ip_to_ping_index s + k) (next_ip_index s)))
    (set_seq (i32 (seq_no s + Z.of_nat k)) s).

Lemma areq_request_cstr a : areq_request (cstr a) = areq_request a.
Proof. unfold areq_request. by rewrite cstr_idemp. Qed.

Lemma inet_addr_cstr a : inet_addr (cstr a) = inet_addr a.
Proof. unfold inet_addr, inet_pton4. by rewrite cstr_idemp. Qed.

Lemma pinged_block s k :
  listed s → (k < next_ip_index s)%nat →
  ∃ b, ips_to_ping s !! k = Some (Some b) ∧ nth k (pinged s) [] = cstr b.
Proof.
  intros Hs Hk. destruct (Hs k Hk) as (b & Hp). exists b. split; [done|].
  apply nth_lookup_Some. unfold pinged, texts. rewrite list_lookup_fmap.
  rewrite lookup_take_lt by done. by rewrite Hp.
Qed.

Lemma i32_add_i32 a b : i32 (i32 a + b) = i32 (a + b).
Proof.
  unfold i32. f_equal. rewrite <- (Zplus_mod_idemp_l (_ - _ + b)).
  rewrite <- (Zplus_mod_idemp_l (a + b)). f_equal. f_equal.
  rewrite <- Zplus_mod_idemp_l, Zminus_mod_idemp_l, Zplus_mod_idemp_l. f_equal. lia.
Qed.

Lemma u16_add_i32 a b : u16 (i32 a + b) = u16 (a + b).
Proof.
  unfold u16, i32. replace ((a + 2 ^ 31) mod 2 ^ 32 - 2 ^ 31 + b) with (a + b - 2 ^ 16 * (2 ^ 16 * ((a + 2 ^ 31) / 2 ^ 32))).
  - rewrite <- (Z_mod_plus_full (a + b) (- (2 ^ 16 * ((a + 2 ^ 31) / 2 ^ 32))) (2 ^ 16)). f_equal. lia.
  - rewrite (Z.mod_eq (a + 2 ^ 31) (2 ^ 32)) by lia. lia.
Qed.

(** Every address on the list has a name, and the name an address. *)
Definition named (s : tour) : Prop := ∀ a, a ∈ pinged s → is_Some (announced a).

Lemma length_pinged s : listed s → length (pinged s) = next_ip_index s.
Proof.
  intros Hs. unfold pinged, texts. rewrite length_map, length_take. apply Nat.min_l.
  destruct (next_ip_index s) as [|n] eqn:E; [lia|]. destruct (Hs n) as (b & Hb); [lia|].
  apply lookup_lt_Some in Hb. lia.
Qed.

Lemma pinged_nth s k : (k < next_ip_index s)%nat → listed s → nth k (pinged s) [] ∈ pinged s.
Proof. intros Hk Hp. apply list_elem_of_In, nth_In. by rewrite length_pinged. Qed.

Lemma announced_cstr a : announced (cstr a) = announced a.
Proof. unfold announced, host_entry, inet_pton4. by rewrite cstr_idemp. Qed.

Lemma find_announced a n h s :
  announced a = Some (n, h) →
  ∃ c, find_host host_of lookup a s = ([], Ret (c, h) s) ∧ default h c = n.
Proof.
  unfold announced. destruct (host_entry host_of lookup a) as [ai|] eqn:He; [cbn|done].
  destruct (host_text ai) as [t|] eqn:Ht; [cbn|done]. intros [= <- <-].
  exists (ai_canonname ai). split; [by apply find_host_run|done].
Qed.

Lemma ping_one_run s k :
  listed s → named s → (k < next_ip_index s)%nat →
  ping_one host_of lookup heap (arpd k) (times k) k (stepped s k) = (step_out s k, Ret tt (stepped s (S k))).
Proof.
  intros Hp Hname Hk. destruct (pinged_block s k Hp Hk) as (b & Hb & Eb).
  unfold ping_one, call_areq, mbind, M_bind, gets, emit. cbn [Datatypes.id].
  change (ips_to_ping (stepped s k)) with (ips_to_ping s). rewrite Hb. cbn [required mret M_ret].
  change (src_ip (stepped s k)) with (src_ip s). change (next_ip_index (stepped s k)) with (next_ip_index s).
  unfold step_out, step_frame. rewrite Eb, areq_request_cstr. unfold dest_hw, own_hw.
  set (A := next_ip_to_ping_index s). set (N := next_ip_index s) in *.
  assert (next_ip_to_ping_index (stepped s k) = Nat.max A (Nat.min (A + k) N)) as EA by reflexivity. rewrite EA.
  assert (∀ x, set_announced x (stepped s k) = set_announced x (set_seq (i32 (seq_no s + Z.of_nat k)) s)) as Eset
    by reflexivity.
  unfold request_frame. rewrite inet_addr_cstr.
  destruct (Nat.ltb_spec (A + k) N) as [Hlt|Hge].
  - assert (Nat.max A (Nat.min (A + k) N) = A + k)%nat as -> by lia.
    rewrite (proj2 (Nat.ltb_lt _ _) Hlt).
    destruct (pinged_block s (A + k) Hp Hlt) as (c & Hc & Ec). rewrite Hc. cbn [required mret M_ret].
    destruct (Hname (nth (A + k) (pinged s) [])) as [[nm h] Hnm]; [by apply pinged_nth|].
    rewrite Ec, announced_cstr in Hnm. destruct (find_announced c nm h (stepped s k) Hnm) as (cn & -> & Ecn).
    cbn [required mret M_ret emit modify app fst snd]. rewrite Ecn.
    rewrite send_ping_request_run, Ec, Eset, announced_cstr, Hnm. cbn [seq_no pid set_seq set_announced app].
    rewrite u16_add_i32, i32_add_i32. unfold request_frame, stepped, set_seq, set_announced.
    cbn [src_vm src_ip route_el seq_no pid keep_pinging ips_to_ping next_ip_index next_ip_to_ping_index dest_ping_ip].
    fold A N. replace (seq_no s + Z.of_nat (S k)) with (seq_no s + Z.of_nat k + 1) by lia.
    replace (Nat.max A (Nat.min (A + S k) N)) with (S (A + k)) by lia. reflexivity.
  - assert ((Nat.max A (Nat.min (A + k) N) <? N)%nat = false) as -> by (apply Nat.ltb_ge; lia).
    cbn [mret M_ret]. rewrite send_ping_request_run. cbn [seq_no pid stepped set_seq set_announced app].
    rewrite u16_add_i32, i32_add_i32. unfold request_frame, stepped, set_seq, set_announced.
    cbn [src_vm src_ip route_el seq_no pid keep_pinging ips_to_ping next_ip_index next_ip_to_ping_index dest_ping_ip].
    fold A N. replace (seq_no s + Z.of_nat (S k)) with (seq_no s + Z.of_nat k + 1) by lia.
    replace (Nat.max A (Nat.min (A + S k) N)) with (Nat.max A (Nat.min (A + k) N)) by lia. reflexivity.
Qed.

Lemma ping_steps_run s k m :
  listed s → named s → (k + m ≤ next_ip_index s)%nat →
  foreach (seq k m) (λ k, ping_one host_of lookup heap (arpd k) (times k) k) (stepped s k) =
    (flat_map (step_out s) (seq k m), Ret tt (stepped s (k + m))).
Proof.
  intros Hp Hname. revert k. induction m as [|m IH]; intros k Hk; cbn [seq foreach flat_map].
  - by rewrite Nat.add_0_r.
  - unfold mbind, M_bind. rewrite ping_one_run by (done || lia). rewrite IH by lia.
    by rewrite Nat.add_succ_comm.
Qed.

Lemma ping_round_run s :
  listed s → named s → is_i32 (seq_no s) → (next_ip_to_ping_index s ≤ next_ip_index s)%nat →
  ping_round host_of lookup heap arpd times s =
    (flat_map (step_out s) (seq 0 (next_ip_index s)), Ret tt (stepped s (next_ip_index s))).
Proof.
  intros Hp Hname Hseq Hann. unfold ping_round, mbind at 1, M_bind at 1, gets.
  assert (s = stepped s 0) as E.
  { unfold stepped. rewrite Nat.add_0_r, Z.add_0_r, i32_small by done.
    destruct s. unfold set_announced, set_seq. cbn. f_equal. lia. }
  rewrite E at 2. rewrite ping_steps_run by (done || lia). reflexivity.
Qed.

(** C21: a round pings every node of the list once, in its order.  Each step
    asks the local daemon for the node's hardware address and for its own, and
    sends a request between the two that were answered; the requests carry
    consecutive sequence numbers, and addresses not announced so far are
    announced, one before each request, with their canonical name and the address
    that name resolves to; after the round all of the list have been.  The
    addresses listed are in the array, and each has a name that resolves. *)
Theorem ping_round_complete s :
  listed s → named s → is_i32 (seq_no s) → (next_ip_to_ping_index s ≤ next_ip_index s)%nat →
  ∃ s', ping_round host_of lookup heap arpd times s = (flat_map (step_out s) (seq 0 (next_ip_index s)), Ret tt s') ∧
    seq_no s' = i32 (seq_no s + Z.of_nat (next_ip_index s)) ∧
    next_ip_to_ping_index s' = next_ip_index s ∧ pinged s' = pinged s.
Proof.
  intros Hp Hname Hseq Hann. exists (stepped s (next_ip_index s)).
  split; [by apply ping_round_run|]. split; [reflexivity|]. split; [cbn; lia|reflexivity].
Qed.
End round.

(** ** Boundary cases *)

(** [char* ips_to_ping[]] without a size reserves one pointer, so the
    program writes outside the array before it does anything else. *)
Theorem ping_array_too_small ident resolve fresh hostname argv process :
  tour_start ident resolve fresh hostname argv (tour_zero 1 process) = ([], Fault BadIndex).
Proof. reflexivity. Qed.

(** [add_ip_to_ping] is meant to leave this node's own address out, but
    looks for it only while walking over other entries: as the first address
    it is added. *)
Theorem own_address_listed_first s a :
  ping_ok s → next_ip_index s = 0%nat → fits 20 a → cstr a = cstr (src_ip s) →
  ∃ s', add_ip_to_ping a s = ([], Ret tt s') ∧ pinged s' = [cstr (src_ip s)].
Proof.
  intros Hp Hn Hf Ha. destruct (add_ip_run a s Hp Hf) as (l & n & E & _ & _ & Hpg).
  { rewrite Hn. vm_compute. lia. }
  eexists. split; [exact E|]. rewrite Hpg. unfold pinged. rewrite Hn. cbn [take texts map].
  by rewrite left_out_nil, Ha.
Qed.

(** ** Witnesses *)

(** A started node with one address on its list, the blocks zeroed. *)
Definition node1 : tour :=
  mk_tour (str "vm1") (str "130.245.156.21" ++ zeros 2)
    (mk_route (replicate MAX_ROUTE (zeros INET_ADDRSTRLEN)) 0 0) 0 77 1
    (Some (str "130.245.156.22" ++ zeros 6) :: replicate 19 (Some (zeros 20))) 1 0 (zeros INET_ADDRSTRLEN).
Definition node0 : tour := set_list (replicate 20 (Some (zeros 20))) 0 node1.

Lemma node1_ok : listed node1.
Proof. intros k Hk. destruct k as [|k]; [by eexists|]. change (next_ip_index node1) with 1%nat in Hk. lia. Qed.
Lemma node0_ok : ping_ok node0.
Proof. by apply (allocated_ok (zeros 20) 20). Qed.

Lemma own_address_listed_first_witness :
  ∃ s', add_ip_to_ping (src_ip node0) node0 = ([], Ret tt s') ∧ pinged s' = [str "130.245.156.21"].
Proof.
  destruct (own_address_listed_first node0 (src_ip node0) node0_ok eq_refl ltac:(vm_compute; lia) eq_refl)
    as (s' & H1 & H2).
  exists s'. split; [exact H1|exact H2].
Defined.

(** The node vm2 is handed three route packets, two of them by vm1 and one by
    vm3, and then the farewell. *)
Definition toured (from : Z) : ready :=
  mk_ready (Some (vm_addr from, rt_packet 7 (vm_addr from) (vm_addr 2)
    (mk_route (replicate MAX_ROUTE (str "130.245.156.23" ++ zeros 2)) 1 3))) None None.
Definition toured_run : list ready := [toured 1; toured 1; toured 3; mk_ready None None (Some (str "bye"))].

Lemma toured_returns :
  match tour_loop 7 (λ _, None) (λ _, inl 0) toured_run (idle (str "vm2")) with
  | (_, Ret _ s') => pinged s' = [str "130.245.156.21"; str "130.245.156.23"] | _ => False end.
Proof. by vm_compute. Qed.

Lemma ping_list_distinct_witness : ∃ o s o' s',
  tour_start 7 lab (zeros 20) (str "vm2") [str "tour"] (tour_zero 20 99) = (o, Ret tt s) ∧
  tour_loop 7 (λ _, None) (λ _, inl 0) toured_run s = (o', Ret tt s') ∧
  pinged s' = [str "130.245.156.21"; str "130.245.156.23"] ∧ NoDup (pinged s').
Proof.
  pose proof toured_returns as H.
  assert (tour_start 7 lab (zeros 20) (str "vm2") [str "tour"] (tour_zero 20 99) = ([], Ret tt (idle (str "vm2")))) as Hst
    by (vm_compute; reflexivity).
  destruct (tour_loop 7 (λ _, None) (λ _, inl 0) toured_run (idle (str "vm2"))) as [o' [[] s'| |]] eqn:E;
    [|destruct H..].
  exists [], (idle (str "vm2")), o', s'. split; [exact Hst|]. split; [exact E|]. split; [exact H|].
  exact (proj1 (ping_list_distinct 7 (λ _, None) (λ _, inl 0) lab (zeros 20) (str "vm2") [str "tour"] 20 99
    toured_run [] (idle (str "vm2")) o' s' eq_refl Hst E)).
Defined.

Lemma ping_checksums_witness :
  ∃ frame s', send_ping_request (zeros 8) (replicate 8 x11) (replicate 8 x22) (str "1.2.3.4") (str "5.6.7.8") 2
      (mk_timeval 5 6) node1 = ([SendEth 2 frame], Ret tt s') ∧ in_cksum (slice 34 36 frame) = 0.
Proof.
  destruct (ping_checksums (zeros 8) (replicate 8 x11) (replicate 8 x22) (str "1.2.3.4") (str "5.6.7.8") 2
    (mk_timeval 5 6) node1 eq_refl eq_refl ltac:(vm_compute; lia)) as (frame & s' & H1 & _ & _ & _ & H2).
  exists frame, s'. split; [exact H1|]. apply H2. reflexivity.
Defined.

Definition reply_header : bytes :=
  [byte.of_Z 69] ++ zeros 7 ++ [byte.of_Z 64] ++ zeros 3 ++ map byte.of_Z [130; 245; 156; 22] ++ zeros 4.
(** A resolver that knows the host vm2. *)
Definition lab_lookup (name : bytes) : Z + list addrinfo :=
  if bool_decide (name = str "vm2")
  then inr [mk_addrinfo (Some (str "vm2.lab")) (sockaddr_in (map byte.of_Z [130; 245; 156; 22]) 0) 16] else inl (-2).

Lemma ping_round_complete_witness : ∃ s',
  ping_round (λ _, Some (str "vm2")) lab_lookup [] (λ _, mk_answers None None) (λ _, mk_timeval 5 6) node1 =
    (step_out (λ _, Some (str "vm2")) lab_lookup [] (λ _, mk_answers None None) (λ _, mk_timeval 5 6) node1 0, Ret tt s') ∧ next_ip_to_ping_index s' = 1%nat.
Proof.
  destruct (ping_round_complete (λ _, Some (str "vm2")) lab_lookup [] (λ _, mk_answers None None) (λ _, mk_timeval 5 6) node1 node1_ok)
    as (s' & H1 & _ & H2 & _).
  - change (pinged node1) with [str "130.245.156.22"]. intros a ->%list_elem_of_singleton. vm_compute. by eexists.
  - vm_compute. split; congruence.
  - vm_compute. lia.
  - exists s'. split; [exact H1|exact H2].
Defined.
