(* ===== verification/TourArp.v ===== *)
(** * Pinging through the daemons (hw4/tour.c above hw4/arp.c)

    The pinging thread against any address service that keeps the promise of
    [ResolverOk], and then on a network of daemons. *)

From Stdlib Require Import Strings.Byte.
From S2P Require Import Prelude.
From S2P Require Import CMem.
From S2P Require Import CText.
From S2P Require Import Inet.
From S2P Require Import Rtt.
From S2P Require Import Arp.
From S2P Require Import ArpProps.
From S2P Require Import ArpLan.
From S2P Require Import Tour.
From S2P Require Import TourProps.
From S2P Require Import TourPings.

(** The echo requests among the outputs. *)
Definition frames (os : list tour_out) : list bytes :=
  omap (λ o, match o with SendEth _ f => Some f | _ => None end) os.

(** ** Any address service *)

Section client.
Context {S : Type} `{!Resolver S}.

(** The answers in the steps of a round over the addresses [l]: first for the
    address, then for the node's own. *)
Fixpoint round_answers (own : bytes) (l : list bytes) (x : S) : list answers :=
  match l with
  | [] => []
  | a :: l =>
      let '(d, x) := ask (areq_request a) x in
      let '(o, x) := ask (areq_request own) x in
      mk_answers d o :: round_answers own l x
  end.

(** A round of the pinging thread with the service. *)
Definition pinging (host_of : bytes → option bytes) (lookup : bytes → Z + list addrinfo) (heap : bytes) (times : nat → timeval) (x : S) (s : tour)
    : list tour_out * outcome tour unit :=
  let l := round_answers (src_ip s) (pinged s) x in
  ping_round host_of lookup heap (λ k, nth k l (mk_answers None None)) times s.

Context (inv : S → Prop) (owner : bytes → bytes → Prop) `{!ResolverOk S inv owner}.

(** The answers name the hosts asked for. *)
Definition names (own : bytes) (m : bytes) (a : bytes) (r : answers) : Prop :=
  owner (cstr a) (take 6 (sll_addr (areq (for_dest r)).1)) ∧ take 6 (sll_addr (areq (for_own r)).1) = m.

Lemma round_answers_ok own m l x :
  inv x → owner (cstr own) m → Forall (λ a, ∃ m, owner (cstr a) m) l →
  Forall2 (names own m) l (round_answers own l x).
Proof.
  intros Hx Hown Hl. revert x Hx. induction Hl as [|a l [ma Ha] _ IH]; intros x Hx; cbn [round_answers]; [constructor|].
  destruct (ask_owner x a ma Hx Ha) as (d & x1 & -> & Hd & Hx1).
  destruct (ask_owner x1 own m Hx1 Hown) as (o & x2 & -> & Ho & Hx2).
  constructor; [|by apply IH]. split; cbn [for_dest for_own]; [by rewrite Hd|done].
Qed.

Lemma frame_ends heap d m source dest id sq now :
  (6 ≤ length d)%nat → (6 ≤ length m)%nat →
  take 6 (request_frame heap d m source dest id sq now) = take 6 d ∧
  slice 6 6 (request_frame heap d m source dest id sq now) = take 6 m.
Proof.
  intros Hd Hm. unfold request_frame. split.
  - rewrite take_app_le by (rewrite length_take; lia). rewrite take_take. done.
  - rewrite (slice_later 6 6) by (rewrite ?length_take; lia). cbn [Nat.sub]. apply slice_here.
    rewrite length_take. lia.
Qed.

Lemma frames_round host_of lookup heap arpd times s ks :
  frames (flat_map (step_out host_of lookup heap arpd times s) ks) = map (step_frame heap arpd times s) ks.
Proof.
  induction ks as [|k ks IH]; [done|]. cbn [flat_map map]. unfold frames in *. rewrite omap_app, IH.
  unfold step_out. destruct (_ <? _)%nat; [|done]. by destruct (default ([], []) _).
Qed.

(** Every request of a round goes from this node to the node it pings. *)
Lemma pinging_addressed host_of lookup heap times x s m :
  listed s → named host_of lookup s → is_i32 (seq_no s) → (next_ip_to_ping_index s ≤ next_ip_index s)%nat →
  inv x → owner (cstr (src_ip s)) m → Forall (λ a, ∃ m, owner (cstr a) m) (pinged s) →
  ∃ o s', pinging host_of lookup heap times x s = (o, Ret tt s') ∧
    Forall2 (λ a f, owner (cstr a) (take 6 f) ∧ slice 6 6 f = m) (pinged s) (frames o).
Proof.
  intros Hp Hn Hs Ha Hx Hown Hl. unfold pinging. set (l := round_answers _ _ _).
  rewrite ping_round_run by done. eexists _, _. split; [reflexivity|]. rewrite frames_round.
  pose proof (round_answers_ok _ _ _ _ Hx Hown Hl) as Hans. fold l in Hans.
  apply Forall2_same_length_lookup_2; [by rewrite length_map, length_seq, length_pinged|].
  intros k a f Hk Hf. rewrite list_lookup_fmap in Hf.
  pose proof (lookup_lt_Some _ _ _ Hk) as Hlt. rewrite length_pinged in Hlt by done.
  rewrite lookup_seq_lt in Hf by done. injection Hf as <-. cbn [plus].
  destruct (Forall2_lookup_l _ _ _ _ _ Hans Hk) as (r & Hr & [Hd Ho]).
  unfold step_frame, dest_hw, own_hw. rewrite (nth_lookup_Some _ _ _ _ Hr).
  pose proof (owner_mac x _ _ Hx Hd) as Ld. pose proof (owner_mac x _ _ Hx Hown) as Lm.
  rewrite <- Ho, length_take in Lm. rewrite length_take in Ld. unfold IF_HADDR in *.
  destruct (frame_ends heap (sll_addr (areq (for_dest r)).1) (sll_addr (areq (for_own r)).1) (src_ip s)
    (nth k (pinged s) []) (pid s) (u16 (seq_no s + Z.of_nat k + 1)) (times k)) as [-> ->]; [lia..|]. done.
Qed.
End client.

(** ** On a network of daemons *)

(** C5: pings reach the hosts they are for.  On a network of hosts whose daemons
    have the same protocol number and only this thread's requests to answer, a
    round of the pinging thread of host [i] sends one echo request per listed
    address, in the order of the list: each frame is addressed to the hardware
    address of the host with that IP address and carries the sender's own.  The
    listed addresses are in the array and are hosts of the network, and each has
    a name that resolves (the process ends at one that has none). *)
Theorem pings_reach_their_hosts proto lheap dir i connfd l host_of lookup heap times s m :
  (∀ k, 0 <= proto k < 2 ^ 16) → (∀ j k, proto j = proto k) → dir_ok dir → 0 < connfd → lan_ok dir l →
  dir !! i = Some (cstr (src_ip s), m) → Forall (λ a, a ∈ map fst dir) (pinged s) →
  listed s → named host_of lookup s → is_i32 (seq_no s) → (next_ip_to_ping_index s ≤ next_ip_index s)%nat →
  ∃ o s', @pinging _ (lan_resolver proto lheap i connfd) host_of lookup heap times l s = (o, Ret tt s') ∧
    Forall2 (λ a f, (a, take 6 f) ∈ dir ∧ slice 6 6 f = m) (pinged s) (frames o).
Proof.
  intros Hp Hsame Hd Hfd Hl Hi Hpg Hok Hn Hs Ha. pose proof (lookup_lt_Some _ _ _ Hi) as Hlt.
  assert (∀ a, a ∈ pinged s → cstr a = a) as Hc.
  { intros a (p & -> & _)%list_elem_of_fmap. destruct p; apply cstr_idemp. }
  destruct (@pinging_addressed _ (lan_resolver proto lheap i connfd) (lan_ok dir) (λ a m, (a, m) ∈ dir)
    (lan_resolver_ok proto lheap dir i connfd Hp Hsame Hd Hlt Hfd) host_of lookup heap times l s m Hok Hn Hs Ha Hl)
    as (o & s' & E & H).
  - by eapply list_elem_of_lookup_2.
  - apply Forall_forall. intros a Hin. rewrite (Hc a Hin).
    pose proof (proj1 (Forall_forall _ _) Hpg a Hin) as ([a' m'] & E & Hm)%list_elem_of_fmap.
    exists m'. cbn in E. by rewrite E.
  - exists o, s'. split; [exact E|]. apply Forall2_same_length_lookup_2; [by eapply Forall2_length|].
    intros k a f Hk Hf. rewrite <- (Hc a) by by eapply list_elem_of_lookup_2.
    by eapply (Forall2_lookup_lr _ _ _ _ _ _ H).
Qed.

Lemma pings_reach_their_hosts_witness : ∃ o s',
  @pinging _ (lan_resolver (λ _, 7) (λ _, []) 0 5) (λ _, Some (str "vm2")) lab_lookup [] (λ _, mk_timeval 5 6)
    [vm1; vm2] node1 = (o, Ret tt s') ∧ length (frames o) = 1%nat ∧ Forall (λ f, take 6 f = replicate 6 x22) (frames o).
Proof.
  assert (named (λ _, Some (str "vm2")) lab_lookup node1) as Hn.
  { change (∀ a, a ∈ [str "130.245.156.22"] → is_Some (announced (λ _, Some (str "vm2")) lab_lookup a)).
    intros a ->%list_elem_of_singleton. vm_compute. by eexists. }
  destruct (pings_reach_their_hosts (λ _, 7) (λ _, []) lab_dir 0 5 [vm1; vm2] (λ _, Some (str "vm2")) lab_lookup []
    (λ _, mk_timeval 5 6) node1 (replicate 6 x11) ltac:(intros; lia) ltac:(done) lab_dir_ok ltac:(lia) lab_ok
    ltac:(vm_compute; reflexivity) ltac:(apply (bool_decide_unpack _); vm_compute; exact I) node1_ok
    Hn ltac:(vm_compute; split; congruence) ltac:(vm_compute; lia)) as (o & s' & E & H).
  exists o, s'. split; [exact E|]. change (pinged node1) with [str "130.245.156.22"] in H.
  inversion H as [|? f ? fs [Hf _] Hfs]. inversion Hfs. split; [done|]. constructor; [|constructor].
  apply elem_of_cons in Hf as [Hf|Hf]; [discriminate Hf|]. apply list_elem_of_singleton in Hf. by injection Hf.
Defined.
