(* ===== verification/SockLib.v ===== *)
(** * The library calls around the system (unpv13e/lib)

    error.c, the wrappers of wrapsock.c, wrapunix.c, wraplib.c and
    wrappthread.c that the assignments use, and the functions built on them:
    host_serv.c, udp_client.c, family_to_level.c, sockfd_to_family.c,
    mcast_join.c, mcast_set_ttl.c and signal.c.

    The operating system is an interface, [System]: a state and the reply of
    every system call.  A process is that state, its [errno] and the library's
    [daemon_proc]; what it does is the sequence of system calls and of
    messages it leaves. *)

From Stdlib Require Import Strings.Byte.
From S2P Require Import Prelude.
From S2P Require Import CMem.
From S2P Require Import CText.
From S2P Require Import Inet.
From S2P Require Import Inet6.

(** ** System calls *)

(** The option values the sources pass: an [int], an [unsigned char], a
    [struct group_req]. *)
Inductive optval := OInt (z : Z) | OUchar (z : Z) | OGroup (ifindex : Z) (group : bytes).

Inductive syscall :=
| sys_socket (family type protocol : Z)
| sys_bind (fd : Z) (sa : bytes)
| sys_connect (fd : Z) (sa : bytes)
| sys_listen (fd backlog : Z)
| sys_accept (fd : Z)
| sys_getsockname (fd : Z)
| sys_setsockopt (fd level optname : Z) (val : optval)
| sys_sendto (fd : Z) (data : bytes) (flags : Z) (sa : bytes)
| sys_recvfrom (fd nbytes flags : Z)
| sys_read (fd nbytes : Z)
| sys_write (fd : Z) (data : bytes)
| sys_ioctl (fd request : Z) (arg : bytes)
| sys_fcntl (fd cmd arg : Z)
| sys_unlink (path : bytes)
| sys_sigaction (signo handler flags : Z)
| sys_pthread_create (func arg : Z)
| sys_pthread_detach (tid : Z).

(** What a call returns, the [errno] it sets if it sets one, and the bytes it
    stores through its pointers. *)
Record reply := mk_reply { ret : Z; sets_errno : option Z; stored : bytes }.

Record addrinfo := mk_addrinfo {
  ai_family : Z; ai_socktype : Z; ai_protocol : Z; ai_addr : bytes }.
Record hints := mk_hints { h_flags : Z; h_family : Z; h_socktype : Z }.

Class System := {
  kernel : Type;
  serve : kernel → syscall → reply * kernel;
  strerror : Z → bytes;
  gai_strerror : Z → bytes;
  (** the error, or the list of addresses *)
  getaddrinfo : option bytes → option bytes → hints → Z + list addrinfo;
  if_nametoindex : bytes → Z;
  getenv : bytes → option bytes }.

(** Linux's numbers. *)
Definition SOCK_STREAM : Z := 1.
Definition SOCK_DGRAM : Z := 2.
Definition SOCK_RAW : Z := 3.
Definition PF_PACKET : Z := 17.
Definition IPPROTO_IP : Z := 0.
Definition IPPROTO_IPV6 : Z := 41.
Definition SOL_SOCKET : Z := 1.
Definition SO_REUSEADDR : Z := 2.
Definition IP_HDRINCL : Z := 3.
Definition IP_MULTICAST_TTL : Z := 33.
Definition IPV6_MULTICAST_HOPS : Z := 18.
Definition MCAST_JOIN_GROUP : Z := 42.
Definition AI_CANONNAME : Z := 2.
Definition ENXIO : Z := 6.
Definition EINVAL : Z := 22.
Definition EPROTO : Z := 71.
Definition EAFNOSUPPORT : Z := 97.
Definition ECONNABORTED : Z := 103.
Definition LOG_ERR : Z := 3.
Definition LOG_INFO : Z := 6.
Definition SIGALRM : Z := 14.
Definition SA_INTERRUPT : Z := 0x20000000.
Definition SA_RESTART : Z := 0x10000000.
Definition SIG_ERR : Z := 2 ^ 64 - 1.

Section library.
Context `{System}.

Record process := mk_process { kern : kernel; errno : Z; daemon_proc : Z }.

Inductive action :=
| Called (c : syscall) (result : Z)
| Stdout (text : bytes)
| Stderr (text : bytes)
| Syslog (level : Z) (format : bytes).

Abbreviation Lib := (M process action).

Definition set_kern (k : kernel) (p : process) : process := mk_process k (errno p) (daemon_proc p).
Definition set_errno (e : Z) (p : process) : process := mk_process (kern p) e (daemon_proc p).

Definition call (c : syscall) : Lib reply :=
  p ← gets id;
  let '(r, k) := serve (kern p) c in
  modify (set_kern k) ≫= λ _,
  match sets_errno r with Some e => modify (set_errno e) | None => mret tt end ≫= λ _,
  emit (Called c (ret r)) ≫= λ _, mret r.

(** ** error.c *)

(** [err_doit]; [text] is the message after formatting.  [vsnprintf] keeps what
    fits [MAXLINE] with its terminator, [snprintf] what fits the rest, and the
    newline is added without a check to the [MAXLINE + 1] bytes of [buf]. *)
Definition err_doit (errnoflag : bool) (level : Z) (text : bytes) : Lib unit :=
  p ← gets id;
  let buf := take (Z.to_nat MAXLINE - 1) text in
  let n := length buf in
  let buf := if errnoflag
             then buf ++ take (Z.to_nat MAXLINE - n - 1) (str ": " ++ strerror (errno p))
             else buf in
  if (Z.to_nat MAXLINE + 1 <? length buf + 2)%nat then fail BadCopy else
  let buf := buf ++ [x0a] in
  if negb (daemon_proc p =? 0) then emit (Syslog level buf) else emit (Stderr buf).

Definition err_ret (text : bytes) : Lib unit := err_doit true LOG_INFO text.
Definition err_msg (text : bytes) : Lib unit := err_doit false LOG_INFO text.
Definition err_sys {A} (text : bytes) : Lib A := err_doit true LOG_ERR text ≫= λ _, exit 1.
Definition err_quit {A} (text : bytes) : Lib A := err_doit false LOG_ERR text ≫= λ _, exit 1.

(** ** The wrappers *)

(** [if ( (n = f(...)) < 0) err_sys(text); return n;] *)
Definition checked (c : syscall) (text : bytes) : Lib reply :=
  r ← call c; if ret r <? 0 then err_sys text else mret r.

(** The ones of wrapunix.c compare with [-1]. *)
Definition checked_m1 (c : syscall) (text : bytes) : Lib reply :=
  r ← call c; if ret r =? -1 then err_sys text else mret r.

(** The ones that write compare with the number of bytes. *)
Definition checked_all (c : syscall) (nbytes : Z) (text : bytes) : Lib unit :=
  r ← call c; if negb (ret r =? nbytes) then err_sys text else mret tt.

(** Those of threads return the error number. *)
Definition checked_thread (c : syscall) (text : bytes) : Lib reply :=
  r ← call c;
  if ret r =? 0 then mret r else modify (set_errno (ret r)) ≫= λ _, err_sys text.

Definition Socket (family type protocol : Z) : Lib Z :=
  checked (sys_socket family type protocol) (str "socket error") ≫= λ r, mret (ret r).
Definition Bind (fd : Z) (sa : bytes) : Lib unit :=
  checked (sys_bind fd sa) (str "bind error") ≫= λ _, mret tt.
Definition Connect (fd : Z) (sa : bytes) : Lib unit :=
  checked (sys_connect fd sa) (str "connect error") ≫= λ _, mret tt.
Definition Setsockopt (fd level optname : Z) (val : optval) : Lib unit :=
  checked (sys_setsockopt fd level optname val) (str "setsockopt error") ≫= λ _, mret tt.
Definition Recvfrom (fd nbytes flags : Z) : Lib reply :=
  checked (sys_recvfrom fd nbytes flags) (str "recvfrom error").
Definition Sendto (fd : Z) (data : bytes) (flags : Z) (sa : bytes) : Lib unit :=
  checked_all (sys_sendto fd data flags sa) (Z.of_nat (length data)) (str "sendto error").
Definition Read (fd nbytes : Z) : Lib reply :=
  checked_m1 (sys_read fd nbytes) (str "read error").
Definition Write (fd : Z) (data : bytes) : Lib unit :=
  checked_all (sys_write fd data) (Z.of_nat (length data)) (str "write error").
Definition Ioctl (fd request : Z) (arg : bytes) : Lib reply :=
  checked_m1 (sys_ioctl fd request arg) (str "ioctl error").
Definition Pthread_create (func arg : Z) : Lib unit :=
  checked_thread (sys_pthread_create func arg) (str "pthread_create error") ≫= λ _, mret tt.
Definition Pthread_detach (tid : Z) : Lib unit :=
  checked_thread (sys_pthread_detach tid) (str "pthread_detach error") ≫= λ _, mret tt.

(** [Listen]: the environment may replace the queue length. *)
Definition Listen (fd backlog : Z) : Lib unit :=
  let backlog := match getenv (str "LISTENQ") with
                 | Some v => i32 (strtol10 v)
                 | None => backlog
                 end in
  checked (sys_listen fd backlog) (str "listen error") ≫= λ _, mret tt.

(** [Accept] starts again when the connection was aborted before it could be
    accepted; the fuel bounds how often. *)
Fixpoint Accept (fuel : nat) (fd : Z) : Lib (option Z) :=
  match fuel with
  | O => mret None
  | S fuel =>
      r ← call (sys_accept fd);
      if ret r <? 0 then
        e ← gets errno;
        if (e =? EPROTO) || (e =? ECONNABORTED) then Accept fuel fd
        else err_sys (str "accept error")
      else mret (Some (ret r))
  end.

Definition Inet_pton (family : Z) (text : bytes) : Lib bytes :=
  let '(n, a) := inet_pton family text in
  if n <? 0 then
    modify (set_errno EAFNOSUPPORT) ≫= λ _,
    err_sys (str "inet_pton error for " ++ cstr text)
  else if n =? 0 then err_quit (str "inet_pton error for " ++ cstr text)
  else required NullPointer a.

(** ** signal.c *)
Definition signal (signo func : Z) : Lib Z :=
  let flags := if signo =? SIGALRM then SA_INTERRUPT else SA_RESTART in
  r ← call (sys_sigaction signo func flags);
  mret (if ret r <? 0 then SIG_ERR else le_combine (stored r)).

Definition Signal (signo func : Z) : Lib Z :=
  old ← signal signo func;
  if old =? SIG_ERR then err_sys (str "signal error") else mret old.

(** ** host_serv.c, udp_client.c *)

Definition gai_text (who host serv : bytes) (n : Z) : bytes :=
  who ++ str " error for " ++ host ++ str ", " ++ serv ++ str ": " ++ gai_strerror n.

Definition host_serv (host serv : option bytes) (family socktype : Z) : option (list addrinfo) :=
  match getaddrinfo host serv (mk_hints AI_CANONNAME family socktype) with
  | inl _ => None
  | inr res => Some res
  end.

Definition Host_serv (host serv : option bytes) (family socktype : Z) : Lib (list addrinfo) :=
  match getaddrinfo host serv (mk_hints AI_CANONNAME family socktype) with
  | inl n => err_quit (gai_text (str "host_serv") (default (str "(no hostname)") host)
                         (default (str "(no service name)") serv) n)
  | inr res => mret res
  end.

(** The [do ... while]: the first address a socket can be made for. *)
Fixpoint first_socket (res : list addrinfo) : Lib (option (Z * addrinfo)) :=
  match res with
  | [] => mret None
  | a :: res =>
      r ← call (sys_socket (ai_family a) (ai_socktype a) (ai_protocol a));
      if 0 <=? ret r then mret (Some (ret r, a)) else first_socket res
  end.

(** The socket, and the address copied for the caller. *)
Definition udp_client (host serv : bytes) : Lib (Z * bytes) :=
  match getaddrinfo (Some host) (Some serv) (mk_hints 0 0 SOCK_DGRAM) with
  | inl n => err_quit (gai_text (str "udp_client") host serv n)
  | inr [] => fail NullPointer
  | inr res =>
      found ← first_socket res;
      match found with
      | None => err_sys (str "udp_client error for " ++ host ++ str ", " ++ serv)
      | Some (sockfd, a) => mret (sockfd, ai_addr a)
      end
  end.

(** ** family_to_level.c, sockfd_to_family.c *)

(** [sa_family] of a socket address. *)
Definition sa_family (sa : bytes) : Z := get_u16 (take 2 sa).

Definition family_to_level (family : Z) : Z :=
  if family =? AF_INET then IPPROTO_IP
  else if family =? AF_INET6 then IPPROTO_IPV6 else -1.

Definition sockfd_to_family (sockfd : Z) : Lib Z :=
  r ← call (sys_getsockname sockfd);
  mret (if ret r <? 0 then -1 else sa_family (stored r)).

(** ** mcast_join.c, mcast_set_ttl.c *)

Definition sizeof_sockaddr_storage : nat := 128.

Definition mcast_join (sockfd : Z) (grp : bytes) (ifname : option bytes) (ifindex : Z) : Lib Z :=
  let gr_interface := if 0 <? ifindex then ifindex
                      else match ifname with Some name => if_nametoindex name | None => 0 end in
  if (ifindex <=? 0) && bool_decide (is_Some ifname) && (gr_interface =? 0) then
    modify (set_errno ENXIO) ≫= λ _, mret (-1)
  else if (sizeof_sockaddr_storage <? length grp)%nat then
    modify (set_errno EINVAL) ≫= λ _, mret (-1)
  else
    r ← call (sys_setsockopt sockfd (family_to_level (sa_family grp)) MCAST_JOIN_GROUP
                (OGroup gr_interface grp));
    mret (ret r).

Definition Mcast_join (sockfd : Z) (grp : bytes) (ifname : option bytes) (ifindex : Z) : Lib unit :=
  n ← mcast_join sockfd grp ifname ifindex;
  if n <? 0 then err_sys (str "mcast_join error") else mret tt.

Definition mcast_set_ttl (sockfd val : Z) : Lib Z :=
  family ← sockfd_to_family sockfd;
  if family =? AF_INET then
    r ← call (sys_setsockopt sockfd IPPROTO_IP IP_MULTICAST_TTL (OUchar (u8 val))); mret (ret r)
  else if family =? AF_INET6 then
    r ← call (sys_setsockopt sockfd IPPROTO_IPV6 IPV6_MULTICAST_HOPS (OInt val)); mret (ret r)
  else modify (set_errno EAFNOSUPPORT) ≫= λ _, mret (-1).

(** ** What the calls do *)

(** The process after a system call, and what it gave. *)
Definition replied (c : syscall) (p : process) : reply := (serve (kern p) c).1.
Definition after (c : syscall) (p : process) : process :=
  let p' := set_kern (serve (kern p) c).2 p in
  match sets_errno (replied c p) with Some e => set_errno e p' | None => p' end.

Lemma call_eq c p : call c p = ([Called c (ret (replied c p))], Ret (replied c p) (after c p)).
Proof.
  unfold call, after, replied, gets, mbind, M_bind. simpl. destruct (serve (kern p) c) as [r k]. simpl.
  by destruct (sets_errno r).
Qed.

(** The line a message ends up as. *)
Definition err_line (errnoflag : bool) (text : bytes) (p : process) : bytes :=
  take (Z.to_nat MAXLINE - 1) (text ++ if errnoflag then str ": " ++ strerror (errno p) else [])
  ++ [x0a].

Definition message (level : Z) (line : bytes) (p : process) : action :=
  if negb (daemon_proc p =? 0) then Syslog level line else Stderr line.

(** The two copies [err_doit] makes amount to one cut. *)
Lemma err_copies (m : nat) (flag : bool) (text more : bytes) :
  (0 < m)%nat →
  (if flag then take (m - 1) text ++ take (m - length (take (m - 1) text) - 1) more
   else take (m - 1) text) = take (m - 1) (text ++ if flag then more else []).
Proof.
  intros Hm. destruct flag; [|by rewrite app_nil_r]. rewrite take_app, length_take. f_equal.
  destruct (decide (length text ≤ m - 1)%nat); [f_equal; lia|].
  replace (m - _ - 1)%nat with 0%nat by lia. by replace (m - 1 - _)%nat with 0%nat by lia.
Qed.

Lemma err_doit_eq flag level text p :
  err_doit flag level text p = ([message level (err_line flag text p) p], Ret tt p).
Proof.
  unfold err_doit, mbind, M_bind, gets.
  rewrite err_copies by (unfold MAXLINE; lia). unfold message, err_line.
  set (buf := take _ _).
  assert (length buf ≤ Z.to_nat MAXLINE - 1)%nat by (unfold buf; rewrite length_take; lia).
  destruct (Nat.ltb_spec (Z.to_nat MAXLINE + 1) (length buf + 2)); [unfold MAXLINE in *; lia|].
  unfold id. by destruct (daemon_proc p =? 0).
Qed.

Lemma err_sys_eq {A} text p :
  (err_sys text : Lib A) p = ([message LOG_ERR (err_line true text p) p], Exit 1 p).
Proof. unfold err_sys, mbind, M_bind. by rewrite err_doit_eq. Qed.

Lemma err_quit_eq {A} text p :
  (err_quit text : Lib A) p = ([message LOG_ERR (err_line false text p) p], Exit 1 p).
Proof. unfold err_quit, mbind, M_bind. by rewrite err_doit_eq. Qed.

(** A wrapper returns what the call gave when it succeeded, and otherwise ends
    the process with the call's error on standard error. *)
Lemma checked_eq c text p :
  checked c text p =
  if ret (replied c p) <? 0
  then ([Called c (ret (replied c p)); message LOG_ERR (err_line true text (after c p)) (after c p)],
        Exit 1 (after c p))
  else ([Called c (ret (replied c p))], Ret (replied c p) (after c p)).
Proof.
  unfold checked, mbind, M_bind. rewrite call_eq. destruct (_ <? 0); [|done]. by rewrite err_sys_eq.
Qed.

(** ** The theorems *)

(** [err_doit] never runs past its buffer, whatever the message and the
    text of [errno] are: it leaves exactly one line, the message followed for a
    system error by a colon and [errno]'s text, cut to [MAXLINE - 1] characters,
    with a newline; it goes to standard error, or to syslog for a daemon, and
    [err_sys] and [err_quit] then end the process with status 1. *)
Theorem err_doit_one_line (flag : bool) level text p :
  let line (flag : bool) :=
    take (Z.to_nat MAXLINE - 1) (text ++ if flag then str ": " ++ strerror (errno p) else [])
    ++ [x0a] in
  let out flag level :=
    if daemon_proc p =? 0 then Stderr (line flag) else Syslog level (line flag) in
  err_doit flag level text p = ([out flag level], Ret tt p) ∧
  (err_sys text : Lib Z) p = ([out true LOG_ERR], Exit 1 p) ∧
  (err_quit text : Lib Z) p = ([out false LOG_ERR], Exit 1 p).
Proof.
  cbv zeta. rewrite err_doit_eq, err_sys_eq, err_quit_eq. unfold message, err_line.
  by destruct (daemon_proc p =? 0).
Qed.

(** The [socket] calls made for the first addresses of [res], with their results. *)
Definition tried (res : list addrinfo) (results : list Z) : list action :=
  zip_with (λ a r, Called (sys_socket (ai_family a) (ai_socktype a) (ai_protocol a)) r)
    res results.

Lemma first_socket_spec res p o r :
  first_socket res p = (o, r) →
  ∃ failed p', Forall (λ n, n < 0) failed ∧
    ((∃ fd a, 0 <= fd ∧ res !! length failed = Some a ∧ r = Ret (Some (fd, a)) p' ∧
       o = tried res (failed ++ [fd])) ∨
     (length failed = length res ∧ r = Ret None p' ∧ o = tried res failed)).
Proof.
  revert p o r. induction res as [|a res IH]; intros p o r E; cbn [first_socket] in E.
  - injection E as <- <-. exists [], p. split; [constructor|]. by right.
  - unfold mbind, M_bind in E. rewrite call_eq in E. set (c := sys_socket _ _ _) in *.
    destruct (Z.leb_spec 0 (ret (replied c p))) as [Hok|Hbad].
    + injection E as <- <-. exists [], (after c p). split; [constructor|]. left.
      exists (ret (replied c p)), a. repeat (split; [done|]). by destruct res.
    + destruct (first_socket res (after c p)) as [o' r'] eqn:E'. injection E as <- <-.
      destruct (IH _ _ _ E') as (failed & p' & Hf & Hcase).
      exists (ret (replied c p) :: failed), p'. split; [by constructor|].
      destruct Hcase as [(fd & b & Hfd & Hb & -> & ->)|(Hl & -> & ->)]; [left|right].
      * by exists fd, b.
      * simpl. auto.
Qed.

(** C33: [udp_client] makes its socket for the first address that the resolver
    gave and the system can make a socket for: it tries the addresses in order,
    every one before it failed, none after it is tried, and the caller gets the
    new descriptor with that address.  If no address will do, the process ends
    with status 1, after all of them were tried; if the name does not resolve, it
    ends with status 1 and the resolver's error, before any is.  (The resolver
    never succeeds without an address.) *)
Theorem udp_client_first_address host serv p :
  match getaddrinfo (Some host) (Some serv) (mk_hints 0 0 SOCK_DGRAM) with
  | inl n => udp_client host serv p =
      ([message LOG_ERR (err_line false (gai_text (str "udp_client") host serv n) p) p], Exit 1 p)
  | inr [] => udp_client host serv p = ([], Fault NullPointer)
  | inr res => ∃ failed p', Forall (λ n, n < 0) failed ∧
      ((∃ fd a, 0 <= fd ∧ res !! length failed = Some a ∧
         udp_client host serv p = (tried res (failed ++ [fd]), Ret (fd, ai_addr a) p')) ∨
       (length failed = length res ∧ ∃ line, udp_client host serv p =
          (tried res failed ++ [message LOG_ERR line p'], Exit 1 p')))
  end.
Proof.
  unfold udp_client. destruct (getaddrinfo _ _ _) as [n|[|a0 res']]; [apply err_quit_eq|done|].
  set (res := a0 :: res') in *. unfold mbind, M_bind.
  destruct (first_socket res p) as [o r] eqn:E.
  destruct (first_socket_spec _ _ _ _ E) as (failed & p' & Hf & Hcase). exists failed, p'.
  split; [done|]. destruct Hcase as [(fd & a & Hfd & Ha & -> & ->)|(Hl & -> & ->)]; [left|right].
  - exists fd, a. split; [done|]. split; [done|]. cbn [mret M_ret]. unfold mret, M_ret.
    by rewrite app_nil_r.
  - split; [done|]. eexists. rewrite err_sys_eq. reflexivity.
Qed.

(** [Accept] starts over as long as connections were aborted; [aborted k fd n k']
    says that the next [n] calls report that. *)
Inductive aborted (fd : Z) : process → nat → process → Prop :=
| aborted_none p : aborted fd p 0 p
| aborted_one p n p' :
    ret (replied (sys_accept fd) p) < 0 →
    errno (after (sys_accept fd) p) ∈ [EPROTO; ECONNABORTED] →
    aborted fd (after (sys_accept fd) p) n p' → aborted fd p (S n) p'.

Lemma Accept_aborted fd p n p' fuel :
  aborted fd p n p' →
  ∃ o, length o = n ∧
    Accept (n + fuel) fd p = let '(o', r) := Accept fuel fd p' in (o ++ o', r).
Proof.
  induction 1 as [p|p n p' Hneg He Hab (o & Ho & IH)].
  - exists []. split; [done|]. simpl. by destruct (Accept fuel fd p).
  - exists (Called (sys_accept fd) (ret (replied (sys_accept fd) p)) :: o). split; [simpl; lia|].
    simpl Accept. unfold mbind, M_bind. rewrite call_eq.
    rewrite (proj2 (Z.ltb_lt _ _) Hneg). unfold gets.
    replace ((errno (after (sys_accept fd) p) =? EPROTO) ||
             (errno (after (sys_accept fd) p) =? ECONNABORTED)) with true.
    + rewrite IH. by destruct (Accept fuel fd p').
    + rewrite !elem_of_cons in He. symmetry. apply orb_true_iff. rewrite !Z.eqb_eq.
      destruct He as [|[|[]%elem_of_nil]]; auto.
Qed.

(** However many connections are aborted first, [Accept] returns the first one
    that is not, having called [accept] once for each. *)
Theorem Accept_returns_first fd p n p' :
  aborted fd p n p' → 0 <= ret (replied (sys_accept fd) p') →
  ∃ o, length o = S n ∧
    Accept (S n) fd p = (o, Ret (Some (ret (replied (sys_accept fd) p'))) (after (sys_accept fd) p')).
Proof.
  intros Hab Hok. destruct (Accept_aborted fd p n p' 1 Hab) as (o & Ho & E).
  exists (o ++ [Called (sys_accept fd) (ret (replied (sys_accept fd) p'))]).
  split; [rewrite length_app; simpl; lia|]. rewrite Nat.add_1_r in E. rewrite E. simpl Accept.
  unfold mbind, M_bind. rewrite call_eq. by rewrite (proj2 (Z.ltb_ge _ _) Hok).
Qed.
End library.

(** A system whose next calls give the results listed, and whose resolver knows
    an address of either family for every name. *)
Definition scripted : System := {|
  kernel := list Z;
  serve := λ k _, match k with
                  | [] => (mk_reply (-1) (Some EINVAL) [], [])
                  | n :: k => (mk_reply n (if n <? 0 then Some EAFNOSUPPORT else None) [], k)
                  end;
  strerror := λ _, str "Address family not supported";
  gai_strerror := λ _, str "Name or service not known";
  getaddrinfo := λ _ _ h, inr [mk_addrinfo AF_INET6 (h_socktype h) 17 (str "six");
                               mk_addrinfo AF_INET (h_socktype h) 17 (str "four")];
  if_nametoindex := λ _, 0;
  getenv := λ _, None |}.

Lemma udp_client_first_address_witness :
  let p := @mk_process scripted [-1; 5; 6] 0 0 in
  ∃ p', @udp_client scripted (str "minix") (str "1987") p =
    ([Called (sys_socket AF_INET6 SOCK_DGRAM 17) (-1); Called (sys_socket AF_INET SOCK_DGRAM 17) 5],
     Ret (5, str "four") p').
Proof.
  intros p. destruct (@udp_client_first_address scripted (str "minix") (str "1987") p)
    as (failed & p' & Hf & [(fd & a & Hfd & Ha & E)|(_ & line & E)]).
  - exists p'. vm_compute in E. vm_compute. injection E as E1 E2 E3 E4. by subst.
  - exfalso. vm_compute in E. discriminate.
Defined.
