(* ===== verification/SockTable.v ===== *)
(** * What the system promises of sockets

    The programs' set-ups are proved against an interface, [Sockets]: what a
    successful [socket], [bind], [listen], [setsockopt], [fcntl] and
    [getsockname] do to the table of open sockets, and what the resolver says of
    numeric addresses.  [ends] is the logic the set-ups are verified in; [Table]
    is a system that keeps the promise. *)

From Stdlib Require Import Strings.Byte.
From stdpp Require Import gmap.
From S2P Require Import Prelude.
From S2P Require Import CMem.
From S2P Require Import CText.
From S2P Require Import Inet.
From S2P Require Import Inet6.
From S2P Require Import SockLib.

(** ** What the system promises *)

Record sock := mk_sock {
  sk_family : Z; sk_type : Z;
  sk_bound : option bytes;
  sk_queue : option Z;       (* listening, with this queue *)
  sk_flags : Z;              (* the file status flags [fcntl] sets *)
  sk_reuse : bool;
  sk_groups : list bytes;
  sk_ttl : Z }.

(** A new socket: unbound, in no group, its multicast datagrams of one hop. *)
Definition fresh_sock (family type : Z) : sock := mk_sock family type None None 0 false [] 1.

Definition bind_sock (sa : bytes) (s : sock) : sock :=
  mk_sock (sk_family s) (sk_type s) (Some sa) (sk_queue s) (sk_flags s) (sk_reuse s) (sk_groups s)
    (sk_ttl s).
Definition listen_sock (backlog : Z) (s : sock) : sock :=
  mk_sock (sk_family s) (sk_type s) (sk_bound s) (Some backlog) (sk_flags s) (sk_reuse s)
    (sk_groups s) (sk_ttl s).
Definition flag_sock (flags : Z) (s : sock) : sock :=
  mk_sock (sk_family s) (sk_type s) (sk_bound s) (sk_queue s) flags (sk_reuse s) (sk_groups s)
    (sk_ttl s).
Definition reuse_sock (b : bool) (s : sock) : sock :=
  mk_sock (sk_family s) (sk_type s) (sk_bound s) (sk_queue s) (sk_flags s) b (sk_groups s)
    (sk_ttl s).
Definition ttl_sock (n : Z) (s : sock) : sock :=
  mk_sock (sk_family s) (sk_type s) (sk_bound s) (sk_queue s) (sk_flags s) (sk_reuse s)
    (sk_groups s) n.
Definition join_sock (g : bytes) (s : sock) : sock :=
  mk_sock (sk_family s) (sk_type s) (sk_bound s) (sk_queue s) (sk_flags s) (sk_reuse s)
    (g :: sk_groups s) (sk_ttl s).

Definition set_option (level optname : Z) (val : optval) (s : sock) : sock :=
  match val with
  | OInt z => if (level =? SOL_SOCKET) && (optname =? SO_REUSEADDR)
              then reuse_sock (negb (z =? 0)) s else s
  | OUchar z => if (level =? IPPROTO_IP) && (optname =? IP_MULTICAST_TTL) then ttl_sock z s else s
  | OGroup _ g => if optname =? MCAST_JOIN_GROUP then join_sock g s else s
  end.

Definition F_GETFL : Z := 3.
Definition F_SETFL : Z := 4.

(** An option set without looking at the result. *)
Definition setsockopt `{System} (fd level optname : Z) (val : optval) : M process action unit :=
  call (sys_setsockopt fd level optname val) ≫= λ _, mret tt.

(** [struct sockaddr_in]: family, port and address in network order, padding. *)
Definition sockaddr_in (port : Z) (a : bytes) : bytes :=
  put_u16 AF_INET ++ rev (put_u16 port) ++ a ++ zeros 8.

(** [touches fd f k r k']: a call on descriptor [fd] that succeeds changes that
    socket by [f]; one that fails changes none. *)
Definition touches (socks : gmap Z sock) (fd : Z) (f : sock → sock) (r : Z) (socks' : gmap Z sock) : Prop :=
  (0 <= r → ∃ s, socks !! fd = Some s ∧ socks' = <[fd := f s]> socks) ∧
  (r < 0 → socks' = socks).

Class Sockets `{System} := {
  socks : kernel → gmap Z sock;
  (** [socket] gives a descriptor that was not in use *)
  socket_law k f t p :
    (0 <= ret (serve k (sys_socket f t p)).1 →
       socks k !! ret (serve k (sys_socket f t p)).1 = None ∧
       socks (serve k (sys_socket f t p)).2 =
         <[ret (serve k (sys_socket f t p)).1 := fresh_sock f t]> (socks k)) ∧
    (ret (serve k (sys_socket f t p)).1 < 0 → socks (serve k (sys_socket f t p)).2 = socks k);
  bind_law k fd sa :
    touches (socks k) fd (bind_sock sa) (ret (serve k (sys_bind fd sa)).1)
      (socks (serve k (sys_bind fd sa)).2);
  listen_law k fd backlog :
    touches (socks k) fd (listen_sock backlog) (ret (serve k (sys_listen fd backlog)).1)
      (socks (serve k (sys_listen fd backlog)).2);
  fcntl_law k fd cmd arg :
    -1 <= ret (serve k (sys_fcntl fd cmd arg)).1 ∧
    touches (socks k) fd (λ s, if cmd =? F_SETFL then flag_sock arg s else s)
      (ret (serve k (sys_fcntl fd cmd arg)).1) (socks (serve k (sys_fcntl fd cmd arg)).2);
  (** the calls that are not about a socket of the process *)
  other_law k c :
    (∃ path, c = sys_unlink path) ∨ (∃ n h f, c = sys_sigaction n h f) →
    socks (serve k c).2 = socks k;
  sigaction_law k n h f :
    0 <= ret (serve k (sys_sigaction n h f)).1 →
    le_combine (stored (serve k (sys_sigaction n h f)).1) ≠ SIG_ERR;
  setsockopt_law k fd level name val :
    touches (socks k) fd (set_option level name val)
      (ret (serve k (sys_setsockopt fd level name val)).1)
      (socks (serve k (sys_setsockopt fd level name val)).2);
  (** [getsockname] gives an address of the socket's family *)
  getsockname_law k fd :
    socks (serve k (sys_getsockname fd)).2 = socks k ∧
    ∀ s, socks k !! fd = Some s → 0 <= sk_family s < 2 ^ 16 →
      ret (serve k (sys_getsockname fd)).1 = 0 ∧
      sa_family (stored (serve k (sys_getsockname fd)).1) = sk_family s;
  (** [getaddrinfo] of a numeric address and port for datagrams is that address *)
  numeric_law host a port :
    inet_pton AF_INET host = (1, Some a) → 0 <= port < 65536 →
    ∃ protocol, getaddrinfo (Some host) (Some (dec_u port)) (mk_hints 0 0 SOCK_DGRAM) =
      inr [mk_addrinfo AF_INET SOCK_DGRAM protocol (sockaddr_in port a)] }.

(** ** How the set-up ends *)

Section ends.
Context `{Sockets}.
Abbreviation table p := (socks (kern p)).

Lemma after_table c p : table (after c p) = socks (serve (kern p) c).2.
Proof. unfold after. by destruct (sets_errno _). Qed.

Definition failed_call (x : action) : Prop :=
  match x with Called _ r => r < 0 | _ => False end.

(** [ends m Q p]: [m] returns with [Q], or ends the process with status 1, but
    only after a system call failed; it does not run into undefined behaviour. *)
Definition ends {A} (m : M process action A) (Q : A → gmap Z sock → Prop) (p : process) : Prop :=
  match m p with
  | (_, Ret a p') => Q a (table p')
  | (o, Exit c _) => c = 1 ∧ Exists failed_call o
  | (_, Fault _) => False
  end.

Lemma ends_bind {A B} (m : M process action A) (k : A → M process action B) Q p :
  ends m (λ a t, ∀ p', table p' = t → ends (k a) Q p') p → ends (m ≫= k) Q p.
Proof.
  unfold ends, mbind, M_bind. destruct (m p) as [o [a p'|c p'|f]]; [|done..].
  intros Hk. specialize (Hk p' eq_refl). destruct (k a p') as [o' [b p2|c p2|f]]; [done| |done].
  rewrite Exists_app. tauto.
Qed.

(** A check of an earlier call. *)
Lemma ends_call_check c {A} (k : reply → M process action A) (Q : A → gmap Z sock → Prop) p :
  (0 <= ret (serve (kern p) c).1 →
     ∀ p', table p' = socks (serve (kern p) c).2 → ends (k (replied c p)) Q p') →
  (ret (serve (kern p) c).1 < 0 → ∃ o p2, k (replied c p) (after c p) = (o, Exit 1 p2)) →
  ends (call c ≫= k) Q p.
Proof.
  intros Hok Hbad. unfold ends, mbind, M_bind. rewrite call_eq.
  destruct (Z.le_gt_cases 0 (ret (serve (kern p) c).1)) as [Hr|Hr].
  - specialize (Hok Hr (after c p)). rewrite after_table in Hok. specialize (Hok eq_refl).
    unfold ends in Hok. destruct (k (replied c p) (after c p)) as [o [b p2|? p2|f]]; [done| |done].
    rewrite Exists_app. tauto.
  - destruct (Hbad Hr) as (o & p2 & ->). split; [done|]. by left.
Qed.

Lemma ends_ext {A} (m m' : M process action A) Q p : m p = m' p → ends m' Q p → ends m Q p.
Proof. unfold ends. by intros ->. Qed.

Lemma ends_mono {A} (m : M process action A) (Q Q' : A → gmap Z sock → Prop) p :
  ends m Q p → (∀ a t, Q a t → Q' a t) → ends m Q' p.
Proof. unfold ends. destruct (m p) as [o [a p'|c p'|f]]; auto. Qed.

Lemma ends_ret {A} (a : A) Q p : Q a (table p) → ends (mret a : M process action A) Q p.
Proof. done. Qed.

Lemma ends_call c (Q : reply → gmap Z sock → Prop) p :
  Q (replied c p) (socks (serve (kern p) c).2) → ends (call c) Q p.
Proof. unfold ends. rewrite call_eq. simpl. by rewrite after_table. Qed.

Lemma ends_checked c text (Q : reply → gmap Z sock → Prop) p :
  (0 <= ret (replied c p) → Q (replied c p) (socks (serve (kern p) c).2)) →
  ends (checked c text) Q p.
Proof.
  intros HQ. unfold ends. rewrite checked_eq.
  destruct (Z.ltb_spec (ret (replied c p)) 0) as [Hr|Hr]; [split; [done|by left]|].
  rewrite after_table. auto.
Qed.

Lemma ends_Socket f t proto (Q : Z → gmap Z sock → Prop) p :
  (∀ fd, table p !! fd = None → Q fd (<[fd := fresh_sock f t]> (table p))) →
  ends (Socket f t proto) Q p.
Proof.
  intros HQ. apply ends_bind, ends_checked. intros Hr p' Hp'. apply ends_ret. rewrite Hp'.
  destruct (socket_law (kern p) f t proto) as [Hok _]. destruct (Hok Hr) as [Hn ->]. auto.
Qed.

Lemma ends_touch c text fd f (Q : unit → gmap Z sock → Prop) p s :
  touches (table p) fd f (ret (serve (kern p) c).1) (socks (serve (kern p) c).2) →
  table p !! fd = Some s → Q tt (<[fd := f s]> (table p)) →
  ends (checked c text ≫= λ _, mret tt) Q p.
Proof.
  intros [Hok _] Hs HQ. apply ends_bind, ends_checked. intros Hr p' Hp'. apply ends_ret. rewrite Hp'.
  destruct (Hok Hr) as (s' & Hs' & ->). congruence.
Qed.

(** An unchecked option changes the table as it should, or not at all. *)
Lemma ends_setsockopt fd level name val (Q : unit → gmap Z sock → Prop) p s :
  table p !! fd = Some s →
  Q tt (<[fd := set_option level name val s]> (table p)) → Q tt (table p) →
  ends (setsockopt fd level name val) Q p.
Proof.
  intros Hs HQ1 HQ2. apply ends_bind, ends_call. intros p' Hp'. apply ends_ret. rewrite Hp'.
  destruct (setsockopt_law (kern p) fd level name val) as [Hok Hbad].
  destruct (Z.le_gt_cases 0 (ret (serve (kern p) (sys_setsockopt fd level name val)).1)) as [Hr|Hr].
  - destruct (Hok Hr) as (s' & Hs' & ->). congruence.
  - by rewrite (Hbad Hr).
Qed.

(** Calls about no socket. *)
Lemma ends_other c (Q : reply → gmap Z sock → Prop) p :
  (∃ path, c = sys_unlink path) ∨ (∃ n h f, c = sys_sigaction n h f) →
  (∀ r, Q r (table p)) → ends (call c) Q p.
Proof. intros Hc HQ. apply ends_call. rewrite other_law by done. apply HQ. Qed.

Lemma ends_Bind fd sa (Q : unit → gmap Z sock → Prop) p s :
  table p !! fd = Some s → Q tt (<[fd := bind_sock sa s]> (table p)) → ends (Bind fd sa) Q p.
Proof. intros. eapply ends_touch; [apply bind_law|done..]. Qed.

(** The queue length [Listen] passes on. *)
Definition queue_length (backlog : Z) : Z :=
  match getenv (str "LISTENQ") with Some v => i32 (strtol10 v) | None => backlog end.

Lemma ends_Listen fd backlog (Q : unit → gmap Z sock → Prop) p s :
  table p !! fd = Some s → Q tt (<[fd := listen_sock (queue_length backlog) s]> (table p)) →
  ends (Listen fd backlog) Q p.
Proof. intros. eapply ends_touch; [apply listen_law|done..]. Qed.

Lemma ends_emit x (Q : unit → gmap Z sock → Prop) p : Q tt (table p) → ends (emit x) Q p.
Proof. done. Qed.

Lemma ends_required {A} f (o : option A) a (Q : A → gmap Z sock → Prop) p :
  o = Some a → Q a (table p) → ends (required f o) Q p.
Proof. by intros ->. Qed.

Lemma ends_Signal n h (Q : Z → gmap Z sock → Prop) p :
  (∀ old, Q old (table p)) → ends (Signal n h) Q p.
Proof.
  intros HQ. set (c := sys_sigaction n h (if n =? SIGALRM then SA_INTERRUPT else SA_RESTART)).
  set (k := λ r : reply, let old := if ret r <? 0 then SIG_ERR else le_combine (stored r) in
    if old =? SIG_ERR then err_sys (str "signal error") else mret old : M process action Z).
  apply (ends_ext _ (call c ≫= k)).
  { unfold Signal, signal, mbind, M_bind. fold c. rewrite call_eq. unfold k. simpl.
    by destruct (_ =? _). }
  apply ends_call_check; unfold k, replied; cbv zeta.
  - intros Hr p' Hp'. rewrite (proj2 (Z.ltb_ge _ _) Hr).
    rewrite (proj2 (Z.eqb_neq _ _)) by by apply sigaction_law.
    apply ends_ret. rewrite Hp', other_law by eauto. apply HQ.
  - intros Hr. rewrite (proj2 (Z.ltb_lt _ _) Hr), Z.eqb_refl, err_sys_eq. by eexists _, _.
Qed.

Lemma ends_signal n h (Q : Z → gmap Z sock → Prop) p :
  (∀ old, Q old (table p)) → ends (signal n h) Q p.
Proof. intros HQ. apply ends_bind, ends_other; [eauto|]. intros r p' Hp'. apply ends_ret. by rewrite Hp'. Qed.

(** A numeric address is turned into bytes without further ado. *)
Lemma ends_Inet_pton host a (Q : bytes → gmap Z sock → Prop) p :
  inet_pton AF_INET host = (1, Some a) → Q a (table p) → ends (Inet_pton AF_INET host) Q p.
Proof. intros E HQ. unfold Inet_pton. by rewrite E. Qed.
End ends.

(** ** A system that keeps the promise *)
Module Table.

Definition next_fd (t : gmap Z sock) : Z := map_fold (λ fd _ m, Z.max (fd + 1) m) 3 t.

Lemma next_fd_above t : 3 <= next_fd t ∧ ∀ fd s, t !! fd = Some s → fd < next_fd t.
Proof.
  unfold next_fd. apply (map_fold_weak_ind (λ m t, 3 <= m ∧ ∀ fd s, t !! fd = Some s → fd < m)).
  - split; [lia|]. intros fd s Hfd. by rewrite lookup_empty in Hfd.
  - intros i x t' m Hi [H3 IH]. split; [lia|]. intros fd s [[-> ->]|[Hne Hfd]]%lookup_insert_Some; [lia|].
    specialize (IH _ _ Hfd). lia.
Qed.

Lemma sa_family_put f rest : 0 <= f < 2 ^ 16 → sa_family (put_u16 f ++ rest) = f.
Proof.
  intros Hf. unfold sa_family. rewrite take_app_length' by (symmetry; apply put_u16_length).
  by apply get_put_u16.
Qed.

Definition EBADF : Z := 9.

Definition on_socket (t : gmap Z sock) (fd : Z) (f : sock → sock) : reply * gmap Z sock :=
  match t !! fd with
  | Some s => (mk_reply 0 None [], <[fd := f s]> t)
  | None => (mk_reply (-1) (Some EBADF) [], t)
  end.

Definition answer (t : gmap Z sock) (c : syscall) : reply * gmap Z sock :=
  match c with
  | sys_socket f ty _ => (mk_reply (next_fd t) None [], <[next_fd t := fresh_sock f ty]> t)
  | sys_bind fd sa => on_socket t fd (bind_sock sa)
  | sys_listen fd backlog => on_socket t fd (listen_sock backlog)
  | sys_fcntl fd cmd arg => on_socket t fd (λ s, if cmd =? F_SETFL then flag_sock arg s else s)
  | sys_setsockopt fd level name val => on_socket t fd (set_option level name val)
  | sys_getsockname fd =>
      (match t !! fd with
       | Some s => mk_reply 0 None (put_u16 (sk_family s) ++ zeros 14)
       | None => mk_reply (-1) (Some EBADF) []
       end, t)
  | _ => (mk_reply 0 None [], t)
  end.

Definition resolve (host serv : option bytes) (h : hints) : Z + list addrinfo :=
  match host, serv with
  | Some host, Some serv =>
      match (inet_pton AF_INET host).2 with
      | Some a => inr [mk_addrinfo AF_INET (h_socktype h) 17
                         (sockaddr_in (strtol10 (serv ++ [NUL])) a)]
      | None => inl (-2)
      end
  | _, _ => inl (-2)
  end.

#[export] Instance table_system : System := {
  kernel := gmap Z sock;
  serve := answer;
  strerror := λ _, str "Bad file descriptor";
  gai_strerror := λ _, str "Name or service not known";
  getaddrinfo := resolve;
  if_nametoindex := λ _, 0;
  getenv := λ _, None }.

Lemma on_socket_touches t fd f : touches t fd f (ret (on_socket t fd f).1) (on_socket t fd f).2.
Proof.
  unfold on_socket, touches. destruct (t !! fd) as [s|] eqn:E; simpl; [|split; [lia|done]].
  split; [eauto|lia].
Qed.

#[export] Instance table_sockets : Sockets.
Proof.
  refine {| socks := λ k : @kernel table_system, k : gmap Z sock |}.
  - intros k f t p. simpl. destruct (next_fd_above k) as [H3 Hab]. split; [|lia]. intros _.
    split; [|done]. destruct (k !! next_fd k) as [s|] eqn:E; [|done]. specialize (Hab _ _ E). lia.
  - intros. apply on_socket_touches.
  - intros. apply on_socket_touches.
  - intros k fd cmd arg. split; [|apply on_socket_touches].
    simpl. unfold on_socket. by destruct (_ !! fd).
  - intros k c [[path ->]|(n & h & f & ->)]; done.
  - intros. by vm_compute.
  - intros. apply on_socket_touches.
  - intros k fd. split; [done|]. intros s Hs Hf. cbn [serve table_system answer fst].
    rewrite Hs. split; [done|]. by apply sa_family_put.
  - intros host a port Hh Hp. exists 17. simpl. rewrite Hh. simpl.
    rewrite strtol_dec_u; [done|unfold LONG_MAX; lia].
Defined.
End Table.

