(* ===== verification/Setups.v ===== *)
(** * How the programs open their sockets

    The first lines of every [main]: Assignment1's server and clients, the
    servers of hw2 and hw3, the router, the ARP daemon and its clients, and the
    nodes of a tour.  Each set-up is verified against the interface of
    [SockTable]: it ends with the sockets its peers look for, or with a status
    that tells of the system call that failed. *)

From Stdlib Require Import Strings.Byte.
From stdpp Require Import gmap.
From S2P Require Import Prelude.
From S2P Require Import CMem.
From S2P Require Import CText.
From S2P Require Import Inet.
From S2P Require Import Inet6.
From S2P Require Import OdrMsg.
From S2P Require Import SockLib.
From S2P Require Import SockTable.

Definition AF_LOCAL : Z := 1.
Definition FNDELAY : Z := 2048.
Definition LISTENQ : Z := 1024.
Definition SIGPIPE : Z := 13.
Definition SIG_IGN : Z := 1.
Definition INADDR_ANY : bytes := zeros 4.

(** ** Addresses *)

(** A [struct sockaddr_un] cleared and given its path with [strcpy]. *)
Definition sun_path_size : nat := 108.
Definition sockaddr_un (path : bytes) : option bytes :=
  (λ d, put_u16 AF_LOCAL ++ d) <$> strcpy (zeros sun_path_size) path.

Definition MCAST_IP : bytes := str "224.220.108.121".
Definition MCAST_PORT : bytes := str "1987".
Definition ETH_P_IP_net : Z := 8.   (* htons(ETH_P_IP) *)
Definition IPPROTO_icmp : Z := 1.
Definition RT_proto : Z := 195.
Definition sizeof_sockaddr : nat := 16.

Record tour_fds := mk_tour_fds {
  rt_sock : Z; rawfd : Z; pgfd : Z; udp_send_sock : Z; udp_recv_sock : Z; sasend : bytes }.

Section setup.
Context `{System}.
Abbreviation Lib := (M process action).

(** ** Assignment1 *)

Definition echo_port_num : Z := 5589.
Definition time_port_num : Z := 5590.

(** [fileflags = fcntl(...) == -1] assigns the comparison. *)
Definition nonblocking (fd : Z) : Lib unit :=
  r ← call (sys_fcntl fd F_GETFL 0);
  let fileflags := if ret r =? -1 then 1 else 0 in
  if negb (fileflags =? 0) then
    emit (Stdout (str "Error in fileflags " ++ [x0a])) ≫= λ _, exit 1
  else
    r ← call (sys_fcntl fd F_SETFL (Z.lor fileflags FNDELAY));
    if ret r =? -1 then
      e ← gets errno;
      emit (Stderr (str "fcntl F_SETFL, FNDELAY: " ++ strerror e ++ [x0a])) ≫= λ _, exit 1
    else mret tt.

Definition listener (port : Z) : Lib Z :=
  fd ← Socket AF_INET SOCK_STREAM 0;
  setsockopt fd SOL_SOCKET SO_REUSEADDR (OInt 1) ≫= λ _,
  nonblocking fd ≫= λ _,
  Bind fd (sockaddr_in port INADDR_ANY) ≫= λ _,
  Listen fd LISTENQ ≫= λ _,
  mret fd.

Definition echotime_setup (sig_pipe : Z) : Lib (Z * Z) :=
  echo_listenfd ← listener echo_port_num;
  time_listenfd ← listener time_port_num;
  Signal SIGPIPE sig_pipe ≫= λ _,
  mret (echo_listenfd, time_listenfd).

(** The clients, each with its own [port_num]: the socket and what [connect]
    returned. *)
Definition client_connect (port : Z) (host : bytes) : Lib (Z * Z) :=
  sockfd ← Socket AF_INET SOCK_STREAM 0;
  a ← Inet_pton AF_INET host;
  r ← call (sys_connect sockfd (sockaddr_in port a));
  mret (sockfd, ret r).

Definition echo_cli_port_num : Z := 5589.
Definition echo_cli_connect (host : bytes) : Lib (Z * Z) := client_connect echo_cli_port_num host.
Definition time_cli_port_num : Z := 5590.
Definition time_cli_connect (host : bytes) : Lib (Z * Z) := client_connect time_cli_port_num host.

(** ** hw4: the ARP daemon, and [areq] up to its question *)

Definition DOMAIN_SOCK_PORT : bytes := str "/tmp/_deva_kau_temp".

(** [htons] of the address of a string literal. *)
Definition htons (z : Z) : Z := get_u16 (rev (put_u16 z)).

Definition arp_setup (our_pf_protocol : Z) : Lib (Z * Z) :=
  listenfd ← Socket AF_LOCAL SOCK_STREAM 0;
  call (sys_unlink DOMAIN_SOCK_PORT) ≫= λ _,
  servaddr ← required BadCopy (sockaddr_un DOMAIN_SOCK_PORT);
  Bind listenfd servaddr ≫= λ _,
  Listen listenfd LISTENQ ≫= λ _,
  signal SIGPIPE SIG_IGN ≫= λ _,
  rawfd ← Socket PF_PACKET SOCK_RAW (htons our_pf_protocol);
  mret (listenfd, rawfd).

Definition areq_connect : Lib Z :=
  fd ← Socket AF_LOCAL SOCK_STREAM 0;
  servaddr ← required BadCopy (sockaddr_un DOMAIN_SOCK_PORT);
  Connect fd servaddr ≫= λ _, mret fd.

(** ** hw3: the router and the time server *)

Definition PF_PACK_PROTO : bytes := str "_test0589".

Definition odr_setup (pf_pack_proto : Z) : Lib (Z * Z * bytes) :=
  call (sys_unlink PF_PACK_PROTO) ≫= λ _,
  call (sys_unlink RAW_SERVER_PROTO) ≫= λ _,
  rawfd ← Socket PF_PACKET SOCK_RAW (htons pf_pack_proto);
  dgramfd ← Socket AF_LOCAL SOCK_DGRAM 0;
  serveraddr ← required BadCopy (sockaddr_un DOMAIN_SOCK_PATH);
  odraddr ← required BadCopy (sockaddr_un RAW_SERVER_PROTO);
  Bind dgramfd odraddr ≫= λ _,
  mret (rawfd, dgramfd, serveraddr).

(** [SUN_LEN]: the family and the path without its terminator. *)
Definition SUN_LEN (sa : bytes) : nat := 2 + length (cstr (drop 2 sa)).

Definition time_server_setup : Lib Z :=
  sockfd ← Socket AF_LOCAL SOCK_DGRAM 0;
  call (sys_unlink DOMAIN_SOCK_PATH) ≫= λ _,
  addr1 ← required BadCopy (strncpy (zeros sun_path_size) DOMAIN_SOCK_PATH (sun_path_size - 1));
  let addr1 := put_u16 AF_LOCAL ++ addr1 in
  Bind sockfd (take (SUN_LEN addr1) addr1) ≫= λ _,
  emit (Stdout (str "Bound" ++ [x0a])) ≫= λ _,
  mret sockfd.

(** The address [respond] sends its answers to. *)
Definition respond_odraddr : option bytes := sockaddr_un RAW_SERVER_PROTO.

(** The time client, with the name [mkstemp] made of [client_port]: its socket
    and the address it sends its requests to. *)
Definition time_client_setup (client_port : bytes) : Lib (Z * bytes) :=
  sockfd ← Socket AF_LOCAL SOCK_DGRAM 0;
  call (sys_unlink client_port) ≫= λ _,
  path ← required BadCopy (strncpy (zeros sun_path_size) client_port (sun_path_size - 1));
  let cliaddr := put_u16 AF_LOCAL ++ path in
  Bind sockfd cliaddr ≫= λ _,
  odraddr ← required BadCopy (sockaddr_un RAW_SERVER_PROTO);
  mret (sockfd, odraddr).

(** ** hw2: one socket for every address of the server *)

Fixpoint open_listeners (port_num : Z) (addrs : list bytes) : Lib (list Z) :=
  match addrs with
  | [] => mret []
  | ip_addr :: addrs =>
      fd ← Socket AF_INET SOCK_DGRAM 0;
      a ← Inet_pton AF_INET ip_addr;
      Bind fd (sockaddr_in port_num a) ≫= λ _,
      fds ← open_listeners port_num addrs;
      mret (fd :: fds)
  end.

(** The socket of one transfer, and the port the system gave it. *)
Definition transfer_socket : Lib (Z * Z) :=
  new_sockfd ← Socket AF_INET SOCK_DGRAM 0;
  Bind new_sockfd (sockaddr_in 0 INADDR_ANY) ≫= λ _,
  r ← call (sys_getsockname new_sockfd);
  let sock_addr := if ret r <? 0 then zeros 16 else stored r in
  mret (new_sockfd, get_u16 (rev (slice 2 2 sock_addr))).

(** ** hw4: a node of the tour *)

(** The part under [visited == 0], which holds the only time [main] runs. *)
Definition open_group : M process action (Z * Z * bytes) :=
  c ← udp_client MCAST_IP MCAST_PORT;
  let '(udp_send_sock, sasend) := c in
  udp_recv_sock ← Socket (sa_family sasend) SOCK_DGRAM 0;
  Setsockopt udp_recv_sock SOL_SOCKET SO_REUSEADDR (OInt 1) ≫= λ _,
  sarecv ← required BadCopy (memcpy_at 0 (zeros sizeof_sockaddr) sasend);
  Bind udp_recv_sock (take (length sasend) sarecv) ≫= λ _,
  Mcast_join udp_recv_sock sasend None 0 ≫= λ _,
  mcast_set_ttl udp_send_sock 1 ≫= λ _,
  mret (udp_send_sock, udp_recv_sock, sasend).

Definition open_sockets : M process action tour_fds :=
  rt_sock ← Socket AF_INET SOCK_RAW RT_proto;
  rawfd ← Socket PF_PACKET SOCK_RAW ETH_P_IP_net;
  pgfd ← Socket AF_INET SOCK_RAW IPPROTO_icmp;
  setsockopt pgfd IPPROTO_IP IP_HDRINCL (OInt 1) ≫= λ _,
  setsockopt rt_sock IPPROTO_IP IP_HDRINCL (OInt 1) ≫= λ _,
  setsockopt rawfd IPPROTO_IP IP_HDRINCL (OInt 1) ≫= λ _,
  setsockopt rawfd SOL_SOCKET SO_REUSEADDR (OInt 1) ≫= λ _,
  g ← open_group;
  let '(udp_send_sock, udp_recv_sock, sasend) := g in
  mret (mk_tour_fds rt_sock rawfd pgfd udp_send_sock udp_recv_sock sasend).
End setup.

Section proofs.
Context `{Sockets}.
Abbreviation table p := (socks (kern p)).

(** The group's address, and the socket that receives from it. *)
Definition group : bytes := sockaddr_in 1987 [xe0; xdc; x6c; x79].
Definition group_sock : sock := mk_sock AF_INET SOCK_DGRAM (Some group) None 0 true [group] 1.

Lemma ends_udp_client (Q : Z * bytes → gmap Z sock → Prop) p :
  (∀ fd, table p !! fd = None →
     Q (fd, group) (<[fd := fresh_sock AF_INET SOCK_DGRAM]> (table p))) →
  ends (udp_client MCAST_IP MCAST_PORT) Q p.
Proof.
  intros HQ. unfold udp_client. change MCAST_PORT with (dec_u 1987).
  destruct (numeric_law MCAST_IP [xe0; xdc; x6c; x79] 1987) as [proto ->];
    [by vm_compute|lia|].
  set (c := sys_socket AF_INET SOCK_DGRAM proto). set (text := str "udp_client error for " ++ _).
  set (k := λ r : reply, if 0 <=? ret r then mret (ret r, group) else err_sys text : M process action _).
  apply (ends_ext _ (call c ≫= k)).
  { unfold mbind, M_bind. cbn [first_socket ai_family ai_socktype ai_protocol]. fold c.
    unfold mbind, M_bind. rewrite call_eq. unfold k. by destruct (0 <=? _). }
  apply ends_call_check; unfold k, replied.
  - intros Hr p' Hp'. rewrite (proj2 (Z.leb_le _ _) Hr). apply ends_ret. rewrite Hp'. unfold c in *.
    destruct (socket_law (kern p) AF_INET SOCK_DGRAM proto) as [Hok _].
    destruct (Hok Hr) as [Hn ->]. by apply HQ.
  - intros Hr. rewrite (proj2 (Z.leb_gt _ _) Hr), err_sys_eq. by eexists _, _.
Qed.

Lemma ends_Mcast_join fd (Q : unit → gmap Z sock → Prop) p s :
  table p !! fd = Some s →
  Q tt (<[fd := join_sock group s]> (table p)) →
  ends (Mcast_join fd group None 0) Q p.
Proof.
  intros Hs HQ. set (c := sys_setsockopt fd IPPROTO_IP MCAST_JOIN_GROUP (OGroup 0 group)).
  set (k := λ r : reply, if ret r <? 0 then err_sys (str "mcast_join error") else mret tt
              : M process action unit).
  apply (ends_ext _ (call c ≫= k)).
  { unfold Mcast_join, mbind, M_bind.
    change (mcast_join fd group None 0) with (call c ≫= λ r, mret (ret r) : M process action Z).
    unfold mbind, M_bind. rewrite call_eq. unfold k. simpl. by destruct (_ <? 0). }
  apply ends_call_check; unfold k, replied.
  - intros Hr p' Hp'. rewrite (proj2 (Z.ltb_ge _ _) Hr). apply ends_ret. rewrite Hp'. unfold c in *.
    destruct (setsockopt_law (kern p) fd IPPROTO_IP MCAST_JOIN_GROUP (OGroup 0 group)) as [Hok _].
    destruct (Hok Hr) as (s' & Hs' & ->). assert (s' = s) as -> by congruence. done.
  - intros Hr. rewrite (proj2 (Z.ltb_lt _ _) Hr), err_sys_eq. by eexists _, _.
Qed.

Lemma ends_mcast_set_ttl fd (Q : Z → gmap Z sock → Prop) p s :
  table p !! fd = Some s → sk_family s = AF_INET → sk_ttl s = 1 →
  (∀ r, Q r (table p)) → ends (mcast_set_ttl fd 1) Q p.
Proof.
  intros Hs Hf Ht HQ. apply ends_bind, ends_bind, ends_call. intros p1 Hp1. apply ends_ret.
  destruct (getsockname_law (kern p) fd) as [Hsame Hfam]. destruct (Hfam s Hs) as [Hr Hsa];
    [by rewrite Hf|].
  unfold replied. rewrite Hr, Hsa, Hf. intros p2 Hp2. rewrite Hp1, Hsame in Hp2. change (ends
    (call (sys_setsockopt fd IPPROTO_IP IP_MULTICAST_TTL (OUchar 1)) ≫= λ r, mret (ret r)) Q p2).
  apply ends_bind, ends_call. intros p3 Hp3. apply ends_ret. rewrite Hp3.
  destruct (setsockopt_law (kern p2) fd IPPROTO_IP IP_MULTICAST_TTL (OUchar 1)) as [Hok Hbad].
  destruct (Z.le_gt_cases 0 (ret (serve (kern p2)
    (sys_setsockopt fd IPPROTO_IP IP_MULTICAST_TTL (OUchar 1))).1)) as [Hge|Hge].
  - destruct (Hok Hge) as (s' & Hs' & ->). rewrite Hp2 in *. assert (s' = s) as -> by congruence.
    rewrite insert_id; [done|]. rewrite Hs. destruct s; simpl in *. by subst.
  - rewrite (Hbad Hge), Hp2. done.
Qed.

(** The group's sockets, whatever was open before. *)
Lemma ends_open_group p :
  ends open_group (λ g t, let '(snd, rcv, sa) := g in
    sa = group ∧ snd ≠ rcv ∧ table p !! snd = None ∧ table p !! rcv = None ∧
    t !! snd = Some (fresh_sock AF_INET SOCK_DGRAM) ∧ t !! rcv = Some group_sock ∧
    ∀ fd s, table p !! fd = Some s → t !! fd = Some s) p.
Proof.
  unfold open_group. apply ends_bind, ends_udp_client. intros snd Hsnd p1 H1.
  apply ends_bind, ends_Socket. change (sa_family group) with AF_INET.
  rewrite H1. intros rcv Hrcv p2 H2.
  assert (snd ≠ rcv) as Hne by (intros ->; by rewrite lookup_insert_eq in Hrcv).
  rewrite lookup_insert_ne in Hrcv by done.
  apply ends_bind. eapply ends_touch; [apply setsockopt_law|rewrite H2; apply lookup_insert_eq|].
  intros p3 H3. rewrite H2 in H3. apply ends_bind.
  change (required _ _) with (mret group : M process action bytes). apply ends_ret. intros p4 H4.
  rewrite H3 in H4. change (take (length group) group) with group.
  apply ends_bind. eapply ends_touch; [apply bind_law|rewrite H4; apply lookup_insert_eq|].
  intros p5 H5. rewrite H4, !insert_insert_eq in H5.
  apply ends_bind. eapply ends_Mcast_join; [rewrite H5; apply lookup_insert_eq|].
  intros p6 H6. rewrite H5, insert_insert_eq in H6.
  apply ends_bind. eapply ends_mcast_set_ttl;
    [rewrite H6, lookup_insert_ne by done; apply lookup_insert_eq|done|done|].
  intros r p7 H7. rewrite H6 in H7. apply ends_ret. rewrite H7.
  repeat (split; [by simplify_map_eq|]). intros fd s Hfd.
  rewrite !lookup_insert_ne by congruence. done.
Qed.

(** The sockets [main] has opened. *)
Definition tour_ready (t : tour_fds) (tab : gmap Z sock) : Prop :=
  sasend t = group ∧
  NoDup [rt_sock t; rawfd t; pgfd t; udp_send_sock t; udp_recv_sock t] ∧
  tab !! rt_sock t = Some (fresh_sock AF_INET SOCK_RAW) ∧
  tab !! pgfd t = Some (fresh_sock AF_INET SOCK_RAW) ∧
  (∃ reuse, tab !! rawfd t = Some (mk_sock PF_PACKET SOCK_RAW None None 0 reuse [] 1)) ∧
  tab !! udp_send_sock t = Some (fresh_sock AF_INET SOCK_DGRAM) ∧
  tab !! udp_recv_sock t = Some group_sock.

(** [IP_HDRINCL] is no part of the table. *)
Lemma ends_hdrincl fd (Q : unit → gmap Z sock → Prop) p s :
  table p !! fd = Some s → Q tt (table p) →
  ends (setsockopt fd IPPROTO_IP IP_HDRINCL (OInt 1)) Q p.
Proof. intros Hs HQ. eapply ends_setsockopt; [done| |done]. simpl. by rewrite insert_id. Qed.

Lemma ends_reuse fd (Q : unit → gmap Z sock → Prop) p s :
  table p !! fd = Some s → (∀ b, Q tt (<[fd := reuse_sock b s]> (table p))) →
  ends (setsockopt fd SOL_SOCKET SO_REUSEADDR (OInt 1)) Q p.
Proof.
  intros Hs HQ. eapply ends_setsockopt; [done|apply (HQ true)|].
  rewrite <- (insert_id (table p) fd (reuse_sock (sk_reuse s) s)); [apply HQ|]. by destruct s.
Qed.

(** C23: a node of the tour that gets past its set-up has five different
    sockets; the one it reads the group's messages from is bound to
    224.220.108.121 port 1987, may share that address with other processes of
    the host and has joined exactly that group; the one it multicasts with sends
    datagrams of one hop to that same address.  The set-up ends otherwise only
    when a system call failed, with status 1: the address it resolves fits the
    structure it is copied to. *)
Theorem tour_joins_group p : ends open_sockets tour_ready p.
Proof.
  unfold open_sockets. apply ends_bind, ends_Socket. intros rt Hrt p1 H1.
  apply ends_bind, ends_Socket. rewrite H1. intros raw Hraw p2 H2.
  apply ends_bind, ends_Socket. rewrite H2. intros pg Hpg p3 H3.
  assert (rt ≠ raw ∧ rt ≠ pg ∧ raw ≠ pg) as (Hn1 & Hn2 & Hn3).
  { apply lookup_insert_None in Hraw as [_ ?]. rewrite !lookup_insert_None in Hpg. tauto. }
  apply ends_bind. eapply ends_hdrincl; [rewrite H3; apply lookup_insert_eq|]. intros p4 H4. rewrite H3 in H4.
  apply ends_bind. eapply ends_hdrincl; [by rewrite H4; simplify_map_eq|]. intros p5 H5. rewrite H4 in H5.
  apply ends_bind. eapply ends_hdrincl; [by rewrite H5; simplify_map_eq|]. intros p6 H6. rewrite H5 in H6.
  apply ends_bind, (ends_reuse _ _ _ (fresh_sock PF_PACKET SOCK_RAW)); [by rewrite H6; simplify_map_eq|].
  intros b p7 H7. rewrite H6 in H7.
  change (reuse_sock b _) with (mk_sock PF_PACKET SOCK_RAW None None 0 b [] 1) in H7.
  apply ends_bind. eapply ends_mono; [apply ends_open_group|].
  intros [[snd rcv] sa] t (-> & Hsr & Hs0 & Hr0 & Hs & Hr & Hframe) p8 H8. apply ends_ret.
  rewrite H8. rewrite H7 in Hs0, Hr0, Hframe.
  assert (∀ fd s, <[raw:=mk_sock PF_PACKET SOCK_RAW None None 0 b [] 1]> (<[pg:=fresh_sock AF_INET SOCK_RAW]>
    (<[raw:=fresh_sock PF_PACKET SOCK_RAW]> (<[rt:=fresh_sock AF_INET SOCK_RAW]> (table p))))
    !! fd = Some s → fd ≠ snd ∧ fd ≠ rcv) as Hold by (intros fd s Hfd; split; intros ->; congruence).
  unfold tour_ready. simpl. split; [done|]. split; [|split; [|split; [|split; [|by split]]]].
  - destruct (Hold rt (fresh_sock AF_INET SOCK_RAW)) as [? ?]; [by simplify_map_eq|].
    destruct (Hold pg (fresh_sock AF_INET SOCK_RAW)) as [? ?]; [by simplify_map_eq|].
    destruct (Hold raw (mk_sock PF_PACKET SOCK_RAW None None 0 b [] 1)) as [? ?]; [by simplify_map_eq|].
    repeat (apply NoDup_cons; split; [set_solver|]). apply NoDup_nil_2.
  - apply Hframe. by simplify_map_eq.
  - apply Hframe. by simplify_map_eq.
  - exists b. apply Hframe. by simplify_map_eq.
Qed.

(** ** Servers *)

Lemma ends_nonblocking fd (Q : unit → gmap Z sock → Prop) p s :
  table p !! fd = Some s → Q tt (<[fd := flag_sock FNDELAY s]> (table p)) →
  ends (nonblocking fd) Q p.
Proof.
  intros Hs HQ. unfold nonblocking. apply ends_call_check; unfold replied.
  - intros Hr p' Hp'. rewrite (proj2 (Z.eqb_neq _ (-1))) by lia. cbv beta iota zeta.
    destruct (fcntl_law (kern p) fd F_GETFL 0) as (_ & Hget & _).
    destruct (Hget Hr) as (s' & Hs' & E). simpl in E. rewrite insert_id in E by done.
    rewrite E in Hp'. change (Z.lor 0 FNDELAY) with FNDELAY.
    change (negb (0 =? 0)) with false. cbv iota.
    destruct (fcntl_law (kern p') fd F_SETFL FNDELAY) as (Hge & Hset & _).
    apply ends_call_check; unfold replied.
    + intros Hr' p2 Hp2. rewrite (proj2 (Z.eqb_neq _ (-1))) by lia. apply ends_ret. rewrite Hp2.
      destruct (Hset Hr') as (s2 & Hs2 & ->). rewrite Hp' in *. assert (s2 = s) as -> by congruence. done.
    + intros Hr'. rewrite (proj2 (Z.eqb_eq _ (-1))) by lia. by eexists _, _.
  - intros Hr. destruct (fcntl_law (kern p) fd F_GETFL 0) as (Hge & _).
    rewrite (proj2 (Z.eqb_eq _ (-1))) by lia. by eexists _, _.
Qed.

(** A non-blocking TCP socket that listens on every address of the host. *)
Definition listening (port : Z) (reuse : bool) : sock :=
  mk_sock AF_INET SOCK_STREAM (Some (sockaddr_in port INADDR_ANY)) (Some (queue_length LISTENQ))
    FNDELAY reuse [] 1.

Lemma ends_listener port (Q : Z → gmap Z sock → Prop) p :
  (∀ fd b, table p !! fd = None → Q fd (<[fd := listening port b]> (table p))) →
  ends (listener port) Q p.
Proof.
  intros HQ. apply ends_bind, ends_Socket. intros fd Hfd p1 H1.
  apply ends_bind. eapply ends_reuse; [rewrite H1; apply lookup_insert_eq|]. intros b p2 H2.
  rewrite H1, insert_insert_eq in H2.
  apply ends_bind. eapply ends_nonblocking; [rewrite H2; apply lookup_insert_eq|]. intros p3 H3.
  rewrite H2, insert_insert_eq in H3.
  apply ends_bind. eapply ends_Bind; [rewrite H3; apply lookup_insert_eq|]. intros p4 H4.
  rewrite H3, insert_insert_eq in H4.
  apply ends_bind. eapply ends_Listen; [rewrite H4; apply lookup_insert_eq|]. intros p5 H5.
  rewrite H4, insert_insert_eq in H5. apply ends_ret. rewrite H5. by apply (HQ fd b).
Qed.

(** A local socket bound to a path. *)
Definition local_sock (type : Z) (sa : bytes) (queue : option Z) : sock :=
  mk_sock AF_LOCAL type (Some sa) queue 0 false [] 1.

(** [struct sockaddr_un] with a path. *)
Definition at_path (path : bytes) : bytes :=
  put_u16 AF_LOCAL ++ path ++ zeros (sun_path_size - length path).

Lemma ends_arp_setup proto p :
  ends (arp_setup proto) (λ fds tab, fds.1 ≠ fds.2 ∧
    tab !! fds.1 = Some (local_sock SOCK_STREAM (at_path DOMAIN_SOCK_PORT) (Some (queue_length LISTENQ))) ∧
    tab !! fds.2 = Some (fresh_sock PF_PACKET SOCK_RAW)) p.
Proof.
  apply ends_bind, ends_Socket. intros fd Hfd p1 H1.
  apply ends_bind, ends_other; [eauto|]. intros _ p2 H2. rewrite H1 in H2.
  apply ends_bind. eapply ends_required; [vm_compute; reflexivity|]. intros p3 H3. rewrite H2 in H3.
  apply ends_bind. eapply ends_Bind; [rewrite H3; apply lookup_insert_eq|]. intros p4 H4.
  rewrite H3, insert_insert_eq in H4.
  apply ends_bind. eapply ends_Listen; [rewrite H4; apply lookup_insert_eq|]. intros p5 H5.
  rewrite H4, insert_insert_eq in H5.
  apply ends_bind, ends_signal. intros _ p6 H6. rewrite H5 in H6.
  apply ends_bind, ends_Socket. intros raw Hraw p7 H7. rewrite H6 in Hraw, H7.
  apply lookup_insert_None in Hraw as [_ Hne]. apply ends_ret. rewrite H7. cbn [fst snd].
  split; [done|]. rewrite lookup_insert_ne by done. rewrite !lookup_insert_eq. done.
Qed.

Lemma ends_odr_setup proto p :
  ends (odr_setup proto) (λ fds tab, fds.1.1 ≠ fds.1.2 ∧ fds.2 = at_path DOMAIN_SOCK_PATH ∧
    tab !! fds.1.1 = Some (fresh_sock PF_PACKET SOCK_RAW) ∧
    tab !! fds.1.2 = Some (local_sock SOCK_DGRAM (at_path RAW_SERVER_PROTO) None)) p.
Proof.
  apply ends_bind, ends_other; [eauto|]. intros _ p1 H1.
  apply ends_bind, ends_other; [eauto|]. intros _ p2 H2.
  apply ends_bind, ends_Socket. intros raw Hraw p3 H3.
  apply ends_bind, ends_Socket. intros fd Hfd p4 H4. rewrite H3 in Hfd, H4.
  apply lookup_insert_None in Hfd as [_ Hne].
  apply ends_bind. eapply ends_required; [vm_compute; reflexivity|]. intros p5 H5. rewrite H4 in H5.
  apply ends_bind. eapply ends_required; [vm_compute; reflexivity|]. intros p6 H6. rewrite H5 in H6.
  apply ends_bind. eapply ends_Bind; [rewrite H6; apply lookup_insert_eq|]. intros p7 H7.
  rewrite H6, insert_insert_eq in H7. apply ends_ret. rewrite H7. cbn [fst snd].
  split; [done|]. split; [by vm_compute|]. rewrite lookup_insert_ne, !lookup_insert_eq by done. done.
Qed.

Lemma ends_time_server p :
  ends time_server_setup (λ fd tab, tab !! fd =
    Some (local_sock SOCK_DGRAM (put_u16 AF_LOCAL ++ DOMAIN_SOCK_PATH) None)) p.
Proof.
  apply ends_bind, ends_Socket. intros fd Hfd p1 H1.
  apply ends_bind, ends_other; [eauto|]. intros _ p2 H2. rewrite H1 in H2.
  apply ends_bind. eapply ends_required; [vm_compute; reflexivity|]. intros p3 H3. rewrite H2 in H3.
  apply ends_bind. eapply ends_Bind; [rewrite H3; apply lookup_insert_eq|]. intros p4 H4.
  rewrite H3, insert_insert_eq in H4. apply ends_bind, ends_emit. intros p5 H5. apply ends_ret.
  rewrite H5, H4, lookup_insert_eq. done.
Qed.

Lemma client_path s : (length (cstr s) < 20)%nat →
  ∃ d, strncpy (zeros sun_path_size) s (sun_path_size - 1) = Some d ∧ cstr d = cstr s.
Proof.
  intros Hs. unfold strncpy, memcpy_at. rewrite decide_True.
  - eexists. split; [reflexivity|]. rewrite take_app_ge by (unfold sun_path_size; lia).
    rewrite take_0, app_nil_l, <- app_assoc.
    assert (take (sun_path_size - 1 - length (cstr s)) (zeros (sun_path_size - 1)) = NUL :: zeros (106 - length (cstr s))) as ->.
    { unfold zeros. rewrite take_replicate.
      replace (_ `min` _)%nat with (S (106 - length (cstr s))) by (unfold sun_path_size; lia). done. }
    cbn [app]. apply cstr_app_nul, cstr_no_nul.
  - rewrite length_take, length_app, !length_zeros. unfold sun_path_size. lia.
Qed.

Lemma router_path : sockaddr_un RAW_SERVER_PROTO = Some (at_path RAW_SERVER_PROTO).
Proof. by vm_compute. Qed.

Lemma ends_time_client port p :
  (length (cstr port) < 20)%nat →
  ends (time_client_setup port) (λ r tab, r.2 = at_path RAW_SERVER_PROTO ∧
    ∃ path, cstr path = cstr port ∧ tab !! r.1 = Some (local_sock SOCK_DGRAM (put_u16 AF_LOCAL ++ path) None)) p.
Proof.
  intros Hp. destruct (client_path port Hp) as (path & E & C).
  apply ends_bind, ends_Socket. intros fd Hfd p1 H1.
  apply ends_bind, ends_other; [eauto|]. intros _ p2 H2. rewrite H1 in H2.
  apply ends_bind. eapply ends_required; [exact E|]. intros p3 H3. rewrite H2 in H3.
  apply ends_bind. eapply ends_Bind; [rewrite H3; apply lookup_insert_eq|]. intros p4 H4.
  rewrite H3, insert_insert_eq in H4.
  apply ends_bind. eapply ends_required; [exact router_path|]. intros p5 H5. rewrite H4 in H5.
  apply ends_ret. rewrite H5. cbn [fst snd]. split; [done|]. exists path. by rewrite lookup_insert_eq.
Qed.

(** A UDP socket bound to an address. *)
Definition udp_sock (sa : bytes) : sock := mk_sock AF_INET SOCK_DGRAM (Some sa) None 0 false [] 1.

Lemma ends_open_listeners port texts addrs p :
  Forall2 (λ text a, inet_pton AF_INET text = (1, Some a)) texts addrs →
  ends (open_listeners port texts) (λ fds tab,
    NoDup fds ∧ Forall (λ fd, table p !! fd = None) fds ∧
    Forall2 (λ fd a, tab !! fd = Some (udp_sock (sockaddr_in port a))) fds addrs ∧
    ∀ fd s, table p !! fd = Some s → tab !! fd = Some s) p.
Proof.
  intros Hall. revert p. induction Hall as [|text a texts addrs Ha Hall IH]; intros p.
  - apply ends_ret. split; [apply NoDup_nil_2|]. by repeat split.
  - apply ends_bind, ends_Socket. intros fd Hfd p1 H1.
    apply ends_bind. eapply ends_Inet_pton; [done|]. intros p2 H2. rewrite H1 in H2.
    apply ends_bind. eapply ends_Bind; [rewrite H2; apply lookup_insert_eq|]. intros p3 H3.
    rewrite H2, insert_insert_eq in H3.
    apply ends_bind. eapply ends_mono; [apply IH|].
    intros fds tab (Hnd & Hnew & Hb & Hframe) p4 H4. apply ends_ret. rewrite H4, H3 in *.
    assert (fd ∉ fds) as Hnot.
    { intros Hin. rewrite Forall_forall in Hnew. specialize (Hnew _ Hin).
      by rewrite lookup_insert_eq in Hnew. }
    split; [by constructor|]. split; [constructor; [done|]|split; [constructor; [|done]|]].
    + eapply Forall_impl; [done|]. intros x Hx. by apply lookup_insert_None in Hx as [? _].
    + apply Hframe, lookup_insert_eq.
    + intros fd' s Hs. apply Hframe. rewrite lookup_insert_ne by congruence. done.
Qed.

(** Every [connect] a program makes goes to the same address. *)
Definition connects_to (sa : bytes) (o : list action) : Prop :=
  ∀ fd sa' r, Called (sys_connect fd sa') r ∈ o → sa' = sa.

(** A checked call adds no other than its own. *)
Lemma connects_to_checked c text sa p :
  (∀ fd sa', c = sys_connect fd sa' → sa' = sa) → connects_to sa (checked c text p).1.
Proof.
  intros Hc fd sa' r Hin. rewrite checked_eq in Hin.
  assert (Called (sys_connect fd sa') r ∈ [Called c (ret (replied c p));
    message LOG_ERR (err_line true text (after c p)) (after c p)]) as [E|[E|[]%elem_of_nil]%elem_of_cons]%elem_of_cons.
  { destruct (_ <? 0); simpl in Hin; [done|]. apply list_elem_of_singleton in Hin. rewrite Hin. by left. }
  - injection E as E _. by eapply Hc.
  - unfold message in E. by destruct (negb _).
Qed.

Lemma connects_to_bind {A B} (m : M process action A) (k : A → M process action B) sa p :
  connects_to sa (m p).1 → (∀ a p', (m p).2 = Ret a p' → connects_to sa (k a p').1) →
  connects_to sa ((m ≫= k) p).1.
Proof.
  intros Hm Hk. unfold mbind, M_bind. destruct (m p) as [o [a p'|c p'|f]]; [|done..].
  specialize (Hk a p' eq_refl). destruct (k a p') as [o' r'].
  intros fd sa' r [?|?]%elem_of_app; eauto.
Qed.

Lemma connects_to_Socket f t proto sa p : connects_to sa (Socket f t proto p).1.
Proof.
  apply connects_to_bind; [by apply connects_to_checked|]. intros ??? ??? []%elem_of_nil.
Qed.

Lemma connects_to_call fd sa p : connects_to sa (call (sys_connect fd sa) p).1.
Proof. rewrite call_eq. intros ???. simpl. rewrite list_elem_of_singleton. naive_solver. Qed.

Lemma client_connects port host a p :
  inet_pton AF_INET host = (1, Some a) → connects_to (sockaddr_in port a) (client_connect port host p).1.
Proof.
  intros Ha. apply connects_to_bind; [apply connects_to_Socket|]. intros fd p1 _.
  apply connects_to_bind; [unfold Inet_pton; rewrite Ha; intros ??? []%elem_of_nil|].
  intros b p2. unfold Inet_pton. rewrite Ha. intros [= <- <-].
  apply connects_to_bind; [apply connects_to_call|]. intros ??? ??? []%elem_of_nil.
Qed.

Lemma arp_path : sockaddr_un DOMAIN_SOCK_PORT = Some (at_path DOMAIN_SOCK_PORT).
Proof. by vm_compute. Qed.

Lemma areq_connects p : connects_to (at_path DOMAIN_SOCK_PORT) (areq_connect p).1.
Proof.
  apply connects_to_bind; [apply connects_to_Socket|]. intros fd p1 _.
  rewrite arp_path. apply connects_to_bind; [intros ??? []%elem_of_nil|]. intros b p2 [= <- <-].
  apply connects_to_bind; [|intros ??? ??? []%elem_of_nil].
  apply connects_to_bind; [|intros ??? ??? []%elem_of_nil].
  apply connects_to_checked. by intros ?? [= _ ->].
Qed.

(** C38: Assignment1's server, past its set-up, listens on ports 5589 and 5590
    of every address of its host, on two different sockets that do not block; the
    echo client, with the port number of its own, connects to nothing but port
    5589 of the host it is given, and the time client to nothing but port 5590 of
    it.  The set-up fails only when a system call did. *)
Theorem echotime_listens p sig_pipe host a :
  inet_pton AF_INET host = (1, Some a) →
  ends (echotime_setup sig_pipe) (λ fds tab, fds.1 ≠ fds.2 ∧
    (∃ b, tab !! fds.1 = Some (listening 5589 b)) ∧ (∃ b, tab !! fds.2 = Some (listening 5590 b))) p ∧
  ∀ q, connects_to (sockaddr_in 5589 a) (echo_cli_connect host q).1 ∧
       connects_to (sockaddr_in 5590 a) (time_cli_connect host q).1.
Proof.
  intros Ha. split; [|split; by apply client_connects].
  apply ends_bind, ends_listener. intros e b1 He p1 H1.
  apply ends_bind, ends_listener. rewrite H1. intros t b2 Ht p2 H2.
  apply lookup_insert_None in Ht as [_ Hne].
  apply ends_bind, ends_Signal. intros old p3 H3. rewrite H2 in H3. apply ends_ret. rewrite H3.
  cbn [fst snd]. split; [done|]. rewrite lookup_insert_ne, !lookup_insert_eq by done. eauto.
Qed.


(** The server of hw2 has one socket for every address it was given, bound to
    that address and the port of its configuration. *)
Theorem listeners_bound port texts addrs p :
  Forall2 (λ text a, inet_pton AF_INET text = (1, Some a)) texts addrs →
  ends (open_listeners port texts) (λ fds tab, NoDup fds ∧
    Forall2 (λ fd a, tab !! fd = Some (udp_sock (sockaddr_in port a))) fds addrs) p.
Proof.
  intros Hall. eapply ends_mono; [by apply ends_open_listeners|]. intros fds tab (? & _ & ? & _). auto.
Qed.

End proofs.

Import Table.

(** A node that starts with no socket open gets through its set-up. *)
Definition bare_process : @process Table.table_system := @mk_process Table.table_system ∅ 0 0.

Lemma tour_joins_group_witness :
  ∃ t p', (open_sockets bare_process).2 = Ret t p' ∧ tour_ready t (socks (kern p')).
Proof.
  assert (match (open_sockets bare_process).2 with Ret _ _ => True | _ => False end) as R
    by (vm_compute; exact I).
  pose proof (tour_joins_group bare_process) as T. unfold ends in T.
  destruct (open_sockets bare_process) as [o [t p'|c p'|f]];
    [exists t, p'; split; [reflexivity|exact T]|destruct R..].
Defined.

Lemma echotime_listens_witness :
  let host := str "127.0.0.1" in
  ∃ fds p', (echotime_setup 4096 bare_process).2 = Ret fds p' ∧
    (∃ b, socks (kern p') !! fds.1 = Some (listening 5589 b)) ∧
    connects_to (sockaddr_in 5589 [x7f; x00; x00; x01])
      (echo_cli_connect host bare_process).1.
Proof.
  intros host.
  assert (match (echotime_setup 4096 bare_process).2 with Ret _ _ => True | _ => False end) as R
    by (vm_compute; exact I).
  destruct (echotime_listens bare_process 4096 host [x7f; x00; x00; x01]) as [T C];
    [vm_compute; reflexivity|].
  unfold ends in T. destruct (echotime_setup 4096 bare_process) as [o [fds p'|c p'|f]];
    [|destruct R..].
  exists fds, p'. split; [reflexivity|]. split; [apply T|apply (C bare_process)].
Defined.

