(* ===== verification/Streams.v ===== *)
(** * Reading and writing streams (unpv13e/lib: readline.c, readn.c, writen.c)

    A descriptor is the sequence of results its next [read] (or [write]) calls
    give; a call on an exhausted sequence blocks, written [None].  What the
    functions return is shown not to depend on how the stream was cut into
    reads. *)

From Stdlib Require Import Strings.Byte.
From S2P Require Import Prelude.
From S2P Require Import CMem.

(** ** Results of system calls *)

(** [RData []] is a [read] that returned 0, the end of the stream. *)
Inductive read_result :=
| RData (d : bytes)
| RIntr
| RErr.

(** The number of bytes a [write] accepted; it accepts no more than it is
    given. *)
Inductive write_result :=
| WSome (k : nat)
| WIntr
| WErr.

Definition newline : byte := x0a.
Definition MAXBUF : nat := 4096.

(** ** readline.c *)

Inductive my_result := Got (c : byte) | AtEof | Failed.

(** The [read]s of [my_read], into [read_buf]; the bytes after the first one
    are kept. *)
Fixpoint refill (rs : list read_result) : option (my_result * bytes * list read_result) :=
  match rs with
  | [] => None
  | RIntr :: rs => refill rs
  | RErr :: rs => Some (Failed, [], rs)
  | RData d :: rs =>
      match take MAXBUF d with
      | [] => Some (AtEof, [], rs)
      | c :: rb => Some (Got c, rb, rs)
      end
  end.

(** [my_read]; [rb] is the unread part of [read_buf]. *)
Definition my_read (rb : bytes) (rs : list read_result) : option (my_result * bytes * list read_result) :=
  match rb with
  | c :: rb => Some (Got c, rb, rs)
  | [] => refill rs
  end.

(** The state of a reader: the static buffer and the descriptor. *)
Record reader := mk_reader { read_buf : bytes; fd_reads : list read_result }.

(** The loop of [readline] with [k] turns left: the value returned, the bytes
    stored, the reader afterwards. *)
Fixpoint readline_loop (k : nat) (n : Z) (line : bytes) (r : reader) : option (Z * bytes * reader) :=
  match k with
  | O => Some (n, line, r)
  | S k =>
      match my_read (read_buf r) (fd_reads r) with
      | None => None
      | Some (Got c, rb, rs) =>
          if bool_decide (c = newline) then Some (n, line ++ [c], mk_reader rb rs)
          else readline_loop k (n + 1) (line ++ [c]) (mk_reader rb rs)
      | Some (AtEof, rb, rs) => Some (n - 1, line, mk_reader rb rs)
      | Some (Failed, rb, rs) => Some (-1, line, mk_reader rb rs)
      end
  end.

Definition readline (maxlen : nat) (r : reader) : option (Z * bytes * reader) :=
  readline_loop (maxlen - 1) 1 [] r.

(** ** readn.c and writen.c *)

Fixpoint readn_loop (rs : list read_result) (nleft : nat) (got : bytes) : option (Z * bytes * list read_result) :=
  match nleft with
  | O => Some (Z.of_nat (length got), got, rs)
  | S _ =>
      match rs with
      | [] => None
      | RIntr :: rs => readn_loop rs nleft got
      | RErr :: rs => Some (-1, got, rs)
      | RData d :: rs =>
          match d with
          | [] => Some (Z.of_nat (length got), got, rs)
          | _ :: _ =>
              if (length d <=? nleft)%nat then readn_loop rs (nleft - length d) (got ++ d)
              else Some (Z.of_nat (length got + nleft), got ++ take nleft d, RData (drop nleft d) :: rs)
          end
      end
  end.
Definition readn (rs : list read_result) (n : nat) : option (Z * bytes * list read_result) :=
  readn_loop rs n [].

(** [writen]: the value returned and the bytes the descriptor accepted. *)
Fixpoint writen_loop (ws : list write_result) (n : Z) (left sent : bytes) : option (Z * bytes * list write_result) :=
  match left with
  | [] => Some (n, sent, ws)
  | _ :: _ =>
      match ws with
      | [] => None
      | WIntr :: ws => writen_loop ws n left sent
      | WErr :: ws => Some (-1, sent, ws)
      | WSome k :: ws =>
          let k := Nat.min k (length left) in
          if (k =? 0)%nat then Some (-1, sent, ws)
          else writen_loop ws n (drop k left) (sent ++ take k left)
      end
  end.
Definition writen (ws : list write_result) (d : bytes) : option (Z * bytes * list write_result) :=
  writen_loop ws (Z.of_nat (length d)) d [].

(** ** The stream a descriptor carries *)

Inductive tick := TByte (b : byte) | TEof | TErr.

Definition ticks_of (r : read_result) : list tick :=
  match r with
  | RData [] => [TEof]
  | RData d => map TByte d
  | RIntr => []
  | RErr => [TErr]
  end.
Definition tape (r : reader) : list tick := map TByte (read_buf r) ++ flat_map ticks_of (fd_reads r).

(** No single [read] gives more than was asked for. *)
Definition reads_ok (r : reader) : Prop :=
  Forall (λ x, match x with RData d => (length d ≤ MAXBUF)%nat | _ => True end) (fd_reads r).

(** The line a tape starts with, [k] bytes at most. *)
Fixpoint tape_line (k : nat) (n : Z) (line : bytes) (t : list tick) : option (Z * bytes * list tick) :=
  match k with
  | O => Some (n, line, t)
  | S k =>
      match t with
      | [] => None
      | TByte c :: t =>
          if bool_decide (c = newline) then Some (n, line ++ [c], t)
          else tape_line k (n + 1) (line ++ [c]) t
      | TEof :: t => Some (n - 1, line, t)
      | TErr :: t => Some (-1, line, t)
      end
  end.

(** ** readline *)

Lemma refill_tape rs :
  Forall (λ x, match x with RData d => (length d ≤ MAXBUF)%nat | _ => True end) rs →
  match refill rs with
  | None => flat_map ticks_of rs = []
  | Some (m, rb, rs') =>
      flat_map ticks_of rs = match m with Got c => TByte c | AtEof => TEof | Failed => TErr end ::
        map TByte rb ++ flat_map ticks_of rs' ∧
      Forall (λ x, match x with RData d => (length d ≤ MAXBUF)%nat | _ => True end) rs'
  end.
Proof.
  induction 1 as [|x rs Hx Hrs IH]; cbn [refill flat_map]; [done|].
  destruct x as [d| |]; cbn [ticks_of app]; [|exact IH|done].
  rewrite firstn_all2 by done. destruct d as [|c d]; cbn; done.
Qed.

Lemma my_read_tape r :
  reads_ok r →
  match my_read (read_buf r) (fd_reads r) with
  | None => tape r = []
  | Some (m, rb, rs) =>
      tape r = match m with Got c => TByte c | AtEof => TEof | Failed => TErr end :: tape (mk_reader rb rs) ∧
      reads_ok (mk_reader rb rs)
  end.
Proof.
  intros Hr. destruct r as [[|c rb] rs]; unfold tape; cbn [read_buf fd_reads my_read map app].
  - pose proof (refill_tape rs Hr) as H. destruct (refill rs) as [[[m rb] rs']|]; exact H.
  - split; [done|exact Hr].
Qed.

Lemma readline_tape k n line r :
  reads_ok r →
  match readline_loop k n line r with
  | None => tape_line k n line (tape r) = None
  | Some (v, l, r') => tape_line k n line (tape r) = Some (v, l, tape r') ∧ reads_ok r'
  end.
Proof.
  revert n line r. induction k as [|k IH]; intros n line r Hr; cbn [readline_loop tape_line]; [done|].
  pose proof (my_read_tape r Hr) as H. destruct (my_read _ _) as [[[[c| |] rb] rs]|].
  - destruct H as [-> Hr']. case_bool_decide; [done|]. apply IH, Hr'.
  - by destruct H as [-> Hr'].
  - by destruct H as [-> Hr'].
  - by rewrite H.
Qed.

(** C12: what [readline] returns depends on the stream only, not on how the
    kernel cut it into [read]s or how often a [read] was interrupted: two
    readers of the same stream get the same value and the same bytes, and the
    same stream is left to both. *)
Theorem readline_chunking maxlen r1 r2 :
  reads_ok r1 → reads_ok r2 → tape r1 = tape r2 →
  match readline maxlen r1, readline maxlen r2 with
  | Some (n1, l1, r1'), Some (n2, l2, r2') => n1 = n2 ∧ l1 = l2 ∧ tape r1' = tape r2'
  | None, None => True
  | _, _ => False
  end.
Proof.
  intros H1 H2 E. unfold readline.
  pose proof (readline_tape (maxlen - 1) 1 [] r1 H1) as P1.
  pose proof (readline_tape (maxlen - 1) 1 [] r2 H2) as P2. rewrite E in P1.
  destruct (readline_loop (maxlen - 1) 1 [] r1) as [[[n1 l1] r1']|];
    destruct (readline_loop (maxlen - 1) 1 [] r2) as [[[n2 l2] r2']|]; try done.
  - destruct P1 as [P1 _], P2 as [P2 _]. rewrite P1 in P2. by simplify_eq.
  - destruct P1 as [P1 _]. by rewrite P1 in P2.
  - destruct P2 as [P2 _]. by rewrite P1 in P2.
Qed.

Lemma tape_line_bytes k n line l t :
  newline ∉ l → (length l ≤ k)%nat →
  tape_line k n line (map TByte l ++ t) = tape_line (k - length l) (n + Z.of_nat (length l)) (line ++ l) t.
Proof.
  revert k n line. induction l as [|c l IH]; intros k n line Hl Hk; cbn [map app length].
  - by rewrite Nat.sub_0_r, Z.add_0_r, app_nil_r.
  - destruct k as [|k]; [cbn in Hk; lia|]. cbn [tape_line]. rewrite not_elem_of_cons in Hl. destruct Hl as [Hc Hl].
    rewrite bool_decide_eq_false_2 by done. rewrite IH by (done || cbn in Hk; lia).
    rewrite <- app_assoc. cbn [app Nat.sub length]. f_equal. lia.
Qed.

(** From a statement on the tape to one on the reader. *)
Lemma readline_from_tape maxlen r v l t :
  reads_ok r → tape_line (maxlen - 1) 1 [] (tape r) = Some (v, l, t) →
  ∃ r', readline maxlen r = Some (v, l, r') ∧ tape r' = t ∧ reads_ok r'.
Proof.
  intros Hr E. unfold readline. pose proof (readline_tape (maxlen - 1) 1 [] r Hr) as P.
  destruct (readline_loop _ _ _ _) as [[[v' l'] r']|].
  - destruct P as [P Hr']. rewrite P in E. simplify_eq. by exists r'.
  - by rewrite P in E.
Qed.

(** A whole line. *)
Lemma readline_whole maxlen r l t :
  reads_ok r → newline ∉ l → (length l + 1 < maxlen)%nat → tape r = map TByte (l ++ [newline]) ++ t →
  ∃ r', readline maxlen r = Some (Z.of_nat (length l) + 1, l ++ [newline], r') ∧ tape r' = t ∧ reads_ok r'.
Proof.
  intros Hr Hl Hm E. apply readline_from_tape; [done|]. rewrite E, map_app, <- app_assoc.
  rewrite tape_line_bytes by (done || lia).
  destruct (maxlen - 1 - length l)%nat as [|k] eqn:Hk; [lia|]. cbn [map app tape_line].
  rewrite bool_decide_eq_true_2 by done. do 3 f_equal. lia.
Qed.

(** The rest of a stream that ends without a newline. *)
Lemma readline_last maxlen r l t :
  reads_ok r → newline ∉ l → (length l + 1 < maxlen)%nat → tape r = map TByte l ++ TEof :: t →
  ∃ r', readline maxlen r = Some (Z.of_nat (length l), l, r') ∧ tape r' = t ∧ reads_ok r'.
Proof.
  intros Hr Hl Hm E. apply readline_from_tape; [done|]. rewrite E.
  rewrite tape_line_bytes by (done || lia).
  destruct (maxlen - 1 - length l)%nat as [|k] eqn:Hk; [lia|]. cbn [map app tape_line].
  do 3 f_equal. lia.
Qed.

(** More than [maxlen - 1] bytes before the next newline. *)
Lemma readline_full maxlen r l t :
  reads_ok r → newline ∉ l → (0 < maxlen)%nat → (length l = maxlen - 1)%nat → tape r = map TByte l ++ t →
  ∃ r', readline maxlen r = Some (Z.of_nat maxlen, l, r') ∧ tape r' = t ∧ reads_ok r'.
Proof.
  intros Hr Hl Hm Hlen E. apply readline_from_tape; [done|]. rewrite E.
  rewrite tape_line_bytes by (done || lia). rewrite Hlen, Nat.sub_diag. cbn [tape_line].
  do 3 f_equal. lia.
Qed.

(** The count [readline] returns.  A line that fits, newline included, is
    counted exactly, and so is an unfinished one before the end of the stream;
    but a line cut off at [maxlen - 1] bytes is counted as [maxlen], one more
    than was read. *)
Theorem readline_count maxlen r l t :
  reads_ok r → newline ∉ l → (length l + 1 < maxlen)%nat →
  (tape r = map TByte (l ++ [newline]) ++ t →
     ∃ r', readline maxlen r = Some (Z.of_nat (length (l ++ [newline])), l ++ [newline], r') ∧ tape r' = t) ∧
  (tape r = map TByte l ++ TEof :: t →
     ∃ r', readline maxlen r = Some (Z.of_nat (length l), l, r') ∧ tape r' = t) ∧
  (∀ long, newline ∉ long → length long = (maxlen - 1)%nat → tape r = map TByte long ++ t →
     ∃ r', readline maxlen r = Some (Z.of_nat (length long) + 1, long, r') ∧ tape r' = t).
Proof.
  intros Hr Hl Hm. split; [|split].
  - intros E. destruct (readline_whole maxlen r l t Hr Hl Hm E) as (r' & H & Ht & _).
    exists r'. split; [|done]. rewrite H, length_app. cbn. do 3 f_equal. lia.
  - intros E. destruct (readline_last maxlen r l t Hr Hl Hm E) as (r' & H & Ht & _). by exists r'.
  - intros long Hlong Hlen E. destruct (readline_full maxlen r long t Hr Hlong ltac:(lia) Hlen E) as (r' & H & Ht & _).
    exists r'. split; [|done]. rewrite H. do 3 f_equal. lia.
Qed.

(** ** readn and writen *)

(** A stream without errors before its end. *)
Definition chunk (x : read_result) : option bytes :=
  match x with RData [] => None | RData d => Some d | RIntr => Some [] | RErr => None end.

Lemma readn_loop_run rs ds n got rest :
  map chunk rs = map Some ds → (n ≤ length (concat ds))%nat →
  ∃ rs' ds', readn_loop (rs ++ rest) n got = Some (Z.of_nat (length got + n), got ++ take n (concat ds), rs' ++ rest) ∧
    map chunk rs' = map Some ds' ∧ concat ds' = drop n (concat ds).
Proof.
  revert ds n got. induction rs as [|x rs IH]; intros [|d ds] n got Hc Hn; try done; cbn in Hn.
  - assert (n = 0)%nat as -> by lia. exists [], []. cbn. destruct rest; cbn; by rewrite Nat.add_0_r, app_nil_r.
  - cbn in Hc. injection Hc as Hx Hc. destruct n as [|n].
    { exists (x :: rs), (d :: ds). cbn. rewrite Nat.add_0_r, app_nil_r. split; [done|]. split; [by rewrite Hx, Hc|done]. }
    cbn [concat]. rewrite length_app in Hn. destruct x as [[|c e]| |]; try done; cbn in Hx; injection Hx as <-.
    + cbn [app readn_loop]. destruct (Nat.leb_spec (length (c :: e)) (S n)) as [Hle|Hgt].
      * destruct (IH ds (S n - length (c :: e))%nat (got ++ c :: e) Hc ltac:(lia)) as (rs' & ds' & E & Hc' & Hd').
        exists rs', ds'. rewrite E. rewrite length_app. split; [|split; [done|]].
        -- rewrite (app_comm_cons e (concat ds) c), (take_app_ge (c :: e)), app_assoc by lia. do 3 f_equal. lia.
        -- rewrite Hd'. rewrite (app_comm_cons e (concat ds) c), drop_app_ge by lia. done.
      * exists (RData (drop (S n) (c :: e)) :: rs), (drop (S n) (c :: e) :: ds).
        rewrite (app_comm_cons e (concat ds) c), take_app_le by lia. split; [done|]. split.
        -- cbn [map]. rewrite Hc. f_equal. cbn [chunk].
           destruct (drop (S n) (c :: e)) as [|y ys] eqn:Ed; [|done].
           pose proof (f_equal length Ed) as Hl. rewrite length_drop in Hl. cbn in Hl, Hgt. lia.
        -- cbn [concat]. rewrite drop_app_le by lia. done.
    + cbn [app readn_loop]. destruct (IH ds (S n) got Hc ltac:(cbn in *; lia)) as (rs' & ds' & E & Hc' & Hd').
      exists rs', ds'. by rewrite E.
Qed.

(** [readn] reads exactly [n] bytes of a stream that has them, however it
    is cut into [read]s and interrupted, and leaves the rest unread. *)
Theorem readn_exact rs ds rest n :
  map chunk rs = map Some ds → (n ≤ length (concat ds))%nat →
  ∃ rs' ds', readn (rs ++ rest) n = Some (Z.of_nat n, take n (concat ds), rs' ++ rest) ∧
    map chunk rs' = map Some ds' ∧ concat ds' = drop n (concat ds).
Proof. intros Hc Hn. exact (readn_loop_run rs ds n [] rest Hc Hn). Qed.

(** The calls of [write] that make progress. *)
Definition progress (w : write_result) : bool :=
  match w with WSome k => (0 <? k)%nat | _ => false end.

Lemma writen_loop_prefix ws n left sent v out ws' :
  writen_loop ws n left sent = Some (v, out, ws') →
  ∃ done rest, left = done ++ rest ∧ out = sent ++ done ∧ (v = n ∧ rest = [] ∨ v = -1 ∧ rest ≠ []).
Proof.
  revert left sent. induction ws as [|w ws IH]; intros left sent; destruct left as [|b left].
  - intros [= <- <- <-]. exists [], []. rewrite ?app_nil_r. split; [done|]. split; [done|by left].
  - done.
  - intros H. cbn in H. injection H as <- <- <-. exists [], []. rewrite ?app_nil_r. split; [done|]. split; [done|by left].
  - cbn [writen_loop]. destruct w as [k| |].
    + cbv zeta. destruct (Nat.eqb_spec (Nat.min k (length (b :: left))) 0) as [E|E].
      * intros [= <- <- <-]. exists [], (b :: left). rewrite ?app_nil_r. split; [done|]. split; [done|by right].
      * intros (done & rest & Hl & -> & H)%IH.
        exists (take (Nat.min k (length (b :: left))) (b :: left) ++ done), rest.
        rewrite <- !app_assoc, <- Hl, take_drop. done.
    + apply IH.
    + intros [= <- <- <-]. exists [], (b :: left). rewrite ?app_nil_r. split; [done|]. split; [done|by right].
Qed.

Lemma writen_loop_total ws n left sent :
  (length left ≤ length (List.filter progress ws))%nat → is_Some (writen_loop ws n left sent).
Proof.
  revert left sent. induction ws as [|w ws IH]; intros left sent Hl; destruct left as [|b left]; cbn in Hl; try lia;
    try (by eexists).
  destruct w as [k| |]; cbn [writen_loop].
  - cbv zeta. destruct (Nat.eqb_spec (Nat.min k (length (b :: left))) 0) as [E|E]; [by eexists|].
    apply IH. rewrite length_drop. cbn [progress] in Hl. destruct (Nat.ltb_spec 0 k); cbn in *; lia.
  - apply IH. cbn in *. lia.
  - by eexists.
Qed.

(** C37: [writen] writes everything or reports an error.  If as many calls of
    [write] make progress as there are bytes it returns; the descriptor then
    accepted all bytes in order, each once, and the value is their number, or
    it accepted a proper prefix and the value is -1. *)
Theorem writen_all_or_error ws d :
  (length d ≤ length (List.filter progress ws))%nat →
  ∃ v sent ws', writen ws d = Some (v, sent, ws') ∧
    (v = Z.of_nat (length d) ∧ sent = d ∨ v = -1 ∧ ∃ rest, d = sent ++ rest ∧ rest ≠ []).
Proof.
  intros Hp. destruct (writen_loop_total ws (Z.of_nat (length d)) d [] Hp) as [[[v sent] ws'] E].
  exists v, sent, ws'. split; [exact E|].
  destruct (writen_loop_prefix _ _ _ _ _ _ _ E) as (done & rest & -> & -> & [[-> ->]|[-> Hr]]).
  - left. cbn [app]. by rewrite app_nil_r.
  - right. split; [done|]. by exists rest.
Qed.

(** ** Witnesses *)

Lemma readline_chunking_witness :
  match readline 10 (mk_reader [] [RData (str "ab"); RIntr; RData (str "c" ++ [newline])]),
        readline 10 (mk_reader (str "a") [RData (str "bc" ++ [newline])]) with
  | Some (n1, l1, r1'), Some (n2, l2, r2') => n1 = n2 ∧ l1 = l2 ∧ tape r1' = tape r2'
  | None, None => True
  | _, _ => False
  end.
Proof.
  apply readline_chunking; [| |reflexivity].
  - repeat (apply Forall_cons_2; [first [exact I | vm_compute; lia]|]). apply Forall_nil_2.
  - apply Forall_cons_2; [vm_compute; lia|apply Forall_nil_2].
Defined.

Lemma readline_count_witness : ∃ r',
  readline 4 (mk_reader [] [RData (str "abcdef")]) = Some (4, str "abc", r') ∧ tape r' = map TByte (str "def").
Proof.
  destruct (readline_count 4 (mk_reader [] [RData (str "abcdef")]) [] (map TByte (str "def"))) as (_ & _ & H).
  - apply Forall_cons_2; [vm_compute; lia|apply Forall_nil_2].
  - intros H. inversion H.
  - vm_compute. lia.
  - destruct (H (str "abc")) as (r' & H1 & H2).
    + by apply (bool_decide_unpack (newline ∉ str "abc")).
    + reflexivity.
    + reflexivity.
    + exists r'. split; [exact H1|exact H2].
Defined.

Lemma readn_exact_witness : ∃ rs' ds',
  readn ([RData (str "ab"); RIntr; RData (str "cde")] ++ [RData []]) 4 =
    Some (4, str "abcd", rs' ++ [RData []]) ∧ concat ds' = str "e".
Proof.
  destruct (readn_exact [RData (str "ab"); RIntr; RData (str "cde")] [str "ab"; []; str "cde"] [RData []] 4 eq_refl)
    as (rs' & ds' & H1 & _ & H2); [vm_compute; lia|].
  exists rs', ds'. split; [exact H1|exact H2].
Defined.

Lemma writen_all_or_error_witness : ∃ v sent ws',
  writen [WSome 1; WIntr; WSome 5; WSome 5] (str "abc") = Some (v, sent, ws') ∧
  (v = 3 ∧ sent = str "abc" ∨ v = -1 ∧ ∃ rest, str "abc" = sent ++ rest ∧ rest ≠ []).
Proof. apply (writen_all_or_error [WSome 1; WIntr; WSome 5; WSome 5] (str "abc")). vm_compute. lia. Defined.
