(* ===== verification/EchoTime.v ===== *)
(** * The echo and time services (Assignment1/code)

    A server with one thread per connection (tcpechotimesrv.c), a front end
    that starts clients in terminals and relays their feedback
    (tcpechotimecli.c), and the two clients (echo_cli.c, time_cli.c).  What
    the processes write, print and close is output; what their reads return is
    input. *)

From Stdlib Require Import Strings.Byte.
From S2P Require Import Prelude.
From S2P Require Import CMem.
From S2P Require Import CText.
From S2P Require Import Inet.
From S2P Require Import Streams.

Inductive io :=
| Write (fd : Z) (d : bytes)
| Close (fd : Z)
| Print (line : bytes).

(** How a loop ends: with [return] or the end of the thread, with [exit], or
    in a call that blocks for ever. *)
Inductive ending := Returned | Exited | Blocked.

(** ** tcpechotimesrv.c *)

(** What a [write] to a connection did: took a number of bytes, failed, or
    failed with EPIPE, which raises SIGPIPE in the writing thread. *)
Inductive wrote := Accepted (k : nat) | Refused | Piped.

#[export] Instance wrote_eq_decision : EqDecision wrote.
Proof. solve_decision. Defined.

(** The handler of SIGPIPE ends the thread where it is. *)
Definition sig_pipe : list io * ending :=
  ([Print (str "[Server] SIGPIPE found. Terminating the thread " ++ [newline])], Returned).

(** [echo_server_thread]: one readline and one write per turn.  A negative
    count never reaches the loop: [Readline] ends the process.  What [write]
    returns is not looked at; [ws] is what the writes do, and the bytes output
    are those accepted. *)
Fixpoint echo_loop (fuel : nat) (connfd : Z) (ws : list wrote) (r : reader) : option (list io * ending) :=
  match fuel with
  | O => None
  | S fuel =>
      match readline MAXBUF r with
      | None => Some ([], Blocked)
      | Some (nread, line, r') =>
          if nread <? 0 then Some ([], Exited)
          else if nread =? 0 then
            Some ([Print (str "[Echo][Server] Client closed the connection " ++ [newline]); Close connfd], Returned)
          else
            let shown := Print (str "[Echo][Server] Input received from Client = " ++ cstr (line ++ [NUL]) ++ [newline]) in
            let buf := take (Z.to_nat nread) (line ++ [NUL]) in
            match ws with
            | [] => Some ([shown], Blocked)
            | Piped :: _ => let '(o, e) := sig_pipe in Some (shown :: o, e)
            | Refused :: ws => '(o, e) ← echo_loop fuel connfd ws r'; Some (shown :: o, e)
            | Accepted k :: ws => '(o, e) ← echo_loop fuel connfd ws r'; Some (shown :: Write connfd (take k buf) :: o, e)
            end
      end
  end.

(** [time_server_thread]: the whole array is written every five seconds, until
    a write fails; a turn is the time's text and what its [write] did. *)
Fixpoint time_loop (connfd : Z) (buf : bytes) (turns : list (bytes * wrote)) : option (list io * ending) :=
  match turns with
  | [] => Some ([], Blocked)
  | (ctime, w) :: turns =>
      buf ← strcpy buf (take 24 (cstr ctime) ++ [x0d; newline]);
      match w with
      | Piped => Some sig_pipe
      | Refused => Some ([Close connfd], Returned)
      | Accepted O => Some ([Print (str "[DayTime] Write Failed. Return"); Close connfd], Returned)
      | Accepted k => '(o, e) ← time_loop connfd buf turns; Some (Write connfd (take k buf) :: o, e)
      end
  end.
Definition time_server_thread (connfd : Z) (turns : list (bytes * wrote)) : option (list io * ending) :=
  time_loop connfd (zeros MAXBUF) turns.

(** [if (fileflags = fcntl(fd, F_GETFL, 0) == -1) exit(1)], then [F_SETFL]
    with [fileflags | FNDELAY] (a listener) or [fileflags & ~FNDELAY] (a
    connection): [==] binds tighter than [=].  [None] is the exit. *)
Definition FNDELAY : Z := 2048.
Definition listener_flags (getfl : Z) : option Z :=
  let fileflags := if getfl =? -1 then 1 else 0 in
  if fileflags =? 0 then Some (Z.lor fileflags FNDELAY) else None.
Definition connection_flags (getfl : Z) : option Z :=
  let fileflags := if getfl =? -1 then 1 else 0 in
  if fileflags =? 0 then Some (Z.land fileflags (Z.lnot FNDELAY)) else None.

(** The hand-over of connections to threads.  [accept]'s result is stored in
    the variable [connfd], whose address the new thread gets; the thread reads
    it when it starts to run. *)
Record handover := mk_handover {
  connfd_var : Z;
  waiting : nat;            (* threads created that did not read it yet *)
  served : list Z           (* what the others read, latest first *)
}.
Inductive srv_event :=
| Accept (result : Z)       (* -1: the [continue] *)
| ThreadStarts.
Definition srv_turn (e : srv_event) (h : handover) : option handover :=
  match e with
  | Accept fd =>
      if fd =? -1 then Some (mk_handover fd (waiting h) (served h))
      else Some (mk_handover fd (S (waiting h)) (served h))
  | ThreadStarts =>
      match waiting h with
      | O => None
      | S n => Some (mk_handover (connfd_var h) n (connfd_var h :: served h))
      end
  end.
Fixpoint srv_run (es : list srv_event) (h : handover) : option handover :=
  match es with
  | [] => Some h
  | e :: es => h' ← srv_turn e h; srv_run es h'
  end.

(** ** echo_cli.c *)

(** The client reads its socket and the terminal with the same [readline],
    whose buffer is static. *)
Record echo_cli := mk_echo_cli {
  shared_buf : bytes;
  sock_reads : list read_result;
  stdin_reads : list read_result
}.

Definition note (parent : Z) (text : bytes) : io := Write parent text.

(** The descriptor [sockfd] is ready. *)
Definition echo_from_server (parent : Z) (s : echo_cli) : list io * echo_cli * option ending :=
  match readline MAXBUF (mk_reader (shared_buf s) (sock_reads s)) with
  | None => ([], s, Some Blocked)
  | Some (nread, line, r) =>
      let s := mk_echo_cli (read_buf r) (fd_reads r) (stdin_reads s) in
      if nread <? 0 then ([], s, Some Exited)
      else if nread =? 0 then
        ([note parent (str "[Feedback][Echo][Client]: Server Terminated Prematurely" ++ [newline])], s, Some Returned)
      else
        ([note parent (str "[Feedback][Echo][Client]: Data received from server of size " ++ dec_d nread ++
                       str " bytes!" ++ [newline]);
          Print (str "[Echo][Client] Data received from server : " ++ cstr (line ++ [NUL]))], s, None)
  end.

(** Descriptor 0 is ready. *)
Definition echo_from_user (parent sockfd : Z) (s : echo_cli) : list io * echo_cli * option ending :=
  match readline MAXBUF (mk_reader (shared_buf s) (stdin_reads s)) with
  | None => ([], s, Some Blocked)
  | Some (nread, line, r) =>
      let s := mk_echo_cli (read_buf r) (sock_reads s) (fd_reads r) in
      if nread <? 0 then ([], s, Some Exited)
      else if nread =? 0 then
        ([note parent (str "[Feedback][Echo][Client]: ^D found. Client is done executing" ++ [newline])], s, Some Returned)
      else
        ([note parent (str "[Feedback][Echo][Client]: Data sent to server!" ++ [newline]);
          Write sockfd (take (Z.to_nat nread) (line ++ [NUL]))], s, None)
  end.

(** One turn of [echo_server]'s loop, for what [Select] found ready. *)
Definition echo_turn (parent sockfd : Z) (sock_ready user_ready : bool) (s : echo_cli)
    : list io * echo_cli * option ending :=
  let '(o1, s, e) := if sock_ready then echo_from_server parent s else ([], s, None) in
  match e with
  | Some e => (o1, s, Some e)
  | None =>
      let '(o2, s, e) := if user_ready then echo_from_user parent sockfd s else ([], s, None) in
      (o1 ++ o2, s, e)
  end.

Fixpoint echo_server (parent sockfd : Z) (turns : list (bool * bool)) (s : echo_cli) : list io * ending :=
  match turns with
  | [] => ([], Blocked)
  | (a, b) :: turns =>
      let '(o, s, e) := echo_turn parent sockfd a b s in
      match e with
      | Some e => (o, e)
      | None => let '(o', e) := echo_server parent sockfd turns s in (o ++ o', e)
      end
  end.

(** [main]: the failed connection, or the loop and the closing. *)
Definition echo_main (parent sockfd : Z) (connected : bool) (turns : list (bool * bool)) (s : echo_cli) : list io * ending :=
  if connected then
    let '(o, e) := echo_server parent sockfd turns s in
    match e with
    | Returned => (o ++ [Close sockfd; Close parent; Close 0], Exited)
    | e => (o, e)
    end
  else ([note parent (str "Server could not be reached" ++ [newline]); Close parent], Exited).

(** ** time_cli.c *)

(** [time_server]'s inner loop.  [nread = Read(...) > 0] makes [nread] 0 or 1,
    and [Read] ends the process when a read fails. *)
Fixpoint time_server (parent : Z) (rs : list read_result) : list io * ending :=
  match rs with
  | [] => ([], Blocked)
  | RIntr :: _ | RErr :: _ => ([], Exited)
  | RData [] :: _ =>
      ([note parent (str "[Client][Time] Server: Server Terminated Prematurely" ++ [newline])], Returned)
  | RData d :: rs =>
      let '(o, e) := time_server parent rs in
      (Print (str "[Client][Time]: " ++ cstr (take MAXBUF d)) ::
       note parent (str "[Client][Time][Feedback] Data received from server" ++ [newline]) :: o, e)
  end.
Definition time_main (parent sockfd : Z) (connected : bool) (rs : list read_result) : list io * ending :=
  if connected then
    let '(o, e) := time_server parent rs in
    match e with
    | Returned => (o ++ [Close sockfd; Close parent; Close 0], Exited)
    | e => (o, e)
    end
  else ([note parent (str "[Client][Time]Server could not be reached" ++ [newline]); Close parent], Exited).

(** ** tcpechotimecli.c *)

(** The argument: an address or a host name.  The result is the text passed to
    the clients; [inr tt] is an exit. *)
Fixpoint last_text (text : bytes) (l : list bytes) : option bytes :=
  match l with
  | [] => Some text
  | a :: l => t ← strcpy text (quad_text a); last_text t l
  end.
Definition server_text (resolve : bytes → option (list bytes)) (host_of : bytes → option bytes) (junk arg : bytes)
    : option (bytes + unit) :=
  match inet_pton4 arg with
  | Some a =>
      match host_of a with
      | Some _ => inl <$> strcpy junk arg
      | None => Some (inr tt)
      end
  | None =>
      match resolve (cstr arg) with
      | Some l => inl <$> last_text junk l
      | None => Some (inr tt)
      end
  end.

Inductive command := Quit | StartEcho | StartTime | Nothing.

(** [strncmp(input, word, strlen(input) - 1) == 0]; for an empty input the
    length wraps around and the whole strings are compared. *)
Definition typed (input word : bytes) : bool :=
  match cstr input with
  | [] => streq input word
  | l => strneq input word (length l - 1)
  end.
Definition command_of (input : bytes) : command :=
  if typed input (str "quit") then Quit
  else if typed input (str "echo") then StartEcho
  else if typed input (str "time") then StartTime
  else Nothing.

(** The parent's loop over the pipe: all of [buf] is written for each read. *)
Fixpoint relay (pipefd : Z) (rs : list read_result) : list io * ending :=
  match rs with
  | [] => ([], Blocked)
  | RIntr :: _ | RErr :: _ => ([Close pipefd], Returned)
  | RData [] :: _ => ([Print (str "[Echo][Client] Client Terminates" ++ [newline]); Close pipefd], Returned)
  | RData d :: rs =>
      let d := take MAXBUF d in
      let '(o, e) := relay pipefd rs in
      (Write 1 (d ++ zeros (MAXBUF - length d)) :: o, e)
  end.

(** A turn of the menu: a command and, unless it ends the program, the feedback
    of the child it started. *)
Definition menu_turn (pipefd : Z) (input : bytes) (feedback : list read_result) : list io * ending :=
  match command_of input with
  | Quit => ([Print (str "Terminating!!!!" ++ [newline])], Exited)
  | _ => relay pipefd feedback
  end.

(** [sig_child]: every terminated child is reported. *)
Fixpoint sig_child (waitpid : list Z) : list io :=
  match waitpid with
  | pid :: waitpid =>
      if 0 <? pid then
        Print (str "[Echo][Client]Child terminated " ++ dec_d pid ++ [newline]) :: sig_child waitpid
      else []
  | [] => []
  end.
