(* ===== verification/EchoTimeProps.v ===== *)
(** * What the echo and time services do (properties of Assignment1/code) *)

From Stdlib Require Import Strings.Byte.
From S2P Require Import Prelude.
From S2P Require Import CMem.
From S2P Require Import CText.
From S2P Require Import Streams.
From S2P Require Import EchoTime.

(** The bytes written to a descriptor. *)
Definition written (fd : Z) (os : list io) : bytes :=
  flat_map (λ o, match o with Write f d => if f =? fd then d else [] | _ => [] end) os.

(** A line that [readline] returns whole. *)
Definition short (l : bytes) : Prop := (newline ∉ l) ∧ (length l + 1 < MAXBUF)%nat.

Definition with_newline (l : bytes) : bytes := l ++ [newline].

Lemma take_line n l : Z.to_nat n = length l → take (Z.to_nat n) (l ++ [NUL]) = l.
Proof. intros ->. apply take_app_length. Qed.

(** What the thread says when it has read a line. *)
Definition line_shown (buf : bytes) : io :=
  Print (str "[Echo][Server] Input received from Client = " ++ cstr (buf ++ [NUL]) ++ [newline]).

Lemma echo_loop_line fuel connfd ws r l t :
  reads_ok r → short l → tape r = map TByte (with_newline l) ++ t →
  ∃ r', tape r' = t ∧ reads_ok r' ∧
    echo_loop (S fuel) connfd ws r =
      match ws with
      | [] => Some ([line_shown (with_newline l)], Blocked)
      | Piped :: _ => Some (line_shown (with_newline l) :: sig_pipe.1, Returned)
      | Refused :: ws => '(o, e) ← echo_loop fuel connfd ws r'; Some (line_shown (with_newline l) :: o, e)
      | Accepted k :: ws =>
          '(o, e) ← echo_loop fuel connfd ws r';
          Some (line_shown (with_newline l) :: Write connfd (take k (with_newline l)) :: o, e)
      end.
Proof.
  intros Hr [Hl Hs] E. destruct (readline_whole MAXBUF r l t Hr Hl Hs E) as (r' & Hread & Ht & Hr').
  exists r'. split; [done|]. split; [done|]. cbn [echo_loop]. rewrite Hread.
  rewrite (proj2 (Z.ltb_ge _ 0)), (proj2 (Z.eqb_neq _ 0)) by lia.
  rewrite (take_line (Z.of_nat (length l) + 1) (l ++ [newline])); [done|]. rewrite length_app. cbn. lia.
Qed.

Lemma echo_loop_end fuel connfd ws r t :
  reads_ok r → tape r = TEof :: t →
  echo_loop (S fuel) connfd ws r =
    Some ([Print (str "[Echo][Server] Client closed the connection " ++ [newline]); Close connfd], Returned).
Proof.
  intros Hr E. destruct (readline_last MAXBUF r [] t Hr) as (r' & Hread & _); [set_solver|vm_compute; lia|done|].
  cbn [echo_loop]. rewrite Hread. done.
Qed.

(** What comes back of the lines [ls] when the writes go as [ws]. *)
Fixpoint echoed (ws : list wrote) (ls : list bytes) : bytes :=
  match ws, ls with
  | Accepted k :: ws, l :: ls => take k (with_newline l) ++ echoed ws ls
  | Refused :: ws, _ :: ls => echoed ws ls
  | _, _ => []
  end.
(** The write of the line took all of it. *)
Definition in_full (w : wrote) (l : bytes) : Prop := w = Accepted (length (with_newline l)).

Lemma echoed_in_full ws ls : Forall2 in_full ws ls → echoed ws ls = concat (map with_newline ls).
Proof.
  induction 1 as [|w l ws ls -> _ IH]; cbn [echoed map concat]; [done|].
  rewrite firstn_all2 by lia. by rewrite IH.
Qed.

#[local] Opaque echo_loop.

Lemma echo_loop_lines connfd ls ws r t :
  Forall short ls → reads_ok r → tape r = map TByte (concat (map with_newline ls)) ++ TEof :: t →
  length ws = length ls →
  ∃ o, echo_loop (S (length ls)) connfd ws r = Some (o, Returned) ∧ written connfd o = echoed ws ls ∧
    if decide (Piped ∈ ws) then Close connfd ∉ o else last o = Some (Close connfd).
Proof.
  intros Hs. revert ws r. induction Hs as [|l ls Hl _ IH]; intros ws r Hr E Hw; cbn [map concat length] in *.
  { destruct ws; [|done]. rewrite (echo_loop_end 0 connfd [] r t Hr E). eexists. split; [done|]. by split. }
  destruct ws as [|w ws]; [done|]. injection Hw as Hw. rewrite map_app, <- app_assoc in E.
  destruct (echo_loop_line (S (length ls)) connfd (w :: ws) r l _ Hr Hl E) as (r1 & Ht & Hr1 & ->).
  destruct w as [k| |].
  - destruct (IH ws r1 Hr1 Ht Hw) as (o & -> & Hwr & Hcl). cbn [mbind option_bind]. eexists. split; [done|].
    split; [unfold written in *; cbn [flat_map app line_shown]; by rewrite Z.eqb_refl, Hwr|].
    assert (Piped ∈ Accepted k :: ws ↔ Piped ∈ ws) as Hp by set_solver.
    destruct (decide (Piped ∈ ws)) as [Hin|Hin].
    + rewrite decide_True by tauto. by rewrite !not_elem_of_cons.
    + rewrite decide_False by tauto. destruct o; [done|exact Hcl].
  - destruct (IH ws r1 Hr1 Ht Hw) as (o & -> & Hwr & Hcl). cbn [mbind option_bind]. eexists. split; [done|].
    split; [unfold written in *; cbn [flat_map app line_shown]; by rewrite Hwr|].
    assert (Piped ∈ Refused :: ws ↔ Piped ∈ ws) as Hp by set_solver.
    destruct (decide (Piped ∈ ws)) as [Hin|Hin].
    + rewrite decide_True by tauto. by rewrite !not_elem_of_cons.
    + rewrite decide_False by tauto. destruct o; [done|exact Hcl].
  - eexists. split; [done|]. split; [done|]. rewrite decide_True by set_solver.
    unfold sig_pipe. cbn [fst line_shown]. rewrite !not_elem_of_cons. split_and!; [done|done|apply not_elem_of_nil].
Qed.

#[local] Transparent echo_loop.

(** C16: the echo service returns what it was sent.  For a client that sends
    lines of fewer than 4096 bytes and then closes, however its bytes were cut
    into segments and whatever becomes of the thread's writes, the thread ends,
    having written back in order what each write accepted of its line, up to the
    first that finds the connection broken: there SIGPIPE ends the thread without
    closing the connection; without such a one it closes the connection last.  If
    every write is accepted in full, exactly the bytes received are written back. *)
Theorem echo_exact connfd ls ws r t :
  Forall short ls → reads_ok r → tape r = map TByte (concat (map with_newline ls)) ++ TEof :: t →
  length ws = length ls →
  ∃ o, echo_loop (S (length ls)) connfd ws r = Some (o, Returned) ∧
    written connfd o = echoed ws ls ∧
    (Piped ∈ ws → Close connfd ∉ o) ∧ (Piped ∉ ws → last o = Some (Close connfd)) ∧
    (Forall2 in_full ws ls → written connfd o = concat (map with_newline ls) ∧ last o = Some (Close connfd)).
Proof.
  intros Hs Hr E Hw. destruct (echo_loop_lines connfd ls ws r t Hs Hr E Hw) as (o & Hloop & Hwr & Hcl).
  exists o. split; [done|]. split; [done|]. split; [intros Hp; by rewrite decide_True in Hcl|].
  split; [intros Hp; by rewrite decide_False in Hcl|]. intros Hf. split; [by rewrite Hwr, echoed_in_full|].
  rewrite decide_False in Hcl; [done|]. intros Hp. apply list_elem_of_lookup_1 in Hp as [i Hi].
  destruct (Forall2_lookup_l _ _ _ _ _ Hf Hi) as (l & _ & Hl). discriminate Hl.
Qed.

(** A line of 4095 bytes or more comes back altered: [readline] counts one
    byte more than it read, so a NUL that was not in the stream is echoed after
    the first 4095 bytes. *)
Theorem echo_long_line_adds_nul fuel connfd ws r l t :
  reads_ok r → newline ∉ l → length l = 4095%nat → tape r = map TByte l ++ t →
  ∃ r', tape r' = t ∧
    echo_loop (S fuel) connfd (Accepted MAXBUF :: ws) r =
      ('(o, e) ← echo_loop fuel connfd ws r';
       Some (line_shown l :: Write connfd (l ++ [NUL]) :: o, e)).
Proof.
  intros Hr Hl Hlen E.
  destruct (readline_full MAXBUF r l t Hr Hl ltac:(vm_compute; lia) Hlen E) as (r' & Hread & Ht & _).
  exists r'. split; [done|]. cbn [echo_loop]. rewrite Hread. clear Hread E.
  change (Z.of_nat MAXBUF <? 0) with false. change (Z.of_nat MAXBUF =? 0) with false. cbv iota.
  rewrite take_take, Nat2Z.id, Nat.min_id, firstn_all2; [done|]. rewrite length_app, Hlen. vm_compute. lia.
Qed.

(** ** The echo client *)

(** Readers whose buffer, or next [read], is a whole line. *)
Lemma readline_buffered rs k n line rb :
  (length rb ≤ k)%nat → newline ∉ removelast rb → last rb = Some newline →
  readline_loop k n line (mk_reader rb rs) =
    Some (n + Z.of_nat (length rb) - 1, line ++ rb, mk_reader [] rs).
Proof.
  revert n line rb. induction k as [|k IH]; intros n line rb Hk Hnl Hlast; destruct rb as [|c rb]; try done; [cbn in Hk; lia|].
  cbn [readline_loop my_read read_buf fd_reads]. destruct rb as [|c' rb].
  - cbn in Hlast. injection Hlast as ->. rewrite bool_decide_eq_true_2 by done. do 3 f_equal. cbn. lia.
  - cbn [removelast] in Hnl. apply not_elem_of_cons in Hnl as [Hc Hnl].
    rewrite bool_decide_eq_false_2 by done. cbn [length] in Hk.
    rewrite (IH (n + 1) (line ++ [c]) (c' :: rb)) by (done || (cbn [length]; lia)).
    rewrite <- app_assoc. cbn [app length]. do 3 f_equal. lia.
Qed.

(** A first [read] into the empty buffer. *)
Lemma readline_loop_refill k n line d rs :
  d ≠ [] → (length d ≤ MAXBUF)%nat →
  readline_loop (S k) n line (mk_reader [] (RData d :: rs)) = readline_loop (S k) n line (mk_reader d rs).
Proof.
  intros Hd Hl. cbn [readline_loop my_read read_buf fd_reads refill].
  rewrite firstn_all2 by done. by destruct d.
Qed.

Lemma readline_chunk maxlen l rs :
  newline ∉ l → (length l + 1 < maxlen)%nat → (length l + 1 ≤ MAXBUF)%nat →
  readline maxlen (mk_reader [] (RData (with_newline l) :: rs)) =
    Some (Z.of_nat (length l) + 1, with_newline l, mk_reader [] rs).
Proof.
  intros Hl Hm Hb.
  assert (length (with_newline l) = (length l + 1)%nat) as Hlen by (unfold with_newline; by rewrite length_app).
  unfold readline. destruct (maxlen - 1)%nat as [|k] eqn:Hk; [lia|].
  rewrite readline_loop_refill; [|by destruct l|by rewrite Hlen].
  rewrite readline_buffered; [|lia|by unfold with_newline; rewrite removelast_last|by apply last_snoc].
  cbn [app]. do 3 f_equal. lia.
Qed.

Lemma readline_short l rs :
  short l → readline MAXBUF (mk_reader [] (RData (with_newline l) :: rs)) =
    Some (Z.of_nat (length l) + 1, with_newline l, mk_reader [] rs).
Proof. intros [Hl Hs]. apply readline_chunk; [done..|]. apply Nat.lt_le_incl. exact Hs. Qed.

Lemma from_user_line parent sockfd l sr ur :
  short l →
  echo_from_user parent sockfd (mk_echo_cli [] sr (RData (with_newline l) :: ur)) =
    ([note parent (str "[Feedback][Echo][Client]: Data sent to server!" ++ [newline]);
      Write sockfd (with_newline l)], mk_echo_cli [] sr ur, None).
Proof.
  intros Hl. unfold echo_from_user. cbn [shared_buf stdin_reads]. rewrite (readline_short l ur Hl).
  cbn [read_buf fd_reads sock_reads].
  rewrite (proj2 (Z.ltb_ge _ 0)), (proj2 (Z.eqb_neq _ 0)) by lia.
  rewrite take_line; [done|]. unfold with_newline. rewrite length_app. cbn. lia.
Qed.

Lemma from_server_line parent l sr ur :
  short l →
  echo_from_server parent (mk_echo_cli [] (RData (with_newline l) :: sr) ur) =
    ([note parent (str "[Feedback][Echo][Client]: Data received from server of size " ++
                   dec_d (Z.of_nat (length l) + 1) ++ str " bytes!" ++ [newline]);
      Print (str "[Echo][Client] Data received from server : " ++ cstr (with_newline l ++ [NUL]))],
     mk_echo_cli [] sr ur, None).
Proof.
  intros Hl. unfold echo_from_server. cbn [shared_buf sock_reads]. rewrite (readline_short l sr Hl).
  cbn [read_buf fd_reads stdin_reads].
  rewrite (proj2 (Z.ltb_ge _ 0)), (proj2 (Z.eqb_neq _ 0)) by lia. done.
Qed.

(** C36: a line makes the round trip.  The user types a line; the client sends
    it to its socket; the server's thread, whatever the segments the bytes
    arrive in, writes it back with one write, which is accepted; and the client,
    when it then reads the line from its socket, prints it and is ready for the
    next one. *)
Theorem echo_round_trip parent sockfd connfd l sr ur ws r t fuel :
  short l → parent ≠ sockfd → reads_ok r →
  ∃ o1 s1,
    echo_turn parent sockfd false true
      (mk_echo_cli [] (RData (with_newline l) :: sr) (RData (with_newline l) :: ur)) = (o1, s1, None) ∧
    (tape r = map TByte (written sockfd o1) ++ t →
     ∃ r' o2, tape r' = t ∧ written connfd o2 = with_newline l ∧
       echo_loop (S fuel) connfd (Accepted (length (with_newline l)) :: ws) r =
         ('(o, e) ← echo_loop fuel connfd ws r'; Some (o2 ++ o, e))) ∧
    ∃ o3, echo_turn parent sockfd true false s1 = (o3, mk_echo_cli [] sr ur, None) ∧
      last o3 = Some (Print (str "[Echo][Client] Data received from server : " ++ cstr (with_newline l ++ [NUL]))).
Proof.
  intros Hl Hp Hr. eexists _, _. split.
  { unfold echo_turn. rewrite (from_user_line parent sockfd l _ ur Hl). reflexivity. }
  split.
  - intros E. unfold written in E. cbn [app flat_map note] in E.
    rewrite (proj2 (Z.eqb_neq parent sockfd) Hp), Z.eqb_refl, app_nil_r in E. cbn [app] in E.
    destruct (echo_loop_line fuel connfd (Accepted (length (with_newline l)) :: ws) r l t Hr Hl E) as (r' & Ht & _ & Hloop).
    rewrite firstn_all2 in Hloop by lia.
    exists r', [line_shown (with_newline l); Write connfd (with_newline l)]. split; [exact Ht|]. split; [|exact Hloop]. unfold written. cbn [flat_map app]. by rewrite Z.eqb_refl, app_nil_r.
  - eexists. split.
    { unfold echo_turn. rewrite (from_server_line parent l sr ur Hl). reflexivity. }
    reflexivity.
Qed.

(** The client's two sources share one buffer.  Two lines that arrive in
    one segment are read together, and only the first is printed; the second is
    then taken for the user's next input and sent back to the server. *)
Theorem echo_client_mixes_streams parent sockfd a b :
  a ≠ newline → b ≠ newline →
  ∃ o1 s1 o2 s2,
    echo_turn parent sockfd true false
      (mk_echo_cli [] [RData [a; newline; b; newline]] [RData (str "typed" ++ [newline])]) = (o1, s1, None) ∧
    echo_turn parent sockfd false true s1 = (o2, s2, None) ∧
    last o2 = Some (Write sockfd [b; newline]) ∧ stdin_reads s2 = [RData (str "typed" ++ [newline])].
Proof.
  intros Ha Hb. eexists _, _, _, _.
  unfold echo_turn, echo_from_server, echo_from_user, readline.
  replace (MAXBUF - 1)%nat with (S (S (MAXBUF - 3))) by reflexivity. generalize (MAXBUF - 3)%nat. intros k.
  cbn [shared_buf sock_reads stdin_reads].
  rewrite (readline_loop_refill (S k)) by (done || (vm_compute; lia)).
  cbn [readline_loop my_read read_buf fd_reads]. rewrite (bool_decide_eq_false_2 (a = newline)) by done.
  rewrite (bool_decide_eq_true_2 (newline = newline)) by done. split; [reflexivity|].
  cbn [shared_buf sock_reads stdin_reads readline_loop my_read read_buf fd_reads].
  rewrite (bool_decide_eq_false_2 (b = newline)) by done.
  rewrite (bool_decide_eq_true_2 (newline = newline)) by done. split; [reflexivity|]. split; reflexivity.
Qed.

(** ** Handing connections over *)

(** Every accepted connection is served by a thread of its own, provided
    each thread starts to run before the next connection is accepted; the
    program does nothing to ensure it. *)
Theorem connections_served fds h :
  waiting h = 0%nat → Forall (λ fd, fd ≠ -1) fds →
  ∃ h', srv_run (flat_map (λ fd, [Accept fd; ThreadStarts]) fds) h = Some h' ∧
    served h' = rev fds ++ served h ∧ waiting h' = 0%nat.
Proof.
  intros Hw Hf. revert h Hw. induction Hf as [|fd fds Hfd _ IH]; intros h Hw; cbn [flat_map app srv_run srv_turn]; [by exists h|].
  rewrite (proj2 (Z.eqb_neq fd (-1)) Hfd). cbn [mbind option_bind].
  cbn [srv_turn waiting served connfd_var mbind option_bind]. rewrite Hw.
  destruct (IH (mk_handover fd 0 (fd :: served h)) eq_refl) as (h' & E & Hs & Hw').
  exists h'. split; [exact E|]. split; [|done]. rewrite Hs. cbn [served rev]. by rewrite <- app_assoc.
Qed.

(** The hand-over races.  If a second connection is accepted before the
    first one's thread has read the variable, both threads serve the second
    connection and nobody the first. *)
Theorem connection_race a b h :
  a ≠ -1 → b ≠ -1 → waiting h = 0%nat → served h = [] →
  ∃ h', srv_run [Accept a; Accept b; ThreadStarts; ThreadStarts] h = Some h' ∧ served h' = [b; b].
Proof.
  intros Ha Hb Hw Hs. cbn [srv_run srv_turn]. rewrite (proj2 (Z.eqb_neq a (-1)) Ha). cbn [mbind option_bind srv_turn].
  rewrite (proj2 (Z.eqb_neq b (-1)) Hb). cbn [mbind option_bind srv_turn waiting served connfd_var]. rewrite Hw, Hs.
  by eexists.
Qed.

(** ** The menu *)

Lemma typed_prefix l word :
  no_nul l → no_nul word → typed (l ++ [newline]) word = bool_decide (l `prefix_of` word).
Proof.
  intros Hl Hw. assert (cstr (l ++ [newline]) = l ++ [newline]) as Ec.
  { apply cstr_id. unfold no_nul in *. rewrite not_elem_of_app. split; [done|]. by intros H%list_elem_of_singleton. }
  assert (typed (l ++ [newline]) word = strneq (l ++ [newline]) word (length (l ++ [newline]) - 1)) as ->.
  { unfold typed. rewrite Ec. by destruct l. }
  unfold strneq. rewrite Ec, (cstr_id word Hw). rewrite length_app, Nat.add_sub, take_app_length.
  apply bool_decide_ext. split.
  - intros H. exists (drop (length l) word). rewrite H at 1. by rewrite take_drop.
  - intros [k ->]. by rewrite take_app_length.
Qed.

(** What the menu takes for "quit".  A line ends the program exactly if it
    is a beginning of the word, the empty line included; "echo" and "time" are
    recognised by their beginnings in the same way. *)
Theorem menu_prefixes l :
  no_nul l →
  (command_of (l ++ [newline]) = Quit ↔ l `prefix_of` str "quit") ∧
  (command_of (l ++ [newline]) = StartEcho ↔ l ≠ [] ∧ l `prefix_of` str "echo") ∧
  (command_of (l ++ [newline]) = StartTime ↔ l ≠ [] ∧ l `prefix_of` str "time").
Proof.
  intros Hl. unfold command_of.
  rewrite !typed_prefix by (done || by apply (bool_decide_unpack (no_nul _))).
  assert (∀ w1 w2, List.hd_error w1 ≠ List.hd_error w2 → l `prefix_of` w1 → l `prefix_of` w2 → l = []) as Hd.
  { intros w1 w2 Hne [k1 ->] [k2 ->]. destruct l as [|c l']; [done|]. by destruct Hne. }
  pose proof (Hd (str "quit") (str "echo") ltac:(discriminate)) as Hqe.
  pose proof (Hd (str "quit") (str "time") ltac:(discriminate)) as Hqt.
  pose proof (Hd (str "echo") (str "time") ltac:(discriminate)) as Het.
  assert (l = [] → l `prefix_of` str "quit") as Hnil by (intros ->; apply prefix_nil).
  assert (Quit ≠ StartEcho ∧ Quit ≠ StartTime ∧ StartEcho ≠ StartTime ∧
          Nothing ≠ Quit ∧ Nothing ≠ StartEcho ∧ Nothing ≠ StartTime) as Hc by (split_and!; discriminate).
  destruct (bool_decide_reflect (l `prefix_of` str "quit"));
    [|destruct (bool_decide_reflect (l `prefix_of` str "echo"));
      [|destruct (bool_decide_reflect (l `prefix_of` str "time"))]]; intuition congruence.
Qed.

(** ** The time service *)

Definition stamp (ctime : bytes) : bytes := take 24 (cstr ctime) ++ [x0d; newline].
(** What the time server writes. *)
Definition blocks (os : list io) : list bytes :=
  omap (λ o, match o with Write _ d => Some d | _ => None end) os.
(** The lines a client prints. *)
Definition printed (os : list io) : list bytes :=
  omap (λ o, match o with Print l => Some l | _ => None end) os.

Lemma stamp_no_nul ctime : no_nul (stamp ctime).
Proof.
  unfold stamp, no_nul. rewrite not_elem_of_app. split.
  - intros H%elem_of_take. destruct H as (i & Hi & _). apply (cstr_no_nul ctime). by eapply list_elem_of_lookup_2.
  - rewrite !not_elem_of_cons. split_and!; [done|done|apply not_elem_of_nil].
Qed.

Lemma stamp_length ctime : (length (stamp ctime) ≤ 26)%nat.
Proof. unfold stamp. rewrite length_app, length_take. cbn [length]. lia. Qed.

Lemma time_loop_run connfd buf turns :
  (26 < length buf)%nat → Forall (λ t : bytes * wrote, t.2 = Accepted (length buf)) turns →
  ∃ bufs, time_loop connfd buf turns = Some (map (Write connfd) bufs, Blocked) ∧
    Forall2 (λ b (t : bytes * wrote), length b = length buf ∧ cstr b = stamp t.1) bufs turns.
Proof.
  revert buf. induction turns as [|[c n] turns IH]; intros buf Hb Ht; cbn [time_loop].
  - by exists [].
  - apply Forall_cons in Ht as [Hn Ht]. cbn in Hn. subst n. fold (stamp c). destruct (strcpy_room buf (stamp c)) as (b & E & L & C).
    { rewrite (cstr_id _ (stamp_no_nul c)). pose proof (stamp_length c). lia. }
    rewrite E. cbn [mbind option_bind].
    destruct (IH b ltac:(by rewrite L) ltac:(by rewrite L)) as (bufs & -> & Hall). exists (b :: bufs).
    destruct (length buf) as [|k] eqn:Hk; [lia|]. rewrite firstn_all2 by lia. split; [done|]. constructor.
    + split; [done|]. rewrite C. apply cstr_id, stamp_no_nul.
    + eapply Forall2_impl; [exact Hall|]. intros b' t [Hl Hc]. rewrite Hl, L. by split.
Qed.

Lemma time_server_run parent bufs :
  Forall (λ b, b ≠ [] ∧ (length b ≤ MAXBUF)%nat) bufs →
  ∃ o, time_server parent (map RData bufs ++ [RData []]) = (o, Returned) ∧
    printed o = map (λ b, str "[Client][Time]: " ++ cstr b) bufs.
Proof.
  induction 1 as [|b bufs [Hne Hb] _ (o & E & Hp)]; cbn [map app time_server].
  - eexists. split; [reflexivity|done].
  - destruct b as [|c b]; [done|]. rewrite E. eexists. split; [reflexivity|].
    rewrite firstn_all2 by done. cbn [printed omap list_omap note]. f_equal. exact Hp.
Qed.

(** The times arrive.  Every turn of the time server writes one array of
    4096 bytes that starts with the stamp of the time; a client that reads the
    arrays one by one prints the stamps, each once and in order. *)
Theorem time_stamps_arrive connfd parent turns :
  Forall (λ t : bytes * wrote, t.2 = Accepted MAXBUF) turns →
  ∃ o o', time_server_thread connfd turns = Some (o, Blocked) ∧
    Forall (λ b, length b = MAXBUF) (blocks o) ∧
    time_server parent (map RData (blocks o) ++ [RData []]) = (o', Returned) ∧
    printed o' = map (λ t : bytes * wrote, str "[Client][Time]: " ++ stamp t.1) turns.
Proof.
  intros Ht. unfold time_server_thread.
  assert (length (zeros MAXBUF) = MAXBUF) as Hz by apply length_zeros.
  destruct (time_loop_run connfd (zeros MAXBUF) turns) as (bufs & E & Hall); [rewrite Hz; vm_compute; lia|by rewrite Hz|].
  rewrite Hz in Hall. clear Hz.
  assert (blocks (map (Write connfd) bufs) = bufs) as Hbl.
  { clear. unfold blocks. induction bufs as [|b bufs IH]; [done|]. cbn. by f_equal. }
  assert (Forall (λ b, length b = MAXBUF) bufs) as Hlen.
  { eapply Forall2_Forall_l; [exact Hall|]. apply Forall_forall. intros t _ b [H _]. exact H. }
  destruct (time_server_run parent bufs) as (o' & E' & Hp).
  { eapply Forall_impl; [exact Hlen|]. intros b Hb. split; [|by rewrite Hb]. intros ->. discriminate Hb. }
  eexists _, o'. split; [exact E|]. rewrite Hbl. split; [exact Hlen|]. split; [exact E'|].
  rewrite Hp. clear -Hall. induction Hall as [|b t bufs turns [_ Hc] _ IH]; cbn [map]; [done|].
  by rewrite Hc, IH.
Qed.

(** ** Witnesses *)

Lemma short_ab : short (str "ab").
Proof. split; [by apply (bool_decide_unpack (newline ∉ str "ab"))|vm_compute; lia]. Qed.

Definition client_sends : reader :=
  mk_reader [] [RData (str "a"); RIntr; RData (str "b" ++ [newline]); RData []].
Lemma client_sends_ok : reads_ok client_sends.
Proof. repeat (apply Forall_cons_2; [first [exact I | vm_compute; lia]|]). apply Forall_nil_2. Qed.

Lemma echo_exact_witness : ∃ o o',
  echo_loop 2 4 [Accepted 3] client_sends = Some (o, Returned) ∧ written 4 o = str "ab" ++ [newline] ∧
  echo_loop 2 4 [Piped] client_sends = Some (o', Returned) ∧ Close 4 ∉ o'.
Proof.
  destruct (echo_exact 4 [str "ab"] [Accepted 3] client_sends [] (Forall_cons_2 _ _ _ short_ab (Forall_nil_2 _)) client_sends_ok
    eq_refl eq_refl) as (o & H1 & H2 & _).
  destruct (echo_exact 4 [str "ab"] [Piped] client_sends [] (Forall_cons_2 _ _ _ short_ab (Forall_nil_2 _)) client_sends_ok
    eq_refl eq_refl) as (o' & H3 & _ & H4 & _).
  exists o, o'. split; [exact H1|]. split; [exact H2|]. split; [exact H3|]. apply H4. left.
Defined.

Definition many_as : bytes := replicate 4095 x61.
Lemma echo_long_line_adds_nul_witness : ∃ r',
  tape r' = [TEof] ∧
  echo_loop 1 4 [Accepted MAXBUF] (mk_reader many_as [RData []]) =
    ('(o, e) ← echo_loop 0 4 [] r'; Some (Write 4 (many_as ++ [NUL]) :: o, e)).
Proof.
  destruct (echo_long_line_adds_nul 0 4 [] (mk_reader many_as [RData []]) many_as [TEof]) as (r' & H1 & H2).
  - apply Forall_cons_2; [vm_compute; lia|apply Forall_nil_2].
  - intros H. apply elem_of_replicate in H as [H _]. discriminate H.
  - apply length_replicate.
  - reflexivity.
  - exists r'. split; [exact H1|]. rewrite H2. reflexivity.
Defined.

Lemma echo_round_trip_witness : ∃ o1 s1,
  echo_turn 7 3 false true
    (mk_echo_cli [] [RData (with_newline (str "ab"))] [RData (with_newline (str "ab"))]) = (o1, s1, None) ∧
  ∃ o3, echo_turn 7 3 true false s1 = (o3, mk_echo_cli [] [] [], None).
Proof.
  destruct (echo_round_trip 7 3 4 (str "ab") [] [] [] client_sends [TEof] 0 short_ab ltac:(discriminate) client_sends_ok)
    as (o1 & s1 & H1 & _ & o3 & H3 & _).
  exists o1, s1. split; [exact H1|]. exists o3. exact H3.
Defined.

Lemma echo_client_mixes_streams_witness : ∃ o1 s1 o2 s2,
  echo_turn 7 3 true false
    (mk_echo_cli [] [RData [x61; newline; x62; newline]] [RData (str "typed" ++ [newline])]) = (o1, s1, None) ∧
  echo_turn 7 3 false true s1 = (o2, s2, None) ∧ last o2 = Some (Write 3 [x62; newline]).
Proof.
  destruct (echo_client_mixes_streams 7 3 x61 x62 ltac:(discriminate) ltac:(discriminate))
    as (o1 & s1 & o2 & s2 & H1 & H2 & H3 & _).
  exists o1, s1, o2, s2. split; [exact H1|]. split; [exact H2|exact H3].
Defined.

Lemma connections_served_witness : ∃ h',
  srv_run (flat_map (λ fd, [Accept fd; ThreadStarts]) [5; 6]) (mk_handover 0 0 []) = Some h' ∧ served h' = [6; 5].
Proof.
  destruct (connections_served [5; 6] (mk_handover 0 0 []) eq_refl) as (h' & H1 & H2 & _).
  - repeat (apply Forall_cons_2; [lia|]). apply Forall_nil_2.
  - exists h'. split; [exact H1|exact H2].
Defined.

Lemma connection_race_witness : ∃ h',
  srv_run [Accept 5; Accept 6; ThreadStarts; ThreadStarts] (mk_handover 0 0 []) = Some h' ∧ served h' = [6; 6].
Proof. apply connection_race; [lia|lia|reflexivity|reflexivity]. Defined.

Lemma menu_prefixes_witness : command_of (str "qui" ++ [newline]) = Quit.
Proof.
  apply (menu_prefixes (str "qui")).
  - by apply (bool_decide_unpack (no_nul (str "qui"))).
  - by exists (str "t").
Defined.

Lemma time_stamps_arrive_witness : ∃ o o',
  time_server_thread 4 [(str "Mon Jan  1 00:00:00 2024", Accepted MAXBUF)] = Some (o, Blocked) ∧
  time_server 7 (map RData (blocks o) ++ [RData []]) = (o', Returned) ∧
  printed o' = [str "[Client][Time]: Mon Jan  1 00:00:00 2024" ++ [x0d; newline]].
Proof.
  destruct (time_stamps_arrive 4 7 [(str "Mon Jan  1 00:00:00 2024", Accepted MAXBUF)]) as (o & o' & H1 & _ & H2 & H3).
  - apply Forall_cons_2; [done|apply Forall_nil_2].
  - exists o, o'. split; [exact H1|]. split; [exact H2|exact H3].
Defined.
