(* ===== verification/Display.v ===== *)
(** * What the programs print about their state

    The texts of hw3/common.c and hw4 (headers, routing table, cache,
    messages) and of the two programs that list interfaces
    (hw3/prhwaddrs.c, hw2/prifinfo_plus.c). *)

From Stdlib Require Import Strings.Byte.
From S2P Require Import Prelude.
From S2P Require Import CMem.
From S2P Require Import CText.
From S2P Require Import Inet.
From S2P Require Import Interfaces.
From S2P Require Import OdrMsg.
From S2P Require Import OdrTable.
From S2P Require Import Arp.

Definition nl : bytes := [x0a].
Definition tab : bytes := [x09].

(** A digit of [%x], and [%.2x] of a byte. *)
Definition hex_digit (d : Z) : byte := byte.of_Z (if d <? 10 then 48 + d else 87 + d).
Definition hex2 (b : byte) : bytes :=
  [hex_digit (byte.unsigned b / 16); hex_digit (byte.unsigned b mod 16)].

(** [display_mac_addr]: after the last byte a blank, after the others a colon. *)
Fixpoint mac_loop (i : nat) (mac : bytes) : bytes :=
  match i, mac with
  | S i, b :: mac => hex2 b ++ (if (i =? 0)%nat then str " " else str ":") ++ mac_loop i mac
  | _, _ => []
  end.
Definition display_mac_addr (mac : bytes) : bytes := mac_loop IF_HADDR mac.

(** [display_header] *)
Definition display_header (h : frame_head) : bytes :=
  str "Src Ip = " ++ cstr (OdrMsg.src_ip h) ++ str " " ++ tab ++
  str "Dest Ip = " ++ cstr (dest_ip h) ++ str " " ++ tab ++
  str "HOPS = " ++ dec_d (hop_count h) ++ str " " ++ tab ++
  (if type h =? rreq then str "RREQ" ++ nl else []) ++
  (if type h =? rrep then str "RREP" ++ nl else []) ++
  (if type h =? payload_req then str "Payload Request" ++ nl else []) ++
  (if type h =? payload_resp then str "Payload Response" ++ nl else []).

(** [display_routing_table] *)
Definition row_text (r : routing_table_row) : bytes :=
  cstr (row_dest_ip r) ++ tab ++ tab ++ dec_d (row_hop_count r) ++ tab ++ dec_d (row_ts r) ++ tab ++ tab ++
  display_mac_addr (next_hop_mac r) ++ tab ++ tab ++ dec_d (row_broadcast_id r) ++ nl.
Definition display_routing_table (currhostname : bytes) (t : routing_table) : bytes :=
  str "[" ++ currhostname ++ str "] Displaying Routing Table----" ++ nl ++
  str "[" ++ currhostname ++ str "] Dest Ip" ++ tab ++ tab ++ tab ++ str "Hops" ++ tab ++ str "TS" ++ tab ++ tab ++
  tab ++ str "Next Hop" ++ tab ++ tab ++ tab ++ str "B ID" ++ nl ++
  flat_map (λ r, if negb (is_filled r =? 0) then row_text r else []) t ++
  str "------------xxx------------" ++ nl ++ nl.

(** [display_cache]: up to the first entry that is not filled. *)
Definition entry_text (i : nat) (e : arp_cache_details) : bytes :=
  str "(" ++ dec_d (Z.of_nat i + 1) ++ str ")" ++ nl ++
  str "IP         : " ++ cstr (ip e) ++ nl ++
  str "HW         : " ++ display_mac_addr (mac e) ++ nl ++
  str "Ifindex    : " ++ dec_d (index e) ++ nl ++
  str "Waiting Fd : " ++ dec_d (fd e) ++ nl ++ nl.
Fixpoint cache_loop (i : nat) (c : list arp_cache_details) : bytes :=
  match c with
  | [] => []
  | e :: c => if filled e =? 1 then entry_text i e ++ cache_loop (S i) c else []
  end.
Definition display_cache (s : arp) : bytes :=
  nl ++ str "Cache contents on " ++ cstr (Arp.src_ip s) ++ nl ++ cache_loop 0 (arp_cache s).

(** [println] and [print_arp] *)
Definition println : bytes := replicate 63 x2a ++ nl.
Definition print_arp (curr_vm : bytes) (a : arp_req_reply) : bytes :=
  println ++
  (if op a =? 1 then tab ++ str " Ethernet frame header and ARP request on " ++ curr_vm ++ tab ++ nl
   else tab ++ str " Ethernet frame header and ARP reply on " ++ curr_vm ++ tab ++ nl) ++
  println ++
  str "eth_dest       : " ++ display_mac_addr (eth_dest a) ++
  nl ++ str "eth_src        : " ++ display_mac_addr (eth_src a) ++
  nl ++ str "frame_type     : " ++ dec_d (frame_type a) ++ nl ++
  str "hard_type      : " ++ dec_d (hard_type a) ++ nl ++
  str "prot_type      : " ++ dec_d (prot_type a) ++ nl ++
  str "hard_size      : " ++ dec_d (hard_size a) ++ nl ++
  str "prot_size      : " ++ dec_d (prot_size a) ++ nl ++
  str "op             : " ++ dec_d (op a) ++ nl ++
  str "sender_eth     : " ++ display_mac_addr (sender_eth a) ++
  nl ++ str "sender_ip      : " ++ cstr (sender_ip a) ++ nl ++
  str "target_eth     : " ++ display_mac_addr (target_eth a) ++
  nl ++ str "target_ip      : " ++ cstr (target_ip a) ++ nl ++
  str "identification : " ++ cstr (identification a) ++ nl ++ println.

(** hw3/prhwaddrs.c: the text for one interface. *)
Definition has_hw (h : hwa_info) : bool := existsb (λ b, negb (bool_decide (b = NUL))) (if_haddr h).
Definition hwa_text (h : hwa_info) : bytes :=
  cstr (if_name h) ++ str " :" ++ (if ip_alias h =? IP_ALIAS then str " (alias)" ++ nl else nl) ++
  str "         IP addr = " ++ quad_text (slice 4 4 (hwa_ip_addr h)) ++ nl ++
  (if has_hw h then str "         HW addr = " ++ mac_loop IF_HADDR (if_haddr h) else []) ++
  nl ++ str "         interface index = " ++ dec_d (if_index h) ++ nl ++ nl.
Definition prhwaddrs (hwas : list hwa_info) : bytes := nl ++ flat_map hwa_text hwas.

(** hw2/prifinfo_plus.c: the arguments, [None] for the usage errors, and the
    text for one interface. *)
Definition IFF_MULTICAST : Z := 4096.
Definition IFF_LOOPBACK : Z := 8.
Definition prifinfo_args (argv : list bytes) : option Z :=
  match argv with
  | [_; family; doaliases] => if streq family (str "inet4") then Some (atoi doaliases) else None
  | _ => None
  end.
Definition flag_text (flags bit : Z) (name : bytes) : bytes :=
  if negb (Z.land flags bit =? 0) then name else [].
Definition addr_text (title : bytes) (sa : option bytes) : bytes :=
  match sa with
  | Some sa => title ++ quad_text (slice 4 4 sa) ++ nl
  | None => []
  end.
Definition ifi_text (i : ifi_info) : bytes :=
  cstr (ifi_name i) ++ str ": " ++ str "<" ++
  flag_text (ifi_flags i) IFF_UP (str "UP ") ++ flag_text (ifi_flags i) IFF_BROADCAST (str "BCAST ") ++
  flag_text (ifi_flags i) IFF_MULTICAST (str "MCAST ") ++ flag_text (ifi_flags i) IFF_LOOPBACK (str "LOOP ") ++
  flag_text (ifi_flags i) IFF_POINTOPOINT (str "P2P ") ++ str ">" ++ nl ++
  (if negb (ifi_mtu i =? 0) then str "  MTU: " ++ dec_d (ifi_mtu i) ++ nl else []) ++
  addr_text (str "  IP addr: ") (ifi_addr i) ++ addr_text (str "  network mask: ") (ifi_ntmaddr i) ++
  addr_text (str "  broadcast addr: ") (ifi_brdaddr i) ++ addr_text (str "  destination addr: ") (ifi_dstaddr i).
Definition prifinfo_plus (ifis : list ifi_info) : bytes := flat_map ifi_text ifis.

(** ** Reading a hardware address back *)

Definition hex_val (b : byte) : option Z :=
  let n := byte.unsigned b in
  if (48 <=? n) && (n <? 58) then Some (n - 48)
  else if (97 <=? n) && (n <? 103) then Some (n - 87) else None.

(** Two digits and a separator for each byte. *)
Fixpoint read_mac (t : bytes) : option bytes :=
  match t with
  | [] => Some []
  | a :: b :: _ :: t =>
      x ← hex_val a; y ← hex_val b; rest ← read_mac t; Some (byte.of_Z (16 * x + y) :: rest)
  | _ => None
  end.

Lemma hex_val_digit d : 0 <= d < 16 → hex_val (hex_digit d) = Some d.
Proof.
  intros H. assert (d ∈ seqZ 0 16) as Hd by (apply elem_of_seqZ; lia). clear H. revert d Hd.
  apply Forall_forall. apply (bool_decide_unpack _). by vm_compute.
Qed.

Lemma read_mac_loop i m : length m = i → read_mac (mac_loop i m) = Some m.
Proof.
  revert m. induction i as [|i IH]; intros [|b m] Hl; try done. injection Hl as Hl.
  cbn [mac_loop hex2 app].
  assert (∃ s, (if (i =? 0)%nat then str " " else str ":") = [s]) as [s ->] by (destruct (i =? 0)%nat; by eexists).
  cbn [app read_mac].
  pose proof (byte.unsigned_range b) as Hb. change (2 ^ 8) with 256 in Hb.
  rewrite !hex_val_digit by (first [split; [apply Z.div_pos; lia|apply Z.div_lt_upper_bound; lia] | apply Z.mod_pos_bound; lia]).
  cbn [mbind option_bind]. rewrite IH by done. cbn [mbind option_bind].
  rewrite <- Z.div_mod by lia. by rewrite byte.of_Z_unsigned.
Qed.

(** What the programs print of a hardware address determines it: the text
    of six bytes is eighteen characters from which they can be read back. *)
Theorem mac_text_roundtrip m :
  length m = IF_HADDR → read_mac (display_mac_addr m) = Some m ∧ length (display_mac_addr m) = 18%nat.
Proof.
  intros Hl. split; [by apply read_mac_loop|].
  destruct m as [|b1 [|b2 [|b3 [|b4 [|b5 [|b6 [|]]]]]]]; try done.
Qed.

Lemma mac_text_roundtrip_witness :
  display_mac_addr (map byte.of_Z [0; 12; 41; 171; 255; 1]) = str "00:0c:29:ab:ff:01 " ∧
  read_mac (str "00:0c:29:ab:ff:01 ") = Some (map byte.of_Z [0; 12; 41; 171; 255; 1]).
Proof. split; [reflexivity|]. apply (mac_text_roundtrip (map byte.of_Z [0; 12; 41; 171; 255; 1])). reflexivity. Defined.
